(* ===== verification/_CoqProject ===== *)
-Q . S2P
Prelude.v
CMem.v
Heap.v
TaLog.v
UteeVfs.v
MemFile.v
TeeVfs.v
HostVfs.v
HostSim.v
HostProps.v
Protocol.v
KernelVfs.v
VfsSafe.v
SuppShm.v
SuppVfs.v
SuppSafe.v
SuppLoop.v
SuppRace.v
Transport.v
Loopback.v
Forward.v
Session.v
Calls.v
TaPath.v
SuppStart.v
BootExamples.v
TaEntry.v
HostMain.v
HashMap.v
HashOwn.v
MapLife.v
Gp.v
Pair.v
Codec.v
Frame.v
CodecPage.v
CodecTags.v
CodecSave.v
CodecExamples.v
CodecTrust.v
Scall.v
CodecExt.v
ExtExamples.v
TaKey.v
CodecPager.v
