(* ===== verification/Prelude.v ===== *)
(** * SQLite in a trusted application: a verification development

The repository runs SQLite inside an OP-TEE trusted application.  The database
files live in the normal world, so every file operation of SQLite crosses three
programs:

- the trusted application (optee_examples/tee_sqilte/ta/): SQLite calls the VFS of
  tee_vfs.c, which buffers the journal and calls the functions utee_vfs_* of
  libutee; pages are encrypted by codec.c, which keeps one authentication tag per
  page in the hash map of hashmap.c;
- the kernel (optee_os/core/tee/tee_sqlite.c): each syscall_vfs_* marshals its
  arguments into the parameters of a remote procedure call and the answer back;
- the supplicant (optee_client/tee-supplicant/tee_supplicant.c), a process of the
  normal world: it receives requests, dispatches them to the functions vfs_* and
  calls the operating system.

** Files

- [Prelude]: the monad of C computations, machine integers, bytes.
- [CMem]: memory as a set of live blocks; pointers may dangle.  [Heap]: programs
  that use a memory beside a world, what they leave alone in it, and lists of
  pointers that can be freed.  [TaLog]: what the application's logging reads.
- [Calls]: programs over a world that only answers calls, the record of the calls
  of a run, and programs that may end early.
- [UteeVfs]: the interface between the VFS and the world below it, the class
  [UteeVfs] with the laws [FileLaws]; [MemFile] is a concrete file system.
- [TeeVfs]: ta/tee_vfs.c, every method of the VFS.
- [HostVfs]: host/demovfs.c, the normal world's VFS, with its buffers in memory;
  [HostSim] relates its methods to those of [TeeVfs], [HostProps] has the theorems.
- [Protocol]: the operation numbers of the kernel and of the supplicant, the
  result codes, the sizes of the structures that cross.
- [KernelVfs]: core/tee/tee_sqlite.c, the 31 system calls, over the class [Rpc] of
  payload allocation and remote procedure calls.
- [VfsSafe]: the VFS over a kernel whose normal world may answer anything
  ([Answers], [RpcTotal]).
- [SuppShm]: the parameters and shared buffers of tee_supplicant.c, over the class
  [Posix] of operating system calls; allocation, freeing, loading an application.
- [SuppVfs]: the 31 handlers vfs_* and tee_supp_vfs_process; [SuppSafe]: which
  requests they survive, over a [Posix] that keeps within its documented bounds
  ([PosixSizes]).
- [SuppLoop]: receiving, dispatching and answering one request
  (process_one_request, thread_main), and the pool of threads that do so;
  [SuppRace]: those threads between the locked sections that share the buffers.
- [TaPath]: set_ta_path; [SuppStart]: the device, the daemon, the command line and
  main of tee_supplicant.c; [BootExamples]: their witnesses.
- [TaEntry]: ta/tee_sqlite.c, the entry points and the command of the application,
  whatever its [sqlite3_key], and [HostMain]: host/main.c, over interfaces of SQLite
  and of the TEE client library.
- [Transport]: kernel and supplicant put together ([Channel]), and with the VFS on
  top of both; [Loopback] is a concrete host and channel, with the witnesses of
  the supplicant's theorems.  [Forward]: a system call over the whole stack against
  the operating system call it stands for.
- [Session]: the method tables of tee_vfs.c, and sequences of calls through them.
- [HashMap]: ta/hashmap.c; [HashOwn]: the blocks a map owns, freeing and dumping it;
  [MapLife]: sequences of its operations, from creation to deletion.
- [Gp]: the cryptographic functions of the GlobalPlatform API as the class
  [TeeCrypto] with the laws [GpLaws], and a toy cipher; [Pair] puts a file system
  and a cipher side by side.
- [Codec]: ta/codec.c (the GCM build); [Frame]: reasoning about its memory;
  [CodecPage]: what it does to a page; [CodecTags]: what it does to the tags;
  [CodecSave]: saving them; [CodecExamples]: the witnesses; [CodecTrust]: what it
  leaves unchecked, and pages through the VFS.
- [CodecExt]: ta/codecext.c, over the class [Sqlite] of the B-tree and pager
  functions it calls, which call it back: the laws of those that do ([SqliteLaws])
  say nothing unless they return; [ExtExamples]: a small SQLite, and the witnesses;
  [TaKey]: the entry points of [TaEntry] with the [sqlite3_key] of [CodecExt];
  [CodecPager]: what the callback of the pager does to a page, and a SQLite that
  makes it change a key.
- [Scall]: core/kernel/scall.c with the system call numbers and the stubs of
  libutee, over the class [Arch] of what the architecture does.

** How the code is modelled

A function is a definition of the same name in the monad [C S] of [Prelude], with
the state [S] of its component: an abstract world for the VFS and the kernel; the
parameters of a request and the process for a handler of the supplicant; the
memory, paired with the world below, for the hash map and the codec.  Undefined
behaviour (a null or dangling dereference, an access outside an object, a failed
assertion, a signed overflow) is the outcome [Undef]; every other error is a
value, the code's own.  Machine integers are [Z] with the conversions ([u32],
[s32], ...) where the code converts.  Structures are records, passed and returned;
what the code reaches through addresses that matter (keys and tags of the map,
pages, shared buffers) lives in the memory of [CMem].

Fuel appears in four places only.  [demoWrite_loop] (of both VFS) and
[createMap_loop] return [Undef] when it runs out; the first is given the number of
bytes to write, of which each iteration consumes at least one (and
[demoWrite_loop_terminates] shows how few turns it takes), and the second 101, while
its hundredth iteration leaves the arrays of the function.  The loops of
[set_ta_path] are given one more than the length of the path.  The theorems prove
that the result is reached.  [serve] is the supplicant's endless loop, cut after a
number of requests.  The host's loop has its own count, [SELECTS].

** What is proved

- Files: through the method table, SQLite cannot tell that there is a buffer
  ([sessions_answer_as_the_file]); from its opening to its end a file receives what
  was written, in order ([file_from_open_to_close]); and on the whole stack the file
  of the normal world always holds a prefix of what was written, which covers what
  was synced ([disk_holds_a_prefix]).
- Single calls: 26 of the 31 system calls, over kernel, message layer and
  supplicant, are one call of the operating system with the application's own
  arguments ([calls_are_forwarded]); the other five are among the defects.
- Single methods: on the VFS, a write changes exactly the bytes it names in the view of
  the file that a reader has, buffer included ([demoWrite_refines],
  [demoRead_sees_view], [demoRead_demoWrite], [demoFileSize_spec]); a sync that
  succeeds leaves the view in the file ([demoSync_durable]).  [Transport] proves
  that kernel and supplicant implement [FileLaws] (the instance [stack_laws]), so
  what SQLite wrote and synced is in the file of the normal world
  ([written_and_synced_is_on_disk], [stack_write], [stack_read]).
- Paths: [demoOpen_spec], [demoDelete_spec], [demoDelete_root],
  [demoFullPathname_spec].
- The untrusted world: whatever it answers, the methods of the VFS return, in bounds
  and with a well formed file ([methods_survive_any_answers],
  [demoWrite_loop_terminates]); but a failed getcwd goes unnoticed
  ([failed_getcwd_is_not_seen]).
- The host's VFS: it does what the application's does ([host_demoWrite_refines],
  [host_methods_as_tee], [host_paths_as_tee]) and owns its buffer
  ([host_demoOpen_owns]), as long as what it writes contains a NUL
  ([nul_free_write_is_undefined]).
- The kernel: no system call leaks a payload ([syscalls_no_leak]); a refused
  request is reported as success ([syscalls_refused_report_zero]).
- The supplicant: a request changes only its answer ([vfs_process_frame]) and one
  that is refused changes nothing ([vfs_process_refused]); one whose buffers are as
  large as it says is survived ([well_sized_requests_return]), but the sizes are not
  checked, nor is a missing variable ([vfs_read_overruns],
  [unset_variable_is_undefined]); buffers are found in bounds ([buffers_in_bounds]); allocation fails cleanly and is undone by freeing
  ([process_alloc_failed], [process_alloc_free]); requests are parsed and
  dispatched as sent ([find_params_spec], [requests_reach_their_handler]); the
  counter of waiting threads never underflows ([waiters_counted]) and, if no request
  under way is ever finished, the other threads still get to where one of them waits
  for the next request ([next_request_is_served]), both over the step relation
  [pool_step]; shared buffers are freed once, whatever the
  interleaving, and not while they are used if the secure world is careful
  ([buffers_are_freed_once], [careless_use_after_free], on [race_step]).
- Start-up: the search path is cut in bounds ([set_ta_path_spec]); the first device
  of OP-TEE is used and no other left open ([get_dev_fd_spec]); the parent of a
  daemon reports what its child did ([daemon_reports_child]), and little else ends
  with success ([exit_success_means]).
- The two applications: the command is undefined behaviour, for the key it passes is
  too short ([exec_is_undefined]); but for that, neither program leaves a connection,
  a message or a session behind ([commands_leave_nothing], [host_leaves_nothing]),
  and the command checks its parameter types last ([exec_checks_types_last]) and
  never changes the parameters, so the host prints the number it sent
  ([host_prints_what_it_sent]).
- The map: it refines a finite map as long as its memory is intact
  ([lookups_agree], [hm_set_inserts], [hm_set_replaces], [hm_create_empty],
  [hm_unset_removes]), through any sequence of operations, and what it was given is
  all freed in the end, while no allocation fails ([map_life]); keys beyond its size
  are out of bounds ([large_keys_are_out_of_bounds]).
- The extension: the pager's callback keeps every key ([sqlite3Codec_keeps_keys]);
  attaching and changing a key do what they say ([sqlite3CodecAttach_installs_key],
  [sqlite3_rekey_changes_key], which returns when the transaction does), if the key has sixteen bytes
  ([short_key_is_undefined]); but an attempt to remove the key that fails turns
  encryption off ([failed_decryption_writes_plaintext]).
- The kernel's entry: every stub of libutee reaches the function it is named after
  ([stubs_reach_their_functions]).
- The codec, while no allocation fails, no cryptographic operation but a
  verification does, and tags can be logged: a page below the size of the map is
  restored from its encrypted form and tag
  ([page_round_trip], [CodecAES_round_trip]); the tags of a database are loaded
  and saved again without a leak ([tags_saved_as_loaded]), unless one that has no NUL
  is logged, up to ninety-nine of them
  ([hundredth_tag_is_out_of_bounds]); a page written through
  the VFS is in the file as it was sealed, and comes back ([page_goes_through_the_file]),
  as it does for the pager ([pager_gets_its_page_back]).  But the tag of a page just
  encrypted is lost ([encrypted_page_is_lost]), nobody looks at whether a tag
  verifies ([verdict_is_ignored]), and a page is not bound to its number
  ([pages_can_be_exchanged]).
- Defects that two programs share: [truncate_changes_nothing],
  [pwrite_dereferences_null].

** What is not modelled

SQLite itself, whose source is not in the repository (the extension sees it through
[Sqlite], the applications through [sqlcall]); the TEE client library, [getopt_long]
and the services that the supplicant calls in other files; the registration of the
two VFS with SQLite and the bindings to its test shell (SQLITE_TEST), which are
glue; the variants of the codec that are not compiled.  The mutexes of the
supplicant appear as the atomic steps of [pool_step] and [race_step].  Logging is
left out but for the tags that the codec and the map print with [%s], which need not
end in a NUL ([TaLog]); the other strings that are logged do, or are null pointers,
which the C libraries used here print as (null). *)
From Stdlib Require Export ZArith Lia.
From stdpp Require Export base numbers option list gmap strings.

#[export] Set Default Goal Selector "!".

Declare Scope c_scope.
Delimit Scope c_scope with C.

(** ** Outcomes of a C computation

A C function either returns, or has undefined behaviour ([Undef]): a null or
dangling dereference, an access outside an object, a failed [assert].  Every
component is written in the state monad [C S] over these outcomes. *)
Inductive outcome (A : Type) : Type :=
| Ret (a : A)
| Undef.
Arguments Ret {A} a.
Arguments Undef {A}.

Definition C (S A : Type) : Type := S → outcome (A * S).

Definition ret {S A} (a : A) : C S A := λ s, Ret (a, s).

Definition bind {S A B} (m : C S A) (k : A → C S B) : C S B :=
  λ s, match m s with
       | Ret (a, s') => k a s'
       | Undef => Undef
       end.

Definition undef {S A} : C S A := λ _, Undef.
Definition get {S} : C S S := λ s, Ret (s, s).
Definition gets {S A} (f : S → A) : C S A := λ s, Ret (f s, s).
Definition modify {S} (f : S → S) : C S unit := λ s, Ret (tt, f s).

(** [run f]: an operation that always returns, as a computation. *)
Definition run {S A} (f : S → A * S) : C S A := λ s, Ret (f s).

(** A partial read: undefined behaviour when there is nothing to read. *)
Definition lift {S A} (o : option A) : C S A :=
  λ s, match o with Some a => Ret (a, s) | None => Undef end.

(** A partial update of the state. *)
Definition update {S} (f : S → option S) : C S unit :=
  λ s, match f s with Some s' => Ret (tt, s') | None => Undef end.

(** C's [assert]. *)
Definition c_assert {S} (b : bool) : C S unit := if b then ret tt else undef.

(** Run a computation on a part of the state. *)
Definition zoom {S T A} (proj : S → T) (put : T → S → S) (m : C T A) : C S A :=
  λ s, match m (proj s) with
       | Ret (a, t) => Ret (a, put t s)
       | Undef => Undef
       end.

Notation "'let!' x ':=' m 'in' k" := (bind m (λ x, k))
  (at level 10, x name, m at level 100, k at level 200,
   format "'[v' 'let!'  x  ':='  m  'in' '/' k ']'") : c_scope.
Notation "'let!' ' p ':=' m 'in' k" :=
  (bind m (λ x, match x with p => k end))
  (at level 10, p pattern, m at level 100, k at level 200, only parsing) : c_scope.
Notation "'do!' m 'in' k" := (bind m (λ _, k))
  (at level 10, m at level 100, k at level 200) : c_scope.

(** ** Machine integers *)

Definition unsigned (w z : Z) : Z := z mod 2 ^ w.
Definition signed (w z : Z) : Z := (z + 2 ^ (w - 1)) mod 2 ^ w - 2 ^ (w - 1).

Abbreviation u8 := (unsigned 8).
Abbreviation u16 := (unsigned 16).
Abbreviation u32 := (unsigned 32).
Abbreviation u64 := (unsigned 64).
Abbreviation s32 := (signed 32).
Abbreviation s64 := (signed 64).

Definition in_signed (w z : Z) : Prop := (- 2 ^ (w - 1) ≤ z < 2 ^ (w - 1))%Z.
Definition in_unsigned (w z : Z) : Prop := (0 ≤ z < 2 ^ w)%Z.
#[export] Instance in_signed_dec w z : Decision (in_signed w z) := _.
#[export] Instance in_unsigned_dec w z : Decision (in_unsigned w z) := _.

(** A signed addition that overflows is undefined behaviour in C. *)
Definition chk_signed {S} (w z : Z) : C S Z :=
  if decide (in_signed w z) then ret z else undef.

(** ** Bytes: integers in [0, 256), little endian *)

Definition is_byte (z : Z) : Prop := (0 ≤ z < 256)%Z.
#[export] Instance is_byte_dec z : Decision (is_byte z) := _.
Abbreviation bytes := (list Z).

Fixpoint le_bytes (n : nat) (z : Z) : bytes :=
  match n with
  | O => []
  | S n => (z mod 256)%Z :: le_bytes n (z / 256)%Z
  end.

Fixpoint le_val (l : bytes) : Z :=
  match l with
  | [] => 0
  | b :: l => (b + 256 * le_val l)%Z
  end.

(** A C string in a buffer: the bytes before the first NUL, when there is one. *)
Fixpoint cstring (l : bytes) : option bytes :=
  match l with
  | [] => None
  | b :: l => if decide (b = 0%Z) then Some [] else (b ::.) <$> cstring l
  end.

(** Overwrite the bytes of [l] from [off] on; the object's size is unchanged
    when [bs] fits. *)
Definition splice (l : bytes) (off : nat) (bs : bytes) : bytes :=
  take off l ++ bs ++ drop (off + length bs) l.

(** What a POSIX [write] of [bs] at [off] leaves in a file holding [l]: a hole
    reads as zeros, and writing nothing changes nothing. *)
Definition write_at (l : bytes) (off : nat) (bs : bytes) : bytes :=
  match bs with
  | [] => l
  | _ => take off l ++ replicate (off - length l) 0%Z ++ bs ++ drop (off + length bs) l
  end.

(** What a POSIX [read] of [n] bytes at [off] finds. *)
Definition read_at (l : bytes) (off n : nat) : bytes := take n (drop off l).

(** ** Triples

[holds P m Q]: whenever [m] returns from a state satisfying [P], its result and
final state satisfy [Q].  [total P m Q] moreover promises that it returns. *)
Definition holds {S A} (P : S → Prop) (m : C S A) (Q : A → S → Prop) : Prop :=
  ∀ s a s', P s → m s = Ret (a, s') → Q a s'.

Definition total {S A} (P : S → Prop) (m : C S A) (Q : A → S → Prop) : Prop :=
  ∀ s, P s → ∃ a s', m s = Ret (a, s') ∧ Q a s'.

(** * Lemmas *)

Section monad.
Context {S A B D : Type}.
Implicit Types (m : C S A) (s : S).

Lemma bind_ret_l (a : A) (k : A → C S B) s : bind (ret a) k s = k a s.
Proof. done. Qed.

Lemma bind_ret_r m s : bind m ret s = m s.
Proof. unfold bind. by destruct (m s) as [[? ?]|]. Qed.

Lemma bind_bind m (k : A → C S B) (h : B → C S D) s :
  bind (bind m k) h s = bind m (λ a, bind (k a) h) s.
Proof. unfold bind. by destruct (m s) as [[? ?]|]. Qed.

Lemma bind_run m (k : A → C S B) s a s' :
  m s = Ret (a, s') → bind m k s = k a s'.
Proof. unfold bind. by intros ->. Qed.

Lemma bind_undef m (k : A → C S B) s : m s = Undef → bind m k s = Undef.
Proof. unfold bind. by intros ->. Qed.

(** Two continuations that agree wherever [m] may lead. *)
Lemma bind_ext m (k h : A → C S B) s :
  (∀ a s', m s = Ret (a, s') → k a s' = h a s') → bind m k s = bind m h s.
Proof. intros H. unfold bind. destruct (m s) as [[a s']|] eqn:E; [by apply H|done]. Qed.

Lemma bind_inv m (k : A → C S B) s b s'' :
  bind m k s = Ret (b, s'') →
  ∃ a s', m s = Ret (a, s') ∧ k a s' = Ret (b, s'').
Proof. unfold bind. destruct (m s) as [[a s']|]; [eauto | done]. Qed.
End monad.

(** Take a run apart, step by step. *)
Ltac run_inv H :=
  match type of H with
  | bind _ _ _ = Ret (_, _) =>
      let a := fresh "a" in let s := fresh "s" in let E := fresh "Hrun" in
      apply bind_inv in H as (a & s & E & H); run_inv E; run_inv H
  | ret _ _ = Ret (_, _) => unfold ret in H; simplify_eq H
  | undef _ = Ret _ => discriminate H
  | gets _ _ = Ret (_, _) => unfold gets in H; simplify_eq H
  | modify _ _ = Ret (_, _) => unfold modify in H; simplify_eq H
  | _ => idtac
  end.

Section triples.
Context {S A B : Type}.
Implicit Types (P : S → Prop) (m : C S A) (Q : A → S → Prop).

Lemma holds_ret P a Q : (∀ s, P s → Q a s) → holds P (ret a) Q.
Proof. intros H s b s' HP [= <- <-]. auto. Qed.

Lemma holds_undef P Q : holds P undef Q.
Proof. by intros s a s' _. Qed.

Lemma holds_run P (f : S → A * S) Q :
  (∀ s, P s → Q (f s).1 (f s).2) → holds P (run f) Q.
Proof. intros H s a s' HP [= E]. specialize (H s HP). by rewrite E in H. Qed.

Lemma holds_bind P m (k : A → C S B) (R : A → S → Prop) (Q : B → S → Prop) :
  holds P m R → (∀ a, holds (R a) (k a) Q) → holds P (bind m k) Q.
Proof.
  intros Hm Hk s b s'' HP H. apply bind_inv in H as (a & s' & Ha & Hb).
  eapply Hk; [|exact Hb]. by eapply Hm.
Qed.

Lemma holds_weaken P P' m Q Q' :
  holds P' m Q' → (∀ s, P s → P' s) → (∀ a s, Q' a s → Q a s) → holds P m Q.
Proof. intros H HP HQ s a s' Hs Hr. eapply HQ, H; [by apply HP|exact Hr]. Qed.

Lemma holds_lift P (o : option A) Q :
  (∀ a s, o = Some a → P s → Q a s) → holds P (lift o) Q.
Proof. intros H s a s' HP. unfold lift. destruct o; [intros [= <- <-]; auto | done]. Qed.

Lemma total_holds P m Q : total P m Q → holds P m Q.
Proof. intros H s a s' HP Hr. destruct (H s HP) as (b & t & Hr' & HQ). rewrite Hr in Hr'. by injection Hr' as -> ->. Qed.

Lemma total_bind P m (k : A → C S B) (R : A → S → Prop) (Q : B → S → Prop) :
  total P m R → (∀ a, total (R a) (k a) Q) → total P (bind m k) Q.
Proof.
  intros Hm Hk s HP. destruct (Hm s HP) as (a & s' & Ha & HR).
  destruct (Hk a s' HR) as (b & s'' & Hb & HQ).
  exists b, s''. by rewrite (bind_run _ _ _ _ _ Ha).
Qed.
End triples.

Create HintDb triple.
#[export] Hint Resolve holds_undef : triple.

(** ** Widths *)
Section widths.
#[local] Open Scope Z_scope.
Implicit Types w z : Z.

Lemma unsigned_range w z : 0 ≤ w → in_unsigned w (unsigned w z).
Proof. intros. apply Z.mod_pos_bound. lia. Qed.

Lemma signed_range w z : 0 < w → in_signed w (signed w z).
Proof.
  intros. unfold in_signed, signed.
  assert (2 ^ w = 2 * 2 ^ (w - 1)) by (rewrite <- Z.pow_succ_r by lia; f_equal; lia).
  pose proof (Z.mod_pos_bound (z + 2 ^ (w - 1)) (2 ^ w)). lia.
Qed.

Lemma unsigned_id w z : in_unsigned w z → unsigned w z = z.
Proof. apply Z.mod_small. Qed.

Lemma signed_id w z : 0 < w → in_signed w z → signed w z = z.
Proof.
  unfold in_signed, signed. intros.
  assert (2 ^ w = 2 * 2 ^ (w - 1)) by (rewrite <- Z.pow_succ_r by lia; f_equal; lia).
  rewrite Z.mod_small; lia.
Qed.

(** Converting through a wider unsigned type and back to the signed type keeps
    the low bits: how an [int] crosses the 64-bit fields of a message. *)
Lemma signed_unsigned w w' z :
  0 < w → w ≤ w' → signed w (unsigned w' z) = signed w z.
Proof.
  intros. unfold signed, unsigned. f_equal.
  rewrite <- (Zplus_mod_idemp_l z), <- (Zplus_mod_idemp_l (z mod 2 ^ w')).
  do 2 f_equal. replace w' with (w + (w' - w)) by lia.
  rewrite Z.pow_add_r by lia.
  rewrite Z.rem_mul_r by (lia || (apply Z.pow_nonzero; lia) || (apply Z.pow_pos_nonneg; lia)).
  rewrite Z.mul_comm, Z_mod_plus_full. apply Z.mod_mod. apply Z.pow_nonzero; lia.
Qed.

Lemma signed_unsigned_id w w' z :
  0 < w → w ≤ w' → in_signed w z → signed w (unsigned w' z) = z.
Proof. intros. rewrite signed_unsigned by lia. by apply signed_id. Qed.

Lemma unsigned_unsigned w w' z :
  0 ≤ w → w ≤ w' → unsigned w (unsigned w' z) = unsigned w z.
Proof.
  intros. unfold unsigned. replace w' with (w + (w' - w)) by lia.
  rewrite Z.pow_add_r by lia.
  rewrite Z.rem_mul_r by (lia || (apply Z.pow_nonzero; lia) || (apply Z.pow_pos_nonneg; lia)).
  rewrite Z.mul_comm, Z_mod_plus_full. apply Z.mod_mod. apply Z.pow_nonzero; lia.
Qed.
End widths.

Create Rewrite HintDb widths.
#[export] Hint Rewrite signed_unsigned_id signed_id unsigned_id using (unfold in_signed, in_unsigned in *; lia) : widths.

(** ** Bytes *)
Section bytes_lemmas.
#[local] Coercion Z.of_nat : nat >-> Z.
#[local] Open Scope Z_scope.
Implicit Types (l bs : bytes) (n : nat) (z : Z).

Lemma length_le_bytes n z : length (le_bytes n z) = n.
Proof. revert z. induction n as [|n IH]; intros z; simpl; [done|]. by rewrite IH. Qed.

Lemma le_bytes_is_byte n z : Forall is_byte (le_bytes n z).
Proof.
  revert z. induction n as [|n IH]; intros z; simpl; constructor; [|done].
  apply Z.mod_pos_bound. lia.
Qed.

Lemma le_val_le_bytes n z : le_val (le_bytes n z) = z mod 2 ^ (8 * n).
Proof.
  revert z. induction n as [|n IH]; intros z; simpl.
  { by rewrite Z.mul_0_r, Z.mod_1_r. }
  rewrite IH. replace (8 * S n) with (8 + 8 * n) by lia.
  rewrite Z.pow_add_r by lia. change (2 ^ 8) with 256.
  by rewrite Z.rem_mul_r by (lia || (apply Z.pow_nonzero; lia) || (apply Z.pow_pos_nonneg; lia)).
Qed.

Lemma le_bytes_le_val l : Forall is_byte l → le_bytes (length l) (le_val l) = l.
Proof.
  induction 1 as [|b l Hb _ IH]; simpl; [done|]. unfold is_byte in Hb.
  f_equal.
  - rewrite Z.mul_comm, Z_mod_plus_full. by apply Z.mod_small.
  - rewrite Z.mul_comm, Z.div_add, Z.div_small by lia. exact IH.
Qed.

Lemma le_val_range l : Forall is_byte l → 0 ≤ le_val l < 2 ^ (8 * length l).
Proof.
  induction 1 as [|b l Hb _ IH]; simpl; [lia|]. unfold is_byte in Hb.
  replace (8 * S (length l)) with (8 + 8 * length l) by lia.
  rewrite Z.pow_add_r by lia. change (2 ^ 8) with 256. lia.
Qed.
End bytes_lemmas.

(** ** C strings *)
Section cstrings.
Implicit Types (s l : bytes).

Lemma cstring_app s l : 0%Z ∉ s → cstring (s ++ 0%Z :: l) = Some s.
Proof.
  induction s as [|b s IH]; intros Hs; simpl; [done|].
  apply not_elem_of_cons in Hs as [Hb Hs]. rewrite decide_False by done. by rewrite IH.
Qed.

Lemma cstring_Some l s : cstring l = Some s → ∃ r, l = s ++ 0%Z :: r ∧ 0%Z ∉ s.
Proof.
  revert s. induction l as [|b l IH]; intros s; simpl; [done|]. case_decide as Hb.
  - intros [= <-]. exists l. subst. split; [done|]. apply not_elem_of_nil.
  - intros (s' & Hs & ->)%fmap_Some. destruct (IH s' Hs) as (r & -> & Hn).
    exists r. split; [done|]. apply not_elem_of_cons. by split.
Qed.

Lemma cstring_nul (d : bytes) : 0%Z ∈ d ↔ is_Some (cstring d).
Proof.
  split.
  - intros Hd. induction d as [|x d IH]; [by apply not_elem_of_nil in Hd|]. simpl.
    case_decide as Hx; [by eexists|]. destruct IH as [s ->]; [|by eexists].
    apply elem_of_cons in Hd as [<-|]; done.
  - intros [s Hs]. apply cstring_Some in Hs as (r & -> & _). apply elem_of_app. right. by left.
Qed.

Lemma not_elem_of_take_bytes (x : Z) n l : x ∉ l → x ∉ take n l.
Proof. intros H Hx. apply H. apply (list_elem_of_lookup_1 _ _) in Hx as [i Hi].
  apply lookup_take_Some in Hi as [Hi _]. by apply list_elem_of_lookup_2 in Hi. Qed.
End cstrings.
