(* ===== verification/CMem.v ===== *)
(** * The memory of a C process

A memory is a set of live blocks; a block is an object the program allocated
([Heap]: [TEE_Malloc], [malloc], [mmap]) or a local variable whose address is
taken ([Stack]).  A pointer names a block and an offset into it; a pointer to a
block that was freed, or whose function has returned, is dangling, and reading,
writing or freeing through it is undefined behaviour.  The trusted application
([HashMap], [Codec]) and the supplicant ([SuppShm]) use the same memory. *)
From S2P Require Import Prelude.
#[local] Open Scope Z_scope.
#[local] Open Scope c_scope.

(** ** Data *)

Inductive ptr : Type :=
| NULL
| Ptr (blk off : Z).
#[export] Instance ptr_eq_dec : EqDecision ptr.
Proof. solve_decision. Defined.

Inductive bkind : Type := Heap | Stack.
#[export] Instance bkind_eq_dec : EqDecision bkind.
Proof. solve_decision. Defined.

Record block : Type := Block { b_kind : bkind; b_data : bytes }.

Record mem : Type := Mem { m_next : Z; m_blocks : gmap Z block }.

Definition mem_empty : mem := Mem 1 ∅.

(** ** Operations *)

Definition padd (p : ptr) (n : Z) : ptr :=
  match p with NULL => NULL | Ptr b o => Ptr b (o + n) end.

(** The [n] bytes at [p], when they lie inside one live block. *)
Definition peek (m : mem) (p : ptr) (n : Z) : option bytes :=
  match p with
  | NULL => None
  | Ptr b o =>
      match m_blocks m !! b with
      | None => None
      | Some (Block _ d) =>
          if decide (0 ≤ o ∧ 0 ≤ n ∧ o + n ≤ Z.of_nat (length d))
          then Some (take (Z.to_nat n) (drop (Z.to_nat o) d)) else None
      end
  end.

(** The bytes from [p] to the end of the object it points into. *)
Definition rest_of (m : mem) (p : ptr) : option bytes :=
  match p with
  | NULL => None
  | Ptr b o =>
      match m_blocks m !! b with
      | Some (Block _ d) =>
          if decide (0 ≤ o ≤ Z.of_nat (length d)) then Some (drop (Z.to_nat o) d) else None
      | None => None
      end
  end.

Definition poke (p : ptr) (bs : bytes) (m : mem) : option mem :=
  match p with
  | NULL => None
  | Ptr b o =>
      match m_blocks m !! b with
      | None => None
      | Some (Block k d) =>
          if decide (0 ≤ o ∧ o + Z.of_nat (length bs) ≤ Z.of_nat (length d))
          then Some (Mem (m_next m)
                         (<[b := Block k (splice d (Z.to_nat o) bs)]> (m_blocks m)))
          else None
      end
  end.

Definition load (p : ptr) (n : Z) : C mem bytes :=
  λ m, lift (peek m p n) m.
Definition store (p : ptr) (bs : bytes) : C mem unit := update (poke p bs).

(** A fresh block; nothing that is live moves. *)
Definition alloc (k : bkind) (data : bytes) : C mem ptr :=
  run (λ m, (Ptr (m_next m) 0,
             Mem (m_next m + 1) (<[m_next m := Block k data]> (m_blocks m)))).

(** [free]: the null pointer, or the start of a live heap block. *)
Definition release (p : ptr) (m : mem) : option mem :=
  match p with
  | NULL => Some m
  | Ptr b o =>
      match m_blocks m !! b with
      | Some (Block Heap _) =>
          if decide (o = 0) then Some (Mem (m_next m) (delete b (m_blocks m))) else None
      | _ => None
      end
  end.
Definition free (p : ptr) : C mem unit := update (release p).

(** A local variable goes out of scope. *)
Definition leave_scope (p : ptr) : C mem unit :=
  modify (λ m, match p with
               | NULL => m
               | Ptr b _ => Mem (m_next m) (delete b (m_blocks m))
               end).

(** An [int] in memory: four bytes, little endian, two's complement. *)
Definition peek_int (m : mem) (p : ptr) : option Z :=
  (λ bs, s32 (le_val bs)) <$> peek m p 4.
Definition load_int (p : ptr) : C mem Z := λ m, lift (peek_int m p) m.
Definition store_int (p : ptr) (z : Z) : C mem unit := store p (le_bytes 4 (u32 z)).

(** Every live block was allocated. *)
Definition mem_wf (m : mem) : Prop :=
  0 < m_next m ∧ ∀ b, m_next m ≤ b → m_blocks m !! b = None.

Definition live (m : mem) (b : Z) : Prop := is_Some (m_blocks m !! b).

(** ** Lemmas *)

Section peek_poke.
Implicit Types (m : mem) (p : ptr) (b o n : Z) (d bs : bytes).

Lemma peek_Some m p n bs :
  peek m p n = Some bs ↔
  ∃ b o k d, p = Ptr b o ∧ m_blocks m !! b = Some (Block k d) ∧
    0 ≤ o ∧ 0 ≤ n ∧ o + n ≤ Z.of_nat (length d) ∧
    bs = take (Z.to_nat n) (drop (Z.to_nat o) d).
Proof.
  split.
  - destruct p as [|b o]; simpl; [done|].
    destruct (m_blocks m !! b) as [[k d]|] eqn:E; [|done].
    case_decide; [|done]. intros [= <-]. exists b, o, k, d. tauto.
  - intros (b & o & k & d & -> & E & ? & ? & ? & ->). simpl. rewrite E.
    by rewrite decide_True.
Qed.

Lemma peek_length m p n bs : peek m p n = Some bs → Z.of_nat (length bs) = n.
Proof.
  intros (b & o & k & d & -> & _ & ? & ? & ? & ->)%peek_Some.
  rewrite length_take, length_drop. lia.
Qed.

Lemma rest_of_block m b k d : m_blocks m !! b = Some (Block k d) → rest_of m (Ptr b 0) = Some d.
Proof. intros E. simpl. rewrite E, decide_True by lia. done. Qed.

Lemma rest_of_Some m z d :
  rest_of m z = Some d ↔
  ∃ b o k D, z = Ptr b o ∧ m_blocks m !! b = Some (Block k D) ∧ 0 ≤ o ≤ Z.of_nat (length D) ∧
    d = drop (Z.to_nat o) D.
Proof.
  split.
  - destruct z as [|b o]; [done|]. simpl. destruct (m_blocks m !! b) as [[k D]|] eqn:E; [|done].
    case_decide; [|done]. intros [= <-]. by exists b, o, k, D.
  - intros (b & o & k & D & -> & E & ? & ->). simpl. by rewrite E, decide_True.
Qed.

Lemma rest_of_peek m z d n :
  rest_of m z = Some d → 0 ≤ n ≤ Z.of_nat (length d) → peek m z n = Some (take (Z.to_nat n) d).
Proof.
  intros (b & o & k & D & -> & E & Ho & ->)%rest_of_Some Hn. rewrite length_drop in Hn.
  apply peek_Some. exists b, o, k, D. split_and!; try done; lia.
Qed.

Lemma poke_Some p bs m m' :
  poke p bs m = Some m' ↔
  ∃ b o k d, p = Ptr b o ∧ m_blocks m !! b = Some (Block k d) ∧
    0 ≤ o ∧ o + Z.of_nat (length bs) ≤ Z.of_nat (length d) ∧
    m' = Mem (m_next m) (<[b := Block k (splice d (Z.to_nat o) bs)]> (m_blocks m)).
Proof.
  split.
  - destruct p as [|b o]; simpl; [done|].
    destruct (m_blocks m !! b) as [[k d]|] eqn:E; [|done].
    case_decide; [|done]. intros [= <-]. exists b, o, k, d. tauto.
  - intros (b & o & k & d & -> & E & ? & ? & ->). simpl. rewrite E.
    by rewrite decide_True.
Qed.

Lemma length_splice d (o : nat) bs :
  (o + length bs ≤ length d)%nat → length (splice d o bs) = length d.
Proof. intros. unfold splice. rewrite !length_app, length_take, length_drop. lia. Qed.

Lemma splice_read_same d (o : nat) bs :
  (o + length bs ≤ length d)%nat → take (length bs) (drop o (splice d o bs)) = bs.
Proof.
  intros. unfold splice. rewrite drop_app_length' by (rewrite length_take; lia).
  by rewrite take_app_length.
Qed.

(** What was written is read back. *)
Lemma peek_poke_same p bs m m' :
  poke p bs m = Some m' → peek m' p (Z.of_nat (length bs)) = Some bs.
Proof.
  intros (b & o & k & d & -> & E & ? & ? & ->)%poke_Some. apply peek_Some.
  exists b, o, k, (splice d (Z.to_nat o) bs). split_and!; try done; try lia.
  - simpl. by rewrite lookup_insert_eq.
  - rewrite length_splice by lia. lia.
  - rewrite Nat2Z.id, splice_read_same; [done|lia].
Qed.

(** Other blocks keep their bytes. *)
Lemma peek_poke_other b o p bs m m' n :
  poke p bs m = Some m' → (∀ o', p ≠ Ptr b o') → peek m' (Ptr b o) n = peek m (Ptr b o) n.
Proof.
  intros (b' & o' & k & d & -> & E & ? & ? & ->)%poke_Some Hne. simpl.
  rewrite lookup_insert_ne; [done|]. intros ->. by apply (Hne o').
Qed.

(** Writing back the bytes that are there changes nothing. *)
Lemma poke_same p bs m :
  peek m p (Z.of_nat (length bs)) = Some bs → poke p bs m = Some m.
Proof.
  intros (b & o & k & d & -> & E & ? & ? & ? & Hbs)%peek_Some. apply poke_Some.
  exists b, o, k, d. split_and!; try done.
  assert (splice d (Z.to_nat o) bs = d) as ->.
  { unfold splice. rewrite Nat2Z.id in Hbs. rewrite Hbs at 1.
    rewrite <- drop_drop, take_drop. apply take_drop. }
  rewrite insert_id by done. by destruct m.
Qed.

Lemma peek_int_range m p z : peek_int m p = Some z → in_signed 32 z.
Proof.
  unfold peek_int. intros (bs & _ & ->)%fmap_Some. apply signed_range. lia.
Qed.

Lemma le_val_4 z : le_val (le_bytes 4 z) = z `mod` 2 ^ 32.
Proof. apply (le_val_le_bytes 4). Qed.

Lemma peek_int_store_int p z m m' :
  in_signed 32 z → poke p (le_bytes 4 (u32 z)) m = Some m' → peek_int m' p = Some z.
Proof.
  intros Hz Hp. apply peek_poke_same in Hp. rewrite length_le_bytes in Hp.
  unfold peek_int. change 4 with (Z.of_nat 4). rewrite Hp.
  cbn [fmap option_fmap option_map]. f_equal. rewrite le_val_4. change (_ `mod` 2 ^ 32) with (u32 (u32 z)).
  rewrite signed_unsigned by lia. by apply signed_unsigned_id.
Qed.
End peek_poke.

(** An [int] written back over itself leaves the memory alone, when the cell
    holds bytes. *)
Lemma le_bytes_signed_val bs :
  length bs = 4%nat → Forall is_byte bs → le_bytes 4 (u32 (s32 (le_val bs))) = bs.
Proof.
  intros Hl Hb. pose proof (le_val_range bs Hb) as Hr. rewrite Hl in Hr.
  assert (u32 (s32 (le_val bs)) = le_val bs) as ->.
  { unfold unsigned, signed. rewrite Zminus_mod_idemp_l.
    replace (le_val bs + 2 ^ (32 - 1) - 2 ^ (32 - 1)) with (le_val bs) by lia.
    apply Z.mod_small. lia. }
  rewrite <- Hl. by apply le_bytes_le_val.
Qed.

Section allocation.
Implicit Types (m : mem) (p : ptr) (b o n : Z) (d bs : bytes).

Lemma mem_wf_fresh m : mem_wf m → m_blocks m !! m_next m = None.
Proof. intros [_ H]. apply H. lia. Qed.

Lemma mem_wf_live_lt m b : mem_wf m → live m b → b < m_next m.
Proof.
  intros [_ H] [x Hx]. destruct (decide (b < m_next m)); [done|].
  rewrite H in Hx; [done|lia].
Qed.

Lemma mem_wf_alloc m k d :
  mem_wf m → mem_wf (Mem (m_next m + 1) (<[m_next m := Block k d]> (m_blocks m))).
Proof.
  intros [? H]. split; simpl; [lia|]. intros b ?.
  rewrite lookup_insert_ne by lia. apply H. lia.
Qed.

Lemma mem_wf_poke p bs m m' : mem_wf m → poke p bs m = Some m' → mem_wf m'.
Proof.
  intros [? H] (b & o & k & d & -> & E & _ & _ & ->)%poke_Some. split; simpl; [done|].
  intros b' ?. rewrite lookup_insert_ne; [by apply H|].
  intros ->. by rewrite H in E.
Qed.

Lemma mem_wf_release p m m' : mem_wf m → release p m = Some m' → mem_wf m'.
Proof.
  intros [? H]. destruct p as [|b o]; simpl; [by intros [= <-]|].
  destruct (m_blocks m !! b) as [[[] d]|] eqn:E; try done.
  case_decide; [|done]. intros [= <-]. split; simpl; [done|].
  intros b' ?. rewrite lookup_delete_None. right. by apply H.
Qed.

Lemma peek_alloc_old m k d p n bs :
  mem_wf m → peek m p n = Some bs →
  peek (Mem (m_next m + 1) (<[m_next m := Block k d]> (m_blocks m))) p n = Some bs.
Proof.
  intros Hwf (b & o & k' & d' & -> & E & ? & ? & ? & ->)%peek_Some. apply peek_Some.
  exists b, o, k', d'. split_and!; try done. simpl. rewrite lookup_insert_ne; [done|].
  intros <-. rewrite mem_wf_fresh in E; done.
Qed.
End allocation.
