(* ===== verification/Heap.v ===== *)
(** * A process: its memory and the world below

Running an operation on the memory alone ([in_heap]) or on the world alone
([in_world]), what an operation leaves alone ([frame]), and the bytes of a part
of a buffer. *)
From S2P Require Import Prelude CMem.
#[local] Open Scope Z_scope.
#[local] Open Scope c_scope.

Definition in_heap {W A} (m : C mem A) : C (mem * W) A := zoom fst (λ m s, (m, s.2)) m.
Definition in_world {W A} (m : C W A) : C (mem * W) A := zoom snd (λ w s, (s.1, w)) m.

Definition memcpy (dst src : ptr) (n : Z) : C mem unit :=
  let! bs := load src n in store dst bs.

(** ** Memory

[frame P m m']: [m'] came from [m] without touching the blocks that were there,
those in [P] apart. *)
Definition frame (P : Z → Prop) (m m' : mem) : Prop :=
  mem_wf m' ∧ m_next m ≤ m_next m' ∧
  ∀ b, b < m_next m → ¬ P b → m_blocks m' !! b = m_blocks m !! b.

Section frames.
Implicit Types (m : mem) (b o n : Z) (d bs : bytes) (P Q : Z → Prop).

Lemma frame_refl P m : mem_wf m → frame P m m.
Proof. by intros. Qed.

Lemma frame_at {P m m'} (Hf : frame P m m') b :
  b < m_next m → ¬ P b → m_blocks m' !! b = m_blocks m !! b.
Proof. apply Hf. Qed.

Lemma frame_trans P Q m1 m2 m3 :
  frame P m1 m2 → frame Q m2 m3 → (∀ b, b < m_next m1 → Q b → P b) → frame P m1 m3.
Proof.
  intros (_ & Hn1 & H1) (Hwf & Hn2 & H2) HQ. split; [done|]. split; [lia|].
  intros b Hb HP. rewrite H2; [by apply H1|lia|]. intros HQb. by apply HP, HQ.
Qed.

Lemma frame_weaken P Q m m' : frame Q m m' → (∀ b, b < m_next m → Q b → P b) → frame P m m'.
Proof. intros (Hwf & Hn & H) HQ. split_and!; try done. intros b Hb HP. apply H; [done|]. naive_solver. Qed.

Lemma frame_block P m m' b x :
  frame P m m' → mem_wf m → m_blocks m !! b = Some x → ¬ P b → m_blocks m' !! b = Some x.
Proof.
  intros (_ & _ & H) Hwf Hb HP. rewrite H; [done| |done]. apply mem_wf_live_lt; [done|by eexists].
Qed.

Lemma frame_peek P m m' b o n bs :
  frame P m m' → mem_wf m → peek m (Ptr b o) n = Some bs → ¬ P b → peek m' (Ptr b o) n = Some bs.
Proof.
  intros Hf Hwf (b' & o' & k & d & [= <- <-] & E & Hp)%peek_Some HP. apply peek_Some.
  exists b, o, k, d. split; [done|]. split; [by eapply frame_block|done].
Qed.

Lemma frame_dead P m m' b :
  frame P m m' → b < m_next m → m_blocks m !! b = None → ¬ P b → m_blocks m' !! b = None.
Proof. intros (_ & _ & H) Hb Hd HP. by rewrite H. Qed.

(** *** Parts of a page *)

Lemma page_peek m b o n d i k :
  peek m (Ptr b o) n = Some d → 0 ≤ i → 0 ≤ k → i + k ≤ n →
  peek m (Ptr b (o + i)) k = Some (take (Z.to_nat k) (drop (Z.to_nat i) d)).
Proof.
  intros (b' & o' & kd & D & [= <- <-] & E & ? & ? & ? & ->)%peek_Some ???. apply peek_Some.
  exists b, (o + i), kd, D. split_and!; try done; try lia.
  rewrite skipn_firstn_comm, take_take, drop_drop, Nat.min_l by lia.
  by rewrite <- Z2Nat.inj_add by lia.
Qed.

Lemma splice_app (x y z bs : bytes) (off : nat) :
  off = length x → length bs = length y → splice (x ++ y ++ z) off bs = x ++ bs ++ z.
Proof.
  intros -> Hl. unfold splice. rewrite take_app_length. do 2 f_equal.
  by rewrite Hl, <- drop_drop, drop_app_length, drop_app_length.
Qed.

(** A list around the [k] elements from [i] on. *)
Lemma cut_at d (i k : nat) : d = take i d ++ take k (drop i d) ++ drop (i + k) d.
Proof. by rewrite <- drop_drop, take_drop, take_drop. Qed.

Lemma splice_inside D (o i n : nat) bs :
  (o + n ≤ length D)%nat → (i + length bs ≤ n)%nat →
  take n (drop o (splice D (o + i) bs)) = splice (take n (drop o D)) i bs.
Proof.
  intros Ho Hi. rewrite (cut_at D o n).
  assert (length (take o D) = o) as HA by (rewrite length_take; lia).
  assert (length (take n (drop o D)) = n) as HP by (rewrite length_take, length_drop; lia).
  revert HA HP. generalize (take o D) as A, (take n (drop o D)) as P, (drop (o + n) D) as T.
  intros A P T HA HP. rewrite (drop_app_length' A) by done.
  rewrite (take_app_length' P) by done. rewrite (cut_at P i (length bs)).
  assert (length (take i P) = i) as H1 by (rewrite length_take; lia).
  assert (length (take (length bs) (drop i P)) = length bs) as H2 by (rewrite length_take, length_drop; lia).
  assert (length (drop (i + length bs) P) = n - (i + length bs))%nat as H3 by (rewrite length_drop; lia).
  revert H1 H2 H3. generalize (take i P) as X, (take (length bs) (drop i P)) as Y, (drop (i + length bs) P) as V.
  intros X Y V H1 H2 H3. rewrite (splice_app X Y V) by done.
  replace (A ++ (X ++ Y ++ V) ++ T) with ((A ++ X) ++ Y ++ (V ++ T)) by by rewrite <- !app_assoc.
  rewrite (splice_app (A ++ X) Y (V ++ T)) by (rewrite ?length_app; lia).
  rewrite <- (app_assoc A), (drop_app_length' A) by done.
  rewrite (app_assoc bs), (app_assoc X). apply take_app_length'. rewrite !length_app. lia.
Qed.

Lemma poke_frame m b o bs m' : mem_wf m → poke (Ptr b o) bs m = Some m' → frame (λ x, x = b) m m'.
Proof.
  intros Hwf Hp. split; [by eapply mem_wf_poke|].
  apply poke_Some in Hp as (b' & o' & k & d & [= <- <-] & E & ? & ? & ->). split; simpl; [lia|].
  intros x _ Hx. by rewrite lookup_insert_ne.
Qed.

Lemma page_poke m b o n d i bs :
  mem_wf m → peek m (Ptr b o) n = Some d → 0 ≤ i → i + Z.of_nat (length bs) ≤ n →
  ∃ m', poke (Ptr b (o + i)) bs m = Some m' ∧ frame (λ x, x = b) m m' ∧ m_next m' = m_next m ∧
    peek m' (Ptr b o) n = Some (splice d (Z.to_nat i) bs).
Proof.
  intros Hwf (b' & o' & kd & D & [= <- <-] & E & ? & ? & ? & ->)%peek_Some ??.
  eexists. assert (poke (Ptr b (o + i)) bs m = Some
    (Mem (m_next m) (<[b := Block kd (splice D (Z.to_nat (o + i)) bs)]> (m_blocks m)))) as Hp.
  { apply poke_Some. exists b, (o + i), kd, D. split_and!; try done; lia. }
  split; [exact Hp|]. split; [by eapply poke_frame|]. split; [done|]. apply peek_Some.
  eexists b, o, kd, _. split; [done|]. split; [simpl; by rewrite lookup_insert_eq|].
  rewrite length_splice by lia. split_and!; try done.
  rewrite Z2Nat.inj_add by lia. by rewrite splice_inside by lia.
Qed.

End frames.

(** ** Running on one half of the state *)
Section halves.
Context {W : Type}.
Implicit Types (m : mem) (w : W) (b o n : Z) (bs : bytes).

Lemma heap_run {A} (c : C mem A) m w a m' :
  c m = Ret (a, m') → in_heap c (m, w) = Ret (a, (m', w)).
Proof. intros E. unfold in_heap, zoom. simpl. by rewrite E. Qed.

Lemma world_run {A} (c : C W A) m w a w' :
  c w = Ret (a, w') → in_world c (m, w) = Ret (a, (m, w')).
Proof. intros E. unfold in_world, zoom. simpl. by rewrite E. Qed.

Lemma load_run m w p n bs : peek m p n = Some bs → in_heap (load p n) (m, w) = Ret (bs, (m, w)).
Proof. intros E. apply heap_run. unfold load, lift. by rewrite E. Qed.

Lemma store_run m w p bs m' : poke p bs m = Some m' → in_heap (store p bs) (m, w) = Ret (tt, (m', w)).
Proof. intros E. apply heap_run. unfold store, update. by rewrite E. Qed.

Lemma memcpy_run m w dst src n bs m' :
  peek m src n = Some bs → poke dst bs m = Some m' →
  in_heap (memcpy dst src n) (m, w) = Ret (tt, (m', w)).
Proof.
  intros E1 E2. apply heap_run. unfold memcpy.
  erewrite bind_run by (unfold load, lift; by rewrite E1).
  unfold store, update. by rewrite E2.
Qed.

(** A local variable. *)
Lemma alloc_run m w k d :
  mem_wf m →
  ∃ m', in_heap (alloc k d) (m, w) = Ret (Ptr (m_next m) 0, (m', w)) ∧ m_next m' = m_next m + 1 ∧
    frame (λ _, False) m m' ∧ peek m' (Ptr (m_next m) 0) (Z.of_nat (length d)) = Some d ∧
    m_blocks m' !! m_next m = Some (Block k d).
Proof.
  intros Hwf. eexists. split; [reflexivity|]. split; [done|]. split.
  - split; [by apply mem_wf_alloc|]. split; [simpl; lia|]. intros b Hb _. simpl.
    by rewrite lookup_insert_ne by lia.
  - simpl. rewrite lookup_insert_eq. split; [|done]. rewrite decide_True by lia.
    by rewrite Z2Nat.inj_0, drop_0, Nat2Z.id, firstn_all.
Qed.

Lemma leave_run m w b o :
  mem_wf m → ∃ m', in_heap (leave_scope (Ptr b o)) (m, w) = Ret (tt, (m', w)) ∧
    m_next m' = m_next m ∧ frame (λ x, x = b) m m' ∧ m_blocks m' !! b = None.
Proof.
  intros [Hn Hwf]. eexists. split; [reflexivity|]. split; [done|]. split.
  - split; [split; simpl; [done|]|].
    + intros x Hx. rewrite lookup_delete_None. right. by apply Hwf.
    + split; simpl; [lia|]. intros x _ Hx. by rewrite lookup_delete_ne by done.
  - apply lookup_delete_eq.
Qed.

End halves.

Lemma peek_live m b o n bs : peek m (Ptr b o) n = Some bs → live m b.
Proof. intros (b' & o' & k & d & [= <- <-] & E & _)%peek_Some. by eexists. Qed.

Lemma peek_lt m b o n bs : mem_wf m → peek m (Ptr b o) n = Some bs → b < m_next m.
Proof. intros Hwf Hp. apply mem_wf_live_lt; [done|by eapply peek_live]. Qed.

Lemma block_poke m b kd d bs :
  mem_wf m → m_blocks m !! b = Some (Block kd d) → length bs = length d →
  ∃ m', poke (Ptr b 0) bs m = Some m' ∧ frame (λ x, x = b) m m' ∧ m_next m' = m_next m ∧
    m_blocks m' !! b = Some (Block kd bs).
Proof.
  intros Hwf Hb Hl. set (m' := Mem (m_next m) (<[b := Block kd (splice d 0%nat bs)]> (m_blocks m))).
  assert (poke (Ptr b 0) bs m = Some m') as Hp.
  { apply poke_Some. exists b, 0, kd, d. split_and!; try done; lia. }
  exists m'. split; [done|]. split; [by eapply poke_frame|]. split; [done|]. simpl.
  rewrite lookup_insert_eq. unfold splice. rewrite take_0, drop_ge by lia. by rewrite app_nil_r.
Qed.

Lemma block_peek m b kd d : m_blocks m !! b = Some (Block kd d) → peek m (Ptr b 0) (Z.of_nat (length d)) = Some d.
Proof.
  intros Hb. apply peek_Some. exists b, 0, kd, d. split_and!; try done; try lia.
  by rewrite Z2Nat.inj_0, drop_0, Nat2Z.id, firstn_all.
Qed.

(** ** Freeing

[freeable ps m] says that the pointers [ps] may all be freed, each once; [freed
ps m m'] that they have been, and nothing else has changed.  Both only depend on
which pointers there are, not on their order, so they are rewritten with
permutations. *)

(** The start of a live heap block. *)
Definition heap_start (m : mem) (p : ptr) : Prop :=
  ∃ b d, p = Ptr b 0 ∧ m_blocks m !! b = Some (Block Heap d).

Definition freeable (ps : list ptr) (m : mem) : Prop := NoDup ps ∧ Forall (heap_start m) ps.

Definition freed (ps : list ptr) (m m' : mem) : Prop :=
  m_next m' = m_next m ∧
  ∀ b, m_blocks m' !! b = if decide (Ptr b 0 ∈ ps) then None else m_blocks m !! b.

#[export] Instance freeable_proper : Proper ((≡ₚ) ==> eq ==> iff) freeable.
Proof. intros ps qs Hp m ? <-. unfold freeable. by rewrite Hp. Qed.

#[export] Instance freed_proper : Proper ((≡ₚ) ==> eq ==> eq ==> iff) freed.
Proof.
  intros ps qs Hp m ? <- m' ? <-. unfold freed. apply and_iff_compat_l. apply forall_proper. intros b.
  destruct (decide (Ptr b 0 ∈ ps)) as [Hb|Hb]; rewrite Hp in Hb; [by rewrite decide_True|by rewrite decide_False].
Qed.

Section freeing.
Implicit Types (m : mem) (ps qs : list ptr).

Lemma freed_nil m : freed [] m m.
Proof. split; [done|]. intros b. rewrite decide_False; [done|apply not_elem_of_nil]. Qed.

Lemma freed_app ps qs m m1 m2 : freed ps m m1 → freed qs m1 m2 → freed (ps ++ qs) m m2.
Proof.
  intros [Hn1 H1] [Hn2 H2]. split; [by rewrite Hn2|]. intros b. rewrite H2, H1.
  destruct (decide (Ptr b 0 ∈ qs)); [by rewrite decide_True by (apply elem_of_app; by right)|].
  destruct (decide (Ptr b 0 ∈ ps)); [by rewrite decide_True by (apply elem_of_app; by left)|].
  rewrite decide_False; [done|]. by intros [?|?]%elem_of_app.
Qed.

Lemma freeable_app ps qs m : freeable (ps ++ qs) m → freeable ps m.
Proof. intros [Hnd Hh]. apply NoDup_app in Hnd as (? & _). apply Forall_app in Hh as [? _]. by split. Qed.

Lemma freeable_tail ps qs m : freeable (ps ++ qs) m → freeable qs m.
Proof. rewrite (Permutation_app_comm ps). apply freeable_app. Qed.

(** What is left can still be freed. *)
Lemma freed_freeable ps qs m m' : freeable (ps ++ qs) m → freed ps m m' → freeable qs m'.
Proof.
  intros [Hnd Hh] [_ Hf]. apply NoDup_app in Hnd as (_ & Hdis & Hnd). apply Forall_app in Hh as [_ Hh].
  split; [done|]. apply Forall_forall. intros q Hq. pose proof (proj1 (Forall_forall _ _) Hh q Hq) as (b & d & -> & Hb).
  exists b, d. split; [done|]. rewrite Hf, decide_False; [done|]. intros Hin. by apply (Hdis _ Hin).
Qed.

Lemma freed_wf ps m m' : mem_wf m → freed ps m m' → mem_wf m'.
Proof.
  intros Hwf [Hn Hf]. unfold mem_wf in *. rewrite Hn. destruct Hwf as [Hpos Hwf]. split; [done|].
  intros b Hb. rewrite Hf. case_decide; [done|]. by apply Hwf.
Qed.

(** In a later memory, where the blocks that were touched are still there. *)
Lemma freeable_frame P ps m m' :
  freeable ps m → mem_wf m → frame P m m' → (∀ b, Ptr b 0 ∈ ps → P b → heap_start m' (Ptr b 0)) →
  (∀ b, P b ∨ ¬ P b) → freeable ps m'.
Proof.
  intros [Hnd Hh] Hwf Hf HP Hdec. split; [done|]. apply Forall_forall. intros p Hp.
  pose proof (proj1 (Forall_forall _ _) Hh p Hp) as (b & d & -> & Hb).
  destruct (Hdec b) as [Hb'|Hb']; [by apply HP|]. exists b, d. split; [done|]. by eapply frame_block.
Qed.

(** Blocks that came later. *)
Lemma freeable_cons b ps m : freeable ps m → heap_start m (Ptr b 0) → Ptr b 0 ∉ ps → freeable (Ptr b 0 :: ps) m.
Proof. intros [Hnd Hh] Hb Hn. split; [by apply NoDup_cons|by apply Forall_cons]. Qed.

Lemma freeable_lt b ps m : freeable ps m → mem_wf m → m_next m ≤ b → Ptr b 0 ∉ ps.
Proof.
  intros [_ Hh] Hwf Hb Hin. pose proof (proj1 (Forall_forall _ _) Hh _ Hin) as (b' & d & [= <-] & Hd).
  pose proof (mem_wf_live_lt _ _ Hwf (mk_is_Some _ _ Hd)). lia.
Qed.

(** One [free]. *)
Lemma free_one p m : freeable [p] m → ∃ m', free p m = Ret (tt, m') ∧ freed [p] m m'.
Proof.
  intros [_ Hh]. apply Forall_singleton in Hh as (b & d & -> & Hb).
  eexists. split; [unfold free, update, release; by rewrite Hb|]. split; [done|].
  intros c. simpl. destruct (decide (c = b)) as [->|Hne].
  - rewrite decide_True by (by apply list_elem_of_singleton). apply lookup_delete_eq.
  - rewrite decide_False by (by intros [= ->]%list_elem_of_singleton). by apply lookup_delete_ne.
Qed.
End freeing.
