(* ===== verification/TaLog.v ===== *)
(** * What the trusted application logs

Logging has no effect on the program but one: an argument of [%s] is read up to
its NUL, and the codec and the hash map pass tags of sixteen bytes, which need not
contain one.  Whether [IMSG] is compiled in is decided by CFG_TEE_TA_LOG_LEVEL
(ta/Makefile sets 4 unless the build says otherwise; [IMSG] needs 3), a parameter
of the model: [TaLog]. *)
From S2P Require Import Prelude CMem Heap.
#[local] Open Scope Z_scope.
#[local] Open Scope c_scope.

Class TaLog : Type := { ta_info : bool }.

(** The level of ta/Makefile. *)
Definition log_level_4 : TaLog := {| ta_info := true |}.

(** [IMSG("... %s", p)]: undefined behaviour when the object ends before a NUL, or
    is not there.  The C library of OP-TEE prints a null pointer as (null). *)
Definition IMSG_string `{TaLog} (p : ptr) : C mem unit :=
  if ta_info then
    if decide (p = NULL) then ret tt
    else λ m, lift (d ← rest_of m p; _ ← cstring d; Some tt) m
  else ret tt.

(** These bytes can be printed: either nothing is, or there is a NUL among them. *)
Definition prints `{TaLog} (t : bytes) : Prop := ta_info = true → 0 ∈ t.

Section log.
Context `{TaLog}.
Implicit Types (m : mem) (t : bytes).

Lemma IMSG_run m p n t : peek m p n = Some t → prints t → IMSG_string p m = Ret (tt, m).
Proof.
  unfold IMSG_string, prints. intros (b & o & k & d & -> & Hb & Ho & Hn & Hl & ->)%peek_Some Ht.
  destruct ta_info; [|done]. rewrite decide_False by done. unfold lift.
  assert (rest_of m (Ptr b o) = Some (drop (Z.to_nat o) d)) as -> by
    (apply rest_of_Some; exists b, o, k, d; split_and!; (done || lia)).
  assert (0 ∈ drop (Z.to_nat o) d) as Hin.
  { specialize (Ht eq_refl). apply (list_elem_of_lookup_1 _ _) in Ht as [i Hi].
    apply lookup_take_Some in Hi as [Hi _]. by eapply list_elem_of_lookup_2. }
  apply cstring_nul in Hin as [s Hs]. simpl. by rewrite Hs.
Qed.

(** The memory is left as it was, at any rate. *)
Lemma IMSG_pure m p : IMSG_string p m = Ret (tt, m) ∨ IMSG_string p m = Undef.
Proof.
  unfold IMSG_string. destruct ta_info; [|by left]. case_decide; [by left|]. unfold lift.
  destruct (d ← rest_of m p; _ ← cstring d; Some tt) as [[]|]; [by left|by right].
Qed.

(** A block without a NUL. *)
Lemma IMSG_overread m b k d :
  ta_info = true → m_blocks m !! b = Some (Block k d) → 0 ∉ d → IMSG_string (Ptr b 0) m = Undef.
Proof.
  intros Hi Hb Hd. unfold IMSG_string. rewrite Hi, decide_False by done. unfold lift.
  rewrite (rest_of_block _ _ _ _ Hb). simpl. destruct (cstring d) as [s|] eqn:E; [|done].
  exfalso. apply Hd, cstring_nul. by exists s.
Qed.

Lemma heap_IMSG_run {W} m (w : W) p n t :
  peek m p n = Some t → prints t → in_heap (IMSG_string p) (m, w) = Ret (tt, (m, w)).
Proof. intros Hp Ht. by apply heap_run, (IMSG_run m p n t). Qed.
End log.
