(* ===== verification/UteeVfs.v ===== *)
(** * The file system calls a trusted application makes

[UteeVfs W] is the part of optee_os/lib/libutee/include/utee_syscalls.h that
the SQLite VFS and the codec of the trusted application use; [W] is everything
below them.  A path is the bytes of the C string, without its NUL; an output
buffer is passed and returned by value.  [KernelVfs] implements the interface
through remote procedure calls, and [Transport] relates it to the system calls
of the normal world.

[FileLaws] states what the documentation of lseek(2), write(2), read(2),
fsync(2) and fstat(2) promises about one open regular file, short and failing
transfers included: the theorems about the VFS are proved against it, and
[MemFile] is a concrete file system that satisfies it. *)
From S2P Require Import Prelude.
#[local] Open Scope Z_scope.
#[local] Open Scope c_scope.

Definition SEEK_SET : Z := 0.
Definition O_RDONLY : Z := 0.
Definition O_RDWR : Z := 2.
Definition O_CREAT : Z := 64.
Definition O_EXCL : Z := 128.
Definition ENOENT : Z := 2.
Definition F_OK : Z := 0.
Definition W_OK : Z := 2.
Definition R_OK : Z := 4.

Class UteeVfs (W : Type) : Type := {
  utee_vfs_open : bytes → Z → Z → C W Z;
  utee_vfs_close : Z → C W Z;
  utee_vfs_access : bytes → Z → C W Z;
  (** the buffer after the call, when the pointer returned is not NULL *)
  utee_vfs_getcwd : bytes → C W (option bytes);
  (** the value written, cut to [int], and the bytes given *)
  utee_vfs_write : Z → bytes → C W Z;
  (** [utee_vfs_read fd buf]: as many bytes as [buf] has; the new buffer *)
  utee_vfs_read : Z → bytes → C W (Z * bytes);
  utee_vfs_lseek : Z → Z → Z → C W Z;
  utee_vfs_fsync : Z → C W Z;
  utee_vfs_filesize : Z → C W Z;
  (** the return value, and the [errno] passed by address *)
  utee_vfs_unlink : bytes → Z → C W (Z * Z);
  utee_vfs_sleep : Z → C W Z;
  utee_vfs_usleep : Z → C W unit;
  utee_vfs_time : C W Z
}.

(** What one call may do to the file behind a descriptor: [l] its bytes, [pos]
    its offset. *)
Definition write_result (l : bytes) (pos : nat) (bs : bytes) (r : Z)
    (l' : bytes) (pos' : nat) : Prop :=
  ∃ k : nat, (k ≤ length bs)%nat ∧ (r = Z.of_nat k ∨ (r = -1 ∧ k = 0%nat)) ∧
    l' = write_at l pos (take k bs) ∧ pos' = (pos + k)%nat.

Definition read_result (l : bytes) (pos : nat) (buf : bytes) (r : Z)
    (buf' : bytes) (pos' : nat) : Prop :=
  length buf' = length buf ∧
  ((r = -1 ∧ pos' = pos) ∨
   ∃ k : nat, (k ≤ length (read_at l pos (length buf)))%nat ∧ r = Z.of_nat k ∧
     take k buf' = take k (read_at l pos (length buf)) ∧ pos' = (pos + k)%nat).

Class FileLaws (W : Type) `{UteeVfs W} : Type := {
  (** the bytes and the offset of the file open at a descriptor *)
  fd_file : W → Z → option (bytes * nat);
  lseek_law w fd off l pos :
    fd_file w fd = Some (l, pos) → 0 ≤ off < 2 ^ 63 →
    ∃ r w', utee_vfs_lseek fd off SEEK_SET w = Ret (r, w') ∧
      ((r = off ∧ fd_file w' fd = Some (l, Z.to_nat off)) ∨
       (r ≠ off ∧ fd_file w' fd = Some (l, pos)));
  write_law w fd bs l pos :
    fd_file w fd = Some (l, pos) → Z.of_nat (length bs) < 2 ^ 31 →
    ∃ r w' l' pos', utee_vfs_write fd bs w = Ret (r, w') ∧
      write_result l pos bs r l' pos' ∧ fd_file w' fd = Some (l', pos');
  read_law w fd buf l pos :
    fd_file w fd = Some (l, pos) → Z.of_nat (length buf) < 2 ^ 31 →
    ∃ r buf' w' pos', utee_vfs_read fd buf w = Ret ((r, buf'), w') ∧
      read_result l pos buf r buf' pos' ∧ fd_file w' fd = Some (l, pos');
  fsync_law w fd l pos :
    fd_file w fd = Some (l, pos) →
    ∃ r w', utee_vfs_fsync fd w = Ret (r, w') ∧ fd_file w' fd = Some (l, pos);
  filesize_law w fd l pos :
    fd_file w fd = Some (l, pos) →
    ∃ r w', utee_vfs_filesize fd w = Ret (r, w') ∧
      (r = -1 ∨ r = Z.of_nat (length l)) ∧ fd_file w' fd = Some (l, pos);
  close_law w fd l pos :
    fd_file w fd = Some (l, pos) →
    ∃ r w', utee_vfs_close fd w = Ret (r, w')
}.

(** ** Lemmas on file contents *)

Section write_at.
#[local] Open Scope nat_scope.
Implicit Types (l a bs : bytes) (o n : nat).

Lemma length_write_at l o bs :
  bs ≠ [] → length (write_at l o bs) = Nat.max (length l) (o + length bs).
Proof.
  intros. unfold write_at. destruct bs as [|b bs]; [done|].
  rewrite !length_app, length_take, length_replicate, length_drop. simpl. lia.
Qed.

(** Every byte of the file after a write. *)
Lemma lookup_write_at l o bs i :
  bs ≠ [] →
  write_at l o bs !! i =
    (if decide (o ≤ i < o + length bs) then bs !! (i - o)
     else if decide (i < o) then
            (if decide (i < length l) then l !! i else Some 0%Z)
          else l !! i).
Proof.
  intros Hbs. unfold write_at. destruct bs as [|b bs]; [done|].
  set (bs' := b :: bs) in *. repeat case_decide.
  - rewrite lookup_app_r by (rewrite length_take; lia).
    rewrite lookup_app_r by (rewrite length_take, length_replicate; lia).
    rewrite lookup_app_l by (rewrite length_take, length_replicate; lia).
    f_equal. rewrite length_take, length_replicate. lia.
  - rewrite lookup_app_l by (rewrite length_take; lia). apply lookup_take_lt. lia.
  - rewrite lookup_app_r by (rewrite length_take; lia).
    rewrite lookup_app_l by (rewrite length_take, length_replicate; lia).
    apply lookup_replicate_2. rewrite length_take. lia.
  - rewrite lookup_app_r by (rewrite length_take; lia).
    rewrite lookup_app_r by (rewrite length_take, length_replicate; lia).
    rewrite lookup_app_r by (rewrite length_take, length_replicate; lia).
    rewrite lookup_drop. f_equal. rewrite length_take, length_replicate. lia.
Qed.

(** Two adjacent writes are one write. *)
Lemma write_at_app l o a bs :
  write_at (write_at l o a) (o + length a) bs = write_at l o (a ++ bs).
Proof.
  destruct a as [|x a]; [by rewrite Nat.add_0_r|].
  destruct bs as [|y bs]; [by rewrite app_nil_r|].
  assert (Hx : x :: a ≠ []) by done. assert (Hy : y :: bs ≠ []) by done.
  revert Hx Hy. generalize (x :: a), (y :: bs). clear. intros a bs Ha Hb.
  apply list_eq. intros i.
  rewrite !lookup_write_at by (try done; destruct a; done).
  rewrite length_write_at, length_app by done.
  repeat case_decide; try lia; try done.
  - rewrite lookup_app_r by lia. f_equal. lia.
  - by rewrite lookup_app_l by lia.
Qed.

Lemma write_at_nil l o : write_at l o [] = l.
Proof. done. Qed.

(** What was written is what a read finds. *)
Lemma read_write_at l o bs : read_at (write_at l o bs) o (length bs) = bs.
Proof.
  unfold read_at. destruct (decide (bs = [])) as [->|Hbs]; [done|].
  apply list_eq. intros i. destruct (decide (i < length bs)).
  - rewrite lookup_take_lt, lookup_drop, lookup_write_at by done.
    rewrite decide_True by lia. f_equal. lia.
  - rewrite !lookup_ge_None_2; [done|lia|rewrite length_take; lia].
Qed.

Lemma length_read_at l o n : length (read_at l o n) = Nat.min n (length l - o).
Proof. unfold read_at. by rewrite length_take, length_drop. Qed.
End write_at.
