(* ===== verification/MemFile.v ===== *)
(** * A concrete file system

An implementation of [UteeVfs] with all of it in memory, and the proof that it
satisfies [FileLaws]: the theorems that assume the laws are instantiated with
it. *)
From S2P Require Import Prelude UteeVfs.
#[local] Open Scope Z_scope.
#[local] Open Scope c_scope.

Record memfs : Type := MemFs {
  mf_fds : gmap Z (bytes * nat);      (** descriptors: content and offset *)
  mf_names : gmap (list Z) bytes;     (** the names that exist: content when opened *)
  mf_cwd : bytes
}.

Definition set_fd (w : memfs) (f : Z) (x : bytes * nat) : memfs :=
  MemFs (<[f := x]> (mf_fds w)) (mf_names w) (mf_cwd w).

(** Overwrite the start of [buf] with [src], keeping its length. *)
Definition fill (buf src : bytes) : bytes := take (length buf) (src ++ drop (length src) buf).

Definition mf_lseek (f off whence : Z) : C memfs Z :=
  run (λ w, match mf_fds w !! f with
            | Some (l, _) =>
                if decide (whence = SEEK_SET ∧ 0 ≤ off) then (off, set_fd w f (l, Z.to_nat off))
                else (-1, w)
            | None => (-1, w)
            end).

Definition mf_write (f : Z) (bs : bytes) : C memfs Z :=
  run (λ w, match mf_fds w !! f with
            | Some (l, pos) =>
                (Z.of_nat (length bs), set_fd w f (write_at l pos bs, (pos + length bs)%nat))
            | None => (-1, w)
            end).

Definition mf_read (f : Z) (buf : bytes) : C memfs (Z * bytes) :=
  run (λ w, match mf_fds w !! f with
            | Some (l, pos) =>
                let got := read_at l pos (length buf) in
                ((Z.of_nat (length got), fill buf got), set_fd w f (l, (pos + length got)%nat))
            | None => ((-1, buf), w)
            end).

Definition O_TRUNC : Z := 512.

Definition mf_open (name : bytes) (flags mode : Z) : C memfs Z :=
  run (λ w, if decide (name ≠ [] ∧ (is_Some (mf_names w !! name) ∨ Z.land flags O_CREAT ≠ 0))
            then let f := 3 + Z.of_nat (size (mf_fds w)) in
                 let l := if decide (Z.land flags O_TRUNC ≠ 0) then [] else default [] (mf_names w !! name) in
                 (f, MemFs (<[f := (l, 0%nat)]> (mf_fds w)) (<[name := l]> (mf_names w)) (mf_cwd w))
            else (-1, w)).

Definition mf_unlink (name : bytes) (errno : Z) : C memfs (Z * Z) :=
  run (λ w, if decide (is_Some (mf_names w !! name))
            then ((0, 0), MemFs (mf_fds w) (delete name (mf_names w)) (mf_cwd w))
            else ((-1, ENOENT), w)).

#[export] Instance memfs_vfs : UteeVfs memfs := {
  utee_vfs_open := mf_open;
  utee_vfs_close f := run (λ w, (0, MemFs (delete f (mf_fds w)) (mf_names w) (mf_cwd w)));
  utee_vfs_access name _ := gets (λ w, if decide (is_Some (mf_names w !! name)) then 0 else -1);
  utee_vfs_getcwd buf := gets (λ w, Some (fill buf (mf_cwd w ++ [0])));
  utee_vfs_write := mf_write;
  utee_vfs_read := mf_read;
  utee_vfs_lseek := mf_lseek;
  utee_vfs_fsync f := ret 0;
  utee_vfs_filesize f :=
    gets (λ w, match mf_fds w !! f with Some (l, _) => Z.of_nat (length l) | None => -1 end);
  utee_vfs_unlink := mf_unlink;
  utee_vfs_sleep _ := ret 0;
  utee_vfs_usleep _ := ret tt;
  utee_vfs_time := ret 0
}.

(** ** The laws *)

Lemma length_fill buf src : length (fill buf src) = length buf.
Proof. unfold fill. rewrite length_take, length_app, length_drop. lia. Qed.

Lemma take_fill buf src :
  (length src ≤ length buf)%nat → take (length src) (fill buf src) = src.
Proof.
  intros. unfold fill. rewrite take_take, Nat.min_l by lia. by rewrite take_app_length.
Qed.

#[export] Program Instance memfs_laws : FileLaws memfs := {
  fd_file w f := mf_fds w !! f
}.
Next Obligation.
  intros w f off l pos Hf ?. simpl. unfold mf_lseek, run. rewrite Hf.
  rewrite decide_True by (split; [done|lia]).
  eexists _, _. split; [done|]. left. split; [done|]. simpl. by rewrite lookup_insert_eq.
Qed.
Next Obligation.
  intros w f bs l pos Hf _. simpl. unfold mf_write, run. rewrite Hf.
  eexists _, _, _, _. split_and!; [done| |simpl; by rewrite lookup_insert_eq].
  exists (length bs). split_and!; [lia|by left| |done]. by rewrite take_ge by lia.
Qed.
Next Obligation.
  intros w f buf l pos Hf _. simpl. unfold mf_read, run. rewrite Hf.
  eexists _, _, _, _. split_and!; [done| |simpl; by rewrite lookup_insert_eq].
  split; [apply length_fill|]. right. eexists. split_and!; [|done| |done]; [lia|].
  rewrite (take_ge (read_at _ _ _)) by lia. apply take_fill. rewrite length_read_at. lia.
Qed.
Next Obligation. intros w f l pos Hf. by eexists _, _. Qed.
Next Obligation.
  intros w f l pos Hf. simpl. unfold gets. rewrite Hf. eexists _, _. eauto.
Qed.
Next Obligation. intros w f l pos Hf. by eexists _, _. Qed.

(** One file, open at descriptor 3. *)
Definition one_file (l : bytes) : memfs := MemFs {[3 := (l, 0%nat)]} ∅ [].
