(* ===== verification/TeeVfs.v ===== *)
(** * The SQLite VFS of the trusted application

Models optee_examples/tee_sqilte/ta/tee_vfs.c: the methods SQLite calls on an
open file ([DemoFile]) and on the VFS.  A journal file owns a write buffer of
[SQLITE_TEEVFS_BUFFERSZ] bytes that coalesces sequential writes; every other
file is written directly.  The methods are proved against the interface
[UteeVfs] and its laws, so the theorems hold for any implementation of it. *)
From S2P Require Import Prelude CMem UteeVfs MemFile.
From Stdlib Require Import SpecFloat.
#[local] Open Scope Z_scope.
#[local] Open Scope c_scope.

(** ** Constants of sqlite3.h *)
Definition SQLITE_OK : Z := 0.
Definition SQLITE_NOMEM : Z := 7.
Definition SQLITE_IOERR : Z := 10.
Definition SQLITE_NOTFOUND : Z := 12.
Definition SQLITE_CANTOPEN : Z := 14.
Definition SQLITE_IOERR_READ : Z := Z.lor SQLITE_IOERR (Z.shiftl 1 8).
Definition SQLITE_IOERR_SHORT_READ : Z := Z.lor SQLITE_IOERR (Z.shiftl 2 8).
Definition SQLITE_IOERR_WRITE : Z := Z.lor SQLITE_IOERR (Z.shiftl 3 8).
Definition SQLITE_IOERR_FSYNC : Z := Z.lor SQLITE_IOERR (Z.shiftl 4 8).
Definition SQLITE_IOERR_FSTAT : Z := Z.lor SQLITE_IOERR (Z.shiftl 7 8).
Definition SQLITE_IOERR_DELETE : Z := Z.lor SQLITE_IOERR (Z.shiftl 10 8).
Definition SQLITE_OPEN_READONLY : Z := 0x00000001.
Definition SQLITE_OPEN_READWRITE : Z := 0x00000002.
Definition SQLITE_OPEN_CREATE : Z := 0x00000004.
Definition SQLITE_OPEN_EXCLUSIVE : Z := 0x00000010.
Definition SQLITE_OPEN_MAIN_JOURNAL : Z := 0x00000800.
Definition SQLITE_ACCESS_EXISTS : Z := 0.
Definition SQLITE_ACCESS_READWRITE : Z := 1.
Definition SQLITE_ACCESS_READ : Z := 2.

Definition SQLITE_TEEVFS_BUFFERSZ : Z := 8192.
Definition MAXPATHNAME : Z := 512.

(** ** The open file *)
Record DemoFile : Type := mkDemoFile {
  pMethods : bool;            (** [base.pMethods] set to the method table *)
  fd : Z;
  aBuffer : option bytes;     (** the malloc'd buffer, or NULL *)
  nBuffer : Z;
  iBufferOfst : Z
}.

Definition set_buffer (p : DemoFile) (buf : option bytes) (n ofst : Z) : DemoFile :=
  mkDemoFile (pMethods p) (fd p) buf n ofst.

(** [memset(p, 0, sizeof(DemoFile))] *)
Definition DemoFile_zero : DemoFile := mkDemoFile false 0 None 0 0.

(** The [n] bytes C reads at the start of a buffer. *)
Definition read_buf {S} (buf : bytes) (n : Z) : C S bytes :=
  if decide (0 ≤ n ≤ Z.of_nat (length buf)) then ret (take (Z.to_nat n) buf) else undef.

(** [memcpy(&buf[o], src, length src)] *)
Definition memcpy_at {S} (buf : bytes) (o : Z) (src : bytes) : C S bytes :=
  if decide (0 ≤ o ∧ o + Z.of_nat (length src) ≤ Z.of_nat (length buf))
  then ret (splice buf (Z.to_nat o) src) else undef.

Definition flag_set (flags bit : Z) : bool := bool_decide (Z.land flags bit ≠ 0).

(** The index of the last [c] in a string. *)
Fixpoint strrchr (s : bytes) (c : Z) : option nat :=
  match s with
  | [] => None
  | b :: s => match strrchr s c with
              | Some k => Some (S k)
              | None => if decide (b = c) then Some 0%nat else None
              end
  end.

Section vfs.
Context {W : Type} `{UteeVfs W}.

(** SQLite's allocator and formatted print, not part of this repository:
    [sqlite3_malloc n] is NULL or [n] uninitialised bytes, which [sqlite3_free]
    gives back;
    [sqlite3_snprintf n buf text] is the buffer after printing [text] into its
    first [n] bytes.  [uninit n] is what a local array of [n] bytes holds. *)
Variable sqlite3_malloc : Z → C W (option bytes).
Variable sqlite3_free : option bytes → C W unit.
Variable sqlite3_snprintf : Z → bytes → bytes → bytes.
Variable uninit : Z → bytes.

Definition demoDirectWrite (p : DemoFile) (zBuf : bytes) (iAmt iOfst : Z) : C W Z :=
  let! ofst := utee_vfs_lseek (fd p) iOfst SEEK_SET in
  if decide (ofst ≠ iOfst) then ret SQLITE_IOERR_WRITE
  else
    let! data := read_buf zBuf (u64 iAmt) in
    let! w := utee_vfs_write (fd p) data in
    let nWrite := u64 w in
    if decide (nWrite ≠ u64 iAmt) then ret SQLITE_IOERR_WRITE
    else ret SQLITE_OK.

Definition demoFlushBuffer (p : DemoFile) : C W (Z * DemoFile) :=
  if decide (nBuffer p ≠ 0) then
    let! buf := lift (aBuffer p) in
    let! rc := demoDirectWrite p buf (nBuffer p) (iBufferOfst p) in
    ret (rc, set_buffer p (aBuffer p) 0 (iBufferOfst p))
  else ret (SQLITE_OK, p).

Definition demoClose (p : DemoFile) : C W Z :=
  let! '(rc, p) := demoFlushBuffer p in
  do! sqlite3_free (aBuffer p) in
  do! utee_vfs_close (fd p) in
  ret rc.

Definition demoRead (p : DemoFile) (zBuf : bytes) (iAmt iOfst : Z)
    : C W (Z * DemoFile * bytes) :=
  let! '(rc, p) := demoFlushBuffer p in
  if decide (rc ≠ SQLITE_OK) then ret (rc, p, zBuf)
  else
    let! ofst := utee_vfs_lseek (fd p) iOfst SEEK_SET in
    if decide (ofst ≠ iOfst) then ret (SQLITE_IOERR_READ, p, zBuf)
    else
      let! part := read_buf zBuf (u64 iAmt) in
      let! '(r, part) := utee_vfs_read (fd p) part in
      let nRead := s32 r in
      let zBuf := part ++ drop (Z.to_nat iAmt) zBuf in
      if decide (nRead = iAmt) then ret (SQLITE_OK, p, zBuf)
      else if decide (nRead >= 0) then
        let! zBuf :=
          (if decide (nRead < iAmt)
           then memcpy_at zBuf nRead (replicate (Z.to_nat (iAmt - nRead)) 0)
           else ret zBuf) in
        ret (SQLITE_IOERR_SHORT_READ, p, zBuf)
      else ret (SQLITE_IOERR_READ, p, zBuf).

(** The body of [while (n > 0)], once per unit of [fuel]. *)
Fixpoint demoWrite_loop (fuel : nat) (p : DemoFile) (z : bytes) (n i : Z)
    : C W (Z * DemoFile) :=
  if decide (n > 0) then
    match fuel with
    | O => undef
    | S fuel =>
        let! full_or_apart :=
          (if decide (nBuffer p = SQLITE_TEEVFS_BUFFERSZ) then ret true
           else let! e := chk_signed 64 (iBufferOfst p + nBuffer p) in
                ret (bool_decide (e ≠ i))) in
        let! '(rc, p) :=
          (if full_or_apart : bool then demoFlushBuffer p else ret (SQLITE_OK, p)) in
        if decide (rc ≠ SQLITE_OK) then ret (rc, p)
        else
          do! c_assert (bool_decide (nBuffer p = 0)
                        || bool_decide (iBufferOfst p + nBuffer p = i)) in
          let! ofst := chk_signed 64 (i - nBuffer p) in
          let nCopy := SQLITE_TEEVFS_BUFFERSZ - nBuffer p in
          let nCopy := if decide (nCopy > n) then n else nCopy in
          let! buf := lift (aBuffer p) in
          let! src := read_buf z nCopy in
          let! buf := memcpy_at buf (nBuffer p) src in
          let p := set_buffer p (Some buf) (nBuffer p + nCopy) ofst in
          let! i := chk_signed 64 (i + nCopy) in
          demoWrite_loop fuel p (drop (Z.to_nat nCopy) z) (n - nCopy) i
    end
  else ret (SQLITE_OK, p).

Definition demoWrite (p : DemoFile) (zBuf : bytes) (iAmt iOfst : Z)
    : C W (Z * DemoFile) :=
  match aBuffer p with
  | Some _ => demoWrite_loop (Z.to_nat iAmt) p zBuf iAmt iOfst
  | None => let! rc := demoDirectWrite p zBuf iAmt iOfst in ret (rc, p)
  end.

Definition demoTruncate (p : DemoFile) (size : Z) : C W Z := ret SQLITE_OK.

Definition demoSync (p : DemoFile) (flags : Z) : C W (Z * DemoFile) :=
  let! '(rc, p) := demoFlushBuffer p in
  if decide (rc ≠ SQLITE_OK) then ret (rc, p)
  else
    let! rc := utee_vfs_fsync (fd p) in
    ret (if decide (rc = 0) then SQLITE_OK else SQLITE_IOERR_FSYNC, p).

(** The third component is what is stored at [*pSize], if anything. *)
Definition demoFileSize (p : DemoFile) : C W (Z * DemoFile * option Z) :=
  let! '(rc, p) := demoFlushBuffer p in
  if decide (rc ≠ SQLITE_OK) then ret (rc, p, None)
  else
    let! rc := utee_vfs_filesize (fd p) in
    if decide (rc = -1) then ret (SQLITE_IOERR_FSTAT, p, None)
    else ret (SQLITE_OK, p, Some rc).

Definition demoLock (p : DemoFile) (eLock : Z) : C W Z := ret SQLITE_OK.
Definition demoUnlock (p : DemoFile) (eLock : Z) : C W Z := ret SQLITE_OK.
(** The value stored at [*pResOut] comes second. *)
Definition demoCheckReservedLock (p : DemoFile) : C W (Z * Z) := ret (SQLITE_OK, 0).
Definition demoFileControl (p : DemoFile) (op : Z) : C W Z := ret SQLITE_NOTFOUND.
Definition demoSectorSize (p : DemoFile) : C W Z := ret 0.
Definition demoDeviceCharacteristics (p : DemoFile) : C W Z := ret 0.

(** The mode is [0600].  [p] is the memory SQLite hands over; [out] tells whether [pOutFlags] is not
    NULL.  The result is the code, the file, and what is stored at
    [*pOutFlags]. *)
Definition demoOpen (zName : option bytes) (p : DemoFile) (flags : Z) (out : bool)
    : C W (Z * DemoFile * option Z) :=
  match zName with
  | None => ret (SQLITE_IOERR, p, None)
  | Some name =>
      let! '(failed, aBuf) :=
        (if flag_set flags SQLITE_OPEN_MAIN_JOURNAL
         then let! aBuf := sqlite3_malloc SQLITE_TEEVFS_BUFFERSZ in
              ret (bool_decide (aBuf = None), aBuf)
         else ret (false, None)) in
      if failed : bool then ret (SQLITE_NOMEM, p, None)
      else
        let oflags := 0 in
        let oflags := if flag_set flags SQLITE_OPEN_EXCLUSIVE then Z.lor oflags O_EXCL else oflags in
        let oflags := if flag_set flags SQLITE_OPEN_CREATE then Z.lor oflags O_CREAT else oflags in
        let oflags := if flag_set flags SQLITE_OPEN_READONLY then Z.lor oflags O_RDONLY else oflags in
        let oflags := if flag_set flags SQLITE_OPEN_READWRITE then Z.lor oflags O_RDWR else oflags in
        let p := DemoFile_zero in
        let! f := utee_vfs_open name oflags 384 in
        let p := mkDemoFile (pMethods p) f (aBuffer p) (nBuffer p) (iBufferOfst p) in
        if decide (fd p < 0) then do! sqlite3_free aBuf in ret (SQLITE_CANTOPEN, p, None)
        else ret (SQLITE_OK, mkDemoFile true (fd p) aBuf (nBuffer p) (iBufferOfst p),
                  if out then Some flags else None)
  end.

Definition demoDelete (zPath : bytes) (dirSync : Z) : C W Z :=
  let! '(rc, errno) := utee_vfs_unlink zPath 0 in
  if decide (rc ≠ 0 ∧ errno = ENOENT) then ret SQLITE_OK
  else
    let! rc :=
      (if decide (rc = 0 ∧ dirSync ≠ 0) then
         let zDir := sqlite3_snprintf MAXPATHNAME (uninit (MAXPATHNAME + 1)) zPath in
         let! zDir := memcpy_at zDir MAXPATHNAME [0] in
         let! s := lift (cstring zDir) in
         match strrchr s 47 with
         | Some zSlash =>
             let! dfd := utee_vfs_open (take zSlash s) O_RDONLY 0 in
             if decide (dfd < 0) then ret (-1)
             else
               let! rc := utee_vfs_fsync dfd in
               do! utee_vfs_close dfd in
               ret rc
         | None => ret rc
         end
       else ret rc) in
    ret (if decide (rc = 0) then SQLITE_OK else SQLITE_IOERR_DELETE).

(** The value stored at [*pResOut] comes second. *)
Definition demoAccess (zPath : bytes) (flags : Z) : C W (Z * Z) :=
  do! c_assert (bool_decide (flags = SQLITE_ACCESS_EXISTS)
                || bool_decide (flags = SQLITE_ACCESS_READ)
                || bool_decide (flags = SQLITE_ACCESS_READWRITE)) in
  let eAccess := F_OK in
  let eAccess := if decide (flags = SQLITE_ACCESS_READWRITE) then Z.lor R_OK W_OK else eAccess in
  let eAccess := if decide (flags = SQLITE_ACCESS_READ) then R_OK else eAccess in
  let! rc := utee_vfs_access zPath eAccess in
  ret (SQLITE_OK, if decide (rc = 0) then 1 else 0).

Definition demoFullPathname (zPath : bytes) (nPathOut : Z) (zPathOut : bytes)
    : C W (Z * bytes) :=
  let! zDir :=
    (if decide (head zPath = Some 47)
     then let! zDir := memcpy_at (uninit (MAXPATHNAME + 1)) 0 [0] in ret (Some zDir)
     else utee_vfs_getcwd (uninit (MAXPATHNAME + 1))) in
  match zDir with
  | None => ret (SQLITE_IOERR, zPathOut)
  | Some zDir =>
      let! zDir := memcpy_at zDir MAXPATHNAME [0] in
      let! dir := lift (cstring zDir) in
      let zPathOut := sqlite3_snprintf nPathOut zPathOut (dir ++ [47] ++ zPath) in
      let! zPathOut := memcpy_at zPathOut (nPathOut - 1) [0] in
      ret (SQLITE_OK, zPathOut)
  end.

(** "Loadable extensions are not supported" *)
Definition dl_error_text : bytes :=
  [76;111;97;100;97;98;108;101;32;101;120;116;101;110;115;105;111;110;115;32;97;114;
   101;32;110;111;116;32;115;117;112;112;111;114;116;101;100].

Definition demoDlOpen (zPath : bytes) : C W (option Z) := ret None.
Definition demoDlError (nByte : Z) (zErrMsg : bytes) : C W bytes :=
  memcpy_at (sqlite3_snprintf nByte zErrMsg dl_error_text) (nByte - 1) [0].
Definition demoDlSym (z : bytes) : C W (option Z) := ret None.
Definition demoDlClose : C W unit := ret tt.

Definition demoRandomness (nByte : Z) (zByte : bytes) : C W (Z * bytes) :=
  ret (SQLITE_OK, zByte).

Definition demoSleep (nMicro : Z) : C W Z :=
  do! utee_vfs_sleep (u32 (Z.quot nMicro 1000000)) in
  do! utee_vfs_usleep (u64 (Z.rem nMicro 1000000)) in
  ret nMicro.

(** [double] arithmetic, rounded to nearest even. *)
Definition double_of_Z (z : Z) : spec_float := binary_normalize 53 1024 z 0 false.
Definition julian_day (t : Z) : spec_float :=
  SFadd 53 1024 (SFdiv 53 1024 (double_of_Z t) (double_of_Z 86400))
                (binary_normalize 53 1024 4881175 (-1) false).

(** The value stored at [*pTime] comes second. *)
Definition demoCurrentTime : C W (Z * spec_float) :=
  let! t := utee_vfs_time in
  ret (SQLITE_OK, julian_day t).
End vfs.

(** * What SQLite sees of a file

[demo_view p w] is the content of the file once the write buffer is laid over
what the descriptor holds; SQLite is promised that a write changes it as a
POSIX [write] would, whatever is still buffered. *)
Section spec.
Context {W : Type} `{FileLaws W}.

Definition demo_view (p : DemoFile) (w : W) : option bytes :=
  match fd_file w (fd p) with
  | None => None
  | Some (l, _) =>
      Some (match aBuffer p with
            | Some buf => write_at l (Z.to_nat (iBufferOfst p)) (take (Z.to_nat (nBuffer p)) buf)
            | None => l
            end)
  end.

(** The buffer is within bounds; a file without one buffers nothing. *)
Definition demo_ok (p : DemoFile) : Prop :=
  match aBuffer p with
  | Some buf =>
      Z.of_nat (length buf) = SQLITE_TEEVFS_BUFFERSZ ∧
      0 ≤ nBuffer p ≤ SQLITE_TEEVFS_BUFFERSZ ∧
      0 ≤ iBufferOfst p ∧ iBufferOfst p + nBuffer p < 2 ^ 63
  | None => nBuffer p = 0
  end.
(** SQLite sees the open file [p] as [v]. *)
Definition demo_repr (p : DemoFile) (w : W) (v : bytes) : Prop :=
  demo_ok p ∧ demo_view p w = Some v.
End spec.
Arguments demo_ok : simpl never.

(** ** Lemmas *)

(** Run the first operation of a goal with the lemma that gives its value. *)
Ltac run_step H :=
  erewrite bind_run by
    (apply H; rewrite ?length_take, ?length_replicate in *;
     unfold in_signed, SQLITE_TEEVFS_BUFFERSZ in *; lia).

Section methods.
Context {W : Type} `{FileLaws W}.
Implicit Types (p : DemoFile) (w : W) (l buf zBuf : bytes).

Lemma read_buf_eq (buf : bytes) n (w : W) :
  0 ≤ n ≤ Z.of_nat (length buf) → read_buf buf n w = Ret (take (Z.to_nat n) buf, w).
Proof. intros. unfold read_buf. by rewrite decide_True. Qed.

Lemma memcpy_at_eq (buf src : bytes) o (w : W) :
  0 ≤ o ∧ o + Z.of_nat (length src) ≤ Z.of_nat (length buf) →
  memcpy_at buf o src w = Ret (splice buf (Z.to_nat o) src, w).
Proof. intros. unfold memcpy_at. by rewrite decide_True. Qed.

Lemma chk_signed_eq z (w : W) : in_signed 64 z → chk_signed 64 z w = Ret (z, w).
Proof. intros. unfold chk_signed. by rewrite decide_True. Qed.

Lemma demoDirectWrite_spec p zBuf iAmt iOfst w l pos :
  fd_file w (fd p) = Some (l, pos) →
  0 ≤ iAmt ≤ Z.of_nat (length zBuf) → iAmt < 2 ^ 31 → 0 ≤ iOfst < 2 ^ 63 →
  ∃ rc w' (k : nat) pos',
    demoDirectWrite p zBuf iAmt iOfst w = Ret (rc, w') ∧
    (k ≤ Z.to_nat iAmt)%nat ∧
    fd_file w' (fd p) = Some (write_at l (Z.to_nat iOfst) (take k zBuf), pos') ∧
    ((rc = SQLITE_OK ∧ k = Z.to_nat iAmt) ∨ rc = SQLITE_IOERR_WRITE).
Proof.
  intros Hf Ha Ha31 Ho. unfold demoDirectWrite.
  destruct (lseek_law w (fd p) iOfst l pos Hf) as (r & w1 & E1 & Hr); [lia|].
  rewrite (bind_run _ _ _ _ _ E1). case_decide as Hne.
  { destruct Hr as [[? _]|[_ Hf1]]; [done|]. exists SQLITE_IOERR_WRITE, w1, 0%nat, pos.
    rewrite take_0. split_and!; try done; [lia|by right]. }
  destruct Hr as [(_ & Hf1)|[? _]]; [|done].
  assert (u64 iAmt = iAmt) as Hu by (apply unsigned_id; unfold in_unsigned; lia).
  rewrite Hu, (bind_run _ _ _ _ _ (read_buf_eq _ _ _ Ha)).
  assert (length (take (Z.to_nat iAmt) zBuf) = Z.to_nat iAmt) as Hlen
    by (rewrite length_take; lia).
  destruct (write_law w1 (fd p) (take (Z.to_nat iAmt) zBuf) l (Z.to_nat iOfst) Hf1)
    as (r2 & w2 & l' & pos' & E2 & (k & Hk & Hr2 & -> & ->) & Hf2); [lia|].
  rewrite (bind_run _ _ _ _ _ E2). rewrite Hlen in Hk.
  rewrite take_take, Nat.min_l in Hf2 by lia.
  case_decide as Hn.
  - exists SQLITE_IOERR_WRITE, w2, k, (Z.to_nat iOfst + k)%nat.
    split_and!; try done. by right.
  - exists SQLITE_OK, w2, k, (Z.to_nat iOfst + k)%nat. split_and!; try done. left.
    split; [done|]. unfold unsigned in Hn.
    destruct Hr2 as [->|[-> ->]].
    + rewrite Z.mod_small in Hn; lia.
    + exfalso. change ((-1) `mod` 2 ^ 64) with (2 ^ 64 - 1) in Hn. lia.
Qed.

Lemma demo_ok_buffer p buf :
  demo_ok p → aBuffer p = Some buf →
  Z.of_nat (length buf) = SQLITE_TEEVFS_BUFFERSZ ∧
  0 ≤ nBuffer p ≤ SQLITE_TEEVFS_BUFFERSZ ∧
  0 ≤ iBufferOfst p ∧ iBufferOfst p + nBuffer p < 2 ^ 63.
Proof. unfold demo_ok. intros Hp E. by rewrite E in Hp. Qed.

Lemma demo_view_empty p w l pos :
  fd_file w (fd p) = Some (l, pos) → nBuffer p = 0 → demo_view p w = Some l.
Proof. unfold demo_view. intros -> ->. by destruct (aBuffer p). Qed.

(** Flushing leaves nothing buffered; when it succeeds the file holds the view. *)
Lemma demoFlushBuffer_spec p w l pos :
  fd_file w (fd p) = Some (l, pos) → demo_ok p →
  ∃ rc p' w' l' pos',
    demoFlushBuffer p w = Ret ((rc, p'), w') ∧
    p' = set_buffer p (aBuffer p) 0 (iBufferOfst p) ∧ demo_ok p' ∧
    fd_file w' (fd p) = Some (l', pos') ∧
    ((rc = SQLITE_OK ∧ demo_view p w = Some l') ∨ rc = SQLITE_IOERR_WRITE).
Proof.
  intros Hf Hok. unfold demoFlushBuffer.
  assert (demo_ok (set_buffer p (aBuffer p) 0 (iBufferOfst p))) as Hok'.
  { revert Hok. unfold demo_ok. simpl. destruct (aBuffer p); [|done].
    unfold SQLITE_TEEVFS_BUFFERSZ. lia. }
  case_decide as Hn.
  - destruct (aBuffer p) as [buf|] eqn:Eb; [|by unfold demo_ok in Hok; rewrite Eb in Hok].
    destruct (demo_ok_buffer p buf Hok Eb) as (Hl & Hr & ? & ?).
    unfold SQLITE_TEEVFS_BUFFERSZ in *.
    destruct (demoDirectWrite_spec p buf (nBuffer p) (iBufferOfst p) w l pos Hf)
      as (rc & w' & k & pos' & E & Hk & Hf' & Hrc); [lia..|].
    change (lift (Some buf)) with (ret (S:=W) buf).
    rewrite bind_ret_l, (bind_run _ _ _ _ _ E).
    exists rc, (set_buffer p (Some buf) 0 (iBufferOfst p)), w',
      (write_at l (Z.to_nat (iBufferOfst p)) (take k buf)), pos'.
    split_and!; try done. destruct Hrc as [[-> ->]| ->]; [left|by right].
    unfold demo_view. by rewrite Hf, Eb.
  - exists SQLITE_OK, p, w, l, pos.
    split_and!; try done.
    + destruct p; simpl in *; by subst.
    + left. split; [done|]. by eapply demo_view_empty.
Qed.

(** Appending [src] to the buffer writes it into the view. *)
Lemma demo_view_append p w l pos buf src i :
  fd_file w (fd p) = Some (l, pos) → demo_ok p → aBuffer p = Some buf →
  0 ≤ i → nBuffer p = 0 ∨ iBufferOfst p + nBuffer p = i →
  nBuffer p + Z.of_nat (length src) ≤ SQLITE_TEEVFS_BUFFERSZ →
  demo_view (set_buffer p (Some (splice buf (Z.to_nat (nBuffer p)) src))
               (nBuffer p + Z.of_nat (length src)) (i - nBuffer p)) w =
  (λ v, write_at v (Z.to_nat i) src) <$> demo_view p w.
Proof.
  intros Hf Hok Eb Hi Hat Hfit.
  destruct (demo_ok_buffer p buf Hok Eb) as (Hl & Hr & ? & ?).
  unfold demo_view. simpl. rewrite Hf, Eb. simpl. f_equal.
  assert (take (Z.to_nat (nBuffer p + Z.of_nat (length src)))
            (splice buf (Z.to_nat (nBuffer p)) src)
          = take (Z.to_nat (nBuffer p)) buf ++ src) as ->.
  { unfold splice. rewrite app_assoc. rewrite take_app_le.
    - apply take_ge. rewrite length_app, length_take. lia.
    - rewrite length_app, length_take. lia. }
  rewrite <- write_at_app. rewrite length_take, Nat.min_l by lia.
  destruct Hat as [Hz|Hat].
  - rewrite Hz. change (Z.to_nat 0) with 0%nat.
    rewrite take_0, !write_at_nil, Z.sub_0_r. f_equal. lia.
  - subst i. replace (iBufferOfst p + nBuffer p - nBuffer p) with (iBufferOfst p) by lia.
    f_equal. lia.
Qed.

(** One turn of the loop after its flush: the invariant, and progress. *)
Lemma demo_ok_append p buf src i :
  demo_ok p → aBuffer p = Some buf → 0 ≤ i →
  nBuffer p = 0 ∨ iBufferOfst p + nBuffer p = i →
  nBuffer p + Z.of_nat (length src) ≤ SQLITE_TEEVFS_BUFFERSZ →
  i + Z.of_nat (length src) < 2 ^ 63 →
  demo_ok (set_buffer p (Some (splice buf (Z.to_nat (nBuffer p)) src))
             (nBuffer p + Z.of_nat (length src)) (i - nBuffer p)).
Proof.
  intros Hok Eb Hi Hat Hfit Hmax.
  destruct (demo_ok_buffer p buf Hok Eb) as (Hl & Hr & ? & ?).
  unfold demo_ok. simpl. rewrite CMem.length_splice by lia. lia.
Qed.

(** The loop's first test neither overflows nor lets data that is not adjacent
    through. *)
Lemma full_or_apart_spec p i w buf :
  demo_ok p → aBuffer p = Some buf →
  ∃ b : bool,
    (if decide (nBuffer p = SQLITE_TEEVFS_BUFFERSZ) then ret true
     else let! e := chk_signed 64 (iBufferOfst p + nBuffer p) in
          ret (bool_decide (e ≠ i))) w = Ret (b, w) ∧
    (b = false → nBuffer p ≠ SQLITE_TEEVFS_BUFFERSZ ∧ iBufferOfst p + nBuffer p = i).
Proof.
  intros Hok Eb. destruct (demo_ok_buffer p buf Hok Eb) as (Hl & Hr & ? & ?).
  case_decide; [by exists true|].
  run_step chk_signed_eq.
  exists (bool_decide (iBufferOfst p + nBuffer p ≠ i)). split; [done|].
  intros Hb%bool_decide_eq_false. split; [done|]. by apply dec_stable.
Qed.

(** After the conditional flush, the buffer is empty or ends where the data
    begins with room to spare; the view is as before. *)
Lemma make_room_spec (b : bool) p i w l pos buf :
  fd_file w (fd p) = Some (l, pos) → demo_ok p → aBuffer p = Some buf →
  (b = false → nBuffer p ≠ SQLITE_TEEVFS_BUFFERSZ ∧ iBufferOfst p + nBuffer p = i) →
  ∃ rc p1 w1 l1 pos1,
    (if b then demoFlushBuffer p else ret (SQLITE_OK, p)) w = Ret ((rc, p1), w1) ∧
    demo_ok p1 ∧ fd p1 = fd p ∧ aBuffer p1 = Some buf ∧
    fd_file w1 (fd p) = Some (l1, pos1) ∧
    (nBuffer p1 = 0 ∨ nBuffer p1 ≠ SQLITE_TEEVFS_BUFFERSZ ∧ iBufferOfst p1 + nBuffer p1 = i) ∧
    ((rc = SQLITE_OK ∧ demo_view p1 w1 = demo_view p w) ∨ rc = SQLITE_IOERR_WRITE).
Proof.
  intros Hf Hok Eb Hb. destruct b.
  - destruct (demoFlushBuffer_spec p w l pos Hf Hok)
      as (rc & p1 & w1 & l1 & pos1 & E & -> & Hok1 & Hf1 & Hrc).
    exists rc, (set_buffer p (aBuffer p) 0 (iBufferOfst p)), w1, l1, pos1.
    split_and!; try done; [by left|]. destruct Hrc as [[-> ->]| ->]; [left|by right].
    split; [done|]. by apply (demo_view_empty _ _ _ pos1).
  - exists SQLITE_OK, p, w, l, pos. split_and!; try done; [right; by apply Hb|by left].
Qed.

(** One turn of the loop whose flush succeeds: [nCopy] bytes are appended to the
    buffer, and its assertion holds. *)
Lemma loop_turn p z n i w (b : bool) p1 w1 buf :
  (if decide (nBuffer p = SQLITE_TEEVFS_BUFFERSZ) then ret true
   else let! e := chk_signed 64 (iBufferOfst p + nBuffer p) in ret (bool_decide (e ≠ i))) w = Ret (b, w) →
  (if b then demoFlushBuffer p else ret (SQLITE_OK, p)) w = Ret ((SQLITE_OK, p1), w1) →
  demo_ok p1 → aBuffer p1 = Some buf →
  (nBuffer p1 = 0 ∨ nBuffer p1 ≠ SQLITE_TEEVFS_BUFFERSZ ∧ iBufferOfst p1 + nBuffer p1 = i) →
  0 < n ≤ Z.of_nat (length z) → 0 ≤ i → i + n < 2 ^ 63 →
  ∃ src, src ≠ [] ∧ src = take (length src) z ∧ Z.of_nat (length src) ≤ n ∧
    nBuffer p1 + Z.of_nat (length src) ≤ SQLITE_TEEVFS_BUFFERSZ ∧
    (Z.of_nat (length src) = n ∨ nBuffer p1 + Z.of_nat (length src) = SQLITE_TEEVFS_BUFFERSZ) ∧
    ∀ fuel, demoWrite_loop (S fuel) p z n i w =
      demoWrite_loop fuel
        (set_buffer p1 (Some (splice buf (Z.to_nat (nBuffer p1)) src)) (nBuffer p1 + Z.of_nat (length src)) (i - nBuffer p1))
        (drop (length src) z) (n - Z.of_nat (length src)) (i + Z.of_nat (length src)) w1.
Proof.
  intros E1 E2 Hok1 Eb1 Hat Hn Hi Hmax.
  destruct (demo_ok_buffer p1 buf Hok1 Eb1) as (Hl & Hr & Hio & Him). unfold SQLITE_TEEVFS_BUFFERSZ in *.
  set (nCopy := if decide (8192 - nBuffer p1 > n) then n else 8192 - nBuffer p1).
  assert (0 < nCopy ≤ n ∧ nCopy ≤ 8192 - nBuffer p1 ∧ (nCopy = n ∨ nBuffer p1 + nCopy = 8192)) as (Hc & Hc8 & Hce)
    by (unfold nCopy; destruct (decide (8192 - nBuffer p1 > n)); lia).
  assert (Z.of_nat (length (take (Z.to_nat nCopy) z)) = nCopy) as Hsrc by (rewrite length_take; lia).
  exists (take (Z.to_nat nCopy) z). rewrite Hsrc. replace (length (take (Z.to_nat nCopy) z)) with (Z.to_nat nCopy) by lia.
  split; [intros Enil; by rewrite Enil in Hsrc; simpl in Hsrc; clear -Hsrc Hc; lia|].
  split; [done|]. split; [lia|]. split; [lia|]. split; [done|]. intros fuel.
  cbn [demoWrite_loop]. rewrite decide_True by lia. unfold SQLITE_TEEVFS_BUFFERSZ.
  rewrite (bind_run _ _ _ _ _ E1), (bind_run _ _ _ _ _ E2), decide_False by (intros Hne; by apply Hne).
  rewrite (bind_run _ _ w1 tt w1) by (unfold c_assert; destruct Hat as [->|[_ ->]];
    rewrite (bool_decide_true _ eq_refl), ?orb_true_r; done).
  run_step chk_signed_eq.
  rewrite Eb1. change (lift (Some buf)) with (ret (S:=W) buf). rewrite bind_ret_l. fold nCopy.
  clearbody nCopy. run_step read_buf_eq. run_step memcpy_at_eq. by run_step chk_signed_eq.
Qed.

(** The loop copies [n] bytes of [z] to offset [i] of the view, in at most [n]
    turns, and its assertion never fails. *)
Lemma demoWrite_loop_spec fuel p z n i w l pos :
  fd_file w (fd p) = Some (l, pos) → demo_ok p → is_Some (aBuffer p) →
  0 ≤ n ≤ Z.of_nat (length z) → n ≤ Z.of_nat fuel → 0 ≤ i → i + n < 2 ^ 63 →
  ∃ rc p' w' l' pos',
    demoWrite_loop fuel p z n i w = Ret ((rc, p'), w') ∧
    demo_ok p' ∧ fd p' = fd p ∧ is_Some (aBuffer p') ∧
    fd_file w' (fd p) = Some (l', pos') ∧
    ((rc = SQLITE_OK ∧
      demo_view p' w' = (λ v, write_at v (Z.to_nat i) (take (Z.to_nat n) z)) <$> demo_view p w)
     ∨ rc = SQLITE_IOERR_WRITE).
Proof.
  revert p z n i w l pos.
  induction fuel as [|fuel IH]; intros p z n i w l pos Hf Hok [buf Eb] Hn Hfuel Hi Hmax.
  all: destruct (decide (n = 0)) as [->|Hn0].
  all: try (by exfalso; lia).
  1-2: exists SQLITE_OK, p, w, l, pos; split_and!; eauto; left;
       (split; [done|]); by destruct (demo_view p w).
  destruct (full_or_apart_spec p i w buf Hok Eb) as (b & E & Hb).
  destruct (make_room_spec b p i w l pos buf Hf Hok Eb Hb)
    as (rc & p1 & w1 & l1 & pos1 & E1 & Hok1 & Hfd & Eb1 & Hf1 & Hat & Hrc).
  destruct Hrc as [[-> Hview]| ->].
  2:{ cbn [demoWrite_loop]. rewrite decide_True by lia. rewrite (bind_run _ _ _ _ _ E), (bind_run _ _ _ _ _ E1).
      rewrite decide_True by done. exists SQLITE_IOERR_WRITE, p1, w1, l1, pos1. split_and!; try done. by right. }
  destruct (loop_turn p z n i w b p1 w1 buf E E1 Hok1 Eb1 Hat) as (src & Hsn & Hsrc & Hls & Hfit & _ & ->); [lia..|].
  assert (0 < length src)%nat as Hpos by (destruct src; [done|simpl; lia]).
  set (p2 := set_buffer p1 _ _ _).
  assert (nBuffer p1 = 0 ∨ iBufferOfst p1 + nBuffer p1 = i) as Hat' by tauto.
  assert (demo_ok p2) as Hok2 by (apply demo_ok_append; auto; lia).
  assert (demo_view p2 w1 = (λ v, write_at v (Z.to_nat i) src) <$> demo_view p w) as Hv2.
  { rewrite <- Hview. apply (demo_view_append p1 w1 l1 pos1 buf src i); try done. by rewrite Hfd. }
  destruct (IH p2 (drop (length src) z) (n - Z.of_nat (length src)) (i + Z.of_nat (length src)) w1 l1 pos1)
    as (rc & p' & w' & l' & pos' & E' & Hok' & Hfd' & Hbuf' & Hf' & Hrc);
    [by rewrite <- Hf1, <- Hfd|done|by eexists|rewrite length_drop; lia|lia..|].
  exists rc, p', w', l', pos'. split_and!; try done.
  - by rewrite Hfd', <- Hfd.
  - by rewrite <- Hf', <- Hfd.
  - destruct Hrc as [[-> Hv]|]; [left|by right]. split; [done|].
    rewrite Hv, Hv2. destruct (demo_view p w) as [v|]; [|done]. simpl. f_equal.
    replace (Z.to_nat (i + Z.of_nat (length src))) with (Z.to_nat i + length src)%nat by lia.
    rewrite write_at_app. f_equal.
    transitivity (take (length src) z ++ take (Z.to_nat (n - Z.of_nat (length src))) (drop (length src) z));
      [by rewrite <- Hsrc|]. rewrite take_take_drop. f_equal. lia.
Qed.

(** A read of the whole range [iAmt] from a flushed file. *)
Lemma read_step_spec p zBuf iAmt w l pos :
  fd_file w (fd p) = Some (l, pos) → 0 ≤ iAmt ≤ Z.of_nat (length zBuf) → iAmt < 2 ^ 31 →
  ∃ r part w' pos',
    utee_vfs_read (fd p) (take (Z.to_nat iAmt) zBuf) w = Ret ((r, part), w') ∧
    read_result l pos (take (Z.to_nat iAmt) zBuf) r part pos' ∧
    fd_file w' (fd p) = Some (l, pos') ∧ s32 r = r ∧
    length (take (Z.to_nat iAmt) zBuf) = Z.to_nat iAmt.
Proof.
  intros Hf Ha Hm.
  assert (length (take (Z.to_nat iAmt) zBuf) = Z.to_nat iAmt) as Hlen
    by (rewrite length_take; lia).
  destruct (read_law w (fd p) (take (Z.to_nat iAmt) zBuf) l pos Hf)
    as (r & part & w' & pos' & E & Hr & Hf'); [lia|].
  exists r, part, w', pos'. split_and!; try done.
  apply signed_id; [lia|]. unfold in_signed.
  destruct Hr as [_ [[-> _]|(k & Hk & -> & _)]]; [lia|].
  rewrite length_read_at in Hk. lia.
Qed.

(** [demoWrite] in terms of the descriptor. *)
Lemma demoWrite_spec p w l pos zBuf iAmt iOfst :
  fd_file w (fd p) = Some (l, pos) → demo_ok p →
  0 ≤ iAmt ≤ Z.of_nat (length zBuf) → iAmt < 2 ^ 31 →
  0 ≤ iOfst → iOfst + iAmt < 2 ^ 63 →
  ∃ rc p' w',
    demoWrite p zBuf iAmt iOfst w = Ret ((rc, p'), w') ∧
    demo_ok p' ∧ fd p' = fd p ∧ is_Some (fd_file w' (fd p)) ∧
    ((rc = SQLITE_OK ∧
      demo_view p' w' =
        (λ v, write_at v (Z.to_nat iOfst) (take (Z.to_nat iAmt) zBuf)) <$> demo_view p w)
     ∨ rc = SQLITE_IOERR_WRITE).
Proof.
  intros Hf Hok Ha Hm Ho Hom. unfold demoWrite. destruct (aBuffer p) as [buf|] eqn:Eb.
  - destruct (demoWrite_loop_spec (Z.to_nat iAmt) p zBuf iAmt iOfst w l pos)
      as (rc & p' & w' & l' & pos' & E & Hok' & Hfd & _ & Hf' & Hrc); eauto; [lia|].
    exists rc, p', w'. split_and!; eauto.
  - destruct (demoDirectWrite_spec p zBuf iAmt iOfst w l pos)
      as (rc & w' & k & pos' & E & Hk & Hf' & Hrc); eauto; [lia|].
    rewrite (bind_run _ _ _ _ _ E). exists rc, p, w'. split_and!; eauto.
    destruct Hrc as [[-> ->]| ->]; [left|by right].
    unfold demo_view. by rewrite Hf', Hf, Eb.
Qed.

(** A buffer of which [k] bytes were read, the rest of the [n] asked for zeroed. *)
Lemma zero_tail (part rest got : bytes) k n :
  length part = n → (k < n)%nat → take k part = got → length got = k →
  let buf := splice (part ++ rest) k (replicate (n - k) 0) in
  length buf = length (part ++ rest) ∧ take n buf = got ++ replicate (n - k) 0 ∧ drop n buf = rest.
Proof.
  intros Hp Hk Hg Hl buf.
  assert (buf = (got ++ replicate (n - k) 0) ++ rest) as ->.
  { unfold buf, splice. rewrite take_app_le, Hg, length_replicate, drop_app_ge by lia.
    replace (k + (n - k) - length part)%nat with 0%nat by lia. by rewrite drop_0, <- app_assoc. }
  assert (length (got ++ replicate (n - k) 0) = n) as Hn by (rewrite length_app, length_replicate; lia).
  split_and!; [rewrite length_app, Hn, length_app; lia|by apply take_app_length'|by apply drop_app_length'].
Qed.

(** [demoRead] in terms of the descriptor. *)
Lemma demoRead_spec p w l pos zBuf iAmt iOfst :
  fd_file w (fd p) = Some (l, pos) → demo_ok p →
  0 ≤ iAmt ≤ Z.of_nat (length zBuf) → iAmt < 2 ^ 31 → 0 ≤ iOfst < 2 ^ 63 →
  ∃ rc p' buf w',
    demoRead p zBuf iAmt iOfst w = Ret ((rc, p', buf), w') ∧
    demo_ok p' ∧ length buf = length zBuf ∧
    drop (Z.to_nat iAmt) buf = drop (Z.to_nat iAmt) zBuf ∧
    (rc = SQLITE_OK ∧
       (∃ v, demo_view p w = Some v ∧ demo_view p' w' = Some v ∧
          take (Z.to_nat iAmt) buf = read_at v (Z.to_nat iOfst) (Z.to_nat iAmt) ∧
          ((Z.to_nat iOfst + Z.to_nat iAmt ≤ length v)%nat ∨ iAmt = 0))
     ∨ rc = SQLITE_IOERR_SHORT_READ ∧
       (∃ v k, demo_view p w = Some v ∧ demo_view p' w' = Some v ∧
          (k < Z.to_nat iAmt)%nat ∧
          take (Z.to_nat iAmt) buf =
            take k (read_at v (Z.to_nat iOfst) (Z.to_nat iAmt))
            ++ replicate (Z.to_nat iAmt - k) 0)
     ∨ rc = SQLITE_IOERR_READ ∨ rc = SQLITE_IOERR_WRITE).
Proof.
  intros Hf Hok Ha Hm Ho. unfold demoRead.
  destruct (demoFlushBuffer_spec p w l pos Hf Hok)
    as (rc & p1 & w1 & v & pos1 & E & -> & Hok1 & Hf1 & Hrc).
  rewrite (bind_run _ _ _ _ _ E). clear E. set (p1 := set_buffer p _ 0 _) in *.
  case_decide as Hrc0.
  { exists rc, p1, zBuf, w1. split_and!; try done. destruct Hrc as [[? _]| ->]; [done|tauto]. }
  destruct Hrc as [[-> Hv]| ->]; [|done].
  destruct (lseek_law w1 (fd p1) iOfst v pos1 Hf1 Ho) as (r & w2 & E & Hr).
  rewrite (bind_run _ _ _ _ _ E). clear E. case_decide as Hne.
  { exists SQLITE_IOERR_READ, p1, zBuf, w2. split_and!; try done. tauto. }
  destruct Hr as [(_ & Hf2)|[? _]]; [|done].
  assert (u64 iAmt = iAmt) as -> by (apply unsigned_id; unfold in_unsigned; lia).
  run_step read_buf_eq.
  destruct (read_step_spec p1 zBuf iAmt w2 v (Z.to_nat iOfst) Hf2 Ha Hm)
    as (n & part & w3 & pos3 & E & [Hlp Hres] & Hf3 & Hs & Hl).
  rewrite (bind_run _ _ _ _ _ E). clear E. rewrite Hs. rewrite Hl in Hlp, Hres.
  assert (demo_view p1 w3 = Some v) as Hv3 by by eapply demo_view_empty.
  destruct Hres as [[-> _]|(k & Hk & -> & Hpart & _)].
  { rewrite decide_False, decide_False by lia.
    exists SQLITE_IOERR_READ, p1, (part ++ drop (Z.to_nat iAmt) zBuf), w3.
    split_and!; try done; [rewrite length_app, length_drop; lia|by rewrite drop_app_length'|tauto]. }
  rewrite length_read_at in Hk. case_decide as Hfull.
  - exists SQLITE_OK, p1, (part ++ drop (Z.to_nat iAmt) zBuf), w3.
    split_and!; try done; [rewrite length_app, length_drop; lia|by rewrite drop_app_length'|].
    left. split; [done|]. exists v. split_and!; try done; [|lia].
    replace k with (Z.to_nat iAmt) in Hpart by lia.
    rewrite take_app_length' by lia. rewrite (take_ge part) in Hpart by lia.
    rewrite Hpart. apply take_ge. rewrite length_read_at. lia.
  - rewrite decide_True, decide_True by lia.
    erewrite bind_run by (apply memcpy_at_eq; rewrite length_replicate, length_app, length_drop; lia).
    destruct (zero_tail part (drop (Z.to_nat iAmt) zBuf) (take k (read_at v (Z.to_nat iOfst) (Z.to_nat iAmt))) k (Z.to_nat iAmt))
      as (Hlb & Htk & Hdr); [done|lia|done|rewrite length_take, length_read_at; lia|].
    replace (Z.to_nat (iAmt - Z.of_nat k)) with (Z.to_nat iAmt - k)%nat by lia. rewrite Nat2Z.id.
    eexists SQLITE_IOERR_SHORT_READ, p1, _, w3. split; [done|]. split; [done|].
    split; [rewrite Hlb, length_app, length_drop; lia|]. split; [done|].
    right; left. split; [done|]. exists v, k. split_and!; try done. lia.
Qed.


Lemma demo_repr_open p w v :
  demo_repr p w v → ∃ l pos, fd_file w (fd p) = Some (l, pos) ∧ demo_ok p ∧ demo_view p w = Some v.
Proof.
  intros [Hok Hv]. unfold demo_view in Hv.
  destruct (fd_file w (fd p)) as [[l pos]|] eqn:Hf; [|done].
  exists l, pos. split_and!; try done. unfold demo_view. by rewrite Hf.
Qed.

Lemma demo_view_Some p w l pos :
  fd_file w (fd p) = Some (l, pos) → ∃ v, demo_view p w = Some v.
Proof. unfold demo_view. intros ->. eauto. Qed.

Lemma demo_repr_flushed p w l pos :
  fd_file w (fd p) = Some (l, pos) → demo_ok p → nBuffer p = 0 → demo_repr p w l.
Proof. intros. split; [done|]. by eapply demo_view_empty. Qed.

(** ** Properties *)

(** The write buffer is invisible.  From a file that SQLite sees as [v],
    [demoWrite] always returns (its loop ends, its [assert] holds, it never
    touches memory outside the buffer); with [SQLITE_OK] SQLite sees what a
    POSIX write of the same bytes at the same offset makes of [v], whether the
    bytes are buffered, flushed or written directly; the only error code is
    [SQLITE_IOERR_WRITE], and the file stays usable. *)
Theorem demoWrite_refines p w v zBuf iAmt iOfst :
  demo_repr p w v →
  0 ≤ iAmt ≤ Z.of_nat (length zBuf) → iAmt < 2 ^ 31 →
  0 ≤ iOfst → iOfst + iAmt < 2 ^ 63 →
  ∃ rc p' w' v',
    demoWrite p zBuf iAmt iOfst w = Ret ((rc, p'), w') ∧ demo_repr p' w' v' ∧
    (rc = SQLITE_OK ∧ v' = write_at v (Z.to_nat iOfst) (take (Z.to_nat iAmt) zBuf)
     ∨ rc = SQLITE_IOERR_WRITE).
Proof.
  intros (l & pos & Hf & Hok & Hv)%demo_repr_open Ha Hm Ho Hom.
  destruct (demoWrite_spec p w l pos zBuf iAmt iOfst)
    as (rc & p' & w' & E & Hok' & Hfd & [[l' pos'] Hf'] & Hrc); try done.
  rewrite <- Hfd in Hf'. destruct (demo_view_Some p' w' l' pos' Hf') as [v' Hv'].
  exists rc, p', w', v'. split_and!; try done.
  destruct Hrc as [[-> Hw]| ->]; [left|by right].
  rewrite Hv, Hv' in Hw. by simplify_eq/=.
Qed.

(** [demoRead] sees buffered writes.  From a file that SQLite sees as [v],
    it always returns, never disturbs [v] and never writes outside the [iAmt]
    bytes asked for.  [SQLITE_OK] comes with exactly the bytes of [v] in the
    range, all within the file; [SQLITE_IOERR_SHORT_READ] with fewer bytes of
    the range, the rest of the [iAmt] bytes filled with zeros. *)
Theorem demoRead_sees_view p w v zBuf iAmt iOfst :
  demo_repr p w v →
  0 ≤ iAmt ≤ Z.of_nat (length zBuf) → iAmt < 2 ^ 31 → 0 ≤ iOfst < 2 ^ 63 →
  ∃ rc p' buf w',
    demoRead p zBuf iAmt iOfst w = Ret ((rc, p', buf), w') ∧
    drop (Z.to_nat iAmt) buf = drop (Z.to_nat iAmt) zBuf ∧
    let range := read_at v (Z.to_nat iOfst) (Z.to_nat iAmt) in
    (rc = SQLITE_OK ∧ demo_repr p' w' v ∧
       take (Z.to_nat iAmt) buf = range ∧ length range = Z.to_nat iAmt
     ∨ rc = SQLITE_IOERR_SHORT_READ ∧ demo_repr p' w' v ∧
       (∃ k, (k < Z.to_nat iAmt)%nat ∧
          take (Z.to_nat iAmt) buf = take k range ++ replicate (Z.to_nat iAmt - k) 0)
     ∨ rc = SQLITE_IOERR_READ ∨ rc = SQLITE_IOERR_WRITE).
Proof.
  intros (l & pos & Hf & Hok & Hv)%demo_repr_open Ha Hm Ho.
  destruct (demoRead_spec p w l pos zBuf iAmt iOfst)
    as (rc & p' & buf & w' & E & Hok' & Hb & Hd & Hrc); try done.
  exists rc, p', buf, w'. split_and!; try done. simpl.
  destruct Hrc as [(-> & v' & Hv1 & Hv2 & Ht & Hlen)|[(-> & v' & k & Hv1 & Hv2 & Hk & Ht)|?]];
    [left|right; left|by right; right].
  all: rewrite Hv in Hv1; simplify_eq; split_and!; eauto; try done.
  rewrite length_read_at. lia.
Qed.

(** [demoSync] in terms of what SQLite sees. *)
Lemma demoSync_spec p w v flags :
  demo_repr p w v →
  ∃ rc p' w' l' pos',
    demoSync p flags w = Ret ((rc, p'), w') ∧
    fd_file w' (fd p) = Some (l', pos') ∧ demo_repr p' w' l' ∧ nBuffer p' = 0 ∧
    (rc = SQLITE_OK ∧ l' = v ∨ rc = SQLITE_IOERR_FSYNC ∧ l' = v ∨ rc = SQLITE_IOERR_WRITE).
Proof.
  intros (l & pos & Hf & Hok & Hv)%demo_repr_open. unfold demoSync.
  destruct (demoFlushBuffer_spec p w l pos Hf Hok)
    as (rc & p1 & w1 & v1 & pos1 & E & -> & Hok1 & Hf1 & Hrc).
  rewrite (bind_run _ _ _ _ _ E). clear E. set (p1 := set_buffer p _ 0 _) in *.
  case_decide as Hrc0.
  { exists rc, p1, w1, v1, pos1. split_and!; try done; [by eapply demo_repr_flushed|].
    destruct Hrc as [[? _]| ->]; [done|tauto]. }
  destruct Hrc as [[-> Hv1]| ->]; [|done]. rewrite Hv in Hv1. simplify_eq.
  destruct (fsync_law w1 (fd p1) v1 pos1 Hf1) as (r & w2 & E & Hf2).
  rewrite (bind_run _ _ _ _ _ E).
  exists (if decide (r = 0) then SQLITE_OK else SQLITE_IOERR_FSYNC), p1, w2, v1, pos1.
  split_and!; try done; [by eapply demo_repr_flushed|]. case_decide; tauto.
Qed.

(** [demoSync] makes the file SQLite sees durable: when it returns
    [SQLITE_OK] the descriptor holds exactly that file and nothing is buffered;
    otherwise the code says whether the flush or the fsync failed. *)
Theorem demoSync_durable p w v flags :
  demo_repr p w v →
  ∃ rc p' w' l' pos',
    demoSync p flags w = Ret ((rc, p'), w') ∧
    fd_file w' (fd p) = Some (l', pos') ∧ demo_repr p' w' l' ∧ nBuffer p' = 0 ∧
    (rc = SQLITE_OK ∧ l' = v ∨ rc = SQLITE_IOERR_FSYNC ∧ l' = v ∨ rc = SQLITE_IOERR_WRITE).
Proof. apply demoSync_spec. Qed.

(** [demoFileSize] reports the length of the file SQLite sees, buffered
    bytes included, and stores nothing when it fails. *)
Theorem demoFileSize_spec p w v :
  demo_repr p w v →
  ∃ rc p' size w',
    demoFileSize p w = Ret ((rc, p', size), w') ∧
    (rc = SQLITE_OK ∧ demo_repr p' w' v ∧ size = Some (Z.of_nat (length v))
     ∨ (rc = SQLITE_IOERR_FSTAT ∨ rc = SQLITE_IOERR_WRITE) ∧ size = None).
Proof.
  intros (l & pos & Hf & Hok & Hv)%demo_repr_open. unfold demoFileSize.
  destruct (demoFlushBuffer_spec p w l pos Hf Hok)
    as (rc & p1 & w1 & v1 & pos1 & E & -> & Hok1 & Hf1 & Hrc).
  rewrite (bind_run _ _ _ _ _ E). clear E. set (p1 := set_buffer p _ 0 _) in *.
  case_decide as Hrc0.
  { exists rc, p1, None, w1. split_and!; try done. destruct Hrc as [[? _]| ->]; [done|tauto]. }
  destruct Hrc as [[-> Hv1]| ->]; [|done]. rewrite Hv in Hv1. simplify_eq.
  destruct (filesize_law w1 (fd p1) v1 pos1 Hf1) as (r & w2 & E & Hr & Hf2).
  rewrite (bind_run _ _ _ _ _ E). case_decide as Hr1.
  - exists SQLITE_IOERR_FSTAT, p1, None, w2. split_and!; try done. tauto.
  - exists SQLITE_OK, p1, (Some r), w2. split_and!; try done. left. split; [done|].
    destruct Hr as [?| ->]; [done|]. split_and!; try done. by eapply demo_repr_flushed.
Qed.

(** A read after a write.  When [demoWrite] of some bytes returns
    [SQLITE_OK] and [demoRead] of the same range then returns [SQLITE_OK], the
    buffer holds the bytes written, whether they went through the write buffer
    or not. *)
Theorem demoRead_demoWrite p w v zBuf iAmt iOfst zOut rc p1 w1 rc' p2 out w2 :
  demo_repr p w v →
  0 ≤ iAmt ≤ Z.of_nat (length zBuf) → length zOut = length zBuf → iAmt < 2 ^ 31 →
  0 ≤ iOfst → iOfst + iAmt < 2 ^ 63 →
  demoWrite p zBuf iAmt iOfst w = Ret ((rc, p1), w1) → rc = SQLITE_OK →
  demoRead p1 zOut iAmt iOfst w1 = Ret ((rc', p2, out), w2) → rc' = SQLITE_OK →
  take (Z.to_nat iAmt) out = take (Z.to_nat iAmt) zBuf.
Proof.
  intros (l & pos & Hf & Hok & Hv)%demo_repr_open Ha Hl Hm Ho Hom Ew -> Er ->.
  destruct (demoWrite_spec p w l pos zBuf iAmt iOfst)
    as (? & ? & ? & Ew' & Hok1 & Hfd & [[l1 pos1] Hf1] & Hrc); try done.
  rewrite Ew in Ew'. injection Ew' as <- <- <-. destruct Hrc as [[_ Hv1]|?]; [|done].
  rewrite <- Hfd in Hf1.
  destruct (demoRead_spec p1 w1 l1 pos1 zOut iAmt iOfst)
    as (? & ? & ? & ? & Er' & _ & _ & _ & Hrc); try done; [by rewrite Hl|lia|].
  rewrite Er in Er'. injection Er' as <- <- <- <-.
  destruct Hrc as [(_ & v' & Hv2 & _ & -> & _)|[[? _]|[?|?]]]; try done.
  rewrite Hv in Hv1. rewrite Hv1 in Hv2. simplify_eq/=.
  rewrite <- (read_write_at v (Z.to_nat iOfst) (take (Z.to_nat iAmt) zBuf)) at 2.
  f_equal. rewrite length_take. lia.
Qed.
End methods.

(** * Properties of the VFS's own methods *)
Section vfs_methods.
Context {W : Type} `{UteeVfs W}.
Variable sqlite3_malloc : Z → C W (option bytes).
Variable sqlite3_free : option bytes → C W unit.
Variable sqlite3_snprintf : Z → bytes → bytes → bytes.
Variable uninit : Z → bytes.

(** SQLite documents that [sqlite3_malloc] gives as many bytes as asked for, or
    NULL, and that [sqlite3_snprintf] writes at most [n - 1] bytes of the text
    and a NUL; a local array has the size it is declared with. *)
Hypothesis malloc_law : ∀ n w b w', sqlite3_malloc n w = Ret (Some b, w') → 0 ≤ n → Z.of_nat (length b) = n.
Hypothesis snprintf_law : ∀ n buf text,
  0 < n ≤ Z.of_nat (length buf) →
  ∃ rest, sqlite3_snprintf n buf text = take (Z.to_nat (n - 1)) text ++ 0 :: rest ∧
          length (sqlite3_snprintf n buf text) = length buf.
Hypothesis uninit_law : ∀ n, 0 ≤ n → Z.of_nat (length (uninit n)) = n.

(** The [open] flags for SQLite's, bit by bit. *)
Definition open_flags (flags : Z) : Z :=
  (if Z.testbit flags 4 then O_EXCL else 0) + (if Z.testbit flags 2 then O_CREAT else 0)
  + (if Z.testbit flags 1 then O_RDWR else 0).

Lemma flag_set_testbit flags k : 0 ≤ k → flag_set flags (2 ^ k) = Z.testbit flags k.
Proof.
  intros. unfold flag_set. destruct (Z.testbit flags k) eqn:E.
  - apply bool_decide_eq_true. intros Hz.
    assert (Z.testbit (Z.land flags (2 ^ k)) k = false) as Hk by by rewrite Hz, Z.testbit_0_l.
    rewrite Z.land_spec, E, Z.pow2_bits_true in Hk by lia. done.
  - apply bool_decide_eq_false. intros Hn. apply Hn. apply Z.bits_inj'. intros m ?.
    rewrite Z.land_spec, Z.testbit_0_l. destruct (decide (m = k)) as [->|].
    + by rewrite E.
    + rewrite Z.pow2_bits_false by lia. apply andb_false_r.
Qed.

(** What a successful [demoOpen] sets up.  The descriptor comes from one
    [open] with mode 0600 and exactly the flags SQLite's bits stand for; the
    method table is set; a write buffer exists exactly for a main journal, and
    it is empty, so the file is seen as the descriptor holds it.  On failure
    the code is one of the three the method documents, no method table is
    installed by the call and nothing is stored at [*pOutFlags]. *)
Theorem demoOpen_spec zName p flags out w rc p' o w' :
  demoOpen sqlite3_malloc sqlite3_free zName p flags out w = Ret ((rc, p', o), w') →
  (rc = SQLITE_OK ∧
   (∃ name w1, zName = Some name ∧
      utee_vfs_open name (open_flags flags) 384 w1 = Ret (fd p', w')) ∧
   0 ≤ fd p' ∧ pMethods p' = true ∧ demo_ok p' ∧ nBuffer p' = 0 ∧
   (is_Some (aBuffer p') ↔ Z.testbit flags 11 = true) ∧
   o = (if out then Some flags else None))
  ∨ ((rc = SQLITE_IOERR ∧ zName = None ∨ rc = SQLITE_NOMEM ∧ p' = p
      ∨ rc = SQLITE_CANTOPEN ∧ fd p' < 0 ∧ pMethods p' = false) ∧ o = None).
Proof.
  unfold demoOpen. destruct zName as [name|]; [|intros [= <- <- <- <-]; right; tauto].
  change SQLITE_OPEN_MAIN_JOURNAL with (2 ^ 11). change SQLITE_OPEN_EXCLUSIVE with (2 ^ 4).
  change SQLITE_OPEN_CREATE with (2 ^ 2). change SQLITE_OPEN_READONLY with (2 ^ 0).
  change SQLITE_OPEN_READWRITE with (2 ^ 1). rewrite !flag_set_testbit by lia.
  intros Hr. apply bind_inv in Hr as ([failed aBuf] & w1 & Hm & Hr).
  destruct failed; [injection Hr as <- <- <- <-; right; tauto|].
  assert ((is_Some aBuf ↔ Z.testbit flags 11 = true) ∧
          (∀ b, aBuf = Some b → Z.of_nat (length b) = SQLITE_TEEVFS_BUFFERSZ)) as [Hj Hl].
  { destruct (Z.testbit flags 11).
    - apply bind_inv in Hm as ([b|] & w2 & Hb & Hm); [|done].
      injection Hm as <- <-.
      split; [by split; eauto|]. intros ? [= <-]. by eapply malloc_law; [exact Hb|].
    - injection Hm as <- <-. split; [by split; [intros []|]|done]. }
  apply bind_inv in Hr as (f & w2 & Hopen & Hr). simpl in Hr.
  replace (if Z.testbit flags 1 then _ else _) with (open_flags flags) in Hopen
    by (unfold open_flags; destruct (Z.testbit flags 4), (Z.testbit flags 2),
          (Z.testbit flags 0), (Z.testbit flags 1); reflexivity).
  case_decide as Hneg.
  { apply bind_inv in Hr as (? & w3 & _ & Hr). injection Hr as <- <- <- <-.
    right. split; [|done]. right; right. by split_and!. }
  injection Hr as <- <- <- <-.
  left. split_and!; simpl; eauto; try done; [lia|].
  unfold demo_ok. simpl. destruct aBuf as [b|]; [|done].
  rewrite (Hl b) by done. unfold SQLITE_TEEVFS_BUFFERSZ. lia.
Qed.

Lemma strrchr_not_in s c : c ∉ s → strrchr s c = None.
Proof.
  induction s as [|b s IH]; [done|]. intros [Hb Hs]%not_elem_of_cons. simpl.
  rewrite IH by done. by rewrite decide_False.
Qed.

Lemma strrchr_last dir base c : c ∉ base → strrchr (dir ++ c :: base) c = Some (length dir).
Proof.
  intros Hb. induction dir as [|b dir IH]; simpl; [|by rewrite IH].
  rewrite strrchr_not_in by done. by rewrite decide_True.
Qed.

(** Printing a string that has no NUL, then forcing a NUL at byte [last], reads
    back as the string cut to the smaller of the two limits. *)
Lemma snprintf_cut n buf text last (w : W) :
  0 < n ≤ Z.of_nat (length buf) → n - 1 ≤ last < Z.of_nat (length buf) → 0 ∉ text →
  ∃ out, memcpy_at (sqlite3_snprintf n buf text) last [0] w = Ret (out, w) ∧
    length out = length buf ∧ cstring out = Some (take (Z.to_nat (n - 1)) text).
Proof.
  intros Hn Hlast Hz. destruct (snprintf_law n buf text Hn) as (rest & E & Hl).
  rewrite E in *. set (t := take (Z.to_nat (n - 1)) text) in *.
  assert (length t ≤ Z.to_nat (n - 1))%nat as Ht by (unfold t; rewrite length_take; lia).
  assert (0 ∉ t) as Hzt by by apply not_elem_of_take_bytes.
  eexists. split; [apply memcpy_at_eq; simpl; lia|]. split.
  { rewrite CMem.length_splice; [done|]. simpl. lia. }
  unfold splice. destruct (decide (Z.to_nat last = length t)) as [Heq|].
  - rewrite take_app_length' by done. by apply cstring_app.
  - rewrite take_app_ge by lia. replace (Z.to_nat last - length t)%nat
      with (S (Z.to_nat last - length t - 1)) by lia.
    simpl. rewrite <- app_assoc. by apply cstring_app.
Qed.

(** The contract of [demoDelete] for a file [base] in the directory [dir]. *)
Definition delete_spec (zPath dir : bytes) (dirSync : Z) : C W Z :=
  let! '(rc, errno) := utee_vfs_unlink zPath 0 in
  if decide (rc ≠ 0) then ret (if decide (errno = ENOENT) then SQLITE_OK else SQLITE_IOERR_DELETE)
  else if decide (dirSync = 0) then ret SQLITE_OK
  else
    let! dfd := utee_vfs_open dir O_RDONLY 0 in
    if decide (dfd < 0) then ret SQLITE_IOERR_DELETE
    else
      let! rc := utee_vfs_fsync dfd in
      do! utee_vfs_close dfd in
      ret (if decide (rc = 0) then SQLITE_OK else SQLITE_IOERR_DELETE).

(** [demoDelete] of [dir/base] unlinks the path; a file that is not there
    counts as deleted; and when [dirSync] is set it opens, syncs and closes
    exactly the directory [dir], reporting [SQLITE_IOERR_DELETE] when the
    directory cannot be opened or synced.  The local path buffer is never
    overrun. *)
Theorem demoDelete_spec dir base dirSync w :
  let zPath := dir ++ 47 :: base in
  47 ∉ base → 0 ∉ zPath → Z.of_nat (length zPath) < MAXPATHNAME →
  demoDelete sqlite3_snprintf uninit zPath dirSync w = delete_spec zPath dir dirSync w.
Proof.
  intros zPath Hb Hz Hlen. unfold demoDelete, delete_spec.
  apply bind_ext. intros [rc errno] w1 _.
  destruct (decide (rc = 0)) as [->|Hrc].
  2:{ destruct (decide (errno = ENOENT)); repeat (case_decide; try tauto).
      rewrite bind_ret_l. by rewrite decide_False. }
  rewrite (decide_False (P := 0 ≠ 0 ∧ errno = ENOENT)) by tauto.
  rewrite (decide_False (P := 0 ≠ 0)) by tauto.
  destruct (decide (dirSync = 0)) as [->|Hd].
  { rewrite decide_False by tauto. by rewrite bind_ret_l. }
  rewrite decide_True by done. rewrite bind_bind.
  pose proof (uninit_law (MAXPATHNAME + 1) ltac:(unfold MAXPATHNAME; lia)) as Hu.
  unfold MAXPATHNAME in *.
  destruct (snprintf_cut 512 (uninit (512 + 1)) zPath 512 w1) as (zDir & E & _ & Hs);
    [lia|lia|done|].
  rewrite (bind_run _ _ _ _ _ E). rewrite Hs. rewrite take_ge by lia.
  change (lift (Some zPath)) with (ret (S:=W) zPath). rewrite bind_bind, bind_ret_l.
  unfold zPath at 1. rewrite strrchr_last by done. unfold zPath. rewrite take_app_length.
  rewrite bind_bind. apply bind_ext. intros dfd w2 _. case_decide; [done|].
  rewrite bind_bind. apply bind_ext. intros rc w3 _. rewrite bind_bind.
  by apply bind_ext.
Qed.

(** A file directly under the root directory is reported as not deleted.
    For the path [/base] the directory name the method computes is the empty
    string, which no system can open: with [dirSync] set, [demoDelete] returns
    [SQLITE_IOERR_DELETE] although the file has been unlinked. *)
Theorem demoDelete_root base dirSync w w1 errno :
  47 ∉ base → 0 ∉ base → Z.of_nat (length base) < MAXPATHNAME - 1 → dirSync ≠ 0 →
  utee_vfs_unlink (47 :: base) 0 w = Ret ((0, errno), w1) →
  (∀ flags mode w, ∃ r w', utee_vfs_open [] flags mode w = Ret (r, w') ∧ r < 0) →
  ∃ w2, demoDelete sqlite3_snprintf uninit (47 :: base) dirSync w = Ret (SQLITE_IOERR_DELETE, w2).
Proof.
  intros Hb Hz Hlen Hd Hu Hopen. unfold demoDelete.
  rewrite (bind_run _ _ _ _ _ Hu). rewrite decide_False by tauto. rewrite decide_True by done.
  pose proof (uninit_law (MAXPATHNAME + 1) ltac:(unfold MAXPATHNAME; lia)) as Hl.
  unfold MAXPATHNAME in *.
  destruct (snprintf_cut 512 (uninit (512 + 1)) (47 :: base) 512 w1) as (zDir & E & _ & Hs);
    [lia|lia|by apply not_elem_of_cons|].
  rewrite bind_bind, (bind_run _ _ _ _ _ E), bind_bind, Hs.
  rewrite take_ge by (simpl; lia).
  change (lift (Some (47 :: base))) with (ret (S:=W) (47 :: base)). rewrite bind_ret_l.
  change (47 :: base) with ([] ++ 47 :: base). rewrite strrchr_last by done. simpl take.
  destruct (Hopen O_RDONLY 0 w1) as (r & w2 & Ho & Hr).
  rewrite bind_bind, (bind_run _ _ _ _ _ Ho). rewrite decide_True by done.
  exists w2. by rewrite bind_ret_l.
Qed.

(** A buffer with a NUL forced at byte [n] holds a string; it is the one it held
    if that ended before. *)
Lemma nul_at_end buf n :
  (n < length buf)%nat →
  ∃ dir, cstring (splice buf n [0]) = Some dir ∧
    ∀ s, cstring buf = Some s → (length s < n)%nat → dir = s.
Proof.
  intros Hn. unfold splice.
  assert (∀ t r, ∃ s, cstring (t ++ 0 :: r) = Some s) as Hex.
  { intros t r. induction t as [|x t IH]; simpl; [eauto|].
    case_decide; [eauto|]. destruct IH as [s ->]. simpl. eauto. }
  destruct (Hex (take n buf) (drop (n + 1) buf)) as [dir Hd].
  exists dir. split; [done|]. intros s Hs Hl.
  apply cstring_Some in Hs as (r & -> & Hz). revert Hd.
  rewrite take_app_ge by lia. destruct (n - length s)%nat as [|m] eqn:Em; [lia|].
  simpl. rewrite <- app_assoc. simpl. rewrite cstring_app by done. by intros [= ->].
Qed.

(** [demoFullPathname] always puts a [/] between the directory and the
    path, so an absolute path is not copied as it is: it comes out with a
    second slash in front.  A relative path comes out under the current
    directory.  Either way the output is NUL terminated within its [nPathOut]
    bytes. *)
Theorem demoFullPathname_spec zPath nPathOut zPathOut w :
  0 ∉ zPath → 0 < nPathOut ≤ Z.of_nat (length zPathOut) →
  (∀ buf w, ∃ buf' w', utee_vfs_getcwd buf w = Ret (Some buf', w') ∧ length buf' = length buf) →
  ∃ dir w' out,
    demoFullPathname sqlite3_snprintf uninit zPath nPathOut zPathOut w = Ret ((SQLITE_OK, out), w') ∧
    length out = length zPathOut ∧
    cstring out = Some (take (Z.to_nat (nPathOut - 1)) (dir ++ 47 :: zPath)) ∧
    (head zPath = Some 47 → dir = [] ∧ w' = w) ∧
    (head zPath ≠ Some 47 → ∃ buf, utee_vfs_getcwd (uninit (MAXPATHNAME + 1)) w = Ret (Some buf, w') ∧
       (∀ cwd, cstring buf = Some cwd → Z.of_nat (length cwd) < MAXPATHNAME → dir = cwd)).
Proof.
  intros Hz Hn Hcwd. unfold demoFullPathname.
  assert (Hu : Z.of_nat (length (uninit (MAXPATHNAME + 1))) = 513)
    by (rewrite uninit_law; done).
  assert (∃ zDir w' dir, (if decide (head zPath = Some 47)
     then let! zDir := memcpy_at (uninit (MAXPATHNAME + 1)) 0 [0] in ret (Some zDir)
     else utee_vfs_getcwd (uninit (MAXPATHNAME + 1))) w = Ret (Some zDir, w') ∧
     Z.of_nat (length zDir) = 513 ∧ cstring (splice zDir 512 [0]) = Some dir ∧
    (head zPath = Some 47 → dir = [] ∧ w' = w) ∧
    (head zPath ≠ Some 47 → ∃ buf, utee_vfs_getcwd (uninit (MAXPATHNAME + 1)) w = Ret (Some buf, w') ∧
       (∀ cwd, cstring buf = Some cwd → Z.of_nat (length cwd) < MAXPATHNAME → dir = cwd)))
    as (zDir & w' & dir & E & Hl & Hdir & Habs & Hrel).
  { case_decide as Hh.
    - eexists _, w, []. split; [erewrite bind_run by (apply memcpy_at_eq; simpl; lia); reflexivity|].
      split; [rewrite CMem.length_splice by (simpl; lia); lia|].
      split_and!; [|done|done]. destruct (uninit (MAXPATHNAME + 1)) as [|x l]; [done|done].
    - destruct (Hcwd (uninit (MAXPATHNAME + 1)) w) as (buf & w' & E & Hb).
      destruct (nul_at_end buf 512) as (dir & Hd & Hcut); [lia|].
      exists buf, w', dir. split_and!; try done; [lia|]. intros _. exists buf. split; [done|].
      intros cwd Hs Hlen. apply Hcut; [done|]. unfold MAXPATHNAME in Hlen. lia. }
  rewrite (bind_run _ _ _ _ _ E). unfold MAXPATHNAME.
  erewrite bind_run by (apply memcpy_at_eq; simpl; lia).
  change (Z.to_nat 512) with 512%nat. rewrite Hdir. change (lift (Some dir)) with (ret (S:=W) dir).
  rewrite bind_ret_l.
  destruct (snprintf_cut nPathOut zPathOut (dir ++ [47] ++ zPath) (nPathOut - 1) w')
    as (out & E2 & Hlo & Hso); [lia|lia| |].
  { apply cstring_Some in Hdir as (r & _ & Hd). rewrite !not_elem_of_app.
    split_and!; try done. by rewrite list_elem_of_singleton. }
  rewrite (bind_run _ _ _ _ _ E2). exists dir, w', out. by split_and!.
Qed.
End vfs_methods.

(** * The properties at work

A journal open at descriptor 3 over the file [1 2 3 4], two bytes of it
buffered; SQLite's allocator and print as plain functions. *)
Definition ex_malloc (n : Z) : C memfs (option bytes) := ret (Some (replicate (Z.to_nat n) 0)).
Definition ex_free (b : option bytes) : C memfs unit := ret tt.
Definition ex_uninit (n : Z) : bytes := replicate (Z.to_nat n) 170.
Definition ex_snprintf (n : Z) (buf text : bytes) : bytes :=
  let t := take (Z.to_nat (n - 1)) text in t ++ 0 :: drop (S (length t)) buf.

Definition ex_journal : DemoFile :=
  mkDemoFile true 3 (Some (9 :: 8 :: replicate 8190 0)) 2 4.
Definition ex_disk : memfs := one_file [1; 2; 3; 4].

Lemma ex_journal_repr : demo_repr ex_journal ex_disk [1; 2; 3; 4; 9; 8].
Proof. split; [|reflexivity]. vm_compute. repeat split; discriminate. Qed.

Lemma ex_malloc_law n w b w' :
  ex_malloc n w = Ret (Some b, w') → 0 ≤ n → Z.of_nat (length b) = n.
Proof. intros [= <- <-] ?. rewrite length_replicate. lia. Qed.

Lemma ex_snprintf_law n buf text :
  0 < n ≤ Z.of_nat (length buf) →
  ∃ rest, ex_snprintf n buf text = take (Z.to_nat (n - 1)) text ++ 0 :: rest ∧
          length (ex_snprintf n buf text) = length buf.
Proof.
  intros. eexists. split; [reflexivity|]. unfold ex_snprintf.
  rewrite length_app, length_cons, length_drop, length_take. lia.
Qed.

Lemma ex_uninit_law n : 0 ≤ n → Z.of_nat (length (ex_uninit n)) = n.
Proof. intros. unfold ex_uninit. rewrite length_replicate. lia. Qed.

Lemma demoWrite_refines_witness :
  ∃ rc p' w' v',
    demoWrite ex_journal [5; 6] 2 6 ex_disk = Ret ((rc, p'), w') ∧ demo_repr p' w' v' ∧
    (rc = SQLITE_OK ∧ v' = [1; 2; 3; 4; 9; 8; 5; 6] ∨ rc = SQLITE_IOERR_WRITE).
Proof.
  apply (demoWrite_refines ex_journal ex_disk [1; 2; 3; 4; 9; 8] [5; 6] 2 6);
    [exact ex_journal_repr|simpl; lia..].
Defined.

Lemma demoRead_sees_view_witness :
  ∃ rc p' buf w',
    demoRead ex_journal [0; 0; 0; 7] 3 4 ex_disk = Ret ((rc, p', buf), w') ∧
    drop 3 buf = [7] ∧
    let range := [9; 8] in
    (rc = SQLITE_OK ∧ demo_repr p' w' [1; 2; 3; 4; 9; 8] ∧ take 3 buf = range ∧ length range = 3%nat
     ∨ rc = SQLITE_IOERR_SHORT_READ ∧ demo_repr p' w' [1; 2; 3; 4; 9; 8] ∧
       (∃ k, (k < 3)%nat ∧ take 3 buf = take k range ++ replicate (3 - k) 0)
     ∨ rc = SQLITE_IOERR_READ ∨ rc = SQLITE_IOERR_WRITE).
Proof.
  apply (demoRead_sees_view ex_journal ex_disk [1; 2; 3; 4; 9; 8] [0; 0; 0; 7] 3 4);
    [exact ex_journal_repr|simpl; lia..].
Defined.

Lemma demoSync_durable_witness :
  ∃ rc p' w' l' pos',
    demoSync ex_journal 0 ex_disk = Ret ((rc, p'), w') ∧
    fd_file w' 3 = Some (l', pos') ∧ demo_repr p' w' l' ∧ nBuffer p' = 0 ∧
    (rc = SQLITE_OK ∧ l' = [1; 2; 3; 4; 9; 8] ∨ rc = SQLITE_IOERR_FSYNC ∧ l' = [1; 2; 3; 4; 9; 8]
     ∨ rc = SQLITE_IOERR_WRITE).
Proof. apply (demoSync_durable ex_journal ex_disk _ 0 ex_journal_repr). Defined.

Lemma demoFileSize_spec_witness :
  ∃ rc p' size w',
    demoFileSize ex_journal ex_disk = Ret ((rc, p', size), w') ∧
    (rc = SQLITE_OK ∧ demo_repr p' w' [1; 2; 3; 4; 9; 8] ∧ size = Some 6
     ∨ (rc = SQLITE_IOERR_FSTAT ∨ rc = SQLITE_IOERR_WRITE) ∧ size = None).
Proof. apply (demoFileSize_spec ex_journal ex_disk _ ex_journal_repr). Defined.

(** The run of a two-byte write and the read of the same range. *)
Definition ex_write : outcome (Z * DemoFile * memfs) := demoWrite ex_journal [5; 6] 2 6 ex_disk.
Definition ex_written : DemoFile * memfs :=
  match ex_write with Ret ((_, p), w) => (p, w) | Undef => (ex_journal, ex_disk) end.

Lemma demoRead_demoWrite_witness :
  ∃ p2 w2, demoRead ex_written.1 [0; 0] 2 6 ex_written.2 = Ret ((SQLITE_OK, p2, [5; 6]), w2).
Proof.
  destruct (demoRead ex_written.1 [0; 0] 2 6 ex_written.2) as [[[[rc p2] out] w2]|] eqn:E.
  - assert (rc = SQLITE_OK ∧ length out = 2%nat) as [-> Hl]
      by (vm_compute in E; injection E as <- <- <- <-; by vm_compute).
    exists p2, w2. do 4 f_equal.
    rewrite <- (take_ge out 2) by (rewrite Hl; reflexivity).
    apply (demoRead_demoWrite ex_journal ex_disk [1; 2; 3; 4; 9; 8] [5; 6] 2 6 [0; 0]
             SQLITE_OK ex_written.1 ex_written.2 SQLITE_OK p2 out w2);
      [exact ex_journal_repr|simpl; lia|reflexivity|lia|lia|lia|vm_compute; reflexivity
      |reflexivity|exact E|reflexivity].
  - vm_compute in E. discriminate E.
Defined.

Lemma demoOpen_spec_witness :
  ∃ rc p' o w', demoOpen ex_malloc ex_free (Some [98]) DemoFile_zero 2054 true ex_disk = Ret ((rc, p', o), w') ∧
  ((rc = SQLITE_OK ∧
   (∃ name w1, Some [98] = Some name ∧ utee_vfs_open name (open_flags 2054) 384 w1 = Ret (fd p', w')) ∧
   0 ≤ fd p' ∧ pMethods p' = true ∧ demo_ok p' ∧ nBuffer p' = 0 ∧
   (is_Some (aBuffer p') ↔ Z.testbit 2054 11 = true) ∧ o = Some 2054)
  ∨ ((rc = SQLITE_IOERR ∧ Some [98] = None ∨ rc = SQLITE_NOMEM ∧ p' = DemoFile_zero
      ∨ rc = SQLITE_CANTOPEN ∧ fd p' < 0 ∧ pMethods p' = false) ∧ o = None)).
Proof.
  eexists _, _, _, _. split; [vm_compute; reflexivity|].
  apply (demoOpen_spec ex_malloc ex_free ex_malloc_law (Some [98]) DemoFile_zero 2054 true ex_disk).
  vm_compute. reflexivity.
Defined.

Lemma demoDelete_spec_witness :
  demoDelete ex_snprintf ex_uninit [97; 47; 98] 1 ex_disk = delete_spec [97; 47; 98] [97] 1 ex_disk.
Proof.
  apply (demoDelete_spec ex_snprintf ex_uninit ex_snprintf_law ex_uninit_law [97] [98] 1 ex_disk);
    [set_solver by lia|set_solver by lia|reflexivity].
Defined.

Definition ex_named : memfs := MemFs ∅ {[ [47; 98] := [] ]} [].

Lemma demoDelete_root_witness :
  ∃ w2, demoDelete ex_snprintf ex_uninit [47; 98] 1 ex_named = Ret (SQLITE_IOERR_DELETE, w2).
Proof.
  eapply (demoDelete_root ex_snprintf ex_uninit ex_snprintf_law ex_uninit_law [98] 1 ex_named _ 0);
    [set_solver by lia|set_solver by lia|reflexivity|lia|vm_compute; reflexivity|].
  intros flags mode w. exists (-1), w. split; [reflexivity|lia].
Defined.

Lemma demoFullPathname_spec_witness :
  ∃ dir w' out,
    demoFullPathname ex_snprintf ex_uninit [98] 8 (replicate 8 0) (MemFs ∅ ∅ [97])
      = Ret ((SQLITE_OK, out), w') ∧
    length out = 8%nat ∧ cstring out = Some (take 7 (dir ++ [47; 98])) ∧
    (Some 98 = Some 47 → dir = [] ∧ w' = MemFs ∅ ∅ [97]) ∧
    (Some 98 ≠ Some 47 → ∃ buf, utee_vfs_getcwd (ex_uninit 513) (MemFs ∅ ∅ [97]) = Ret (Some buf, w') ∧
       (∀ cwd, cstring buf = Some cwd → Z.of_nat (length cwd) < MAXPATHNAME → dir = cwd)).
Proof.
  apply (demoFullPathname_spec ex_snprintf ex_uninit ex_snprintf_law ex_uninit_law
           [98] 8 (replicate 8 0) (MemFs ∅ ∅ [97]));
    [set_solver by lia|simpl; lia|].
  intros buf w. eexists _, w. split; [reflexivity|apply length_fill].
Defined.
