(* ===== verification/HostVfs.v ===== *)
(** * The SQLite VFS of the host application

Models optee_examples/tee_sqilte/host/demovfs.c, the VFS through which the host
application runs SQLite on files of its own.  It is the program ta/tee_vfs.c was
made from; here it is modelled one level lower, with the write buffer and the
caller's buffers as blocks of memory, because the code takes the length of what
it is about to write with [strlen] and frees what it allocated.

The operating system is the class [HostOs]: a path is the bytes of the C string,
and a call that fills a buffer is given what the buffer holds and gives what it
holds afterwards.  SQLite's allocator is the class [SqliteMem]; both are outside
this repository.  [HostSim] relates the methods to those of [TeeVfs]. *)
From S2P Require Import Prelude CMem Heap UteeVfs TeeVfs.
From Stdlib Require Import SpecFloat.
#[local] Open Scope Z_scope.
#[local] Open Scope c_scope.

(** ** The world *)

Class HostOs (W : Type) : Type := {
  host_lseek : Z → Z → Z → C W Z;
  host_write : Z → bytes → C W Z;
  host_read : Z → bytes → C W (Z * bytes);
  host_fsync : Z → C W Z;
  host_close : Z → C W Z;
  (** the return value, and [st_size] *)
  host_fstat : Z → C W (Z * Z);
  host_open : bytes → Z → Z → C W Z;
  (** the return value, and [errno] *)
  host_unlink : bytes → C W (Z * Z);
  host_access : bytes → Z → C W Z;
  (** the buffer after the call, or NULL *)
  host_getcwd : bytes → C W (option bytes);
  host_sleep : Z → C W Z;
  host_usleep : Z → C W Z;
  host_time : C W Z
}.

Class SqliteMem : Type := {
  sqlite3_malloc : Z → C mem ptr;
  sqlite3_free : ptr → C mem unit
}.

(** ** Strings in memory *)

(** Undefined behaviour when no NUL follows in the object. *)
Definition strlen (p : ptr) : C mem Z :=
  λ m, lift (d ← rest_of m p; Z.of_nat ∘ length <$> cstring d) m.

(** ** The open file *)

Definition SQLITE_DEMOVFS_BUFFERSZ : Z := 8192.

Record DemoFile : Type := mkDemoFile {
  pMethods : bool;
  fd : Z;
  aBuffer : ptr;
  nBuffer : Z;
  iBufferOfst : Z
}.

Definition set_nBuffer (p : DemoFile) (n : Z) : DemoFile :=
  mkDemoFile (pMethods p) (fd p) (aBuffer p) n (iBufferOfst p).
Definition set_iBufferOfst (p : DemoFile) (o : Z) : DemoFile :=
  mkDemoFile (pMethods p) (fd p) (aBuffer p) (nBuffer p) o.

(** [memset(p, 0, sizeof(DemoFile))] *)
Definition DemoFile_zero : DemoFile := mkDemoFile false 0 NULL 0 0.

Section vfs.
Context {W : Type} `{HostOs W, SqliteMem}.

(** SQLite's formatted print and the initial content of local arrays, as in
    [TeeVfs]. *)
Variable sqlite3_snprintf : Z → bytes → bytes → bytes.
Variable uninit : Z → bytes.

(** *** Methods of an open file *)

Definition demoDirectWrite (p : DemoFile) (zBuf : ptr) (iAmt iOfst : Z) : C (mem * W) Z :=
  let! ofst := in_world (host_lseek (fd p) iOfst SEEK_SET) in
  if decide (ofst ≠ iOfst) then ret SQLITE_IOERR_WRITE
  else
    let! i := in_heap (strlen zBuf) in
    let! data := in_heap (load zBuf (u64 iAmt)) in
    let! w := in_world (host_write (fd p) data) in
    let nWrite := u64 w in
    if decide (nWrite ≠ u64 iAmt) then ret SQLITE_IOERR_WRITE
    else ret SQLITE_OK.

Definition demoFlushBuffer (p : DemoFile) : C (mem * W) (Z * DemoFile) :=
  if decide (nBuffer p ≠ 0) then
    let! rc := demoDirectWrite p (aBuffer p) (nBuffer p) (iBufferOfst p) in
    ret (rc, set_nBuffer p 0)
  else ret (SQLITE_OK, p).

Definition demoClose (p : DemoFile) : C (mem * W) Z :=
  let! '(rc, p) := demoFlushBuffer p in
  do! in_heap (sqlite3_free (aBuffer p)) in
  do! in_world (host_close (fd p)) in
  ret rc.

(** [read(fd, zBuf, n)] *)
Definition read_into (f : Z) (zBuf : ptr) (n : Z) : C (mem * W) Z :=
  let! old := in_heap (load zBuf n) in
  let! '(r, new) := in_world (host_read f old) in
  do! in_heap (store zBuf new) in
  ret r.

Definition demoRead (p : DemoFile) (zBuf : ptr) (iAmt iOfst : Z) : C (mem * W) (Z * DemoFile) :=
  let! '(rc, p) := demoFlushBuffer p in
  if decide (rc ≠ SQLITE_OK) then ret (rc, p)
  else
    let! ofst := in_world (host_lseek (fd p) iOfst SEEK_SET) in
    if decide (ofst ≠ iOfst) then ret (SQLITE_IOERR_READ, p)
    else
      let! r := read_into (fd p) zBuf (u64 iAmt) in
      let nRead := s32 r in
      if decide (nRead = iAmt) then ret (SQLITE_OK, p)
      else if decide (nRead >= 0) then
        do! (if decide (nRead < iAmt)
             then in_heap (store (padd zBuf nRead) (replicate (Z.to_nat (iAmt - nRead)) 0))
             else ret tt) in
        ret (SQLITE_IOERR_SHORT_READ, p)
      else ret (SQLITE_IOERR_READ, p).

(** The body of [while (n > 0)], once per unit of [fuel]. *)
Fixpoint demoWrite_loop (fuel : nat) (p : DemoFile) (z : ptr) (n i : Z)
    : C (mem * W) (Z * DemoFile) :=
  if decide (n > 0) then
    match fuel with
    | O => undef
    | S fuel =>
        let! full_or_apart :=
          (if decide (nBuffer p = SQLITE_DEMOVFS_BUFFERSZ) then ret true
           else let! e := chk_signed 64 (iBufferOfst p + nBuffer p) in
                ret (bool_decide (e ≠ i))) in
        let! '(rc, p) :=
          (if full_or_apart : bool then demoFlushBuffer p else ret (SQLITE_OK, p)) in
        if decide (rc ≠ SQLITE_OK) then ret (rc, p)
        else
          do! c_assert (bool_decide (nBuffer p = 0)
                        || bool_decide (iBufferOfst p + nBuffer p = i)) in
          let! ofst := chk_signed 64 (i - nBuffer p) in
          let p := set_iBufferOfst p ofst in
          let nCopy := SQLITE_DEMOVFS_BUFFERSZ - nBuffer p in
          let nCopy := if decide (nCopy > n) then n else nCopy in
          do! in_heap (memcpy (padd (aBuffer p) (nBuffer p)) z nCopy) in
          let p := set_nBuffer p (nBuffer p + nCopy) in
          let! i := chk_signed 64 (i + nCopy) in
          demoWrite_loop fuel p (padd z nCopy) (n - nCopy) i
    end
  else ret (SQLITE_OK, p).

Definition demoWrite (p : DemoFile) (zBuf : ptr) (iAmt iOfst : Z) : C (mem * W) (Z * DemoFile) :=
  if decide (aBuffer p ≠ NULL) then demoWrite_loop (Z.to_nat iAmt) p zBuf iAmt iOfst
  else let! rc := demoDirectWrite p zBuf iAmt iOfst in ret (rc, p).

Definition demoTruncate (p : DemoFile) (size : Z) : C (mem * W) Z := ret SQLITE_OK.

Definition demoSync (p : DemoFile) (flags : Z) : C (mem * W) (Z * DemoFile) :=
  let! '(rc, p) := demoFlushBuffer p in
  if decide (rc ≠ SQLITE_OK) then ret (rc, p)
  else
    let! rc := in_world (host_fsync (fd p)) in
    ret (if decide (rc = 0) then SQLITE_OK else SQLITE_IOERR_FSYNC, p).

(** The third component is what is stored at [*pSize], if anything. *)
Definition demoFileSize (p : DemoFile) : C (mem * W) (Z * DemoFile * option Z) :=
  let! '(rc, p) := demoFlushBuffer p in
  if decide (rc ≠ SQLITE_OK) then ret (rc, p, None)
  else
    let! '(rc, st_size) := in_world (host_fstat (fd p)) in
    if decide (rc ≠ 0) then ret (SQLITE_IOERR_FSTAT, p, None)
    else ret (SQLITE_OK, p, Some st_size).

Definition demoLock (p : DemoFile) (eLock : Z) : C (mem * W) Z := ret SQLITE_OK.
Definition demoUnlock (p : DemoFile) (eLock : Z) : C (mem * W) Z := ret SQLITE_OK.
(** The value stored at [*pResOut] comes second. *)
Definition demoCheckReservedLock (p : DemoFile) : C (mem * W) (Z * Z) := ret (SQLITE_OK, 0).
Definition demoFileControl (p : DemoFile) (op : Z) : C (mem * W) Z := ret SQLITE_NOTFOUND.
Definition demoSectorSize (p : DemoFile) : C (mem * W) Z := ret 0.
Definition demoDeviceCharacteristics (p : DemoFile) : C (mem * W) Z := ret 0.

(** *** Methods of the VFS *)

(** The mode is [0600].  [out] tells whether [pOutFlags] is not NULL; the result
    is the code, the file, and what is stored at [*pOutFlags]. *)
Definition demoOpen (zName : option bytes) (p : DemoFile) (flags : Z) (out : bool)
    : C (mem * W) (Z * DemoFile * option Z) :=
  match zName with
  | None => ret (SQLITE_IOERR, p, None)
  | Some name =>
      let! '(failed, aBuf) :=
        (if flag_set flags SQLITE_OPEN_MAIN_JOURNAL
         then let! aBuf := in_heap (sqlite3_malloc SQLITE_DEMOVFS_BUFFERSZ) in
              ret (bool_decide (aBuf = NULL), aBuf)
         else ret (false, NULL)) in
      if failed : bool then ret (SQLITE_NOMEM, p, None)
      else
        let oflags := 0 in
        let oflags := if flag_set flags SQLITE_OPEN_EXCLUSIVE then Z.lor oflags O_EXCL else oflags in
        let oflags := if flag_set flags SQLITE_OPEN_CREATE then Z.lor oflags O_CREAT else oflags in
        let oflags := if flag_set flags SQLITE_OPEN_READONLY then Z.lor oflags O_RDONLY else oflags in
        let oflags := if flag_set flags SQLITE_OPEN_READWRITE then Z.lor oflags O_RDWR else oflags in
        let p := DemoFile_zero in
        let! f := in_world (host_open name oflags 384) in
        let p := mkDemoFile (pMethods p) f (aBuffer p) (nBuffer p) (iBufferOfst p) in
        if decide (fd p < 0) then
          do! in_heap (sqlite3_free aBuf) in
          ret (SQLITE_CANTOPEN, p, None)
        else ret (SQLITE_OK, mkDemoFile true (fd p) aBuf (nBuffer p) (iBufferOfst p),
                  if out then Some flags else None)
  end.

Definition demoDelete (zPath : bytes) (dirSync : Z) : C W Z :=
  let! '(rc, errno) := host_unlink zPath in
  if decide (rc ≠ 0 ∧ errno = ENOENT) then ret SQLITE_OK
  else
    let! rc :=
      (if decide (rc = 0 ∧ dirSync ≠ 0) then
         let zDir := sqlite3_snprintf MAXPATHNAME (uninit (MAXPATHNAME + 1)) zPath in
         let! zDir := memcpy_at zDir MAXPATHNAME [0] in
         let! s := lift (cstring zDir) in
         match strrchr s 47 with
         | Some zSlash =>
             let! dfd := host_open (take zSlash s) O_RDONLY 0 in
             if decide (dfd < 0) then ret (-1)
             else
               let! rc := host_fsync dfd in
               do! host_close dfd in
               ret rc
         | None => ret rc
         end
       else ret rc) in
    ret (if decide (rc = 0) then SQLITE_OK else SQLITE_IOERR_DELETE).

(** The value stored at [*pResOut] comes second. *)
Definition demoAccess (zPath : bytes) (flags : Z) : C W (Z * Z) :=
  do! c_assert (bool_decide (flags = SQLITE_ACCESS_EXISTS)
                || bool_decide (flags = SQLITE_ACCESS_READ)
                || bool_decide (flags = SQLITE_ACCESS_READWRITE)) in
  let eAccess := F_OK in
  let eAccess := if decide (flags = SQLITE_ACCESS_READWRITE) then Z.lor R_OK W_OK else eAccess in
  let eAccess := if decide (flags = SQLITE_ACCESS_READ) then R_OK else eAccess in
  let! rc := host_access zPath eAccess in
  ret (SQLITE_OK, if decide (rc = 0) then 1 else 0).

Definition demoFullPathname (zPath : bytes) (nPathOut : Z) (zPathOut : bytes)
    : C W (Z * bytes) :=
  let! zDir :=
    (if decide (head zPath = Some 47)
     then let! zDir := memcpy_at (uninit (MAXPATHNAME + 1)) 0 [0] in ret (Some zDir)
     else host_getcwd (uninit (MAXPATHNAME + 1))) in
  match zDir with
  | None => ret (SQLITE_IOERR, zPathOut)
  | Some zDir =>
      let! zDir := memcpy_at zDir MAXPATHNAME [0] in
      let! dir := lift (cstring zDir) in
      let zPathOut := sqlite3_snprintf nPathOut zPathOut (dir ++ [47] ++ zPath) in
      let! zPathOut := memcpy_at zPathOut (nPathOut - 1) [0] in
      ret (SQLITE_OK, zPathOut)
  end.

Definition demoDlOpen (zPath : bytes) : C W (option Z) := ret None.
Definition demoDlError (nByte : Z) (zErrMsg : bytes) : C W bytes :=
  memcpy_at (sqlite3_snprintf nByte zErrMsg (dl_error_text ++ [10])) (nByte - 1) [0].
Definition demoDlSym (z : bytes) : C W (option Z) := ret None.
Definition demoDlClose : C W unit := ret tt.

Definition demoRandomness (nByte : Z) (zByte : bytes) : C W (Z * bytes) :=
  ret (SQLITE_OK, zByte).

(** Both arguments are [unsigned int]. *)
Definition demoSleep (nMicro : Z) : C W Z :=
  do! host_sleep (u32 (Z.quot nMicro 1000000)) in
  do! host_usleep (u32 (Z.rem nMicro 1000000)) in
  ret nMicro.

(** The value stored at [*pTime] comes second. *)
Definition demoCurrentTime : C W (Z * spec_float) :=
  let! t := host_time in
  ret (SQLITE_OK, julian_day t).
End vfs.
