(* ===== verification/HostSim.v ===== *)
(** * The host's VFS does what the trusted application's does

demovfs.c and tee_vfs.c are two versions of one program.  [host_as_utee] reads
the operating system of the host as the world below the trusted application's
VFS; [sim] relates an open file of the host, whose buffer is a block of memory,
to one of [TeeVfs].  Through them every theorem about [TeeVfs] is a theorem about
[HostVfs], on one condition: the code measures what it writes with [strlen], so
what it writes must contain a NUL. *)
From S2P Require Import Prelude CMem Heap UteeVfs MemFile TeeVfs HostVfs.
#[local] Open Scope Z_scope.
#[local] Open Scope c_scope.

(** ** The two worlds *)

#[export] Instance host_as_utee {W : Type} `{HostOs W} : UteeVfs W := {
  utee_vfs_open := host_open;
  utee_vfs_close := host_close;
  utee_vfs_access := host_access;
  utee_vfs_getcwd := host_getcwd;
  utee_vfs_write := host_write;
  utee_vfs_read := host_read;
  utee_vfs_lseek := host_lseek;
  utee_vfs_fsync := host_fsync;
  utee_vfs_filesize f := let! '(r, size) := host_fstat f in ret (if decide (r ≠ 0) then -1 else size);
  utee_vfs_unlink name _ := host_unlink name;
  utee_vfs_sleep := host_sleep;
  utee_vfs_usleep n := do! host_usleep n in ret tt;
  utee_vfs_time := host_time
}.

(** A call never changes the size of the buffer it is given, and a size is not
    negative. *)
Class HostLaws (W : Type) `{HostOs W} : Prop := {
  host_read_length f buf w r buf' w' :
    host_read f buf w = Ret ((r, buf'), w') → length buf' = length buf;
  host_fstat_size f w size w' : host_fstat f w = Ret ((0, size), w') → 0 ≤ size
}.

Class SqliteMemLaws `{SqliteMem} : Prop := {
  (** NULL, or a new block of that size *)
  sqlite3_malloc_law n m :
    mem_wf m → 0 ≤ n →
    ∃ p m', sqlite3_malloc n m = Ret (p, m') ∧ mem_wf m' ∧ m_next m ≤ m_next m' ∧
      ((p = NULL ∧ m_blocks m' = m_blocks m) ∨
       ∃ b d, p = Ptr b 0 ∧ m_next m ≤ b ∧ Z.of_nat (length d) = n ∧
         m_blocks m' = <[b := Block Heap d]> (m_blocks m));
  sqlite3_free_law b d m :
    mem_wf m → m_blocks m !! b = Some (Block Heap d) →
    ∃ m', sqlite3_free (Ptr b 0) m = Ret (tt, m') ∧ mem_wf m' ∧ m_next m' = m_next m ∧
      m_blocks m' = delete b (m_blocks m);
  sqlite3_free_null m : sqlite3_free NULL m = Ret (tt, m)
}.

(** ** The simulation *)

Definition sim (m : mem) (p : HostVfs.DemoFile) (q : TeeVfs.DemoFile) : Prop :=
  pMethods p = TeeVfs.pMethods q ∧ fd p = TeeVfs.fd q ∧ nBuffer p = TeeVfs.nBuffer q ∧
  iBufferOfst p = TeeVfs.iBufferOfst q ∧
  match TeeVfs.aBuffer q with
  | None => aBuffer p = NULL
  | Some d => ∃ b, aBuffer p = Ptr b 0 ∧ m_blocks m !! b = Some (Block Heap d)
  end.

(** The block of the write buffer. *)
Definition own (p : HostVfs.DemoFile) (b : Z) : Prop := aBuffer p = Ptr b 0.

(** What [strlen] needs: what a flush writes contains a NUL. *)
Definition flushable (q : TeeVfs.DemoFile) : Prop :=
  TeeVfs.nBuffer q = 0 ∨ ∃ d, TeeVfs.aBuffer q = Some d ∧ 0 ∈ d.

(** The bytes waiting in the buffer and those to come, as one stream. *)
Definition stream (q : TeeVfs.DemoFile) (z : bytes) (n : Z) : bytes :=
  take (Z.to_nat (TeeVfs.nBuffer q)) (default [] (TeeVfs.aBuffer q)) ++ take (Z.to_nat n) z.

(** A full buffer is so many bytes of that stream in a row. *)
Definition bufsz : nat := Z.to_nat SQLITE_DEMOVFS_BUFFERSZ.
Definition nul_in_windows (s : bytes) : Prop :=
  ∀ j, (j + bufsz ≤ length s)%nat → 0 ∈ take bufsz (drop j s).

(** ** Lemmas *)

Section memory.
Implicit Types (m : mem) (d : bytes).

Lemma rest_of_padd m z d n :
  rest_of m z = Some d → 0 ≤ n ≤ Z.of_nat (length d) →
  rest_of m (padd z n) = Some (drop (Z.to_nat n) d).
Proof.
  intros (b & o & k & D & -> & E & Ho & ->)%rest_of_Some Hn. rewrite length_drop in Hn.
  apply rest_of_Some. exists b, (o + n), k, D. split_and!; try done; try lia.
  rewrite drop_drop. f_equal. lia.
Qed.

Lemma rest_of_frame P m m' b o d :
  frame P m m' → mem_wf m → rest_of m (Ptr b o) = Some d → ¬ P b → rest_of m' (Ptr b o) = Some d.
Proof.
  intros Hf Hwf (b' & o' & k & D & [= <- <-] & E & Ho & ->)%rest_of_Some HP.
  apply rest_of_Some. exists b, o, k, D. split; [done|]. split; [by eapply frame_block|done].
Qed.

Lemma strlen_run {W} m (w : W) z d :
  rest_of m z = Some d → 0 ∈ d → ∃ i, in_heap (strlen z) (m, w) = Ret (i, (m, w)).
Proof.
  intros Hz Hd. apply cstring_nul in Hd as [s Hs]. exists (Z.of_nat (length s)).
  apply heap_run. unfold strlen. rewrite Hz. simpl. by rewrite Hs.
Qed.

(** Storing [bs] at [z]. *)
Lemma rest_of_store m b o d bs :
  mem_wf m → rest_of m (Ptr b o) = Some d → (length bs ≤ length d)%nat →
  ∃ m', poke (Ptr b o) bs m = Some m' ∧ frame (λ x, x = b) m m' ∧
    rest_of m' (Ptr b o) = Some (bs ++ drop (length bs) d).
Proof.
  intros Hwf (b' & o' & k & D & [= <- <-] & E & Ho & ->)%rest_of_Some Hl. rewrite length_drop in Hl.
  set (m' := Mem (m_next m) (<[b := Block k (splice D (Z.to_nat o) bs)]> (m_blocks m))).
  assert (poke (Ptr b o) bs m = Some m') as P.
  { apply poke_Some. exists b, o, k, D. split_and!; try done; lia. }
  exists m'. split; [done|]. split; [by eapply poke_frame|]. apply rest_of_Some.
  exists b, o, k, (splice D (Z.to_nat o) bs). split; [done|]. split; [simpl; by rewrite lookup_insert_eq|].
  rewrite CMem.length_splice by lia. split; [done|]. unfold splice.
  rewrite drop_app_length' by (rewrite length_take; lia). by rewrite drop_drop.
Qed.
End memory.

Lemma nul_in_suffix s t : nul_in_windows (s ++ t) → nul_in_windows t.
Proof.
  intros H j Hj. specialize (H (length s + j)%nat). rewrite length_app in H.
  rewrite <- drop_drop, drop_app_length in H. apply H. lia.
Qed.

Lemma nul_in_full s t : nul_in_windows (s ++ t) → length s = bufsz → 0 ∈ s.
Proof.
  intros H Hl. specialize (H 0%nat). rewrite drop_0, length_app in H.
  rewrite take_app_length' in H by done. apply H. lia.
Qed.

Lemma bufsz_Z : Z.of_nat bufsz = SQLITE_DEMOVFS_BUFFERSZ.
Proof. done. Qed.
#[local] Opaque bufsz.

Section methods.
Context {W : Type} `{HostLaws W, SqliteMem}.
Implicit Types (m : mem) (w : W) (p : HostVfs.DemoFile) (q : TeeVfs.DemoFile) (d buf : bytes).

Lemma sim_fd m p q : sim m p q → fd p = TeeVfs.fd q.
Proof. by intros (_ & ? & _). Qed.

Lemma sim_buffer m p q d :
  sim m p q → TeeVfs.aBuffer q = Some d → ∃ b, own p b ∧ m_blocks m !! b = Some (Block Heap d).
Proof. intros (_ & _ & _ & _ & Hb) E. by rewrite E in Hb. Qed.

(** The relation survives what does not touch the buffer. *)
Lemma sim_frame P m m' p q :
  sim m p q → mem_wf m → frame P m m' → (∀ b, own p b → ¬ P b) → sim m' p q.
Proof.
  intros (? & ? & ? & ? & Hb) Hwf Hf HP. split_and!; try done. destruct (TeeVfs.aBuffer q); [|done].
  destruct Hb as (b & Hown & E). exists b. split; [done|]. eapply frame_block; [exact Hf|done|done|by apply HP].
Qed.

Lemma direct_sim m w p q z d iAmt iOfst rc w' :
  fd p = TeeVfs.fd q → rest_of m z = Some d → 0 ∈ d →
  TeeVfs.demoDirectWrite q d iAmt iOfst w = Ret (rc, w') →
  demoDirectWrite p z iAmt iOfst (m, w) = Ret (rc, (m, w')).
Proof.
  intros Hfd Hz Hnul E. unfold TeeVfs.demoDirectWrite in E. unfold demoDirectWrite. rewrite Hfd.
  apply bind_inv in E as (ofst & w1 & E1 & E). simpl in E1.
  rewrite (bind_run _ _ _ _ _ (world_run _ m _ _ _ E1)). case_decide; [by injection E as -> ->|].
  destruct (strlen_run m w1 z d Hz Hnul) as (i & Ei). rewrite (bind_run _ _ _ _ _ Ei).
  apply bind_inv in E as (data & w2 & E2 & E). unfold read_buf in E2.
  case_decide as Hn; [|done]. injection E2 as <- <-.
  rewrite (bind_run _ _ _ _ _ (load_run m w1 _ _ _ (rest_of_peek _ _ _ _ Hz Hn))).
  apply bind_inv in E as (r & w3 & E3 & E). simpl in E3.
  rewrite (bind_run _ _ _ _ _ (world_run _ m _ _ _ E3)). case_decide; by injection E as -> ->.
Qed.

Lemma flush_sim m w p q rc q' w' :
  sim m p q → flushable q → TeeVfs.demoFlushBuffer q w = Ret ((rc, q'), w') →
  ∃ p', demoFlushBuffer p (m, w) = Ret ((rc, p'), (m, w')) ∧ sim m p' q' ∧ aBuffer p' = aBuffer p.
Proof.
  intros Hs Hnul E. unfold TeeVfs.demoFlushBuffer in E. unfold demoFlushBuffer.
  destruct Hs as (Hm & Hfd & Hn & Ho & Hb). rewrite Hn. case_decide as Hz.
  - destruct Hnul as [?|(d & Ed & Hd)]; [done|]. rewrite Ed in *. destruct Hb as (b & Hown & Hblk).
    change (lift (Some d)) with (ret (S:=W) d) in E. rewrite bind_ret_l in E.
    apply bind_inv in E as (rc1 & w1 & E1 & E). injection E as -> <- <-.
    rewrite Ho, Hown. rewrite (bind_run _ _ _ _ _ (direct_sim m w p q _ d _ _ _ _ Hfd (rest_of_block _ _ _ _ Hblk) Hd E1)).
    eexists. split; [reflexivity|]. split; [|done]. split_and!; try done. simpl. by exists b.
  - injection E as <- <- <-. exists p. split; [done|]. by split_and!.
Qed.

Lemma sync_sim m w p q flags rc q' w' :
  sim m p q → flushable q → TeeVfs.demoSync q flags w = Ret ((rc, q'), w') →
  ∃ p', demoSync p flags (m, w) = Ret ((rc, p'), (m, w')) ∧ sim m p' q'.
Proof.
  intros Hs Hnul E. unfold TeeVfs.demoSync in E. unfold demoSync.
  apply bind_inv in E as ([rc1 q1] & w1 & E1 & E).
  destruct (flush_sim _ _ _ _ _ _ _ Hs Hnul E1) as (p1 & Ep & Hs1 & _). rewrite (bind_run _ _ _ _ _ Ep).
  case_decide; [injection E as <- <- <-; by exists p1|].
  apply bind_inv in E as (r & w2 & E2 & E). simpl in E2. rewrite (sim_fd _ _ _ Hs1).
  rewrite (bind_run _ _ _ _ _ (world_run _ m _ _ _ E2)). injection E as <- <- <-. by exists p1.
Qed.

Lemma filesize_sim m w p q rc q' size w' :
  sim m p q → flushable q → TeeVfs.demoFileSize q w = Ret ((rc, q', size), w') →
  ∃ p', demoFileSize p (m, w) = Ret ((rc, p', size), (m, w')) ∧ sim m p' q'.
Proof.
  intros Hs Hnul E. unfold TeeVfs.demoFileSize in E. unfold demoFileSize.
  apply bind_inv in E as ([rc1 q1] & w1 & E1 & E).
  destruct (flush_sim _ _ _ _ _ _ _ Hs Hnul E1) as (p1 & Ep & Hs1 & _). rewrite (bind_run _ _ _ _ _ Ep).
  case_decide; [injection E as <- <- <- <-; by exists p1|].
  apply bind_inv in E as (r & w2 & E2 & E). simpl in E2. apply bind_inv in E2 as ([r' sz] & w3 & E3 & E2).
  injection E2 as <- <-. rewrite (sim_fd _ _ _ Hs1).
  rewrite (bind_run _ _ _ _ _ (world_run _ m _ _ _ E3)). destruct (decide (r' ≠ 0)) as [Hr|Hr].
  - rewrite decide_True in E by done. injection E as <- <- <- <-. by exists p1.
  - assert (r' = 0) as -> by (by apply dec_stable). pose proof (host_fstat_size _ _ _ _ E3).
    rewrite decide_False in E by lia. injection E as <- <- <- <-. by exists p1.
Qed.

Lemma read_into_sim m w f b o d n r part w' :
  mem_wf m → rest_of m (Ptr b o) = Some d → 0 ≤ n ≤ Z.of_nat (length d) →
  host_read f (take (Z.to_nat n) d) w = Ret ((r, part), w') →
  ∃ m', read_into f (Ptr b o) n (m, w) = Ret (r, (m', w')) ∧ frame (λ x, x = b) m m' ∧
    rest_of m' (Ptr b o) = Some (part ++ drop (Z.to_nat n) d).
Proof.
  intros Hwf Hz Hn E. unfold read_into.
  rewrite (bind_run _ _ _ _ _ (load_run m w _ _ _ (rest_of_peek _ _ _ _ Hz Hn))).
  rewrite (bind_run _ _ _ _ _ (world_run _ m _ _ _ E)).
  apply host_read_length in E. rewrite length_take in E.
  destruct (rest_of_store m b o d part Hwf Hz) as (m' & P & Hf & Hz'); [lia|].
  rewrite (bind_run _ _ _ _ _ (store_run m w' _ _ _ P)). exists m'. split; [done|]. split; [done|].
  rewrite Hz', E. do 3 f_equal. lia.
Qed.

(** ... and into it. *)
Lemma rest_of_store_at m b o z off bs :
  mem_wf m → rest_of m (Ptr b o) = Some z → 0 ≤ off → off + Z.of_nat (length bs) ≤ Z.of_nat (length z) →
  ∃ m', poke (Ptr b (o + off)) bs m = Some m' ∧ frame (λ x, x = b) m m' ∧
    rest_of m' (Ptr b o) = Some (splice z (Z.to_nat off) bs).
Proof.
  intros Hwf Hz Hoff Hfit.
  destruct (rest_of_store m b (o + off) _ bs Hwf (rest_of_padd m (Ptr b o) z off Hz ltac:(lia)))
    as (m' & P & Hf & _); [rewrite length_drop; lia|].
  exists m'. split; [done|]. split; [done|].
  apply rest_of_Some in Hz as (? & ? & k & D & [= <- <-] & B & Ho & HzD).
  apply poke_Some in P as (? & ? & k2 & D2 & [= <- <-] & B2 & ? & Hl2 & ->). rewrite B in B2. injection B2 as <- <-.
  assert (Z.of_nat (length z) = Z.of_nat (length D) - o) as HlB by (rewrite HzD, length_drop; lia).
  apply rest_of_Some. exists b, o, k, (splice D (Z.to_nat (o + off)) bs).
  split; [done|]. split; [simpl; by rewrite lookup_insert_eq|].
  rewrite CMem.length_splice by lia. split; [done|].
  pose proof (splice_inside D (Z.to_nat o) (Z.to_nat off) (length z) bs) as Hsp.
  replace (Z.to_nat o + Z.to_nat off)%nat with (Z.to_nat (o + off)) in Hsp by lia.
  specialize (Hsp ltac:(lia) ltac:(lia)).
  rewrite take_ge in Hsp by (rewrite length_drop, CMem.length_splice by lia; lia).
  rewrite Hsp, HzD, (take_ge (drop _ D)) by done. done.
Qed.

Lemma read_sim m w p q b o d iAmt iOfst rc q' buf w' :
  mem_wf m → sim m p q → flushable q → rest_of m (Ptr b o) = Some d → ¬ own p b →
  0 ≤ iAmt < 2 ^ 31 →
  TeeVfs.demoRead q d iAmt iOfst w = Ret ((rc, q', buf), w') →
  ∃ p' m', demoRead p (Ptr b o) iAmt iOfst (m, w) = Ret ((rc, p'), (m', w')) ∧ sim m' p' q' ∧
    rest_of m' (Ptr b o) = Some buf ∧ frame (λ x, x = b) m m'.
Proof.
  intros Hwf Hs Hnul Hz Hown Ha E. unfold TeeVfs.demoRead in E. unfold demoRead.
  apply bind_inv in E as ([rc1 q1] & w1 & E1 & E).
  destruct (flush_sim _ _ _ _ _ _ _ Hs Hnul E1) as (p1 & Ep & Hs1 & Hb1). rewrite (bind_run _ _ _ _ _ Ep).
  assert (frame (λ x, x = b) m m) as Hrefl by by apply frame_refl.
  case_decide; [injection E as <- <- <- <-; by exists p1, m|].
  apply bind_inv in E as (ofst & w2 & E2 & E). simpl in E2. rewrite (sim_fd _ _ _ Hs1).
  rewrite (bind_run _ _ _ _ _ (world_run _ m _ _ _ E2)).
  case_decide; [injection E as <- <- <- <-; by exists p1, m|].
  apply bind_inv in E as (part0 & w3 & E3 & E). unfold read_buf in E3. case_decide as Hn; [|done].
  injection E3 as <- <-. apply bind_inv in E as ([r part] & w4 & E4 & E). simpl in E4.
  assert (u64 iAmt = iAmt) as Hu by (apply unsigned_id; unfold in_unsigned; lia). rewrite Hu in *.
  destruct (read_into_sim m w2 (TeeVfs.fd q1) b o d iAmt r part w4 Hwf Hz Hn E4) as (m1 & Er & Hf1 & Hz1).
  rewrite (bind_run _ _ _ _ _ Er). pose proof (proj1 Hf1) as Hwf1.
  assert (∀ x, own p1 x → x ≠ b) as Hown1 by (intros x Hx ->; apply Hown; unfold own; by rewrite <- Hb1).
  assert (sim m1 p1 q1) as Hs2 by (eapply sim_frame; [exact Hs1|done|exact Hf1|exact Hown1]).
  case_decide; [injection E as <- <- <- <-; by exists p1, m1|].
  case_decide; [|injection E as <- <- <- <-; by exists p1, m1].
  apply bind_inv in E as (zBuf & w5 & E5 & E). case_decide as Hlt.
  2:{ injection E5 as <- <-. injection E as <- <- <- <-. rewrite bind_ret_l. by exists p1, m1. }
  unfold memcpy_at in E5. case_decide as Hfit; [|done]. injection E5 as <- <-. injection E as <- <- <- <-.
  rewrite length_replicate in Hfit. set (zB := part ++ drop (Z.to_nat iAmt) d) in *.
  destruct (rest_of_store_at m1 b o zB (s32 r) (replicate (Z.to_nat (iAmt - s32 r)) 0) Hwf1 Hz1)
    as (m2 & P2 & Hf2 & Hz2); [lia|rewrite length_replicate; lia|].
  simpl padd. rewrite (bind_run _ _ _ _ _ (store_run m1 w4 _ _ _ P2)). exists p1, m2.
  split; [done|]. split; [eapply sim_frame; [exact Hs2|done|exact Hf2|exact Hown1]|].
  split; [done|eapply frame_trans; [exact Hf1|exact Hf2|done]].
Qed.

(** *** The loop *)

Definition has_buffer q : Prop :=
  ∃ buf, TeeVfs.aBuffer q = Some buf ∧ length buf = bufsz ∧ 0 ≤ TeeVfs.nBuffer q ≤ SQLITE_DEMOVFS_BUFFERSZ.

(** A flush that is due for data at offset [i] can be made. *)
Definition can_flush q (i : Z) : Prop :=
  flushable q ∨ TeeVfs.iBufferOfst q + TeeVfs.nBuffer q = i.

Lemma flush_inv q w rc q' w' :
  TeeVfs.demoFlushBuffer q w = Ret ((rc, q'), w') →
  q' = TeeVfs.set_buffer q (TeeVfs.aBuffer q) 0 (TeeVfs.iBufferOfst q).
Proof.
  intros E. unfold TeeVfs.demoFlushBuffer in E. case_decide as Hn.
  - apply bind_inv in E as (buf & w1 & _ & E). apply bind_inv in E as (rc1 & w2 & _ & E). by injection E as <- <- <-.
  - injection E as <- <- <-. destruct q; simpl in *. by subst.
Qed.

(** The stream after a flush, or without one. *)
Lemma stream_flushed q d n :
  stream q d n = take (Z.to_nat (TeeVfs.nBuffer q)) (default [] (TeeVfs.aBuffer q)) ++
    stream (TeeVfs.set_buffer q (TeeVfs.aBuffer q) 0 (TeeVfs.iBufferOfst q)) d n.
Proof. done. Qed.

(** A copy moves bytes from the caller into the buffer. *)
Lemma stream_copied q buf d n k ofst :
  TeeVfs.aBuffer q = Some buf → length buf = bufsz → 0 ≤ TeeVfs.nBuffer q → 0 ≤ k ≤ n →
  n ≤ Z.of_nat (length d) → TeeVfs.nBuffer q + k ≤ SQLITE_DEMOVFS_BUFFERSZ →
  stream (TeeVfs.set_buffer q (Some (splice buf (Z.to_nat (TeeVfs.nBuffer q)) (take (Z.to_nat k) d)))
            (TeeVfs.nBuffer q + k) ofst) (drop (Z.to_nat k) d) (n - k) = stream q d n.
Proof.
  intros Eb Hl Hn Hk Hd Hfit. pose proof bufsz_Z. unfold stream. simpl. rewrite Eb. simpl.
  rewrite Z2Nat.inj_add by lia. unfold splice. rewrite app_assoc, take_app_length'.
  - rewrite <- app_assoc. f_equal.
    rewrite <- (take_drop (Z.to_nat k) (take (Z.to_nat n) d)), take_take, Nat.min_l, skipn_firstn_comm by lia.
    do 2 f_equal. lia.
  - rewrite length_app, !length_take. lia.
Qed.

(** A flush that the loop asks for. *)
Lemma due_flush q d n i :
  has_buffer q → nul_in_windows (stream q d n) → can_flush q i →
  TeeVfs.nBuffer q = SQLITE_DEMOVFS_BUFFERSZ ∨ TeeVfs.iBufferOfst q + TeeVfs.nBuffer q ≠ i → flushable q.
Proof.
  intros (buf & Eb & Hl & Hn) Hnul [?|?] [Hfull|?]; try done.
  right. exists buf. split; [done|]. pose proof bufsz_Z.
  assert (take (Z.to_nat (TeeVfs.nBuffer q)) buf = buf) as Ht by (apply take_ge; lia).
  unfold stream in Hnul. rewrite Eb in Hnul. simpl in Hnul. rewrite Ht in Hnul. by eapply nul_in_full.
Qed.

Lemma make_room_sim m w p q (b : bool) i d n rc q1 w1 :
  sim m p q → has_buffer q → nul_in_windows (stream q d n) → can_flush q i →
  (b = true → TeeVfs.nBuffer q = SQLITE_DEMOVFS_BUFFERSZ ∨ TeeVfs.iBufferOfst q + TeeVfs.nBuffer q ≠ i) →
  (if b then TeeVfs.demoFlushBuffer q else ret (SQLITE_OK, q)) w = Ret ((rc, q1), w1) →
  ∃ p1, (if b then demoFlushBuffer p else ret (SQLITE_OK, p)) (m, w) = Ret ((rc, p1), (m, w1)) ∧
    sim m p1 q1 ∧ aBuffer p1 = aBuffer p ∧ has_buffer q1 ∧ nul_in_windows (stream q1 d n) ∧
    TeeVfs.aBuffer q1 = TeeVfs.aBuffer q.
Proof.
  intros Hs Hbuf Hnul Hcan Hdue E. destruct b.
  - assert (flushable q) as Hfl by (eapply due_flush; [done|done|done|by apply Hdue]).
    destruct (flush_sim _ _ _ _ _ _ _ Hs Hfl E) as (p1 & Ep & Hs1 & Hb1). apply flush_inv in E as ->.
    exists p1. split; [done|]. split; [done|]. split; [done|]. split; [|split; [|done]].
    + destruct Hbuf as (buf & Eb & Hl & Hn). exists buf. split; [done|]. split; [done|]. simpl. unfold SQLITE_DEMOVFS_BUFFERSZ. lia.
    + rewrite stream_flushed in Hnul. by eapply nul_in_suffix.
  - injection E as <- <- <-. by exists p.
Qed.

(** Copying into the write buffer. *)
Lemma copy_sim m w p q bz o d k n buf src buf2 w2 w3 :
  mem_wf m → sim m p q → has_buffer q → TeeVfs.aBuffer q = Some buf → rest_of m (Ptr bz o) = Some d → ¬ own p bz →
  read_buf d k w = Ret (src, w2) → memcpy_at buf n src w2 = Ret (buf2, w3) →
  ∃ m' b, w3 = w ∧ own p b ∧ in_heap (memcpy (padd (aBuffer p) n) (Ptr bz o) k) (m, w) = Ret (tt, (m', w)) ∧
    frame (own p) m m' ∧ m_next m' = m_next m ∧ m_blocks m' !! b = Some (Block Heap buf2) ∧ rest_of m' (Ptr bz o) = Some d ∧
    src = take (Z.to_nat k) d ∧ buf2 = splice buf (Z.to_nat n) src ∧ 0 ≤ k ≤ Z.of_nat (length d) ∧
    n + k ≤ Z.of_nat bufsz.
Proof.
  intros Hwf Hs (buf' & Eb' & Hl & _) Eb Hz Hown E1 E2. rewrite Eb in Eb'. injection Eb' as <-.
  unfold read_buf in E1. case_decide as Hk; [|done]. injection E1 as <- <-.
  unfold memcpy_at in E2. case_decide as Hn; [|done]. injection E2 as <- <-.
  destruct (sim_buffer m p q buf Hs Eb) as (b & Hb & Hblk). rewrite length_take in Hn.
  set (src := take (Z.to_nat k) d). set (m' := Mem (m_next m) (<[b := Block Heap (splice buf (Z.to_nat n) src)]> (m_blocks m))).
  assert (poke (Ptr b n) src m = Some m') as P.
  { apply poke_Some. exists b, n, Heap, buf. unfold src. rewrite length_take. split_and!; try done; lia. }
  exists m', b. split; [done|]. split; [done|]. split.
  { rewrite Hb. simpl padd. eapply memcpy_run; [|exact P]. by apply rest_of_peek. }
  assert (frame (own p) m m') as Hf.
  { eapply frame_weaken; [by eapply poke_frame|]. by intros x _ ->. }
  split; [done|]. split; [done|]. split; [simpl; by rewrite lookup_insert_eq|]. split; [by eapply rest_of_frame|].
  split; [done|]. split; [done|]. lia.
Qed.

Lemma chk_signed_inv {S} z (s s' : S) a : chk_signed 64 z s = Ret (a, s') → a = z ∧ s' = s ∧ in_signed 64 z.
Proof. unfold chk_signed. case_decide; [|done]. by intros [= -> ->]. Qed.

(** The first test of the loop. *)
Lemma test_sim m w p q i b w1 :
  sim m p q →
  (if decide (TeeVfs.nBuffer q = SQLITE_TEEVFS_BUFFERSZ) then ret true
   else let! e := chk_signed 64 (TeeVfs.iBufferOfst q + TeeVfs.nBuffer q) in
        ret (bool_decide (e ≠ i))) w = Ret (b, w1) →
  w1 = w ∧
  (if decide (nBuffer p = SQLITE_DEMOVFS_BUFFERSZ) then ret true
   else let! e := chk_signed 64 (iBufferOfst p + nBuffer p) in
        ret (bool_decide (e ≠ i))) (m, w) = Ret (b, (m, w)) ∧
  (b = true → TeeVfs.nBuffer q = SQLITE_DEMOVFS_BUFFERSZ ∨ TeeVfs.iBufferOfst q + TeeVfs.nBuffer q ≠ i).
Proof.
  intros (_ & _ & Hn & Ho & _) E. rewrite Hn, Ho. change SQLITE_DEMOVFS_BUFFERSZ with SQLITE_TEEVFS_BUFFERSZ.
  case_decide; [injection E as <- <-; tauto|].
  apply bind_inv in E as (e & w2 & E1 & E). unfold chk_signed in *. case_decide; [|done].
  injection E1 as <- <-. injection E as <- <-. split; [done|]. split; [done|].
  intros Hb%bool_decide_eq_true. by right.
Qed.

Lemma loop_sim fuel m w p q bz o d n i rc q' w' :
  mem_wf m → sim m p q → has_buffer q → rest_of m (Ptr bz o) = Some d → ¬ own p bz →
  n ≤ Z.of_nat (length d) → nul_in_windows (stream q d n) → can_flush q i →
  TeeVfs.demoWrite_loop fuel q d n i w = Ret ((rc, q'), w') →
  ∃ p' m', demoWrite_loop fuel p (Ptr bz o) n i (m, w) = Ret ((rc, p'), (m', w')) ∧ sim m' p' q' ∧
    aBuffer p' = aBuffer p ∧ frame (own p) m m' ∧ m_next m' = m_next m.
Proof.
  revert m w p q o d n i. induction fuel as [|fuel IH];
    intros m w p q o d n i Hwf Hs Hbuf Hz Hown Hnd Hnul Hcan E; simpl in E |- *;
    (destruct (decide (n > 0)) as [Hpos|];
     [|injection E as <- <- <-; exists p, m; split_and!; try done; by apply frame_refl]); [done|].
  apply bind_inv in E as (b & w1 & E1 & E).
  destruct (test_sim m w p q i b w1 Hs E1) as (-> & Et & Hdue). rewrite (bind_run _ _ _ _ _ Et). clear E1 Et.
  apply bind_inv in E as ([rc1 q1] & w1 & E1 & E).
  destruct (make_room_sim m w p q b i d n rc1 q1 w1 Hs Hbuf Hnul Hcan Hdue E1)
    as (p1 & Ep & Hs1 & Hb1 & Hbuf1 & Hnul1 & Eb1). rewrite (bind_run _ _ _ _ _ Ep). clear Ep E1.
  case_decide; [injection E as <- <- <-; exists p1, m; split_and!; try done; by apply frame_refl|].
  apply bind_inv in E as ([] & w2 & E1 & E). unfold c_assert in E1.
  destruct (bool_decide (TeeVfs.nBuffer q1 = 0) || _) eqn:Ha; [|done]. injection E1 as <-.
  destruct Hs1 as (Hm & Hfd & Hn & Ho & Hblk). assert (sim m p1 q1) as Hs1 by by split_and!.
  rewrite Hn, Ho, Ha. change (c_assert true) with (ret (S:=mem*W) tt). rewrite bind_ret_l.
  apply bind_inv in E as (ofst & w2 & E1 & E). apply chk_signed_inv in E1 as (-> & -> & Hchk1).
  rewrite (bind_run _ _ _ _ _ (chk_signed_eq _ _ Hchk1)). simpl nBuffer.
  change SQLITE_DEMOVFS_BUFFERSZ with SQLITE_TEEVFS_BUFFERSZ.
  set (k := if decide (SQLITE_TEEVFS_BUFFERSZ - TeeVfs.nBuffer q1 > n) then n else SQLITE_TEEVFS_BUFFERSZ - TeeVfs.nBuffer q1) in *.
  apply bind_inv in E as (buf & w2 & E1 & E). destruct (TeeVfs.aBuffer q1) as [buf1|] eqn:Eb; [|done]. injection E1 as -> <-.
  apply bind_inv in E as (src & w2 & E2 & E). apply bind_inv in E as (buf2 & w3 & E3 & E).
  assert (¬ own p1 bz) as Hown1 by (unfold own; by rewrite Hb1).
  destruct (copy_sim m w1 p1 q1 bz o d k (TeeVfs.nBuffer q1) buf src buf2 w2 w3 Hwf Hs1 Hbuf1 Eb Hz Hown1 E2 E3)
    as (m1 & blk & -> & Hblk1 & Ec & Hf1 & Hnext1 & Hblk2 & Hz1 & -> & -> & Hk & Hfit). clear E2 E3.
  simpl aBuffer. rewrite (bind_run _ _ _ _ _ Ec). clear Ec.
  apply bind_inv in E as (i' & w3 & E1 & E). apply chk_signed_inv in E1 as (-> & -> & Hchk2).
  rewrite (bind_run _ _ _ _ _ (chk_signed_eq _ _ Hchk2)). rewrite bufsz_Z in Hfit.
  destruct Hbuf1 as (buf' & Eb' & Hl & Hnr). rewrite Eb in Eb'. injection Eb' as <-. pose proof bufsz_Z as HB.
  unfold SQLITE_DEMOVFS_BUFFERSZ, SQLITE_TEEVFS_BUFFERSZ in *.
  assert (k ≤ n ∧ (k = n ∨ TeeVfs.nBuffer q1 + k = 8192)) as [Hkn Hkfull] by (unfold k; destruct (decide (8192 - TeeVfs.nBuffer q1 > n)); lia).
  set (src := take (Z.to_nat k) d) in *. assert (Z.of_nat (length src) = k) as Hsrc by (unfold src; rewrite length_take; lia).
  eapply (IH m1 w1 _ _ (o + k) (drop (Z.to_nat k) d) (n - k) (i + k)) in E as (p' & m' & E & Hs' & Hb' & Hf' & Hnext').
  - exists p', m'. split; [exact E|]. split; [done|]. split; [by rewrite Hb'|]. split; [|lia].
    eapply frame_trans; [eapply frame_weaken; [exact Hf1|]|exact Hf'|]; unfold own; simpl; by rewrite Hb1.
  - apply Hf1.
  - split_and!; simpl; try done. exists blk. by split.
  - eexists. split; [reflexivity|]. split; [rewrite CMem.length_splice; lia|simpl; unfold SQLITE_DEMOVFS_BUFFERSZ; lia].
  - exact (rest_of_padd _ _ _ k Hz1 Hk).
  - done.
  - rewrite length_drop. lia.
  - unfold src. rewrite stream_copied; try done; unfold SQLITE_DEMOVFS_BUFFERSZ; lia.
  - right. simpl. lia.
Qed.

(** [demoWrite], with a buffer or without. *)
Lemma write_sim m w p q bz o d n i rc q' w' :
  mem_wf m → sim m p q → demo_ok q → rest_of m (Ptr bz o) = Some d → ¬ own p bz →
  n ≤ Z.of_nat (length d) → nul_in_windows (stream q d n) → can_flush q i →
  (TeeVfs.aBuffer q = None → 0 ∈ d) →
  TeeVfs.demoWrite q d n i w = Ret ((rc, q'), w') →
  ∃ p' m', demoWrite p (Ptr bz o) n i (m, w) = Ret ((rc, p'), (m', w')) ∧ sim m' p' q' ∧
    aBuffer p' = aBuffer p ∧ frame (own p) m m' ∧ m_next m' = m_next m.
Proof.
  intros Hwf Hs Hok Hz Hown Hnd Hnul Hcan Hd E. unfold TeeVfs.demoWrite in E. unfold demoWrite.
  pose proof Hs as (_ & Hfd & _ & _ & Hblk). destruct (TeeVfs.aBuffer q) as [buf|] eqn:Eb.
  - destruct Hblk as (b & Hb & _). rewrite Hb, decide_True by done.
    eapply loop_sim in E as (p' & m' & E & ? & ? & ? & ?); try done; [by exists p', m'; rewrite <- Hb|].
    destruct (demo_ok_buffer q buf Hok Eb) as (Hl & Hn & _). exists buf. split; [done|]. pose proof bufsz_Z.
    unfold SQLITE_DEMOVFS_BUFFERSZ, SQLITE_TEEVFS_BUFFERSZ in *. lia.
  - rewrite decide_False by naive_solver.
    apply bind_inv in E as (rc1 & w1 & E1 & E). injection E as <- <- <-.
    rewrite (bind_run _ _ _ _ _ (direct_sim m w p q _ d _ _ _ _ Hfd Hz (Hd eq_refl) E1)).
    exists p, m. split; [done|]. split; [done|]. split; [done|]. split; [|done]. by apply frame_refl.
Qed.
End methods.
