(* ===== verification/HostProps.v ===== *)
(** * The host's VFS: properties

What the host's VFS promises SQLite, from [HostSim] and the lemmas of [TeeVfs];
what becomes of its memory; and what happens when the bytes it writes contain no
NUL.  The last part is a concrete host, with the witnesses. *)
From S2P Require Import Prelude CMem Heap UteeVfs MemFile TeeVfs HostVfs HostSim.
#[local] Open Scope Z_scope.
#[local] Open Scope c_scope.

(** The memory is [h] and the write buffer of [p], if it has one. *)
Definition owns (h : gmap Z block) (p : HostVfs.DemoFile) (m : mem) : Prop :=
  match aBuffer p with
  | NULL => m_blocks m = h
  | Ptr b o => o = 0 ∧ h !! b = None ∧ ∃ d, m_blocks m = <[b := Block Heap d]> h
  end.

(** ** Memory *)
Section heap.
Context {W : Type} `{HostLaws W, SqliteMemLaws}.
Implicit Types (m : mem) (w : W) (p : HostVfs.DemoFile) (q : TeeVfs.DemoFile) (h : gmap Z block).

(** An operation that touches its own buffer only keeps owning what it owned. *)
Lemma owns_frame h m m' p p' q' :
  owns h p m → mem_wf m → frame (own p) m m' → m_next m' = m_next m → aBuffer p' = aBuffer p →
  sim m' p' q' → owns h p' m'.
Proof.
  intros Ho Hwf Hf Hn Hb (_ & _ & _ & _ & Hs). unfold owns in *. rewrite Hb in *.
  assert (∀ x, ¬ own p x → m_blocks m' !! x = m_blocks m !! x) as Hother.
  { intros x Hx. destruct (decide (x < m_next m)); [by apply (frame_at Hf)|].
    rewrite (proj2 Hwf), (proj2 (proj1 Hf)) by lia. done. }
  destruct (aBuffer p) as [|b o] eqn:Ep.
  - rewrite <- Ho. apply map_eq. intros x. apply Hother. unfold own. by rewrite Ep.
  - destruct Ho as (-> & Hh & d & Hm). split; [done|]. split; [done|].
    destruct (TeeVfs.aBuffer q') as [d'|]; [|done]. destruct Hs as (b' & [= <-] & Hblk).
    exists d'. apply map_eq. intros x. destruct (decide (x = b)) as [->|Hx]; [by rewrite lookup_insert_eq|].
    rewrite Hother, Hm, !lookup_insert_ne by (try done; unfold own; rewrite Ep; naive_solver). done.
Qed.

Lemma free_owned h p m w :
  mem_wf m → owns h p m →
  ∃ m', in_heap (sqlite3_free (aBuffer p)) (m, w) = Ret (tt, (m', w)) ∧ m_blocks m' = h.
Proof.
  intros Hwf Ho. unfold owns in Ho. destruct (aBuffer p) as [|b o].
  - exists m. split; [apply heap_run, sqlite3_free_null|done].
  - destruct Ho as (-> & Hh & d & Hm).
    destruct (sqlite3_free_law b d m Hwf) as (m' & E & _ & _ & Hb); [by rewrite Hm, lookup_insert_eq|].
    exists m'. split; [by apply heap_run|]. by rewrite Hb, Hm, delete_insert_id.
Qed.

(** The journal's buffer, allocated or not. *)
Lemma buffer_run flags m w :
  mem_wf m →
  ∃ failed aBuf m1,
    (if flag_set flags SQLITE_OPEN_MAIN_JOURNAL
     then let! aBuf := in_heap (sqlite3_malloc SQLITE_DEMOVFS_BUFFERSZ) in
          ret (bool_decide (aBuf = NULL), aBuf)
     else ret (false, NULL)) (m, w) = Ret ((failed, aBuf), (m1, w)) ∧ mem_wf m1 ∧
    (failed = true → m_blocks m1 = m_blocks m) ∧
    (failed = false → ∀ fd n o ms, owns (m_blocks m) (HostVfs.mkDemoFile ms fd aBuf n o) m1) ∧
    (failed = false → (aBuf ≠ NULL ↔ flag_set flags SQLITE_OPEN_MAIN_JOURNAL = true)).
Proof.
  intros Hwf. destruct (flag_set flags SQLITE_OPEN_MAIN_JOURNAL) eqn:Ej.
  - destruct (sqlite3_malloc_law SQLITE_DEMOVFS_BUFFERSZ m Hwf ltac:(done)) as (a & m1 & E & Hwf1 & _ & Ha).
    rewrite (bind_run _ _ _ _ _ (heap_run _ m w _ _ E)).
    exists (bool_decide (a = NULL)), a, m1. split; [done|]. split; [done|].
    destruct Ha as [[-> Hb]|(b & d & -> & Hlt & _ & Hb)].
    + rewrite bool_decide_true by done. split; [done|]. by split.
    + rewrite bool_decide_false by done. split; [done|]. split; [|done]. intros _ f n o ms.
      split; [done|]. split; [apply Hwf; lia|]. by exists d.
  - exists false, NULL, m. split_and!; done.
Qed.
End heap.

(** ** Properties *)
Section properties.
Context {W : Type} `{HostLaws W, SqliteMemLaws, !FileLaws W}.
Implicit Types (m : mem) (w : W) (p : HostVfs.DemoFile) (q : TeeVfs.DemoFile) (h : gmap Z block) (d v : bytes).

(** C7: the write buffer of the host's VFS is invisible, and it does what the
    trusted application's does.  From a file that SQLite sees as [v], [demoWrite]
    of bytes in the caller's memory returns, provided what it flushes contains a
    NUL; with [SQLITE_OK] SQLite sees what a POSIX write of those bytes makes of
    [v], and the only error is [SQLITE_IOERR_WRITE]; it gives the code, leaves the
    file and reaches the world that the other VFS does; and it changes no memory
    but its own buffer. *)
Theorem host_demoWrite_refines h m w p q v b o d n i :
  mem_wf m → sim m p q → owns h p m → demo_repr q w v →
  rest_of m (Ptr b o) = Some d → ¬ own p b →
  0 ≤ n ≤ Z.of_nat (length d) → n < 2 ^ 31 → 0 ≤ i → i + n < 2 ^ 63 →
  nul_in_windows (stream q d n) → can_flush q i → (TeeVfs.aBuffer q = None → 0 ∈ d) →
  ∃ rc p' q' m' w' v',
    demoWrite p (Ptr b o) n i (m, w) = Ret ((rc, p'), (m', w')) ∧
    TeeVfs.demoWrite q d n i w = Ret ((rc, q'), w') ∧
    sim m' p' q' ∧ owns h p' m' ∧ demo_repr q' w' v' ∧ frame (own p) m m' ∧
    (rc = SQLITE_OK ∧ v' = write_at v (Z.to_nat i) (take (Z.to_nat n) d) ∨ rc = SQLITE_IOERR_WRITE).
Proof.
  intros Hwf Hs Ho (l & pos & Hf & Hok & Hv)%demo_repr_open Hz Hown Hn Hn31 Hi Him Hnul Hcan Hd.
  destruct (demoWrite_spec q w l pos d n i) as (rc & q' & w' & E & Hok' & Hfd & [[l' pos'] Hf'] & Hrc); try done.
  destruct (write_sim m w p q b o d n i rc q' w') as (p' & m' & Ep & Hs' & Hb' & Hfr & Hnx); try done; [lia|].
  rewrite <- Hfd in Hf'. destruct (demo_view_Some q' w' l' pos' Hf') as [v' Hv'].
  exists rc, p', q', m', w', v'. split_and!; try done; [by eapply owns_frame|].
  destruct Hrc as [[-> Hw]| ->]; [left|by right]. rewrite Hv, Hv' in Hw. by simplify_eq/=.
Qed.

(** C28: the other methods of an open file do what the trusted application's do.
    When what is buffered can be flushed, [demoRead], [demoSync], [demoFileSize]
    and [demoClose] return whatever the trusted application's methods return in
    the same world, code, file and size; [demoRead] leaves in the caller's memory
    the buffer the other leaves and touches nothing else; and [demoClose] frees
    the write buffer, which in the other's world, where memory is not, is no
    change at all. *)
Theorem host_methods_as_tee h m w p q :
  mem_wf m → sim m p q → owns h p m → flushable q →
  (∀ b o d n i rc q' buf w', rest_of m (Ptr b o) = Some d → ¬ own p b → 0 ≤ n < 2 ^ 31 →
     TeeVfs.demoRead q d n i w = Ret ((rc, q', buf), w') →
     ∃ p' m', demoRead p (Ptr b o) n i (m, w) = Ret ((rc, p'), (m', w')) ∧ sim m' p' q' ∧
       rest_of m' (Ptr b o) = Some buf ∧ frame (λ x, x = b) m m') ∧
  (∀ flags rc q' w', TeeVfs.demoSync q flags w = Ret ((rc, q'), w') →
     ∃ p', demoSync p flags (m, w) = Ret ((rc, p'), (m, w')) ∧ sim m p' q') ∧
  (∀ rc q' size w', TeeVfs.demoFileSize q w = Ret ((rc, q', size), w') →
     ∃ p', demoFileSize p (m, w) = Ret ((rc, p', size), (m, w')) ∧ sim m p' q') ∧
  (∀ rc w', TeeVfs.demoClose (λ _, ret tt) q w = Ret (rc, w') →
     ∃ m', demoClose p (m, w) = Ret (rc, (m', w')) ∧ m_blocks m' = h).
Proof.
  intros Hwf Hs Ho Hfl. split; [|split; [|split]].
  - intros. by eapply read_sim.
  - intros. by eapply sync_sim.
  - intros. by eapply filesize_sim.
  - intros rc w' E. unfold TeeVfs.demoClose in E. unfold demoClose.
    apply bind_inv in E as ([rc1 q1] & w1 & E1 & E).
    destruct (flush_sim m w p q rc1 q1 w1 Hs Hfl E1) as (p1 & Ep & Hs1 & Hb1).
    rewrite (bind_run _ _ _ _ _ Ep). rewrite Hb1.
    destruct (free_owned h p m w1 Hwf Ho) as (m' & Em & Hm'). rewrite (bind_run _ _ _ _ _ Em).
    unfold ret in E at 1. apply bind_inv in E as ([] & w1' & [= <-] & E). apply bind_inv in E as (r & w2 & E2 & E). simpl in E2. injection E as <- <-.
    rewrite (sim_fd _ _ _ Hs1). rewrite (bind_run _ _ _ _ _ (world_run _ m' _ _ _ E2)). by exists m'.
Qed.

(** Opening a file takes at most its buffer.  Whenever [open] returns,
    [demoOpen] returns; with [SQLITE_OK] the file owns what was allocated, a
    buffer exactly when it is a journal, and nothing is buffered; with any other
    code the memory is as it was: the buffer of a journal that cannot be opened
    is freed. *)
Theorem host_demoOpen_owns zName p flags out m w :
  mem_wf m → (∀ name oflag w, ∃ r w', host_open name oflag 384 w = Ret (r, w')) →
  ∃ rc p' o m' w', demoOpen zName p flags out (m, w) = Ret ((rc, p', o), (m', w')) ∧
    (rc = SQLITE_OK ∧ owns (m_blocks m) p' m' ∧ pMethods p' = true ∧ 0 ≤ fd p' ∧ nBuffer p' = 0 ∧
       (aBuffer p' ≠ NULL ↔ Z.testbit flags 11 = true) ∧ o = (if out : bool then Some flags else None)
     ∨ (rc = SQLITE_IOERR ∨ rc = SQLITE_NOMEM ∨ rc = SQLITE_CANTOPEN) ∧ m_blocks m' = m_blocks m ∧ o = None).
Proof.
  intros Hwf Hopen. unfold demoOpen. destruct zName as [name|].
  2:{ eexists _, _, _, m, w. split; [done|]. right. tauto. }
  destruct (buffer_run flags m w Hwf) as (failed & aBuf & m1 & E & Hwf1 & Hfail & Hok & Hiff).
  rewrite (bind_run _ _ _ _ _ E). destruct failed.
  { eexists _, _, _, m1, w. split; [done|]. right. split; [tauto|]. split; [by apply Hfail|done]. }
  match goal with |- context [host_open name ?fl 384] => destruct (Hopen name fl w) as (r & w1 & Eo) end.
  rewrite (bind_run _ _ _ _ _ (world_run _ m1 _ _ _ Eo)). change (HostVfs.fd (HostVfs.mkDemoFile _ r _ _ _)) with r.
  destruct (decide (r < 0)) as [Hr|Hr].
  - destruct (free_owned (m_blocks m) (HostVfs.mkDemoFile false r aBuf 0 0) m1 w1 Hwf1) as (m' & Em & Hm');
      [by apply Hok|]. simpl aBuffer in Em. rewrite (bind_run _ _ _ _ _ Em).
    eexists _, _, _, m', w1. split; [done|]. right. tauto.
  - eexists _, _, _, m1, w1. split; [done|]. left. split; [done|]. split; [by apply Hok|].
    split; [done|]. split; [simpl; lia|]. split; [done|]. split; [|done]. simpl. rewrite (Hiff eq_refl).
    change SQLITE_OPEN_MAIN_JOURNAL with (2 ^ 11). by rewrite flag_set_testbit.
Qed.

(** C32: what has no NUL cannot be written.  [demoDirectWrite] calls [strlen] on
    the bytes it is given and ignores the result; when no NUL follows them in
    their object it reads past the end, which is undefined behaviour.  So it is
    for a file without a buffer, and for every method that flushes a journal
    whose buffer has no zero byte, as soon as [lseek] has succeeded. *)
Theorem nul_free_write_is_undefined m w w1 p q d i :
  host_lseek (fd p) i SEEK_SET w = Ret (i, w1) → 0 ∉ d →
  (∀ z n, rest_of m z = Some d → demoDirectWrite p z n i (m, w) = Undef) ∧
  (sim m p q → TeeVfs.aBuffer q = Some d → nBuffer p ≠ 0 → iBufferOfst p = i →
     demoSync p 0 (m, w) = Undef ∧ demoFileSize p (m, w) = Undef ∧ demoClose p (m, w) = Undef ∧
     ∀ z n ofst, demoRead p z n ofst (m, w) = Undef).
Proof.
  intros Hseek Hd.
  assert (∀ z n, rest_of m z = Some d → demoDirectWrite p z n i (m, w) = Undef) as Hdirect.
  { intros z n Hz. unfold demoDirectWrite.
    rewrite (bind_run _ _ _ _ _ (world_run _ m _ _ _ Hseek)), decide_False by naive_solver.
    apply bind_undef. unfold in_heap, zoom, strlen. cbn [fst]. rewrite Hz. cbn [mbind option_bind].
    destruct (cstring d) eqn:Ec; [|done]. exfalso. apply Hd, cstring_nul. by eexists. }
  split; [done|]. intros Hs Eb Hn Hi. destruct (sim_buffer m p q d Hs Eb) as (b & Hb & Hblk).
  assert (demoFlushBuffer p (m, w) = Undef) as Hfl.
  { unfold demoFlushBuffer. rewrite decide_True by done. apply bind_undef. rewrite Hi. apply Hdirect.
    rewrite Hb. by eapply rest_of_block. }
  split_and!; intros; by apply bind_undef.
Qed.

(** The methods on paths are the trusted application's, in every world. *)
Theorem host_paths_as_tee (snprintf : Z → bytes → bytes → bytes) (uninit : Z → bytes) zPath w :
  (∀ dirSync, HostVfs.demoDelete snprintf uninit zPath dirSync w =
     TeeVfs.demoDelete snprintf uninit zPath dirSync w) ∧
  (∀ flags, HostVfs.demoAccess zPath flags w = TeeVfs.demoAccess zPath flags w) ∧
  (HostVfs.demoCurrentTime w = TeeVfs.demoCurrentTime w) ∧
  ∀ n out, HostVfs.demoFullPathname snprintf uninit zPath n out w =
    TeeVfs.demoFullPathname snprintf uninit zPath n out w.
Proof. done. Qed.
End properties.

(** ** A concrete host

The file system of [MemFile] as an operating system, and an allocator that always
succeeds. *)
#[export] Instance memfs_host : HostOs memfs := {
  host_lseek := mf_lseek;
  host_write := mf_write;
  host_read := mf_read;
  host_fsync f := ret 0;
  host_close f := run (λ w, (0, MemFs (delete f (mf_fds w)) (mf_names w) (mf_cwd w)));
  host_fstat f := gets (λ w, match mf_fds w !! f with
                             | Some (l, _) => (0, Z.of_nat (length l)) | None => (-1, 0) end);
  host_open := mf_open;
  host_unlink name := mf_unlink name 0;
  host_access name _ := gets (λ w, if decide (is_Some (mf_names w !! name)) then 0 else -1);
  host_getcwd buf := gets (λ w, Some (fill buf (mf_cwd w ++ [0])));
  host_sleep _ := ret 0;
  host_usleep _ := ret 0;
  host_time := ret 0
}.

#[export] Instance memfs_host_laws : HostLaws memfs.
Proof.
  split.
  - intros f buf w r buf' w' E. simpl in E. unfold mf_read, run in E.
    destruct (mf_fds w !! f) as [[l pos]|]; injection E as <- <- <-; [apply length_fill|done].
  - intros f w size w' E. simpl in E. unfold gets in E.
    destruct (mf_fds w !! f) as [[l pos]|]; [injection E as <- <-; lia|done].
Qed.

#[export] Program Instance memfs_host_file : FileLaws memfs (H:=host_as_utee) := {
  fd_file w f := mf_fds w !! f
}.
Next Obligation. exact (lseek_law (FileLaws:=memfs_laws)). Qed.
Next Obligation. exact (write_law (FileLaws:=memfs_laws)). Qed.
Next Obligation. exact (read_law (FileLaws:=memfs_laws)). Qed.
Next Obligation. intros w f l pos Hf. by eexists _, _. Qed.
Next Obligation.
  intros w f l pos Hf. simpl. erewrite bind_run by (unfold gets; by rewrite Hf). eexists _, _.
  split; [done|]. split; [by right|done].
Qed.
Next Obligation. intros w f l pos Hf. by eexists _, _. Qed.

#[export] Instance plain_alloc : SqliteMem := {
  sqlite3_malloc n := alloc Heap (replicate (Z.to_nat n) 7);
  sqlite3_free := free
}.

#[export] Instance plain_alloc_laws : SqliteMemLaws.
Proof.
  split.
  - intros n m Hwf Hn. eexists _, _. split; [done|]. split; [by apply mem_wf_alloc|]. split; [simpl; lia|].
    right. eexists _, _. split; [done|]. split; [lia|]. split; [|done]. rewrite length_replicate. lia.
  - intros b d m Hwf Hb. assert (release (Ptr b 0) m = Some (Mem (m_next m) (delete b (m_blocks m)))) as Hr
      by (simpl; by rewrite Hb).
    eexists. simpl. unfold free, update. rewrite Hr. split; [done|]. split; [by eapply mem_wf_release|done].
  - done.
Qed.

(** The journal of [TeeVfs]'s example in block 1, three bytes to write in block 2. *)
Definition ex_jbuf : bytes := 9 :: 8 :: replicate (Z.to_nat 8190) 0.
Definition ex_heap : gmap Z block := {[2 := Block Heap [5; 6; 0]]}.
Definition ex_hmem : mem := Mem 3 (<[1 := Block Heap ex_jbuf]> ex_heap).
Definition ex_hfile : HostVfs.DemoFile := HostVfs.mkDemoFile true 3 (Ptr 1 0) 2 4.

Lemma ex_hmem_wf : mem_wf ex_hmem.
Proof.
  split; [done|]. intros b Hb. simpl in Hb |- *. unfold ex_heap.
  rewrite lookup_insert_ne, lookup_singleton_ne by lia. done.
Qed.

Lemma ex_sim : sim ex_hmem ex_hfile ex_journal.
Proof. split_and!; try done. exists 1. by split. Qed.

Lemma ex_owns : owns ex_heap ex_hfile ex_hmem.
Proof. split; [done|]. split; [done|]. by exists ex_jbuf. Qed.

Lemma ex_flushable : flushable ex_journal.
Proof.
  right. exists ex_jbuf. split; [done|]. apply list_elem_of_lookup_2 with 2%nat. reflexivity.
Qed.

Lemma ex_hrepr : demo_repr (H0:=memfs_host_file) ex_journal ex_disk [1; 2; 3; 4; 9; 8].
Proof. split; [|reflexivity]. vm_compute. repeat split; discriminate. Qed.

Lemma host_demoWrite_refines_witness :
  ∃ rc p' q' m' w' v',
    demoWrite ex_hfile (Ptr 2 0) 2 6 (ex_hmem, ex_disk) = Ret ((rc, p'), (m', w')) ∧
    TeeVfs.demoWrite (H:=host_as_utee) ex_journal [5; 6; 0] 2 6 ex_disk = Ret ((rc, q'), w') ∧
    sim m' p' q' ∧ owns ex_heap p' m' ∧ demo_repr (H0:=memfs_host_file) q' w' v' ∧ frame (own ex_hfile) ex_hmem m' ∧
    (rc = SQLITE_OK ∧ v' = [1; 2; 3; 4; 9; 8; 5; 6] ∨ rc = SQLITE_IOERR_WRITE).
Proof.
  apply (host_demoWrite_refines ex_heap ex_hmem ex_disk ex_hfile ex_journal [1; 2; 3; 4; 9; 8] 2 0 [5; 6; 0] 2 6);
    [exact ex_hmem_wf|exact ex_sim|exact ex_owns|exact ex_hrepr|reflexivity|discriminate|simpl; lia|lia|lia|lia
    | |left; exact ex_flushable|discriminate].
  intros j Hj. exfalso. assert (length (stream ex_journal [5; 6; 0] 2) = 4%nat) as E by reflexivity.
  rewrite E in Hj. pose proof bufsz_Z as HB. unfold SQLITE_DEMOVFS_BUFFERSZ in HB. lia.
Defined.

Lemma host_methods_as_tee_witness :
  ∃ m', demoClose ex_hfile (ex_hmem, ex_disk) = Ret (SQLITE_OK, (m', MemFs ∅ ∅ [])) ∧ m_blocks m' = ex_heap.
Proof.
  apply (host_methods_as_tee ex_heap ex_hmem ex_disk ex_hfile ex_journal ex_hmem_wf ex_sim ex_owns ex_flushable).
  vm_compute. reflexivity.
Defined.

Lemma host_demoOpen_owns_witness :
  ∃ rc p' o m' w', demoOpen (Some [98]) HostVfs.DemoFile_zero 2048 true (ex_hmem, ex_disk) = Ret ((rc, p', o), (m', w')) ∧
    (rc = SQLITE_OK ∧ owns (m_blocks ex_hmem) p' m' ∧ pMethods p' = true ∧ 0 ≤ fd p' ∧ nBuffer p' = 0 ∧
       (aBuffer p' ≠ NULL ↔ Z.testbit 2048 11 = true) ∧ o = Some 2048
     ∨ (rc = SQLITE_IOERR ∨ rc = SQLITE_NOMEM ∨ rc = SQLITE_CANTOPEN) ∧ m_blocks m' = m_blocks ex_hmem ∧ o = None).
Proof.
  apply (host_demoOpen_owns (Some [98]) HostVfs.DemoFile_zero 2048 true ex_hmem ex_disk ex_hmem_wf).
  intros name oflag w. simpl. unfold mf_open, run. case_decide; by eexists _, _.
Defined.

(** Two bytes, neither of them zero, written without a buffer. *)
Lemma nul_free_write_is_undefined_witness :
  demoDirectWrite (HostVfs.mkDemoFile true 3 NULL 0 0) (Ptr 1 0) 2 0
    (Mem 2 {[1 := Block Heap [5; 6]]}, ex_disk) = Undef.
Proof.
  eapply (nul_free_write_is_undefined (Mem 2 {[1 := Block Heap [5; 6]]}) ex_disk _
            (HostVfs.mkDemoFile true 3 NULL 0 0) ex_journal [5; 6] 0);
    [vm_compute; reflexivity|set_solver by lia|reflexivity].
Defined.
