(* ===== verification/Protocol.v ===== *)
(** * The numbers both worlds agree on

The operation a request asks for is a number in the first field of its first
parameter.  The secure kernel takes it from optee_os/core/include/vfs.h
([Module Kernel]), the supplicant from
optee_client/tee-supplicant/optee_msg_supplicant.h ([Module Supplicant]); the
two lists are kept apart here, as they are in the source, so that theorems
which follow a request from one side to the other depend on both. *)
From S2P Require Import Prelude.
#[local] Open Scope Z_scope.

(** ** Operations of a VFS request *)
Module Kernel.
Definition OPTEE_VFS_OPEN : Z := 0.
Definition OPTEE_VFS_CLOSE : Z := 1.
Definition OPTEE_VFS_ACCESS : Z := 2.
Definition OPTEE_VFS_GETCWD : Z := 3.
Definition OPTEE_VFS_STAT : Z := 4.
Definition OPTEE_VFS_WRITE : Z := 5.
Definition OPTEE_VFS_READ : Z := 6.
Definition OPTEE_VFS_FCHMOD : Z := 7.
Definition OPTEE_VFS_FCHOWN : Z := 8.
Definition OPTEE_VFS_MKDIR : Z := 9.
Definition OPTEE_VFS_RMDIR : Z := 10.
Definition OPTEE_VFS_UNLINK : Z := 11.
Definition OPTEE_VFS_FTRUNCATE : Z := 12.
Definition OPTEE_VFS_GETEUID : Z := 13.
Definition OPTEE_VFS_GETPID : Z := 14.
Definition OPTEE_VFS_GETENV : Z := 15.
Definition OPTEE_VFS_LSEEK : Z := 16.
Definition OPTEE_VFS_FSYNC : Z := 17.
Definition OPTEE_VFS_SLEEP : Z := 18.
Definition OPTEE_VFS_PREAD : Z := 19.
Definition OPTEE_VFS_GETTIMEOFDAY : Z := 20.
Definition OPTEE_VFS_PWRITE : Z := 21.
Definition OPTEE_VFS_TRUNCATE : Z := 22.
Definition OPTEE_VFS_FSTAT : Z := 23.
Definition OPTEE_VFS_FCNTL_VOID : Z := 24.
Definition OPTEE_VFS_FCNTL_INT : Z := 25.
Definition OPTEE_VFS_FCNTL_FLOCK : Z := 26.
Definition OPTEE_VFS_UTIMES : Z := 27.
Definition OPTEE_VFS_TIME : Z := 28.
Definition OPTEE_VFS_USLEEP : Z := 29.
Definition OPTEE_VFS_FILESIZE : Z := 30.
End Kernel.

Module Supplicant.
Definition OPTEE_VFS_OPEN : Z := 0.
Definition OPTEE_VFS_CLOSE : Z := 1.
Definition OPTEE_VFS_ACCESS : Z := 2.
Definition OPTEE_VFS_GETCWD : Z := 3.
Definition OPTEE_VFS_STAT : Z := 4.
Definition OPTEE_VFS_WRITE : Z := 5.
Definition OPTEE_VFS_READ : Z := 6.
Definition OPTEE_VFS_FCHMOD : Z := 7.
Definition OPTEE_VFS_FCHOWN : Z := 8.
Definition OPTEE_VFS_MKDIR : Z := 9.
Definition OPTEE_VFS_RMDIR : Z := 10.
Definition OPTEE_VFS_UNLINK : Z := 11.
Definition OPTEE_VFS_FTRUNCATE : Z := 12.
Definition OPTEE_VFS_GETEUID : Z := 13.
Definition OPTEE_VFS_GETPID : Z := 14.
Definition OPTEE_VFS_GETENV : Z := 15.
Definition OPTEE_VFS_LSEEK : Z := 16.
Definition OPTEE_VFS_FSYNC : Z := 17.
Definition OPTEE_VFS_SLEEP : Z := 18.
Definition OPTEE_VFS_PREAD : Z := 19.
Definition OPTEE_VFS_GETTIMEOFDAY : Z := 20.
Definition OPTEE_VFS_PWRITE : Z := 21.
Definition OPTEE_VFS_TRUNCATE : Z := 22.
Definition OPTEE_VFS_FSTAT : Z := 23.
Definition OPTEE_VFS_FCNTL_VOID : Z := 24.
Definition OPTEE_VFS_FCNTL_INT : Z := 25.
Definition OPTEE_VFS_FCNTL_FLOCK : Z := 26.
Definition OPTEE_VFS_UTIMES : Z := 27.
Definition OPTEE_VFS_TIME : Z := 28.
Definition OPTEE_VFS_USLEEP : Z := 29.
Definition OPTEE_VFS_FILESIZE : Z := 30.

(** The commands of a remote procedure call. *)
Definition OPTEE_MSG_RPC_CMD_LOAD_TA : Z := 0.
Definition OPTEE_MSG_RPC_CMD_RPMB : Z := 1.
Definition OPTEE_MSG_RPC_CMD_FS : Z := 2.
Definition OPTEE_MSG_RPC_CMD_SHM_ALLOC : Z := 6.
Definition OPTEE_MSG_RPC_CMD_SHM_FREE : Z := 7.
Definition OPTEE_MSG_RPC_CMD_GPROF : Z := 9.
Definition OPTEE_MSG_RPC_CMD_SOCKET : Z := 10.
Definition OPTEE_MSG_RPC_CMD_FTRACE : Z := 11.
Definition OPTEE_MSG_RPC_CMD_PLUGIN : Z := 12.
Definition OPTEE_MSG_RPC_CMD_OPEN : Z := 30.
End Supplicant.

(** ** Results

The values the GlobalPlatform specifications give these names. *)
Definition TEE_SUCCESS : Z := 0.
Definition TEEC_SUCCESS : Z := 0.
Definition TEEC_ERROR_BAD_FORMAT : Z := 0xFFFF0005.
Definition TEEC_ERROR_BAD_PARAMETERS : Z := 0xFFFF0006.
Definition TEEC_ERROR_ITEM_NOT_FOUND : Z := 0xFFFF0008.
Definition TEEC_ERROR_NOT_SUPPORTED : Z := 0xFFFF000A.
Definition TEEC_ERROR_OUT_OF_MEMORY : Z := 0xFFFF000C.
Definition TEEC_ERROR_SHORT_BUFFER : Z := 0xFFFF0010.

(** ** Sizes of the structures that cross, in the LP64 model of ARMv8 *)

(** [struct my_stat], packed: [st_dev] to [st_blocks], three [timespec]s and
    three reserved [int]s. *)
Definition sizeof_my_stat : Z := 8 + 8 + 4 + 4 + 4 + 4 + 8 + 8 + 8 + 4 + 4 + 8 + 3 * 16 + 3 * 4.
(** [struct my_flock]: two [short]s, padding, two [long]s, an [int], padding. *)
Definition sizeof_my_flock : Z := 2 + 2 + 4 + 8 + 8 + 4 + 4.
Definition sizeof_timeval : Z := 8 + 8.
Definition sizeof_timezone : Z := 4 + 4.
Definition sizeof_pointer : Z := 8.
