(* ===== verification/KernelVfs.v ===== *)
(** * The system calls of the secure kernel

Models optee_os/core/tee/tee_sqlite.c: each [syscall_vfs_*] packs its arguments
into parameters, copies buffers into payloads it allocates in memory shared
with the normal world, makes one remote procedure call and unpacks the answer.
[Rpc] is the part of the OP-TEE kernel the file calls ([thread_rpc_cmd],
[thread_rpc_alloc_payload], [mobj_get_va], [malloc]); it is not in this
repository and stays a parameter, with [RpcLaws] the documented behaviour the
theorems use.

[marshal] is a reference definition, driven by a description of the call; the
theorems show that every system call with a single request is the marshalling
of its description, and derive from it what happens to payloads and what the
trusted application sees of a failing call. *)
From S2P Require Import Prelude CMem UteeVfs Protocol.
#[local] Open Scope Z_scope.
#[local] Open Scope c_scope.
Import Kernel.

(** ** Data *)

(** A shared-memory object: its identity and the size it really has. *)
Record mobj : Type := Mobj { mobj_id : Z; mobj_size : Z }.
#[export] Instance mobj_eq_dec : EqDecision mobj.
Proof. solve_decision. Defined.

Inductive param_dir : Type := IN | OUT | INOUT.
#[export] Instance param_dir_eq_dec : EqDecision param_dir.
Proof. solve_decision. Defined.

Inductive thread_param : Type :=
| THREAD_PARAM_VALUE (dir : param_dir) (a b c : Z)
| THREAD_PARAM_MEMREF (dir : param_dir) (mo : option mobj) (offs size : Z).

(** The OP-TEE kernel below the file.  [va_write] and [va_read] are [memcpy] and
    [memset] through an address [mobj_get_va] gave. *)
Class Rpc (W : Type) : Type := {
  OPTEE_RPC_CMD_VFS : Z;
  thread_rpc_alloc_payload : Z → C W (option mobj);
  thread_rpc_free_payload : option mobj → C W unit;
  mobj_get_va : mobj → Z → Z → C W ptr;
  va_write : ptr → bytes → C W unit;
  va_read : ptr → Z → C W bytes;
  thread_rpc_cmd : Z → list thread_param → C W (Z * list thread_param);
  (** whether [malloc] of so many bytes gives a block *)
  kmalloc : Z → C W bool
}.

Section syscalls.
Context {W : Type} `{Rpc W}.

(** [params[0].u.value.b] and [.c] *)
Definition value_b (params : list thread_param) : C W Z :=
  match params with THREAD_PARAM_VALUE _ _ b _ :: _ => ret b | _ => undef end.
Definition value_c (params : list thread_param) : C W Z :=
  match params with THREAD_PARAM_VALUE _ _ _ c :: _ => ret c | _ => undef end.

Definition strlen (s : bytes) : Z := Z.of_nat (length s).

Definition zeros (n : Z) : bytes := replicate (Z.to_nat n) 0.

(** The shape every function gives its use of a payload: allocate, give up when
    there is none or it is too small, and free it at the label the failing
    branches jump to.  [give_up_with] is what the function does there. *)
Definition with_payload {A} (len : Z) (give_up_with : C W A) (body : mobj → C W A) : C W A :=
  let! m := thread_rpc_alloc_payload len in
  let! r := match m with
            | None => give_up_with
            | Some mo => if decide (mobj_size mo < len) then give_up_with else body mo
            end in
  do! thread_rpc_free_payload m in
  ret r.

(** The request and its answer; a failing call is only logged. *)
Definition vfs_rpc (params : list thread_param) : C W (list thread_param) :=
  let! '(result, params) := thread_rpc_cmd OPTEE_RPC_CMD_VFS params in
  ret params.

Definition syscall_vfs_open (path : bytes) (oflag arg1 : Z) : C W Z :=
  let p0 := THREAD_PARAM_VALUE INOUT OPTEE_VFS_OPEN 0 0 in
  let len := strlen path + 1 in
  with_payload len (ret (-1)) (λ path_mobj,
    let! va_path := mobj_get_va path_mobj 0 len in
    do! va_write va_path (path ++ [0]) in
    let p1 := THREAD_PARAM_MEMREF IN (Some path_mobj) 0 0 in
    let p2 := THREAD_PARAM_VALUE IN (u64 oflag) (u64 arg1) 0 in
    let! params := vfs_rpc [p0; p1; p2] in
    let! b := value_b params in
    ret (s32 b)).

Definition syscall_vfs_close (__fd : Z) : C W Z :=
  let p0 := THREAD_PARAM_VALUE INOUT OPTEE_VFS_CLOSE 0 0 in
  let p1 := THREAD_PARAM_VALUE IN (u64 __fd) 0 0 in
  let! params := vfs_rpc [p0; p1] in
  let! b := value_b params in
  ret (s32 b).

Definition syscall_vfs_access (__name : bytes) (__type : Z) : C W Z :=
  let len := strlen __name + 1 in
  with_payload len (ret (-1)) (λ name_mobj,
    let! va_name := mobj_get_va name_mobj 0 len in
    do! va_write va_name (__name ++ [0]) in
    let p0 := THREAD_PARAM_VALUE INOUT OPTEE_VFS_ACCESS 0 0 in
    let p1 := THREAD_PARAM_VALUE IN (u64 __type) 0 0 in
    let p2 := THREAD_PARAM_MEMREF IN (Some name_mobj) 0 0 in
    let! params := vfs_rpc [p0; p1; p2] in
    let! b := value_b params in
    ret (s32 b)).

(** The buffer after the call; the pointer returned is the buffer's. *)
Definition syscall_vfs_getcwd (__buf : bytes) : C W bytes :=
  let __size := Z.of_nat (length __buf) in
  with_payload __size (ret __buf) (λ buf_mobj,
    let! va_buf := mobj_get_va buf_mobj 0 __size in
    do! va_write va_buf (zeros __size) in
    let p0 := THREAD_PARAM_VALUE INOUT OPTEE_VFS_GETCWD 0 0 in
    let p1 := THREAD_PARAM_MEMREF OUT (Some buf_mobj) 0 0 in
    let p2 := THREAD_PARAM_VALUE IN (u64 __size) 0 0 in
    let! params := vfs_rpc [p0; p1; p2] in
    let! __buf := va_read va_buf __size in
    ret __buf).

(** The structure behind [__buf] after the call comes second. *)
Definition syscall_vfs_stat (__file_name : bytes) (__buf : bytes) : C W (Z * bytes) :=
  let p0 := THREAD_PARAM_VALUE INOUT OPTEE_VFS_STAT 0 0 in
  let __file_name_len := strlen __file_name + 1 in
  with_payload __file_name_len (ret (-1, __buf)) (λ file_name_mobj,
    let! va_filename := mobj_get_va file_name_mobj 0 __file_name_len in
    do! va_write va_filename (__file_name ++ [0]) in
    let p1 := THREAD_PARAM_MEMREF IN (Some file_name_mobj) 0 0 in
    let __buf_len := sizeof_my_stat in
    with_payload __buf_len (ret (-1, __buf)) (λ buf_mobj,
      let p2 := THREAD_PARAM_MEMREF OUT (Some buf_mobj) 0 0 in
      let! va_buf := mobj_get_va buf_mobj 0 __buf_len in
      do! va_write va_buf (zeros __buf_len) in
      let! params := vfs_rpc [p0; p1; p2] in
      let! __buf := va_read va_buf __buf_len in
      let! b := value_b params in
      ret (s32 b, __buf))).

Definition syscall_vfs_fstat (__fd : Z) (__buf : bytes) : C W (Z * bytes) :=
  let p0 := THREAD_PARAM_VALUE INOUT OPTEE_VFS_FSTAT 0 0 in
  let p1 := THREAD_PARAM_VALUE IN (u64 __fd) 0 0 in
  let __buf_len := sizeof_my_stat in
  with_payload __buf_len (ret (-1, __buf)) (λ buf_mobj,
    let p2 := THREAD_PARAM_MEMREF OUT (Some buf_mobj) 0 0 in
    let! va_buf := mobj_get_va buf_mobj 0 __buf_len in
    do! va_write va_buf (zeros __buf_len) in
    let! params := vfs_rpc [p0; p1; p2] in
    let! __buf := va_read va_buf __buf_len in
    let! b := value_b params in
    ret (s32 b, __buf)).

(** The return value goes through an [int]. *)
Definition syscall_vfs_write (__fd : Z) (buf : bytes) : C W Z :=
  let n := Z.of_nat (length buf) in
  let p0 := THREAD_PARAM_VALUE INOUT OPTEE_VFS_WRITE 0 0 in
  let p1 := THREAD_PARAM_VALUE IN (u64 __fd) (u64 n) 0 in
  let len := n in
  with_payload len (ret (-1)) (λ buf_mobj,
    let! va_buf := mobj_get_va buf_mobj 0 len in
    do! va_write va_buf (zeros len) in
    do! va_write va_buf buf in
    let p2 := THREAD_PARAM_MEMREF IN (Some buf_mobj) 0 0 in
    let! params := vfs_rpc [p0; p1; p2] in
    let! b := value_b params in
    ret (s32 b)).

Definition syscall_vfs_mkdir (path : bytes) (mode : Z) : C W Z :=
  let p0 := THREAD_PARAM_VALUE INOUT OPTEE_VFS_MKDIR 0 0 in
  let len := strlen path + 1 in
  with_payload len (ret (-1)) (λ path_mobj,
    let! va_path := mobj_get_va path_mobj 0 len in
    do! va_write va_path (path ++ [0]) in
    let p1 := THREAD_PARAM_MEMREF IN (Some path_mobj) 0 0 in
    let p2 := THREAD_PARAM_VALUE IN (u64 mode) 0 0 in
    let! params := vfs_rpc [p0; p1; p2] in
    let! b := value_b params in
    ret (s32 b)).

Definition syscall_vfs_rmdir (path : bytes) : C W Z :=
  let p0 := THREAD_PARAM_VALUE INOUT OPTEE_VFS_RMDIR 0 0 in
  let len := strlen path + 1 in
  with_payload len (ret (-1)) (λ path_mobj,
    let! va_path := mobj_get_va path_mobj 0 len in
    do! va_write va_path (path ++ [0]) in
    let p1 := THREAD_PARAM_MEMREF IN (Some path_mobj) 0 0 in
    let! params := vfs_rpc [p0; p1] in
    let! b := value_b params in
    ret (s32 b)).

(** [*errno] after the call comes second. *)
Definition syscall_vfs_unlink (__name : bytes) (errno : Z) : C W (Z * Z) :=
  let len := strlen __name + 1 in
  with_payload len (ret (-1, errno)) (λ name_mobj,
    let! va_name := mobj_get_va name_mobj 0 len in
    do! va_write va_name (__name ++ [0]) in
    let p0 := THREAD_PARAM_VALUE INOUT OPTEE_VFS_UNLINK 0 0 in
    let p1 := THREAD_PARAM_MEMREF IN (Some name_mobj) 0 0 in
    let! params := vfs_rpc [p0; p1] in
    let! b := value_b params in
    let! c := value_c params in
    ret (s32 b, s32 c)).

Definition syscall_vfs_ftruncate (__fd __size : Z) : C W Z :=
  let p0 := THREAD_PARAM_VALUE INOUT OPTEE_VFS_FTRUNCATE 0 0 in
  let p1 := THREAD_PARAM_VALUE IN (u64 __fd) (u64 __size) 0 in
  let! params := vfs_rpc [p0; p1] in
  let! b := value_b params in
  ret (s32 b).

(** The buffer after the call comes second. *)
Definition syscall_vfs_read (__fd : Z) (__buf : bytes) : C W (Z * bytes) :=
  let __nByte := Z.of_nat (length __buf) in
  with_payload __nByte (ret (-1, __buf)) (λ buf_mobj,
    let! va_buf := mobj_get_va buf_mobj 0 __nByte in
    do! va_write va_buf (zeros __nByte) in
    let p0 := THREAD_PARAM_VALUE INOUT OPTEE_VFS_READ 0 0 in
    let p1 := THREAD_PARAM_MEMREF OUT (Some buf_mobj) 0 0 in
    let p2 := THREAD_PARAM_VALUE IN (u64 __fd) (u64 __nByte) 0 in
    let! params := vfs_rpc [p0; p1; p2] in
    let! __buf := va_read va_buf __nByte in
    let! b := value_b params in
    ret (s64 b, __buf)).

Definition syscall_vfs_fchmod (__fd __mode : Z) : C W Z :=
  let p0 := THREAD_PARAM_VALUE INOUT OPTEE_VFS_FCHMOD 0 0 in
  let p1 := THREAD_PARAM_VALUE IN (u64 __fd) (u64 __mode) 0 in
  let! params := vfs_rpc [p0; p1] in
  let! b := value_b params in
  ret (s32 b).

(** Three parameters are declared and two are sent. *)
Definition syscall_vfs_fchown (__fd __owner __group : Z) : C W Z :=
  let p0 := THREAD_PARAM_VALUE INOUT OPTEE_VFS_FCHOWN 0 0 in
  let p1 := THREAD_PARAM_VALUE IN (u64 __fd) (u64 __owner) (u64 __group) in
  let! params := vfs_rpc [p0; p1] in
  let! b := value_b params in
  ret (s32 b).

Definition syscall_vfs_geteuid : C W Z :=
  let! params := vfs_rpc [THREAD_PARAM_VALUE INOUT OPTEE_VFS_GETEUID 0 0] in
  let! b := value_b params in
  ret (u32 b).

Definition syscall_vfs_getpid : C W Z :=
  let! params := vfs_rpc [THREAD_PARAM_VALUE INOUT OPTEE_VFS_GETPID 0 0] in
  let! b := value_b params in
  ret (u32 b).

(** [NULL], or the bytes of the block returned.  The first request only asks
    for the size; the parameters it answers with are sent again. *)
Definition syscall_vfs_getenv (name : bytes) : C W (option bytes) :=
  let p0 := THREAD_PARAM_VALUE INOUT OPTEE_VFS_GETENV 0 0 in
  let name_len := strlen name + 1 in
  with_payload name_len (ret None) (λ name_mobj,
    let! va_name := mobj_get_va name_mobj 0 name_len in
    do! va_write va_name (name ++ [0]) in
    let p1 := THREAD_PARAM_MEMREF IN (Some name_mobj) 0 0 in
    let p2 := THREAD_PARAM_MEMREF OUT None 0 0 in
    let! params := vfs_rpc [p0; p1; p2] in
    let! ret_len := value_b params in
    with_payload ret_len (ret None) (λ ret_mobj,
      let params := <[2%nat := THREAD_PARAM_MEMREF OUT (Some ret_mobj) 0 0]> params in
      let! params := vfs_rpc params in
      let! va_ret := mobj_get_va ret_mobj 0 ret_len in
      let! block := kmalloc ret_len in
      let! data := va_read va_ret ret_len in
      if block : bool then ret (Some data) else undef)).

Definition syscall_vfs_lseek (fd offset whence : Z) : C W Z :=
  let p0 := THREAD_PARAM_VALUE INOUT OPTEE_VFS_LSEEK 0 0 in
  let p1 := THREAD_PARAM_VALUE IN (u64 fd) (u64 offset) (u64 whence) in
  let! params := vfs_rpc [p0; p1] in
  let! b := value_b params in
  ret (s64 b).

Definition syscall_vfs_fsync (__fd : Z) : C W Z :=
  let p0 := THREAD_PARAM_VALUE INOUT OPTEE_VFS_FSYNC 0 0 in
  let p1 := THREAD_PARAM_VALUE IN (u64 __fd) 0 0 in
  let! params := vfs_rpc [p0; p1] in
  let! b := value_b params in
  ret (s32 b).

(** An [int] returned as an [unsigned int]. *)
Definition syscall_vfs_sleep (__seconds : Z) : C W Z :=
  let p0 := THREAD_PARAM_VALUE INOUT OPTEE_VFS_SLEEP 0 0 in
  let p1 := THREAD_PARAM_VALUE IN (u64 __seconds) 0 0 in
  let! params := vfs_rpc [p0; p1] in
  let! b := value_b params in
  ret (u32 (s32 b)).

(** The address of the payload is asked for again after the call. *)
Definition syscall_vfs_pread (__fd : Z) (__buf : bytes) (__offset : Z) : C W (Z * bytes) :=
  let __nByte := Z.of_nat (length __buf) in
  let p0 := THREAD_PARAM_VALUE INOUT OPTEE_VFS_PREAD 0 0 in
  with_payload __nByte (ret (-1, __buf)) (λ buf_mobj,
    let! va_buf := mobj_get_va buf_mobj 0 __nByte in
    do! va_write va_buf (zeros __nByte) in
    let p1 := THREAD_PARAM_MEMREF IN (Some buf_mobj) 0 0 in
    let p2 := THREAD_PARAM_VALUE IN (u64 __fd) (u64 __nByte) (u64 __offset) in
    let! params := vfs_rpc [p0; p1; p2] in
    let! va_buf := mobj_get_va buf_mobj 0 __nByte in
    let! __buf := va_read va_buf __nByte in
    let! b := value_b params in
    ret (s64 b, __buf)).

Definition syscall_vfs_pwrite (__fd : Z) (buf : bytes) (__offset : Z) : C W Z :=
  let n := Z.of_nat (length buf) in
  let p0 := THREAD_PARAM_VALUE INOUT OPTEE_VFS_PWRITE 0 0 in
  let p1 := THREAD_PARAM_VALUE IN (u64 __fd) (u64 n) (u64 __offset) in
  let len := n in
  with_payload len (ret (-1)) (λ buf_mobj,
    let! va_path := mobj_get_va buf_mobj 0 len in
    do! va_write va_path buf in
    let p2 := THREAD_PARAM_MEMREF IN (Some buf_mobj) 0 0 in
    let! params := vfs_rpc [p0; p1; p2] in
    let! b := value_b params in
    ret (s64 b)).

(** The operation sent is [OPTEE_VFS_FTRUNCATE], with a path. *)
Definition syscall_vfs_truncate (path : bytes) (__size : Z) : C W Z :=
  let p0 := THREAD_PARAM_VALUE INOUT OPTEE_VFS_FTRUNCATE 0 0 in
  let path_len := strlen path + 1 in
  with_payload path_len (ret (-1)) (λ path_mobj,
    let! va_path := mobj_get_va path_mobj 0 path_len in
    do! va_write va_path (path ++ [0]) in
    let p1 := THREAD_PARAM_MEMREF IN (Some path_mobj) 0 0 in
    let p2 := THREAD_PARAM_VALUE IN (u64 __size) 0 0 in
    let! params := vfs_rpc [p0; p1; p2] in
    let! b := value_b params in
    ret (s32 b)).

(** The structures behind [tv] and [tz] after the call; [tz] may be [NULL]. *)
Definition syscall_vfs_gettimeofday (tv : bytes) (tz : option bytes)
    : C W (Z * bytes * option bytes) :=
  let p0 := THREAD_PARAM_VALUE INOUT OPTEE_VFS_GETTIMEOFDAY 0 0 in
  let tv_size := sizeof_timeval in
  with_payload tv_size (ret (-1, tv, tz)) (λ tv_mobj,
    let! va_tv := mobj_get_va tv_mobj 0 tv_size in
    do! va_write va_tv (zeros tv_size) in
    let tz_size := sizeof_timezone in
    with_payload tz_size (ret (-1, tv, tz)) (λ tz_mobj,
      let! va_tz := mobj_get_va tz_mobj 0 tz_size in
      do! va_write va_tz (zeros tz_size) in
      let p1 := THREAD_PARAM_MEMREF IN (Some tv_mobj) 0 0 in
      let p2 := THREAD_PARAM_MEMREF IN (Some tz_mobj) 0 0 in
      let! params := vfs_rpc [p0; p1; p2] in
      let! tv := va_read va_tv tv_size in
      match tz with
      | Some _ =>
          let! tz := va_read va_tz tz_size in
          let! b := value_b params in
          ret (s32 b, tv, Some tz)
      | None =>
          let! b := value_b params in
          ret (s32 b, tv, None)
      end)).

Definition syscall_vfs_fcntl_void (fd cmd : Z) : C W Z :=
  let p0 := THREAD_PARAM_VALUE INOUT OPTEE_VFS_FCNTL_VOID 0 0 in
  let p1 := THREAD_PARAM_VALUE IN (u64 fd) (u64 cmd) 0 in
  let! params := vfs_rpc [p0; p1] in
  let! b := value_b params in
  ret (s32 b).

Definition syscall_vfs_fcntl_int (fd cmd pa : Z) : C W Z :=
  let p0 := THREAD_PARAM_VALUE INOUT OPTEE_VFS_FCNTL_INT 0 0 in
  let p1 := THREAD_PARAM_VALUE IN (u64 fd) (u64 cmd) (u64 pa) in
  let! params := vfs_rpc [p0; p1] in
  let! b := value_b params in
  ret (s32 b).

(** [pFlock] is overwritten and never sent.  The copy back is after the label
    the failing branches jump to, where [va_flock] is uninitialised. *)
Definition syscall_vfs_fcntl_flock (fd cmd : Z) (pFlock : bytes) : C W (Z * bytes) :=
  let p0 := THREAD_PARAM_VALUE INOUT OPTEE_VFS_FCNTL_FLOCK 0 0 in
  let p1 := THREAD_PARAM_VALUE IN (u64 fd) (u64 cmd) 0 in
  let flock_size := sizeof_my_flock in
  with_payload flock_size undef (λ flock_mobj,
    let! va_flock := mobj_get_va flock_mobj 0 flock_size in
    do! va_write va_flock (zeros flock_size) in
    let p2 := THREAD_PARAM_MEMREF IN (Some flock_mobj) 0 0 in
    let! params := vfs_rpc [p0; p1; p2] in
    let! b := value_b params in
    let! pFlock := va_read va_flock flock_size in
    ret (s32 b, pFlock)).

(** [sizeof(times)] is the size of the pointer the array parameter became.  The
    bytes of [times] are read as a C array: more may be there. *)
Definition syscall_vfs_utimes (filename : bytes) (times : bytes) : C W Z :=
  let p0 := THREAD_PARAM_VALUE INOUT OPTEE_VFS_UTIMES 0 0 in
  let filename_size := strlen filename + 1 in
  with_payload filename_size (ret (-1)) (λ filename_mobj,
    let! va_filename := mobj_get_va filename_mobj 0 filename_size in
    do! va_write va_filename (zeros filename_size) in
    do! va_write va_filename (filename ++ [0]) in
    let p1 := THREAD_PARAM_MEMREF IN (Some filename_mobj) 0 0 in
    let times_size := sizeof_pointer in
    with_payload times_size (ret (-1)) (λ times_mobj,
      let! va_times := mobj_get_va times_mobj 0 times_size in
      do! va_write va_times (zeros times_size) in
      do! va_write va_times (take (Z.to_nat times_size) times) in
      let p2 := THREAD_PARAM_MEMREF IN (Some times_mobj) 0 0 in
      let! params := vfs_rpc [p0; p1; p2] in
      let! b := value_b params in
      ret (s32 b))).

(** [*t] after the call comes second: four of its bytes are written. *)
Definition syscall_vfs_time (t : option bytes) : C W (Z * option bytes) :=
  let! params := vfs_rpc [THREAD_PARAM_VALUE INOUT OPTEE_VFS_TIME 0 0] in
  let! b := value_b params in
  let r := s32 b in
  ret (r, (λ old, splice old 0 (le_bytes 4 (u32 r))) <$> t).

Definition syscall_vfs_usleep (usec : Z) : C W unit :=
  let p0 := THREAD_PARAM_VALUE INOUT OPTEE_VFS_USLEEP 0 0 in
  let p1 := THREAD_PARAM_VALUE IN (u64 usec) 0 0 in
  let! params := vfs_rpc [p0; p1] in
  ret tt.

Definition syscall_vfs_filesize (fd : Z) : C W Z :=
  let p0 := THREAD_PARAM_VALUE INOUT OPTEE_VFS_FILESIZE 0 0 in
  let p1 := THREAD_PARAM_VALUE IN (u64 fd) 0 0 in
  let! params := vfs_rpc [p0; p1] in
  let! b := value_b params in
  ret (s64 b).
End syscalls.

(** The kernel gives the trusted application the interface its VFS is written
    against. *)
#[export] Instance kernel_vfs {W} `{Rpc W} : UteeVfs W := {
  utee_vfs_open := syscall_vfs_open;
  utee_vfs_close := syscall_vfs_close;
  utee_vfs_access := syscall_vfs_access;
  utee_vfs_getcwd buf := let! __buf := syscall_vfs_getcwd buf in ret (Some __buf);
  utee_vfs_write := syscall_vfs_write;
  utee_vfs_read := syscall_vfs_read;
  utee_vfs_lseek := syscall_vfs_lseek;
  utee_vfs_fsync := syscall_vfs_fsync;
  utee_vfs_filesize := syscall_vfs_filesize;
  utee_vfs_unlink := syscall_vfs_unlink;
  utee_vfs_sleep := syscall_vfs_sleep;
  utee_vfs_usleep := syscall_vfs_usleep;
  utee_vfs_time := let! '(r, _) := syscall_vfs_time None in ret r
}.

(** ** The system calls as data

One constructor per system call, indexed by what it returns. *)
Inductive vfs_call : Type → Type :=
| VfsOpen (path : bytes) (oflag arg1 : Z) : vfs_call Z
| VfsClose (fd : Z) : vfs_call Z
| VfsAccess (name : bytes) (type : Z) : vfs_call Z
| VfsGetcwd (buf : bytes) : vfs_call bytes
| VfsStat (name buf : bytes) : vfs_call (Z * bytes)
| VfsFstat (fd : Z) (buf : bytes) : vfs_call (Z * bytes)
| VfsWrite (fd : Z) (buf : bytes) : vfs_call Z
| VfsMkdir (path : bytes) (mode : Z) : vfs_call Z
| VfsRmdir (path : bytes) : vfs_call Z
| VfsUnlink (name : bytes) (errno : Z) : vfs_call (Z * Z)
| VfsFtruncate (fd size : Z) : vfs_call Z
| VfsRead (fd : Z) (buf : bytes) : vfs_call (Z * bytes)
| VfsFchmod (fd mode : Z) : vfs_call Z
| VfsFchown (fd owner group : Z) : vfs_call Z
| VfsGeteuid : vfs_call Z
| VfsGetpid : vfs_call Z
| VfsGetenv (name : bytes) : vfs_call (option bytes)
| VfsLseek (fd offset whence : Z) : vfs_call Z
| VfsFsync (fd : Z) : vfs_call Z
| VfsSleep (seconds : Z) : vfs_call Z
| VfsPread (fd : Z) (buf : bytes) (offset : Z) : vfs_call (Z * bytes)
| VfsPwrite (fd : Z) (buf : bytes) (offset : Z) : vfs_call Z
| VfsTruncate (path : bytes) (size : Z) : vfs_call Z
| VfsGettimeofday (tv : bytes) (tz : option bytes) : vfs_call (Z * bytes * option bytes)
| VfsFcntlVoid (fd cmd : Z) : vfs_call Z
| VfsFcntlInt (fd cmd pa : Z) : vfs_call Z
| VfsFcntlFlock (fd cmd : Z) (pFlock : bytes) : vfs_call (Z * bytes)
| VfsUtimes (filename times : bytes) : vfs_call Z
| VfsTime (t : option bytes) : vfs_call (Z * option bytes)
| VfsUsleep (usec : Z) : vfs_call unit
| VfsFilesize (fd : Z) : vfs_call Z.

(** What a call sends besides the operation: values, and buffers with the bytes
    they hold when the request leaves and what is done with them after it. *)
Inductive copy_back : Type := NoCopy | Copy | Refetch.
Inductive slot : Type :=
| SVal (a b c : Z)
| SBuf (dir : param_dir) (len : Z) (init : list bytes) (back : copy_back).

(** A path: its bytes and the NUL. *)
Definition SPath (s : bytes) : slot := SBuf IN (strlen s + 1) [s ++ [0]] NoCopy.

Record desc (W A : Type) : Type := Desc {
  d_op : Z;
  d_slots : list slot;
  d_give_up : A;
  d_done : list thread_param → list bytes → C W A
}.
Arguments Desc {W A}. Arguments d_op {W A}. Arguments d_slots {W A}.
Arguments d_give_up {W A}. Arguments d_done {W A}.

Section reference.
Context {W : Type} `{Rpc W}.

Definition do_call {A} (c : vfs_call A) : C W A :=
  match c with
  | VfsOpen p f a => syscall_vfs_open p f a
  | VfsClose fd => syscall_vfs_close fd
  | VfsAccess n t => syscall_vfs_access n t
  | VfsGetcwd b => syscall_vfs_getcwd b
  | VfsStat n b => syscall_vfs_stat n b
  | VfsFstat fd b => syscall_vfs_fstat fd b
  | VfsWrite fd b => syscall_vfs_write fd b
  | VfsMkdir p m => syscall_vfs_mkdir p m
  | VfsRmdir p => syscall_vfs_rmdir p
  | VfsUnlink n e => syscall_vfs_unlink n e
  | VfsFtruncate fd s => syscall_vfs_ftruncate fd s
  | VfsRead fd b => syscall_vfs_read fd b
  | VfsFchmod fd m => syscall_vfs_fchmod fd m
  | VfsFchown fd o g => syscall_vfs_fchown fd o g
  | VfsGeteuid => syscall_vfs_geteuid
  | VfsGetpid => syscall_vfs_getpid
  | VfsGetenv n => syscall_vfs_getenv n
  | VfsLseek fd o w => syscall_vfs_lseek fd o w
  | VfsFsync fd => syscall_vfs_fsync fd
  | VfsSleep s => syscall_vfs_sleep s
  | VfsPread fd b o => syscall_vfs_pread fd b o
  | VfsPwrite fd b o => syscall_vfs_pwrite fd b o
  | VfsTruncate p s => syscall_vfs_truncate p s
  | VfsGettimeofday tv tz => syscall_vfs_gettimeofday tv tz
  | VfsFcntlVoid fd c => syscall_vfs_fcntl_void fd c
  | VfsFcntlInt fd c p => syscall_vfs_fcntl_int fd c p
  | VfsFcntlFlock fd c f => syscall_vfs_fcntl_flock fd c f
  | VfsUtimes f t => syscall_vfs_utimes f t
  | VfsTime t => syscall_vfs_time t
  | VfsUsleep u => syscall_vfs_usleep u
  | VfsFilesize fd => syscall_vfs_filesize fd
  end.

(** *** The reference: marshalling a description *)

Fixpoint run_writes {A} (va : ptr) (init : list bytes) (k : C W A) : C W A :=
  match init with
  | [] => k
  | bs :: init => do! va_write va bs in run_writes va init k
  end.

Fixpoint run_reads {A} (outs : list (mobj * ptr * Z * copy_back)) (k : list bytes → C W A)
    : C W A :=
  match outs with
  | [] => k []
  | (_, _, _, NoCopy) :: outs => run_reads outs k
  | (_, va, len, Copy) :: outs =>
      let! bs := va_read va len in
      run_reads outs (λ l, k (bs :: l))
  | (mo, _, len, Refetch) :: outs =>
      let! va := mobj_get_va mo 0 len in
      let! bs := va_read va len in
      run_reads outs (λ l, k (bs :: l))
  end.

Fixpoint with_slots {A} (no_payload : A) (slots : list slot)
    (k : list thread_param → list (mobj * ptr * Z * copy_back) → C W A) : C W A :=
  match slots with
  | [] => k [] []
  | SVal a b c :: slots =>
      with_slots no_payload slots (λ ps outs, k (THREAD_PARAM_VALUE IN a b c :: ps) outs)
  | SBuf dir len init back :: slots =>
      with_payload len (ret no_payload) (λ mo,
        let! va := mobj_get_va mo 0 len in
        run_writes va init
          (with_slots no_payload slots (λ ps outs,
             k (THREAD_PARAM_MEMREF dir (Some mo) 0 0 :: ps) ((mo, va, len, back) :: outs))))
  end.

Definition marshal {A} (d : desc W A) : C W A :=
  with_slots (d_give_up d) (d_slots d) (λ ps outs,
    let! params := vfs_rpc (THREAD_PARAM_VALUE INOUT (d_op d) 0 0 :: ps) in
    run_reads outs (λ bufs, d_done d params bufs)).

(** The answer is the second field of the first parameter, cut to a width. *)
Definition answer (cut : Z → Z) (params : list thread_param) (bufs : list bytes) : C W Z :=
  let! b := value_b params in
  ret (cut b).
Definition answer_buf (cut : Z → Z) (params : list thread_param) (bufs : list bytes)
    : C W (Z * bytes) :=
  let! b := value_b params in
  ret (cut b, nth 0 bufs []).

(** The description of every call that makes one request and gives up with a
    value. *)
Definition describe {A} (c : vfs_call A) : option (desc W A) :=
  match c in vfs_call A return option (desc W A) with
  | VfsOpen p f a =>
      Some (Desc OPTEE_VFS_OPEN [SPath p; SVal (u64 f) (u64 a) 0] (-1) (answer s32))
  | VfsClose fd => Some (Desc OPTEE_VFS_CLOSE [SVal (u64 fd) 0 0] (-1) (answer s32))
  | VfsAccess n t =>
      Some (Desc OPTEE_VFS_ACCESS [SVal (u64 t) 0 0; SPath n] (-1) (answer s32))
  | VfsGetcwd buf =>
      let n := Z.of_nat (length buf) in
      Some (Desc OPTEE_VFS_GETCWD [SBuf OUT n [zeros n] Copy; SVal (u64 n) 0 0] buf
              (λ _ bufs, ret (nth 0 bufs [])))
  | VfsStat n buf =>
      Some (Desc OPTEE_VFS_STAT [SPath n; SBuf OUT sizeof_my_stat [zeros sizeof_my_stat] Copy]
              (-1, buf) (answer_buf s32))
  | VfsFstat fd buf =>
      Some (Desc OPTEE_VFS_FSTAT
              [SVal (u64 fd) 0 0; SBuf OUT sizeof_my_stat [zeros sizeof_my_stat] Copy]
              (-1, buf) (answer_buf s32))
  | VfsWrite fd buf =>
      let n := Z.of_nat (length buf) in
      Some (Desc OPTEE_VFS_WRITE [SVal (u64 fd) (u64 n) 0; SBuf IN n [zeros n; buf] NoCopy]
              (-1) (answer s32))
  | VfsMkdir p m => Some (Desc OPTEE_VFS_MKDIR [SPath p; SVal (u64 m) 0 0] (-1) (answer s32))
  | VfsRmdir p => Some (Desc OPTEE_VFS_RMDIR [SPath p] (-1) (answer s32))
  | VfsUnlink n e =>
      Some (Desc OPTEE_VFS_UNLINK [SPath n] (-1, e)
              (λ ps _, let! b := value_b ps in let! c := value_c ps in ret (s32 b, s32 c)))
  | VfsFtruncate fd s =>
      Some (Desc OPTEE_VFS_FTRUNCATE [SVal (u64 fd) (u64 s) 0] (-1) (answer s32))
  | VfsRead fd buf =>
      let n := Z.of_nat (length buf) in
      Some (Desc OPTEE_VFS_READ [SBuf OUT n [zeros n] Copy; SVal (u64 fd) (u64 n) 0]
              (-1, buf) (answer_buf s64))
  | VfsFchmod fd m => Some (Desc OPTEE_VFS_FCHMOD [SVal (u64 fd) (u64 m) 0] (-1) (answer s32))
  | VfsFchown fd o g =>
      Some (Desc OPTEE_VFS_FCHOWN [SVal (u64 fd) (u64 o) (u64 g)] (-1) (answer s32))
  | VfsGeteuid => Some (Desc OPTEE_VFS_GETEUID [] (-1) (answer u32))
  | VfsGetpid => Some (Desc OPTEE_VFS_GETPID [] (-1) (answer u32))
  | VfsGetenv _ => None
  | VfsLseek fd o w =>
      Some (Desc OPTEE_VFS_LSEEK [SVal (u64 fd) (u64 o) (u64 w)] (-1) (answer s64))
  | VfsFsync fd => Some (Desc OPTEE_VFS_FSYNC [SVal (u64 fd) 0 0] (-1) (answer s32))
  | VfsSleep s => Some (Desc OPTEE_VFS_SLEEP [SVal (u64 s) 0 0] (-1) (answer (λ b, u32 (s32 b))))
  | VfsPread fd buf o =>
      let n := Z.of_nat (length buf) in
      Some (Desc OPTEE_VFS_PREAD [SBuf IN n [zeros n] Refetch; SVal (u64 fd) (u64 n) (u64 o)]
              (-1, buf) (answer_buf s64))
  | VfsPwrite fd buf o =>
      let n := Z.of_nat (length buf) in
      Some (Desc OPTEE_VFS_PWRITE [SVal (u64 fd) (u64 n) (u64 o); SBuf IN n [buf] NoCopy]
              (-1) (answer s64))
  | VfsTruncate p s =>
      Some (Desc OPTEE_VFS_FTRUNCATE [SPath p; SVal (u64 s) 0 0] (-1) (answer s32))
  | VfsGettimeofday tv tz =>
      Some (Desc OPTEE_VFS_GETTIMEOFDAY
              [SBuf IN sizeof_timeval [zeros sizeof_timeval] Copy;
               SBuf IN sizeof_timezone [zeros sizeof_timezone] (match tz with Some _ => Copy | None => NoCopy end)]
              (-1, tv, tz)
              (λ ps bufs, let! b := value_b ps in
                 ret (s32 b, nth 0 bufs [], match tz with Some _ => Some (nth 1 bufs []) | None => None end)))
  | VfsFcntlVoid fd c =>
      Some (Desc OPTEE_VFS_FCNTL_VOID [SVal (u64 fd) (u64 c) 0] (-1) (answer s32))
  | VfsFcntlInt fd c p =>
      Some (Desc OPTEE_VFS_FCNTL_INT [SVal (u64 fd) (u64 c) (u64 p)] (-1) (answer s32))
  | VfsFcntlFlock _ _ _ => None
  | VfsUtimes f t =>
      let n := strlen f + 1 in
      Some (Desc OPTEE_VFS_UTIMES
              [SBuf IN n [zeros n; f ++ [0]] NoCopy;
               SBuf IN sizeof_pointer
                 [zeros sizeof_pointer; take (Z.to_nat sizeof_pointer) t] NoCopy]
              (-1) (answer s32))
  | VfsTime t =>
      Some (Desc OPTEE_VFS_TIME [] (-1, t)
              (λ ps _, let! b := value_b ps in
                 ret (s32 b, (λ old, splice old 0 (le_bytes 4 (u32 (s32 b)))) <$> t)))
  | VfsUsleep u => Some (Desc OPTEE_VFS_USLEEP [SVal (u64 u) 0 0] tt (λ _ _, ret tt))
  | VfsFilesize fd => Some (Desc OPTEE_VFS_FILESIZE [SVal (u64 fd) 0 0] (-1) (answer s64))
  end.

(** The status a call reports, when it reports one. *)
Definition call_status {A} (c : vfs_call A) : A → option Z :=
  match c in vfs_call A return A → option Z with
  | VfsGetcwd _ => λ _, None
  | VfsGetenv _ => λ _, None
  | VfsUsleep _ => λ _, None
  | VfsStat _ _ | VfsFstat _ _ | VfsRead _ _ | VfsPread _ _ _ | VfsFcntlFlock _ _ _ => λ r, Some r.1
  | VfsUnlink _ _ => λ r, Some r.1
  | VfsGettimeofday _ _ => λ r, Some r.1.1
  | VfsTime _ => λ r, Some r.1
  | _ => λ r, Some r
  end.
End reference.

(** ** What the kernel below promises

[live_payloads w]: the payloads that are allocated.  Allocation gives a payload
that was not live, or nothing; freeing removes it; nothing else allocates or
frees.  The calls may fail to return. *)
Class RpcLaws (W : Type) `{Rpc W} : Type := {
  live_payloads : W → gset Z;
  alloc_payload_live n w m w' :
    thread_rpc_alloc_payload n w = Ret (m, w') →
    match m with
    | None => live_payloads w' = live_payloads w
    | Some mo => (mobj_id mo ∉ live_payloads w) ∧
                 live_payloads w' = ({[mobj_id mo]} ∪ live_payloads w)
    end;
  free_payload_live m w w' :
    thread_rpc_free_payload m w = Ret (tt, w') →
    match m with
    | None => live_payloads w' = live_payloads w
    | Some mo => live_payloads w' = live_payloads w ∖ {[mobj_id mo]}
    end;
  mobj_get_va_live mo o n w p w' :
    mobj_get_va mo o n w = Ret (p, w') → live_payloads w' = live_payloads w;
  va_write_live p bs w w' :
    va_write p bs w = Ret (tt, w') → live_payloads w' = live_payloads w;
  va_read_live p n w bs w' :
    va_read p n w = Ret (bs, w') → live_payloads w' = live_payloads w;
  rpc_cmd_live c ps w r w' :
    thread_rpc_cmd c ps w = Ret (r, w') → live_payloads w' = live_payloads w;
  kmalloc_live n w b w' :
    kmalloc n w = Ret (b, w') → live_payloads w' = live_payloads w
}.

(** ** Lemmas *)

(** [keeps m]: when [m] returns, the payloads that are live are those that
    were. *)
Section keeps.
Context {W : Type} `{RpcLaws W}.

Definition keeps {A} (m : C W A) : Prop :=
  ∀ w r w', m w = Ret (r, w') → live_payloads w' = live_payloads w.

Lemma keeps_ret {A} (a : A) : keeps (ret a).
Proof. by intros w r w' [= _ <-]. Qed.

Lemma keeps_undef {A} : keeps (undef : C W A).
Proof. by intros w r w'. Qed.

Lemma keeps_bind {A B} (m : C W A) (k : A → C W B) :
  keeps m → (∀ a, keeps (k a)) → keeps (bind m k).
Proof.
  intros Hm Hk w r w' E. apply bind_inv in E as (a & w1 & E1 & E2).
  rewrite (Hk _ _ _ _ E2). by eapply Hm.
Qed.

Lemma keeps_get_va mo o n : keeps (mobj_get_va mo o n).
Proof. intros w p w'. apply mobj_get_va_live. Qed.

Lemma keeps_va_write p bs : keeps (va_write p bs).
Proof. intros w [] w'. apply va_write_live. Qed.

Lemma keeps_va_read p n : keeps (va_read p n).
Proof. intros w bs w'. apply va_read_live. Qed.

Lemma keeps_kmalloc n : keeps (kmalloc n).
Proof. intros w b w'. apply kmalloc_live. Qed.

Lemma keeps_vfs_rpc ps : keeps (vfs_rpc ps).
Proof.
  apply keeps_bind; [intros w r w'; apply rpc_cmd_live|]. intros [? ?]. apply keeps_ret.
Qed.

Lemma keeps_value_b ps : keeps (value_b ps).
Proof. destruct ps as [|[]]; (apply keeps_ret || apply keeps_undef). Qed.

Lemma keeps_value_c ps : keeps (value_c ps).
Proof. destruct ps as [|[]]; (apply keeps_ret || apply keeps_undef). Qed.

(** The payload is freed on every way out. *)
Lemma keeps_with_payload {A} len (give_up_with : C W A) body :
  keeps give_up_with → (∀ mo, keeps (body mo)) → keeps (with_payload len give_up_with body).
Proof.
  intros Hg Hb w r w' E.
  apply bind_inv in E as (m & w1 & Ea & E). apply bind_inv in E as (r1 & w2 & Er & E).
  apply bind_inv in E as ([] & w3 & Ef & E). injection E as _ <-.
  apply alloc_payload_live in Ea. apply free_payload_live in Ef.
  assert (live_payloads w2 = live_payloads w1) as Hr.
  { destruct m as [mo|]; [case_decide|]; eauto. eapply Hb; eauto. }
  destruct m as [mo|]; [|congruence].
  destruct Ea as [Hni Ha]. rewrite Ef, Hr, Ha. set_solver.
Qed.
End keeps.
#[export] Hint Resolve keeps_ret keeps_undef keeps_get_va keeps_va_write keeps_va_read
  keeps_kmalloc keeps_vfs_rpc keeps_value_b keeps_value_c : triple.

(** Follow a computation through its operations. *)
Ltac keeps_step :=
  first
    [ solve [eauto with triple]
    | apply keeps_with_payload; [|intros ?]
    | apply keeps_bind; [|intros ?]
    | match goal with
      | |- keeps (match ?x with _ => _ end) => destruct x
      | |- keeps (if ?x then _ else _) => destruct x
      end ].

Section marshal_lemmas.
Context {W : Type} `{RpcLaws W}.

Lemma keeps_run_writes {A} va init (k : C W A) : keeps k → keeps (run_writes va init k).
Proof. intros Hk. induction init as [|bs init IH]; [done|]. simpl. by repeat keeps_step. Qed.

Lemma keeps_run_reads {A} outs (k : list bytes → C W A) :
  (∀ l, keeps (k l)) → keeps (run_reads outs k).
Proof.
  revert k. induction outs as [|[[[mo va] len] []] outs IH]; intros k Hk; simpl; [done| | |].
  - by apply IH.
  - apply keeps_bind; [auto with triple|]. intros bs. by apply IH.
  - apply keeps_bind; [auto with triple|]. intros p.
    apply keeps_bind; [auto with triple|]. intros bs. by apply IH.
Qed.

Lemma keeps_with_slots {A} (g : A) slots k :
  (∀ ps outs, keeps (k ps outs)) → keeps (with_slots g slots k).
Proof.
  revert k. induction slots as [|[a b c|dir len init back] slots IH]; intros k Hk; simpl; [done| |].
  - by apply IH.
  - apply keeps_with_payload; [auto with triple|]. intros mo.
    apply keeps_bind; [auto with triple|]. intros va. apply keeps_run_writes. by apply IH.
Qed.

Lemma keeps_marshal {A} (d : desc W A) :
  (∀ ps bufs, keeps (d_done d ps bufs)) → keeps (marshal d).
Proof.
  intros Hd. apply keeps_with_slots. intros ps outs.
  apply keeps_bind; [auto with triple|]. intros params. by apply keeps_run_reads.
Qed.
End marshal_lemmas.

Section kernel_properties.
Context {W : Type} `{Rpc W}.

(** Every call but [getenv], which sends two requests, and [fcntl_flock] is the
    marshalling of its description: what is proved of [marshal] holds of them. *)
Lemma do_call_marshal {A} (c : vfs_call A) d w :
  describe c = Some d → do_call c w = marshal d w.
Proof. destruct c as [| | | | | | | | | | | | | | | | | | | | | | |? []| | | | | | |];
  simpl; intros [= <-]; reflexivity. Qed.

End kernel_properties.

Section kernel_safety.
Context {W : Type} `{RpcLaws W}.

(** C22: no system call leaks a payload.  Whatever the normal world answers, and
    on every failing branch, when a system call returns the payloads that are
    live are exactly those that were live before it. *)
Theorem syscalls_no_leak {A} (c : vfs_call A) w r w' :
  do_call c w = Ret (r, w') → live_payloads w' = live_payloads w.
Proof.
  revert w r w'. change (keeps (do_call c)).
  assert (∀ cut ps bufs, keeps (answer (W:=W) cut ps bufs)) as Ha
    by (intros; unfold answer; repeat keeps_step).
  assert (∀ cut ps bufs, keeps (answer_buf (W:=W) cut ps bufs)) as Hb
    by (intros; unfold answer_buf; repeat keeps_step).
  destruct (describe (W:=W) c) as [d|] eqn:E.
  - assert (keeps (marshal d)) as Hm.
    { apply keeps_marshal. destruct c; simplify_eq/=; try done; intros; repeat keeps_step. }
    intros w r w' Hr. rewrite (do_call_marshal _ _ _ E) in Hr. by eapply Hm.
  - destruct c; try discriminate E; simpl; unfold syscall_vfs_getenv, syscall_vfs_fcntl_flock;
      repeat keeps_step.
Qed.
End kernel_safety.

(** ** When no request gets through

The supplicant may be missing or refuse every request: the call to the normal
world gives an error and leaves the parameters as they were sent. *)
Section unanswered.
Context {W : Type} `{Rpc W}.
Hypothesis alloc_ok : ∀ n w, ∃ mo w',
  thread_rpc_alloc_payload n w = Ret (Some mo, w') ∧ n ≤ mobj_size mo.
Hypothesis rpc_refused : ∀ ps w, ∃ e w',
  thread_rpc_cmd OPTEE_RPC_CMD_VFS ps w = Ret ((e, ps), w') ∧ e ≠ TEE_SUCCESS.

(** With its payload at hand, a call ends as its body ends. *)
Lemma with_payload_inv {A} len (g : C W A) body w r w' :
  with_payload len g body w = Ret (r, w') →
  ∃ mo w1 w2, body mo w1 = Ret (r, w2).
Proof.
  intros E. apply bind_inv in E as (m & w1 & Ea & E). apply bind_inv in E as (r1 & w2 & Er & E).
  apply bind_inv in E as ([] & w3 & _ & E). injection E as <- _.
  destruct (alloc_ok len w) as (mo & w1' & Ea' & Hs). rewrite Ea in Ea'. injection Ea' as -> ->.
  rewrite decide_False in Er by lia. eauto.
Qed.

Lemma vfs_rpc_refused ps w r w' : vfs_rpc ps w = Ret (r, w') → r = ps.
Proof.
  destruct (rpc_refused ps w) as (e & w1 & E & _). unfold vfs_rpc.
  rewrite (bind_run _ _ _ _ _ E). by intros [= <- _].
Qed.

Lemma run_writes_inv {A} va init (k : C W A) w r w' :
  run_writes va init k w = Ret (r, w') → ∃ w1, k w1 = Ret (r, w').
Proof.
  revert w. induction init as [|bs init IH]; intros w E; [eauto|].
  apply bind_inv in E as ([] & w1 & _ & E). eauto.
Qed.

Lemma run_reads_inv {A} outs (k : list bytes → C W A) w r w' :
  run_reads outs k w = Ret (r, w') → ∃ l w1, k l w1 = Ret (r, w').
Proof.
  revert k w. induction outs as [|[[[mo va] len] []] outs IH]; intros k w E; simpl in E; eauto.
  - apply bind_inv in E as (bs & w1 & _ & E). apply IH in E as (l & w2 & E). eauto.
  - apply bind_inv in E as (p & w1 & _ & E). apply bind_inv in E as (bs & w2 & _ & E).
    apply IH in E as (l & w3 & E). eauto.
Qed.

Lemma with_slots_inv {A} (g : A) slots k w r w' :
  with_slots g slots k w = Ret (r, w') → ∃ ps outs w1 w2, k ps outs w1 = Ret (r, w2).
Proof.
  revert k w w'. induction slots as [|[a b c|dir len init back] slots IH]; intros k w w' E; simpl in E.
  - eauto.
  - apply IH in E as (ps & outs & w1 & w2 & E). eauto.
  - apply with_payload_inv in E as (mo & w1 & w2 & E).
    apply bind_inv in E as (va & w3 & _ & E). apply run_writes_inv in E as (w4 & E).
    apply IH in E as (ps & outs & w5 & w6 & E). eauto.
Qed.

Lemma marshal_refused {A} (d : desc W A) w r w' :
  marshal d w = Ret (r, w') →
  ∃ ps bufs w1 w2, d_done d (THREAD_PARAM_VALUE INOUT (d_op d) 0 0 :: ps) bufs w1 = Ret (r, w2).
Proof.
  intros (ps & outs & w1 & w2 & E)%with_slots_inv.
  apply bind_inv in E as (params & w3 & E1 & E). apply vfs_rpc_refused in E1 as ->.
  apply run_reads_inv in E as (l & w4 & E). eauto.
Qed.

(** C40: a request the normal world refuses looks like a success.  The result of
    [thread_rpc_cmd] is only logged, so when no request gets through although
    payloads are still given, every system call that reports a status reports 0: [open] returns descriptor 0,
    [unlink], [fsync] and [ftruncate] return success, [lseek] and [filesize]
    return 0, [geteuid] returns the superuser. *)
Theorem syscalls_refused_report_zero {A} (c : vfs_call A) w r w' s :
  do_call c w = Ret (r, w') → call_status c r = Some s → s = 0.
Proof.
  intros E Hs. destruct (describe (W:=W) c) as [d|] eqn:Ed.
  - rewrite (do_call_marshal _ _ _ Ed) in E.
    apply marshal_refused in E as (ps & bufs & w1 & w2 & E).
    destruct c; simplify_eq/=; try done; cbn in E; injection E as <- _; by simplify_eq/=.
  - destruct c; try discriminate Ed; [discriminate Hs|]. simpl in *.
    apply with_payload_inv in E as (mo & w1 & w2 & E). cbv beta zeta in E. run_inv E. cbv beta zeta in E. run_inv E.
    match goal with Hr : vfs_rpc _ _ = _ |- _ => apply vfs_rpc_refused in Hr; subst end.
    match goal with Hb : value_b _ _ = _ |- _ => injection Hb as <- _ end. by simplify_eq/=.
Qed.
End unanswered.

(** * The properties at work

A kernel with nobody on the other side: payloads are blocks of memory, and
every request is refused. *)
Module Alone.

Definition alloc_payload (n : Z) : C mem (option mobj) :=
  run (λ m, let b := fresh (dom (m_blocks m)) in
            (Some (Mobj b n), Mem (m_next m) (<[b := Block Heap (zeros n)]> (m_blocks m)))).

Definition free_payload (mo : option mobj) : C mem unit :=
  modify (λ m, match mo with
               | None => m
               | Some mo => Mem (m_next m) (delete (mobj_id mo) (m_blocks m))
               end).

#[export] Instance alone : Rpc mem := {
  OPTEE_RPC_CMD_VFS := Supplicant.OPTEE_MSG_RPC_CMD_OPEN;
  thread_rpc_alloc_payload := alloc_payload;
  thread_rpc_free_payload := free_payload;
  mobj_get_va mo o n := ret (Ptr (mobj_id mo) o);
  va_write := store;
  va_read := load;
  thread_rpc_cmd c ps := ret (TEEC_ERROR_NOT_SUPPORTED, ps);
  kmalloc n := ret true
}.

Lemma dom_poke p bs m m' : poke p bs m = Some m' → dom (m_blocks m') = dom (m_blocks m).
Proof.
  intros (b & o & k & d & -> & E & _ & _ & ->)%poke_Some. simpl.
  apply dom_insert_lookup_L. by rewrite E.
Qed.

#[export] Program Instance alone_laws : RpcLaws mem := {
  live_payloads m := dom (m_blocks m)
}.
Next Obligation.
  intros n w m w' [= <- <-]. simpl. split; [apply is_fresh|]. by rewrite dom_insert_L.
Qed.
Next Obligation.
  intros [mo|] w w' [= <-]; simpl; [|done]. by rewrite dom_delete_L.
Qed.
Next Obligation. by intros mo o n w p w' [= _ <-]. Qed.
Next Obligation.
  intros p bs w w'. simpl. unfold store, update. destruct (poke p bs w) as [w1|] eqn:E; [|done].
  intros [= <-]. by eapply dom_poke.
Qed.
Next Obligation.
  intros p n w bs w'. simpl. unfold load, lift. destruct (peek w p n); [|done]. by intros [= _ <-].
Qed.
Next Obligation. by intros c ps w r w' [= _ <-]. Qed.
Next Obligation. by intros n w b w' [= _ <-]. Qed.

Lemma syscalls_no_leak_witness :
  ∃ r w', do_call (VfsOpen [97] 66 384) mem_empty = Ret (r, w') ∧
          live_payloads w' = live_payloads mem_empty.
Proof.
  eexists _, _. split; [vm_compute; reflexivity|].
  apply (syscalls_no_leak (VfsOpen [97] 66 384) mem_empty 0). vm_compute. reflexivity.
Defined.

Lemma syscalls_refused_report_zero_witness :
  ∃ r w', do_call (VfsUnlink [97] 5) mem_empty = Ret (r, w') ∧ r.1 = 0.
Proof.
  eexists _, _. split; [vm_compute; reflexivity|].
  refine (syscalls_refused_report_zero _ _ (VfsUnlink [97] 5) mem_empty (0, 0) _ _ _ eq_refl).
  - intros n w. eexists _, _. split; [reflexivity|simpl; lia].
  - intros ps w. eexists _, _. split; [reflexivity|discriminate].
  - vm_compute. reflexivity.
Defined.
End Alone.
