(* ===== verification/VfsSafe.v ===== *)
(** * The VFS in a hostile world

The file system behind the trusted application is the normal world, which it
does not trust.  [Answers] is all that is left of the interface's contract when
the normal world may answer anything: a call returns, and a buffer that is filled
keeps its size.  The kernel gives that much whatever comes back from its remote
procedure calls ([kernel_answers], from [RpcTotal]); and it is enough for every
method of the VFS to return, to stay within its buffers and to keep the open file
well formed.  The loop of [demoWrite] ends after a number of turns that depends on
the number of bytes alone. *)
From S2P Require Import Prelude CMem UteeVfs TeeVfs Protocol KernelVfs.
#[local] Open Scope Z_scope.
#[local] Open Scope c_scope.

(** ** What is left of the contract *)

Class Answers (W : Type) `{UteeVfs W} : Prop := {
  lseek_answers f o k w : ∃ r w', utee_vfs_lseek f o k w = Ret (r, w');
  write_answers f bs w : ∃ r w', utee_vfs_write f bs w = Ret (r, w');
  read_answers f buf w :
    ∃ r buf' w', utee_vfs_read f buf w = Ret ((r, buf'), w') ∧ length buf' = length buf;
  fsync_answers f w : ∃ r w', utee_vfs_fsync f w = Ret (r, w');
  filesize_answers f w : ∃ r w', utee_vfs_filesize f w = Ret (r, w');
  close_answers f w : ∃ r w', utee_vfs_close f w = Ret (r, w')
}.

(** How many turns the loop of [demoWrite] makes at most for [n] bytes. *)
Definition turns (n : Z) : nat := S (S (Z.to_nat (n / SQLITE_TEEVFS_BUFFERSZ))).

(** The room in the buffer when the next copy is made: a full one is flushed. *)
Definition room (p : DemoFile) : Z :=
  if decide (nBuffer p = SQLITE_TEEVFS_BUFFERSZ) then SQLITE_TEEVFS_BUFFERSZ
  else SQLITE_TEEVFS_BUFFERSZ - nBuffer p.

(** [t] turns are enough. *)
Definition enough (t : nat) (p : DemoFile) (n : Z) : Prop :=
  n ≤ 0 ∨ ∃ t', t = S t' ∧ n ≤ room p + SQLITE_TEEVFS_BUFFERSZ * Z.of_nat t'.

(** Run the first operation of a goal with the lemma that gives its value. *)
Ltac vfs_step tac :=
  erewrite bind_run by
    (tac; rewrite ?length_take, ?length_replicate in *;
     unfold in_signed, SQLITE_TEEVFS_BUFFERSZ in *; lia).

Section methods.
Context {W : Type} `{Answers W}.
Implicit Types (p : DemoFile) (w : W) (buf zBuf : bytes).

Lemma direct_answers p zBuf n i w :
  0 ≤ n ≤ Z.of_nat (length zBuf) → n < 2 ^ 31 →
  ∃ rc w', demoDirectWrite p zBuf n i w = Ret (rc, w') ∧ (rc = SQLITE_OK ∨ rc = SQLITE_IOERR_WRITE).
Proof.
  intros Hn Hn31. unfold demoDirectWrite. destruct (lseek_answers (fd p) i SEEK_SET w) as (r & w1 & E).
  rewrite (bind_run _ _ _ _ _ E). case_decide; [eexists _, _; split; [done|by right]|].
  assert (u64 n = n) as Hu by (apply unsigned_id; unfold in_unsigned; lia). rewrite Hu.
  rewrite (bind_run _ _ _ _ _ (read_buf_eq _ _ _ Hn)).
  destruct (write_answers (fd p) (take (Z.to_nat n) zBuf) w1) as (r2 & w2 & E2).
  rewrite (bind_run _ _ _ _ _ E2). case_decide; eexists _, _; (split; [done|]); [by right|by left].
Qed.

Lemma flush_answers p w :
  demo_ok p →
  ∃ rc w', demoFlushBuffer p w = Ret ((rc, set_buffer p (aBuffer p) 0 (iBufferOfst p)), w') ∧
    demo_ok (set_buffer p (aBuffer p) 0 (iBufferOfst p)) ∧ (rc = SQLITE_OK ∨ rc = SQLITE_IOERR_WRITE).
Proof.
  intros Hok. unfold demoFlushBuffer.
  assert (demo_ok (set_buffer p (aBuffer p) 0 (iBufferOfst p))) as Hok'.
  { revert Hok. unfold demo_ok. simpl. destruct (aBuffer p); [|done]. unfold SQLITE_TEEVFS_BUFFERSZ. lia. }
  case_decide as Hn.
  - destruct (aBuffer p) as [buf|] eqn:Eb; [|by unfold demo_ok in Hok; rewrite Eb in Hok].
    destruct (demo_ok_buffer p buf Hok Eb) as (Hl & Hr & _). unfold SQLITE_TEEVFS_BUFFERSZ in *.
    change (lift (Some buf)) with (ret (S:=W) buf). rewrite bind_ret_l.
    destruct (direct_answers p buf (nBuffer p) (iBufferOfst p) w) as (rc & w' & E & Hrc); [lia|lia|].
    rewrite (bind_run _ _ _ _ _ E). by exists rc, w'.
  - exists SQLITE_OK, w. split; [|split; [done|by left]]. destruct p; simpl in *. by subst.
Qed.

(** After the conditional flush. *)
Lemma make_room_answers (b : bool) p i w buf :
  demo_ok p → aBuffer p = Some buf →
  (b = false → nBuffer p ≠ SQLITE_TEEVFS_BUFFERSZ ∧ iBufferOfst p + nBuffer p = i) →
  ∃ rc p1 w1,
    (if b then demoFlushBuffer p else ret (SQLITE_OK, p)) w = Ret ((rc, p1), w1) ∧
    demo_ok p1 ∧ fd p1 = fd p ∧ aBuffer p1 = Some buf ∧ (rc = SQLITE_OK ∨ rc = SQLITE_IOERR_WRITE) ∧
    (nBuffer p1 = 0 ∨ nBuffer p1 ≠ SQLITE_TEEVFS_BUFFERSZ ∧ iBufferOfst p1 + nBuffer p1 = i) ∧
    room p ≤ SQLITE_TEEVFS_BUFFERSZ - nBuffer p1.
Proof.
  intros Hok Eb Hb. destruct (demo_ok_buffer p buf Hok Eb) as (Hl & Hr & _). unfold room. destruct b.
  - destruct (flush_answers p w Hok) as (rc & w1 & E & Hok1 & Hrc).
    eexists rc, _, w1. split; [exact E|]. split_and!; try done; [by left|].
    simpl. unfold SQLITE_TEEVFS_BUFFERSZ in *. case_decide; lia.
  - exists SQLITE_OK, p, w. destruct (Hb eq_refl) as [Hnf Hat]. split_and!; try done; [by left|by right|].
    by rewrite decide_False.
Qed.

(** With enough turns the loop returns, and more make no difference. *)
Lemma loop_answers t p z n i w :
  demo_ok p → is_Some (aBuffer p) → n ≤ Z.of_nat (length z) → 0 ≤ i → i + n < 2 ^ 63 → enough t p n →
  ∃ rc p' w', (∀ fuel, (t ≤ fuel)%nat → demoWrite_loop fuel p z n i w = Ret ((rc, p'), w')) ∧
    demo_ok p' ∧ fd p' = fd p ∧ is_Some (aBuffer p') ∧ (rc = SQLITE_OK ∨ rc = SQLITE_IOERR_WRITE).
Proof.
  revert p z n i w. induction t as [|t IH]; intros p z n i w Hok [buf Eb] Hn Hi Hmax Ht.
  all: destruct (decide (n > 0)) as [Hpos|Hpos];
    [|exists SQLITE_OK, p, w; split_and!; eauto; intros [|fuel] _; simpl; by rewrite decide_False].
  { destruct Ht as [?|(? & ? & _)]; [lia|done]. }
  destruct Ht as [?|(t' & [= <-] & Ht)]; [lia|].
  destruct (full_or_apart_spec p i w buf Hok Eb) as (b & E0 & Hb).
  destruct (make_room_answers b p i w buf Hok Eb Hb) as (rc & p1 & w1 & E1 & Hok1 & Hfd & Eb1 & Hrc & Hat & Hroom).
  destruct (decide (rc = SQLITE_OK)) as [->|Hne].
  2:{ exists rc, p1, w1. split_and!; eauto. intros [|fuel] Hf; [lia|]. simpl. rewrite decide_True by done.
      rewrite (bind_run _ _ _ _ _ E0), (bind_run _ _ _ _ _ E1). by rewrite decide_True. }
  destruct (loop_turn p z n i w b p1 w1 buf E0 E1 Hok1 Eb1 Hat) as (src & Hsn & _ & Hls & Hfit & Hce & Eturn); [lia..|].
  set (p2 := set_buffer p1 _ _ _) in Eturn.
  assert (0 < length src)%nat as Hpos' by (destruct src; [done|simpl; lia]).
  assert (nBuffer p1 = 0 ∨ iBufferOfst p1 + nBuffer p1 = i) as Hat' by tauto.
  assert (demo_ok p2) as Hok2 by (apply demo_ok_append; auto; lia).
  destruct (IH p2 (drop (length src) z) (n - Z.of_nat (length src)) (i + Z.of_nat (length src)) w1)
    as (rc & p' & w' & E & Hok' & Hfd' & Hbuf' & Hrc');
    [done|by eexists|rewrite length_drop; lia|lia|lia| |].
  { destruct Hce as [Hce|Hce]; [left; lia|]. destruct t as [|t]; [left; unfold room in *; lia|]. right. exists t.
    split; [done|]. unfold room, p2, SQLITE_TEEVFS_BUFFERSZ in *. simpl. rewrite decide_True by lia. lia. }
  exists rc, p', w'. split; [|split; [done|split; [by rewrite Hfd'|done]]].
  intros [|fuel] Hf; [lia|]. rewrite Eturn. apply E. lia.
Qed.
Lemma write_survives p w zBuf n i :
  demo_ok p → 0 ≤ n ≤ Z.of_nat (length zBuf) → n < 2 ^ 31 → 0 ≤ i → i + n < 2 ^ 63 →
  ∃ rc p' w', demoWrite p zBuf n i w = Ret ((rc, p'), w') ∧ demo_ok p' ∧ fd p' = fd p ∧
    rc ∈ [SQLITE_OK; SQLITE_IOERR_WRITE].
Proof.
  intros Hok Hn Hn31 Hi Hmax. unfold demoWrite. destruct (aBuffer p) as [buf|] eqn:Eb.
  - destruct (loop_answers (Z.to_nat n) p zBuf n i w) as (rc & p' & w' & E & Hok' & Hfd & _ & Hrc);
      [done|by eexists|lia|done|done| |].
    + destruct (decide (n ≤ 0)); [by left|right]. exists (Z.to_nat n - 1)%nat. split; [lia|].
      destruct (demo_ok_buffer p buf Hok Eb) as (_ & Hr & _).
      unfold room, SQLITE_TEEVFS_BUFFERSZ in *. case_decide; lia.
    + exists rc, p', w'. split; [by apply E|]. split; [done|]. split; [done|]. set_solver.
  - destruct (direct_answers p zBuf n i w Hn Hn31) as (rc & w' & E & Hrc).
    rewrite (bind_run _ _ _ _ _ E). exists rc, p, w'. split; [done|]. split; [done|]. split; [done|]. set_solver.
Qed.

Lemma read_survives p w zBuf n i :
  demo_ok p → 0 ≤ n ≤ Z.of_nat (length zBuf) → n < 2 ^ 31 →
  ∃ rc p' buf w', demoRead p zBuf n i w = Ret ((rc, p', buf), w') ∧ demo_ok p' ∧ fd p' = fd p ∧
    length buf = length zBuf ∧ drop (Z.to_nat n) buf = drop (Z.to_nat n) zBuf ∧
    rc ∈ [SQLITE_OK; SQLITE_IOERR_SHORT_READ; SQLITE_IOERR_READ; SQLITE_IOERR_WRITE].
Proof.
  intros Hok Hn Hn31. unfold demoRead.
  destruct (flush_answers p w Hok) as (rc & w1 & E & Hok1 & Hrc). rewrite (bind_run _ _ _ _ _ E). clear E.
  set (p1 := set_buffer p _ 0 _) in *.
  case_decide as Hne; [exists rc, p1, zBuf, w1; split_and!; try done; set_solver|].
  destruct (lseek_answers (fd p1) i SEEK_SET w1) as (r & w2 & E). rewrite (bind_run _ _ _ _ _ E). clear E.
  case_decide; [exists SQLITE_IOERR_READ, p1, zBuf, w2; split_and!; try done; set_solver|].
  assert (u64 n = n) as Hu by (apply unsigned_id; unfold in_unsigned; lia). rewrite Hu.
  rewrite (bind_run _ _ _ _ _ (read_buf_eq _ _ _ Hn)).
  destruct (read_answers (fd p1) (take (Z.to_nat n) zBuf) w2) as (r2 & part & w3 & E & Hl).
  rewrite (bind_run _ _ _ _ _ E). clear E. rewrite length_take in Hl.
  set (buf := part ++ drop (Z.to_nat n) zBuf).
  assert (length buf = length zBuf) as Hlb by (unfold buf; rewrite length_app, length_drop; lia).
  assert (drop (Z.to_nat n) buf = drop (Z.to_nat n) zBuf) as Hdb by (apply drop_app_length'; lia).
  case_decide; [exists SQLITE_OK, p1, buf, w3; split_and!; try done; set_solver|].
  case_decide; [|exists SQLITE_IOERR_READ, p1, buf, w3; split_and!; try done; set_solver].
  exists SQLITE_IOERR_SHORT_READ, p1. case_decide as Hlt.
  2:{ rewrite bind_ret_l. exists buf, w3. split_and!; try done. set_solver. }
  set (zs := replicate (Z.to_nat (n - s32 r2)) 0). assert (length zs = Z.to_nat (n - s32 r2)) as Hz by apply length_replicate.
  rewrite (bind_run _ _ _ _ _ (memcpy_at_eq buf zs (s32 r2) w3 ltac:(lia))).
  exists (splice buf (Z.to_nat (s32 r2)) zs), w3. split; [done|]. split; [done|]. split; [done|].
  split; [rewrite CMem.length_splice; lia|]. split; [|set_solver].
  unfold splice. rewrite app_assoc, drop_app_length' by (rewrite length_app, length_take; lia).
  rewrite Hz, <- Hdb. f_equal. lia.
Qed.

Lemma sync_survives p w flags :
  demo_ok p →
  ∃ rc p' w', demoSync p flags w = Ret ((rc, p'), w') ∧ demo_ok p' ∧ fd p' = fd p ∧
    rc ∈ [SQLITE_OK; SQLITE_IOERR_FSYNC; SQLITE_IOERR_WRITE].
Proof.
  intros Hok. unfold demoSync. destruct (flush_answers p w Hok) as (rc & w1 & E & Hok1 & Hrc).
  rewrite (bind_run _ _ _ _ _ E). case_decide.
  - eexists rc, _, w1. split; [done|]. split; [done|]. split; [done|]. set_solver.
  - destruct (fsync_answers (fd p) w1) as (r & w2 & E2). simpl fd. rewrite (bind_run _ _ _ _ _ E2).
    eexists _, _, w2. split; [done|]. split; [done|]. split; [done|]. case_decide; set_solver.
Qed.

Lemma filesize_survives p w :
  demo_ok p →
  ∃ rc p' size w', demoFileSize p w = Ret ((rc, p', size), w') ∧ demo_ok p' ∧ fd p' = fd p ∧
    rc ∈ [SQLITE_OK; SQLITE_IOERR_FSTAT; SQLITE_IOERR_WRITE] ∧ (is_Some size ↔ rc = SQLITE_OK).
Proof.
  intros Hok. unfold demoFileSize. destruct (flush_answers p w Hok) as (rc & w1 & E & Hok1 & Hrc).
  rewrite (bind_run _ _ _ _ _ E). case_decide as Hne.
  - eexists rc, _, _, w1. split; [done|]. split; [done|]. split; [done|]. split; [set_solver|].
    split; [by intros [? ?]|by intros ->].
  - destruct (filesize_answers (fd p) w1) as (r & w2 & E2). simpl fd. rewrite (bind_run _ _ _ _ _ E2).
    case_decide; eexists _, _, _, w2; (split; [done|]); (split; [done|]); (split; [done|]);
      (split; [set_solver|]); split; try done; by intros [? ?].
Qed.

Lemma close_survives (sqlite3_free : option bytes → C W unit) p w :
  (∀ b w, ∃ w', sqlite3_free b w = Ret (tt, w')) → demo_ok p →
  ∃ rc w', demoClose sqlite3_free p w = Ret (rc, w') ∧ rc ∈ [SQLITE_OK; SQLITE_IOERR_WRITE].
Proof.
  intros Hfree Hok. unfold demoClose. destruct (flush_answers p w Hok) as (rc & w1 & E & _ & Hrc).
  rewrite (bind_run _ _ _ _ _ E). simpl aBuffer. simpl fd. destruct (Hfree (aBuffer p) w1) as (w2 & E2).
  rewrite (bind_run _ _ _ _ _ E2). destruct (close_answers (fd p) w2) as (r & w3 & E3).
  rewrite (bind_run _ _ _ _ _ E3). exists rc, w3. split; [done|]. set_solver.
Qed.
End methods.

(** ** What the kernel guarantees

The part of the OP-TEE kernel below the system calls: payloads may be refused or
too small, and the parameters that come back from the normal world are arbitrary
values of the kinds that were sent; but a payload that was given stays usable
until it is freed. *)
Definition same_kind (a b : thread_param) : Prop :=
  match a, b with
  | THREAD_PARAM_VALUE d _ _ _, THREAD_PARAM_VALUE d' _ _ _ => d = d'
  | THREAD_PARAM_MEMREF d mo o _, THREAD_PARAM_MEMREF d' mo' o' _ => d = d' ∧ mo = mo' ∧ o = o'
  | _, _ => False
  end.

Class RpcTotal (W : Type) `{Rpc W} : Type := {
  allocated : W → mobj → Prop;
  (** the payload, at the address [mobj_get_va] gave *)
  usable : W → mobj → ptr → Prop;
  usable_allocated w mo p : usable w mo p → allocated w mo;
  alloc_total n w :
    ∃ m w', thread_rpc_alloc_payload n w = Ret (m, w') ∧ ∀ mo, m = Some mo → allocated w' mo;
  free_none_total w : ∃ w', thread_rpc_free_payload None w = Ret (tt, w');
  free_total mo w : allocated w mo → ∃ w', thread_rpc_free_payload (Some mo) w = Ret (tt, w');
  get_va_total mo n w :
    allocated w mo → n ≤ mobj_size mo →
    ∃ p w', mobj_get_va mo 0 n w = Ret (p, w') ∧ usable w' mo p;
  va_write_total mo p bs w :
    usable w mo p → Z.of_nat (length bs) ≤ mobj_size mo →
    ∃ w', va_write p bs w = Ret (tt, w') ∧ usable w' mo p;
  va_read_total mo p n w :
    usable w mo p → 0 ≤ n ≤ mobj_size mo →
    ∃ bs w', va_read p n w = Ret (bs, w') ∧ usable w' mo p ∧ Z.of_nat (length bs) = n;
  rpc_total c ps w :
    ∃ r ps' w', thread_rpc_cmd c ps w = Ret ((r, ps'), w') ∧ Forall2 same_kind ps ps' ∧
      ∀ mo p, usable w mo p → usable w' mo p
}.

Section kernel.
Context {W : Type} `{RpcTotal W}.
Implicit Types (w : W) (mo : mobj).

Lemma with_payload_total {A} len (x : A) (body : mobj → C W A) (Q : A → Prop) w :
  Q x →
  (∀ mo w, allocated w mo → len ≤ mobj_size mo →
     ∃ r w', body mo w = Ret (r, w') ∧ Q r ∧ allocated w' mo) →
  ∃ r w', with_payload len (ret x) body w = Ret (r, w') ∧ Q r.
Proof.
  intros Hx Hb. unfold with_payload. destruct (alloc_total len w) as ([mo|] & w1 & E & Ha);
    rewrite (bind_run _ _ _ _ _ E).
  - specialize (Ha mo eq_refl). case_decide as Hs.
    + rewrite bind_ret_l. destruct (free_total mo w1 Ha) as (w2 & Ef). rewrite (bind_run _ _ _ _ _ Ef). by exists x, w2.
    + destruct (Hb mo w1 Ha) as (r & w2 & Eb & HQ & Ha2); [lia|]. rewrite (bind_run _ _ _ _ _ Eb).
      destruct (free_total mo w2 Ha2) as (w3 & Ef). rewrite (bind_run _ _ _ _ _ Ef). by exists r, w3.
  - rewrite bind_ret_l. destruct (free_none_total w1) as (w2 & Ef). rewrite (bind_run _ _ _ _ _ Ef). by exists x, w2.
Qed.

(** The request, whose first parameter is a value. *)
Lemma vfs_rpc_total d a b c ps w :
  ∃ b' ps' w', vfs_rpc (THREAD_PARAM_VALUE d a b c :: ps) w = Ret (ps', w') ∧
    (∀ w, value_b (W:=W) ps' w = Ret (b', w)) ∧ ∀ mo p, usable w mo p → usable w' mo p.
Proof.
  unfold vfs_rpc. destruct (rpc_total OPTEE_RPC_CMD_VFS (THREAD_PARAM_VALUE d a b c :: ps) w) as (r & ps' & w' & E & Hk & Hu).
  rewrite (bind_run _ _ _ _ _ E). inversion Hk as [|? q ? qs Hq]. subst.
  destruct q as [d' a' b' c'|]; [|done]. by exists b', (THREAD_PARAM_VALUE d' a' b' c' :: qs), w'.
Qed.

Lemma value_call_total {A} d a b c ps (f : Z → A) w :
  ∃ r w', (let! params := vfs_rpc (THREAD_PARAM_VALUE d a b c :: ps) in
           let! b := value_b params in ret (f b)) w = Ret (r, w').
Proof.
  destruct (vfs_rpc_total d a b c ps w) as (b' & ps' & w' & E & Hb & _).
  rewrite (bind_run _ _ _ _ _ E), (bind_run _ _ _ _ _ (Hb w')). by eexists _, _.
Qed.

Lemma syscall_write_answers f bs w : ∃ r w', syscall_vfs_write f bs w = Ret (r, w').
Proof.
  destruct (with_payload_total (Z.of_nat (length bs)) (-1) (λ buf_mobj,
    let! va_buf := mobj_get_va buf_mobj 0 (Z.of_nat (length bs)) in
    do! va_write va_buf (zeros (Z.of_nat (length bs))) in
    do! va_write va_buf bs in
    let! params := vfs_rpc [THREAD_PARAM_VALUE INOUT Kernel.OPTEE_VFS_WRITE 0 0;
      THREAD_PARAM_VALUE IN (u64 f) (u64 (Z.of_nat (length bs))) 0;
      THREAD_PARAM_MEMREF IN (Some buf_mobj) 0 0] in
    let! b := value_b params in
    ret (s32 b)) (λ _, True) w) as (r & w' & E & _); [done| |by exists r, w'].
  intros mo w0 Ha Hs.
  destruct (get_va_total mo _ w0 Ha Hs) as (p & w1 & E1 & Hu1). rewrite (bind_run _ _ _ _ _ E1).
  destruct (va_write_total mo p (zeros (Z.of_nat (length bs))) w1 Hu1) as (w2 & E2 & Hu2);
    [unfold zeros; rewrite length_replicate; lia|]. rewrite (bind_run _ _ _ _ _ E2).
  destruct (va_write_total mo p bs w2 Hu2) as (w3 & E3 & Hu3); [lia|]. rewrite (bind_run _ _ _ _ _ E3).
  match goal with |- context [vfs_rpc (THREAD_PARAM_VALUE ?d ?a ?b ?c :: ?ps)] =>
    destruct (vfs_rpc_total d a b c ps w3) as (b' & ps' & w4 & E4 & Hb & Hu) end.
  rewrite (bind_run _ _ _ _ _ E4), (bind_run _ _ _ _ _ (Hb w4)). eexists _, w4. split; [done|]. split; [done|].
  by eapply usable_allocated, Hu.
Qed.

Lemma syscall_read_answers f buf w :
  ∃ r buf' w', syscall_vfs_read f buf w = Ret ((r, buf'), w') ∧ length buf' = length buf.
Proof.
  destruct (with_payload_total (Z.of_nat (length buf)) (-1, buf) (λ buf_mobj,
    let! va_buf := mobj_get_va buf_mobj 0 (Z.of_nat (length buf)) in
    do! va_write va_buf (zeros (Z.of_nat (length buf))) in
    let! params := vfs_rpc [THREAD_PARAM_VALUE INOUT Kernel.OPTEE_VFS_READ 0 0;
      THREAD_PARAM_MEMREF OUT (Some buf_mobj) 0 0;
      THREAD_PARAM_VALUE IN (u64 f) (u64 (Z.of_nat (length buf))) 0] in
    let! __buf := va_read va_buf (Z.of_nat (length buf)) in
    let! b := value_b params in
    ret (s64 b, __buf)) (λ r, length r.2 = length buf) w) as ([r buf'] & w' & E & Hl);
    [done| |by exists r, buf', w'].
  intros mo w0 Ha Hs.
  destruct (get_va_total mo _ w0 Ha Hs) as (p & w1 & E1 & Hu1). rewrite (bind_run _ _ _ _ _ E1).
  destruct (va_write_total mo p (zeros (Z.of_nat (length buf))) w1 Hu1) as (w2 & E2 & Hu2);
    [unfold zeros; rewrite length_replicate; lia|]. rewrite (bind_run _ _ _ _ _ E2).
  match goal with |- context [vfs_rpc (THREAD_PARAM_VALUE ?d ?a ?b ?c :: ?ps)] =>
    destruct (vfs_rpc_total d a b c ps w2) as (b' & ps' & w3 & E3 & Hb & Hu) end.
  rewrite (bind_run _ _ _ _ _ E3).
  destruct (va_read_total mo p (Z.of_nat (length buf)) w3 (Hu _ _ Hu2)) as (bs & w4 & E4 & Hu4 & Hl); [lia|].
  rewrite (bind_run _ _ _ _ _ E4), (bind_run _ _ _ _ _ (Hb w4)). eexists _, w4. split; [done|]. split; [simpl; lia|].
  by eapply usable_allocated.
Qed.

(** Whatever the normal world answers, the kernel's calls return. *)
#[export] Instance kernel_answers : Answers W.
Proof.
  split; simpl.
  - intros. apply value_call_total.
  - apply syscall_write_answers.
  - apply syscall_read_answers.
  - intros. apply value_call_total.
  - intros. apply value_call_total.
  - intros. apply value_call_total.
Qed.

(** The kernel gives its buffer back whether there is a directory in it or not, so
    the test of [demoFullPathname] never fails. *)
Theorem failed_getcwd_is_not_seen (snprintf : Z → bytes → bytes → bytes) (uninit : Z → bytes) zPath n out w rc out' w' :
  demoFullPathname snprintf uninit zPath n out w = Ret ((rc, out'), w') → rc = SQLITE_OK.
Proof.
  unfold demoFullPathname. intros E. apply bind_inv in E as (zDir & w1 & E1 & E).
  destruct zDir as [zDir|].
  - apply bind_inv in E as (z1 & w2 & _ & E). apply bind_inv in E as (dir & w3 & _ & E).
    apply bind_inv in E as (z2 & w4 & _ & E). by injection E as <- _ _.
  - exfalso. case_decide; by apply bind_inv in E1 as (z & w2 & _ & [=]).
Qed.
End kernel.

(** ** Properties *)
Section properties.
Context {W : Type} `{Answers W}.
Implicit Types (p : DemoFile) (w : W) (zBuf : bytes).

(** C27: the loop of [demoWrite] ends.  Whatever the world answers, from a well
    formed journal it returns after at most [n / 8192 + 2] turns for [n] bytes:
    from that amount of fuel on, the result no longer depends on the fuel. *)
Theorem demoWrite_loop_terminates p z n i w :
  demo_ok p → is_Some (aBuffer p) → n ≤ Z.of_nat (length z) → 0 ≤ i → i + n < 2 ^ 63 →
  ∃ r, ∀ fuel, (turns n ≤ fuel)%nat → demoWrite_loop fuel p z n i w = Ret r.
Proof.
  intros Hok Hb Hn Hi Hmax.
  destruct (loop_answers (turns n) p z n i w) as (rc & p' & w' & E & _); try done.
  - destruct (decide (n ≤ 0)); [by left|right]. eexists. split; [reflexivity|].
    destruct Hb as [buf Eb]. destruct (demo_ok_buffer p buf Hok Eb) as (_ & Hr & _).
    unfold room, SQLITE_TEEVFS_BUFFERSZ in *.
    pose proof (Z.div_mod n 8192 ltac:(done)). pose proof (Z.mod_pos_bound n 8192 ltac:(done)).
    pose proof (Z.div_pos n 8192). case_decide; lia.
  - by exists ((rc, p'), w').
Qed.
End properties.

Section hostile.
Context {W : Type} `{RpcTotal W}.
Implicit Types (p : DemoFile) (w : W) (zBuf : bytes).

(** C6: the normal world cannot break the VFS.  On the kernel's system calls, with
    a normal world that answers every request with arbitrary values, every method
    of an open file returns: no [assert] fails, nothing is read or written outside
    a buffer, no loop runs on.  It keeps the file well formed, its buffer in
    bounds; a read leaves the caller's buffer its size and what lies beyond the
    bytes asked for; and the code is one that SQLite knows.  (Closing needs an
    allocator that takes its buffers back.) *)
Theorem methods_survive_any_answers (sqlite3_free : option bytes → C W unit) p w :
  (∀ b w, ∃ w', sqlite3_free b w = Ret (tt, w')) → demo_ok p →
  (∀ zBuf n i, 0 ≤ n ≤ Z.of_nat (length zBuf) → n < 2 ^ 31 → 0 ≤ i → i + n < 2 ^ 63 →
     ∃ rc p' w', demoWrite p zBuf n i w = Ret ((rc, p'), w') ∧ demo_ok p' ∧ fd p' = fd p ∧
       rc ∈ [SQLITE_OK; SQLITE_IOERR_WRITE]) ∧
  (∀ zBuf n i, 0 ≤ n ≤ Z.of_nat (length zBuf) → n < 2 ^ 31 →
     ∃ rc p' buf w', demoRead p zBuf n i w = Ret ((rc, p', buf), w') ∧ demo_ok p' ∧ fd p' = fd p ∧
       length buf = length zBuf ∧ drop (Z.to_nat n) buf = drop (Z.to_nat n) zBuf ∧
       rc ∈ [SQLITE_OK; SQLITE_IOERR_SHORT_READ; SQLITE_IOERR_READ; SQLITE_IOERR_WRITE]) ∧
  (∀ flags, ∃ rc p' w', demoSync p flags w = Ret ((rc, p'), w') ∧ demo_ok p' ∧ fd p' = fd p ∧
     rc ∈ [SQLITE_OK; SQLITE_IOERR_FSYNC; SQLITE_IOERR_WRITE]) ∧
  (∃ rc p' size w', demoFileSize p w = Ret ((rc, p', size), w') ∧ demo_ok p' ∧ fd p' = fd p ∧
     rc ∈ [SQLITE_OK; SQLITE_IOERR_FSTAT; SQLITE_IOERR_WRITE] ∧ (is_Some size ↔ rc = SQLITE_OK)) ∧
  (∃ rc w', demoClose sqlite3_free p w = Ret (rc, w') ∧ rc ∈ [SQLITE_OK; SQLITE_IOERR_WRITE]).
Proof.
  intros Hfree Hok. split; [|split; [|split; [|split]]].
  - intros zBuf n i. by apply write_survives.
  - intros zBuf n i. by apply read_survives.
  - intros flags. by apply sync_survives.
  - by apply filesize_survives.
  - by apply close_survives.
Qed.
End hostile.

(** ** A normal world that lies

Payloads are blocks of memory; every value that comes back is a large number. *)
Module Liar.
Import Alone.

Definition lie (q : thread_param) : thread_param :=
  match q with
  | THREAD_PARAM_VALUE d _ _ _ => THREAD_PARAM_VALUE d 0 (2 ^ 40 + 3) 7
  | THREAD_PARAM_MEMREF d mo o _ => THREAD_PARAM_MEMREF d mo o (2 ^ 50)
  end.

#[export] Instance liar : Rpc mem := {
  OPTEE_RPC_CMD_VFS := Supplicant.OPTEE_MSG_RPC_CMD_OPEN;
  thread_rpc_alloc_payload := alloc_payload;
  thread_rpc_free_payload := free_payload;
  mobj_get_va mo o n := ret (Ptr (mobj_id mo) o);
  va_write := store;
  va_read := load;
  thread_rpc_cmd c ps := ret (0, lie <$> ps);
  kmalloc n := ret true
}.

Definition holds_payload (m : mem) (mo : mobj) : Prop :=
  ∃ d, m_blocks m !! mobj_id mo = Some (Block Heap d) ∧ (mobj_size mo ≤ Z.of_nat (length d)).

#[export] Program Instance liar_total : RpcTotal mem := {
  allocated := holds_payload;
  usable m mo p := holds_payload m mo ∧ p = Ptr (mobj_id mo) 0
}.
Next Obligation. by intros w mo p [? _]. Qed.
Next Obligation.
  intros n w. eexists _, _. split; [reflexivity|]. intros mo [= <-].
  eexists. simpl. split; [by rewrite lookup_insert_eq|]. unfold zeros. rewrite length_replicate. lia.
Qed.
Next Obligation. intros w. by eexists. Qed.
Next Obligation. intros mo w _. by eexists. Qed.
Next Obligation. intros mo n w Ha _. by eexists _, _. Qed.
Next Obligation.
  intros mo p bs w [(d & Hd & Hl) ->] Hs. simpl. unfold store, update.
  set (m' := Mem (m_next w) (<[mobj_id mo := Block Heap (splice d (Z.to_nat 0) bs)]> (m_blocks w))).
  assert (poke (Ptr (mobj_id mo) 0) bs w = Some m') as ->.
  { apply poke_Some. exists (mobj_id mo), 0, Heap, d. split_and!; try done; lia. }
  exists m'. split; [done|]. split; [|done]. eexists. simpl. split; [by rewrite lookup_insert_eq|].
  rewrite CMem.length_splice; lia.
Qed.
Next Obligation.
  intros mo p n w [(d & Hd & Hl) ->] Hn. simpl. unfold load, lift.
  assert (peek w (Ptr (mobj_id mo) 0) n = Some (take (Z.to_nat n) (drop (Z.to_nat 0) d))) as ->.
  { apply peek_Some. exists (mobj_id mo), 0, Heap, d. split_and!; try done; lia. }
  eexists _, w. split; [done|]. split; [by split; [exists d|]|]. rewrite length_take, drop_0. lia.
Qed.
Next Obligation.
  intros c ps w. eexists _, _, w. split; [reflexivity|]. split; [|done].
  induction ps as [|[d a b c'|d mo o n] ps IH]; simpl; by constructor.
Qed.

Lemma demoWrite_loop_terminates_witness :
  ∃ r, ∀ fuel, (2 ≤ fuel)%nat → demoWrite_loop fuel ex_journal [5; 6] 2 6 mem_empty = Ret r.
Proof.
  apply (demoWrite_loop_terminates ex_journal [5; 6] 2 6 mem_empty (proj1 ex_journal_repr));
    [by eexists|simpl; lia|lia|lia].
Defined.

Lemma methods_survive_any_answers_witness :
  ∃ rc p' buf w', demoRead ex_journal [0; 0; 0; 7] 3 4 mem_empty = Ret ((rc, p', buf), w') ∧ demo_ok p' ∧
    fd p' = 3 ∧ length buf = 4%nat ∧ drop 3 buf = [7] ∧
    rc ∈ [SQLITE_OK; SQLITE_IOERR_SHORT_READ; SQLITE_IOERR_READ; SQLITE_IOERR_WRITE].
Proof.
  destruct (methods_survive_any_answers (λ _, ret tt) ex_journal mem_empty (λ _ w, ex_intro _ w eq_refl) (proj1 ex_journal_repr)) as (_ & Hr & _).
  apply (Hr [0; 0; 0; 7] 3 4); simpl; lia.
Defined.
End Liar.
