(* ===== verification/SuppShm.v ===== *)
(** * The supplicant: shared memory and parameters

Models the first part of optee_client/tee-supplicant/tee_supplicant.c: the list
of shared-memory objects the secure world asked for ([push_tshm], [find_tshm],
[pop_tshm], [process_alloc], [process_free]) and the functions that turn a
request's parameters into values and buffers ([get_value], [get_param],
[tee_supp_param_to_va]), with the loader of trusted applications, which uses
them.

The operating system is the parameter [Posix]: a call takes what it reads from
the process's memory and gives its result, the [errno] it leaves and the bytes
it puts into the caller's buffer.  The addresses themselves are resolved here,
in the memory of [CMem]. *)
From S2P Require Import Prelude CMem Protocol.
#[local] Open Scope Z_scope.
#[local] Open Scope c_scope.
Import Supplicant.

(** ** Parameters

The attribute values and the meaning of the three fields of a memory reference
are those of the kernel's uapi header linux/tee.h. *)
Record tee_ioctl_param : Type := Param { attr : Z; par_a : Z; par_b : Z; par_c : Z }.

(** What the ioctl that waits for a request fills in: the two ways of reading
    [union tee_rpc_invoke] share this layout, [func] being [ret] on the way
    back. *)
Record rpc_request : Type := Request {
  rq_func : Z;
  rq_num_params : nat;
  rq_params : list tee_ioctl_param
}.

(** ** The operating system *)

(** The calls the supplicant makes, indexed by what they give.  [errno] is zero
    before every call. *)
Inductive oscall : Type → Type :=
| OsOpen (path : option bytes) (oflag mode : Z) : oscall (Z * Z)
| OsClose (fd : Z) : oscall (Z * Z)
| OsAccess (path : option bytes) (mode : Z) : oscall (Z * Z)
| OsGetcwd (null : bool) (size : Z) : oscall (Z * bytes)
| OsStat (path : option bytes) (null : bool) : oscall (Z * Z * bytes)
| OsFstat (fd : Z) (null : bool) : oscall (Z * Z * bytes)
| OsFstatSize (fd : Z) : oscall (Z * Z * Z)
| OsWrite (fd : Z) (data : option bytes) (n : Z) : oscall (Z * Z)
| OsRead (fd : Z) (null : bool) (n : Z) : oscall (Z * Z * bytes)
| OsMkdir (path : option bytes) (mode : Z) : oscall (Z * Z)
| OsRmdir (path : option bytes) : oscall (Z * Z)
| OsUnlink (path : option bytes) : oscall (Z * Z)
| OsFtruncate (fd size : Z) : oscall (Z * Z)
| OsFchmod (fd mode : Z) : oscall (Z * Z)
| OsFchown (fd owner group : Z) : oscall (Z * Z)
| OsGeteuid : oscall (Z * Z)
| OsGetpid : oscall (Z * Z)
| OsGetenv (name : bytes) : oscall (option bytes)
| OsLseek (fd offset whence : Z) : oscall (Z * Z)
| OsFsync (fd : Z) : oscall (Z * Z)
| OsSleep (seconds : Z) : oscall (Z * Z)
| OsPread (fd : Z) (null : bool) (n offset : Z) : oscall (Z * Z * bytes)
| OsPwrite (fd : Z) (data : option bytes) (n offset : Z) : oscall (Z * Z)
| OsTruncate (path : option bytes) (size : Z) : oscall (Z * Z)
| OsGettimeofday (tv_null tz_null : bool) : oscall (Z * Z * bytes * bytes)
| OsFcntlVoid (fd cmd : Z) : oscall (Z * Z)
| OsFcntlInt (fd cmd arg : Z) : oscall (Z * Z)
| OsFcntlFlock (fd cmd : Z) (fl : option bytes) : oscall (Z * Z * bytes)
| OsUtimes (path times : option bytes) : oscall (Z * Z)
| OsTime : oscall (Z * Z)
| OsUsleep (usec : Z) : oscall Z
(** memory and the TEE device *)
| OsCalloc : oscall bool
| OsMemalign (size : Z) : oscall (option bytes)
| OsShmAlloc (fd size : Z) : oscall (Z * Z * Z)
| OsShmRegister (fd : Z) (addr : ptr) (size : Z) : oscall (Z * Z)
| OsMmap (size fd : Z) : oscall (option bytes)
| OsMunmap (p : ptr) (size : Z) : oscall Z
| OsSupplRecv (fd : Z) (asked : rpc_request) : oscall (option rpc_request)
| OsSupplSend (fd : Z) (answer : rpc_request) : oscall bool
| OsThreadCreate : oscall bool
(** the TEE client library: [TEECI_LoadSecureModule] into a buffer of [size] *)
| OsLoadTA (uuid : Z * Z * Z * bytes) (null : bool) (size : Z) : oscall (Z * Z * bytes).

Class Posix (O : Type) : Type := os_run : ∀ A, oscall A → O → A * O.
Arguments os_run {O _} {A} c o.

(** ** Reading parameters *)

Definition TEE_IOCTL_PARAM_ATTR_TYPE_MASK : Z := 0xff.
Definition TEE_IOCTL_PARAM_ATTR_TYPE_VALUE_INPUT : Z := 1.
Definition TEE_IOCTL_PARAM_ATTR_TYPE_VALUE_OUTPUT : Z := 2.
Definition TEE_IOCTL_PARAM_ATTR_TYPE_VALUE_INOUT : Z := 3.
Definition TEE_IOCTL_PARAM_ATTR_TYPE_MEMREF_INPUT : Z := 5.
Definition TEE_IOCTL_PARAM_ATTR_TYPE_MEMREF_OUTPUT : Z := 6.
Definition TEE_IOCTL_PARAM_ATTR_TYPE_MEMREF_INOUT : Z := 7.
Definition TEE_IOCTL_PARAM_ATTR_META : Z := 0x100.
Definition TEE_GEN_CAP_REG_MEM : Z := 4.
Definition TA_BINARY_FOUND : Z := 0.

Definition MEMREF_SHM_OFFS (p : tee_ioctl_param) : Z := par_a p.
Definition MEMREF_SIZE (p : tee_ioctl_param) : Z := par_b p.
Definition MEMREF_SHM_ID (p : tee_ioctl_param) : Z := par_c p.

Definition param_type (p : tee_ioctl_param) : Z :=
  Z.land (attr p) TEE_IOCTL_PARAM_ATTR_TYPE_MASK.

Definition tee_supp_param_is_memref (p : tee_ioctl_param) : bool :=
  bool_decide (param_type p = TEE_IOCTL_PARAM_ATTR_TYPE_MEMREF_INPUT
               ∨ param_type p = TEE_IOCTL_PARAM_ATTR_TYPE_MEMREF_OUTPUT
               ∨ param_type p = TEE_IOCTL_PARAM_ATTR_TYPE_MEMREF_INOUT).

Definition tee_supp_param_is_value (p : tee_ioctl_param) : bool :=
  bool_decide (param_type p = TEE_IOCTL_PARAM_ATTR_TYPE_VALUE_INPUT
               ∨ param_type p = TEE_IOCTL_PARAM_ATTR_TYPE_VALUE_OUTPUT
               ∨ param_type p = TEE_IOCTL_PARAM_ATTR_TYPE_VALUE_INOUT).

(** ** State *)

Record tee_shm : Type := Tshm {
  shm_id : Z;
  shm_p : ptr;
  shm_size : Z;
  shm_registered : bool;
  shm_fd : Z
}.
#[export] Instance tee_shm_eq_dec : EqDecision tee_shm.
Proof. solve_decision. Defined.

(** The process: the list [shm_head] leads to, its memory, and the world below
    it. *)
Record proc (O : Type) : Type := Proc {
  p_shm : list tee_shm;
  p_mem : mem;
  p_os : O
}.
Arguments Proc {O}. Arguments p_shm {O}. Arguments p_mem {O}. Arguments p_os {O}.

(** A thread handling a request: the parameters it was sent, which its answer
    is written over, and the process. *)
Record handler (O : Type) : Type := Handler {
  h_params : list tee_ioctl_param;
  h_proc : proc O
}.
Arguments Handler {O}. Arguments h_params {O}. Arguments h_proc {O}.

(** What [TEEC_SharedMemory] holds of a parameter. *)
Record TEEC_SharedMemory : Type := SharedMemory {
  buffer : ptr;
  size : Z;
  id : Z;
  flags : Z
}.
Definition SharedMemory_zero : TEEC_SharedMemory := SharedMemory NULL 0 0 0.
Definition TEEC_MEM_INPUT : Z := 1.
Definition TEEC_MEM_OUTPUT : Z := 2.

(** The configuration a thread is started with. *)
Record thread_config : Type := ThreadConfig { arg_fd : Z; gen_caps : Z }.

(** ** The list of shared-memory objects *)

Fixpoint find_tshm (i : Z) (l : list tee_shm) : option tee_shm :=
  match l with
  | [] => None
  | t :: l => if decide (shm_id t = i) then Some t else find_tshm i l
  end.

(** The object found, and the list without it. *)
Fixpoint pop_tshm (i : Z) (l : list tee_shm) : option tee_shm * list tee_shm :=
  match l with
  | [] => (None, [])
  | t :: l =>
      if decide (shm_id t = i) then (Some t, l)
      else let '(r, l') := pop_tshm i l in (r, t :: l')
  end.

Definition push_tshm (t : tee_shm) (l : list tee_shm) : list tee_shm := t :: l.

Section supplicant.
Context {O : Type} `{Posix O}.

(** *** Reaching the parts of the state *)

Definition os {A} (c : oscall A) : C (handler O) A :=
  λ h, let '(r, o) := os_run c (p_os (h_proc h)) in
       Ret (r, Handler (h_params h) (Proc (p_shm (h_proc h)) (p_mem (h_proc h)) o)).

Definition in_mem {A} (m : C mem A) : C (handler O) A :=
  zoom (λ h, p_mem (h_proc h))
       (λ m h, Handler (h_params h) (Proc (p_shm (h_proc h)) m (p_os (h_proc h)))) m.

Definition get_shm : C (handler O) (list tee_shm) := gets (λ h, p_shm (h_proc h)).
Definition set_shm (l : list tee_shm) : C (handler O) unit :=
  modify (λ h, Handler (h_params h) (Proc l (p_mem (h_proc h)) (p_os (h_proc h)))).

Definition param_at (i : nat) : C (handler O) tee_ioctl_param :=
  λ h, lift (h_params h !! i) h.

Definition set_param (i : nat) (f : tee_ioctl_param → tee_ioctl_param) : C (handler O) unit :=
  update (λ h, match h_params h !! i with
               | Some p => Some (Handler (<[i := f p]> (h_params h)) (h_proc h))
               | None => None
               end).

(** A [struct param_value *]: [NULL], or the fields of a parameter. *)
Abbreviation value_ptr := (option nat).

Definition val_a (v : value_ptr) : C (handler O) Z :=
  let! i := lift v in let! p := param_at i in ret (par_a p).
Definition val_b (v : value_ptr) : C (handler O) Z :=
  let! i := lift v in let! p := param_at i in ret (par_b p).
Definition val_c (v : value_ptr) : C (handler O) Z :=
  let! i := lift v in let! p := param_at i in ret (par_c p).
Definition set_b (v : value_ptr) (x : Z) : C (handler O) unit :=
  let! i := lift v in set_param i (λ p, Param (attr p) (par_a p) x (par_c p)).
Definition set_c (v : value_ptr) (x : Z) : C (handler O) unit :=
  let! i := lift v in set_param i (λ p, Param (attr p) (par_a p) (par_b p) x).

(** *** Parameters *)

(** What is stored at [*value], when it returns 0. *)
Definition get_value (num_params idx : nat) : C (handler O) (option value_ptr) :=
  if decide (num_params ≤ idx)%nat then ret None
  else
    let! p := param_at idx in
    ret (if tee_supp_param_is_value p then Some (Some idx) else None).

(** What is stored at [*shm], when it returns 0.  The identifier is cut to an
    [int] on its way to [find_tshm]. *)
Definition get_param (num_params idx : nat) : C (handler O) (option TEEC_SharedMemory) :=
  if decide (num_params ≤ idx)%nat then ret None
  else
    let! p := param_at idx in
    if negb (tee_supp_param_is_memref p) then ret None
    else
      let! l := get_shm in
      match find_tshm (s32 (MEMREF_SHM_ID p)) l with
      | None =>
          ret (if decide (param_type p = TEE_IOCTL_PARAM_ATTR_TYPE_MEMREF_INPUT)
               then None else Some SharedMemory_zero)
      | Some tshm =>
          let sz := MEMREF_SIZE p in
          let offs := MEMREF_SHM_OFFS p in
          if decide (u64 (sz + offs) < sz) then ret None
          else if decide (u64 (sz + offs) > shm_size tshm) then ret None
          else ret (Some (SharedMemory (padd (shm_p tshm) offs) sz (s32 (MEMREF_SHM_ID p))
                            (Z.lor TEEC_MEM_INPUT TEEC_MEM_OUTPUT)))
      end.

Definition tee_supp_param_to_va (idx : nat) : C (handler O) ptr :=
  let! p := param_at idx in
  if negb (tee_supp_param_is_memref p) then ret NULL
  else
    let end_offs := u64 (MEMREF_SIZE p + MEMREF_SHM_OFFS p) in
    if decide (end_offs < MEMREF_SIZE p ∨ end_offs < MEMREF_SHM_OFFS p) then ret NULL
    else
      let! l := get_shm in
      match find_tshm (s32 (MEMREF_SHM_ID p)) l with
      | None => ret NULL
      | Some tshm =>
          if decide (end_offs > shm_size tshm) then ret NULL
          else ret (padd (shm_p tshm) (MEMREF_SHM_OFFS p))
      end.

(** *** Allocating and freeing shared memory *)

Definition alloc_shm (fd size : Z) : C (handler O) (option tee_shm) :=
  let! ok := os OsCalloc in
  if negb ok then ret None
  else
    let! '(sfd, i, dsize) := os (OsShmAlloc fd size) in
    if decide (sfd < 0) then ret None
    else
      let! p := os (OsMmap dsize sfd) in
      match p with
      | None => let! r := os (OsClose sfd) in ret None
      | Some data =>
          let! p := in_mem (alloc Heap data) in
          ret (Some (Tshm i p 0 false sfd))
      end.

Definition register_local_shm (fd size : Z) : C (handler O) (option tee_shm) :=
  let! b := os (OsMemalign size) in
  match b with
  | None => ret None
  | Some data =>
      let! buf := in_mem (alloc Heap data) in
      let! ok := os OsCalloc in
      if negb ok then do! in_mem (free buf) in ret None
      else
        let! '(sfd, i) := os (OsShmRegister fd buf size) in
        if decide (sfd < 0) then do! in_mem (free buf) in ret None
        else ret (Some (Tshm i buf 0 true sfd))
  end.

(** Stop with an error code when a parameter is not what it must be. *)
Definition need {A B} (m : C (handler O) (option A)) (code : B) (k : A → C (handler O) B)
    : C (handler O) B :=
  let! o := m in match o with None => ret code | Some a => k a end.

Definition process_alloc (arg : thread_config) (num_params : nat) : C (handler O) Z :=
  if decide (num_params ≠ 1%nat) then ret TEEC_ERROR_BAD_PARAMETERS
  else need (get_value num_params 0) TEEC_ERROR_BAD_PARAMETERS (λ val,
    let! size := val_b val in
    let! shm := (if decide (Z.land (gen_caps arg) TEE_GEN_CAP_REG_MEM ≠ 0)
                 then register_local_shm (arg_fd arg) size
                 else alloc_shm (arg_fd arg) size) in
    match shm with
    | None => ret TEEC_ERROR_OUT_OF_MEMORY
    | Some shm =>
        let! b := val_b val in
        let shm := Tshm (shm_id shm) (shm_p shm) b (shm_registered shm) (shm_fd shm) in
        do! set_c val (u64 (shm_id shm)) in
        let! l := get_shm in
        do! set_shm (push_tshm shm l) in
        ret TEEC_SUCCESS
    end).

Definition process_free (num_params : nat) : C (handler O) Z :=
  if decide (num_params ≠ 1%nat) then ret TEEC_ERROR_BAD_PARAMETERS
  else need (get_value num_params 0) TEEC_ERROR_BAD_PARAMETERS (λ val,
    let! b := val_b val in
    let id := s32 b in
    let! l := get_shm in
    let '(shm, l') := pop_tshm id l in
    do! set_shm l' in
    match shm with
    | None => ret TEEC_ERROR_BAD_PARAMETERS
    | Some shm =>
        let! r := os (OsClose (shm_fd shm)) in
        if shm_registered shm then
          do! in_mem (free (shm_p shm)) in ret TEEC_SUCCESS
        else
          let! r := os (OsMunmap (shm_p shm) (shm_size shm)) in
          if decide (r ≠ 0) then ret TEEC_ERROR_BAD_PARAMETERS
          else do! in_mem (free (shm_p shm)) in ret TEEC_SUCCESS
    end).

(** *** Loading a trusted application *)

(** The identifier in the sixteen bytes of a value parameter's first fields:
    [timeLow], [timeMid], [timeHiAndVersion] and [clockSeqAndNode]. *)
Definition uuid_from_octets (s : bytes) : Z * Z * Z * bytes :=
  let at_ i := nth i s 0 in
  (u32 (Z.lor (Z.lor (Z.lor (Z.shiftl (at_ 0%nat) 24) (Z.shiftl (at_ 1%nat) 16))
                     (Z.shiftl (at_ 2%nat) 8)) (at_ 3%nat)),
   u16 (Z.lor (Z.shiftl (at_ 4%nat) 8) (at_ 5%nat)),
   u16 (Z.lor (Z.shiftl (at_ 6%nat) 8) (at_ 7%nat)),
   take 8 (drop 8 s)).

(** Writing the bytes a call delivers; a call that delivers none touches no
    memory. *)
Definition deliver (p : ptr) (data : bytes) : C (handler O) unit :=
  match data with [] => ret tt | _ => in_mem (store p data) end.

Definition is_null (p : ptr) : bool := bool_decide (p = NULL).

(** The octets are those of the parameter's fields [a] and [b] in memory. *)
Definition load_ta (num_params : nat) : C (handler O) Z :=
  if decide (num_params ≠ 2%nat) then ret TEEC_ERROR_BAD_PARAMETERS
  else need (get_value num_params 0) TEEC_ERROR_BAD_PARAMETERS (λ val_cmd,
    need (get_param num_params 1) TEEC_ERROR_BAD_PARAMETERS (λ shm_ta,
      let! a := val_a val_cmd in
      let! b := val_b val_cmd in
      let uuid := uuid_from_octets (le_bytes 8 a ++ le_bytes 8 b) in
      let! '(ta_found, sz, data) :=
        os (OsLoadTA uuid (is_null (buffer shm_ta)) (size shm_ta)) in
      do! deliver (buffer shm_ta) data in
      if decide (ta_found ≠ TA_BINARY_FOUND) then ret TEEC_ERROR_ITEM_NOT_FOUND
      else
        do! set_param 1 (λ p, Param (attr p) (par_a p) sz (par_c p)) in
        if decide (buffer shm_ta ≠ NULL ∧ sz > size shm_ta) then ret TEEC_ERROR_SHORT_BUFFER
        else ret TEEC_SUCCESS)).
End supplicant.

(** ** Lemmas *)

Section list_lemmas.
Implicit Types (t : tee_shm) (l : list tee_shm) (i : Z).

Lemma find_tshm_Some i l t : find_tshm i l = Some t → t ∈ l ∧ shm_id t = i.
Proof.
  induction l as [|u l IH]; simpl; [done|]. case_decide.
  - intros [= <-]. split; [by left|done].
  - intros [? ?]%IH. split; [by right|done].
Qed.

Lemma find_tshm_None i l : find_tshm i l = None ↔ ∀ t, t ∈ l → shm_id t ≠ i.
Proof.
  induction l as [|u l IH]; simpl.
  - split; [|done]. intros _ t Ht. by apply elem_of_nil in Ht.
  - case_decide as Hu.
    + split; [done|]. intros Ha. exfalso. by apply (Ha u); [left|].
    + rewrite IH. split.
      * intros Ha t [->|Ht]%elem_of_cons; [done|by apply Ha].
      * intros Ha t Ht. apply Ha. by right.
Qed.

(** Popping gives the object [find_tshm] finds, and the rest in order. *)
Lemma pop_tshm_find i l : (pop_tshm i l).1 = find_tshm i l.
Proof.
  induction l as [|u l IH]; simpl; [done|]. case_decide; [done|].
  by destruct (pop_tshm i l).
Qed.

Lemma pop_tshm_split i l :
  match find_tshm i l with
  | None => (pop_tshm i l).2 = l
  | Some t => ∃ l1 l2, l = l1 ++ t :: l2 ∧ (pop_tshm i l).2 = l1 ++ l2 ∧
                       ∀ u, u ∈ l1 → shm_id u ≠ i
  end.
Proof.
  induction l as [|u l IH]; simpl; [done|]. case_decide as Hu.
  - exists [], l. split_and!; try done. intros v Hv. by apply elem_of_nil in Hv.
  - destruct (pop_tshm i l) as [r l'] eqn:E. simpl in *.
    destruct (find_tshm i l) as [t|]; [|by rewrite IH].
    destruct IH as (l1 & l2 & -> & -> & Hn). exists (u :: l1), l2. split_and!; try done.
    intros v [->|Hv]%elem_of_cons; [done|by apply Hn].
Qed.
End list_lemmas.

(** ** Computations that only read *)
Section reads.
Context {O : Type} `{Posix O}.
Implicit Types (h : handler O).

Definition reads {A} (m : C (handler O) A) : Prop := ∀ h r h', m h = Ret (r, h') → h' = h.

Lemma reads_ret {A} (a : A) : reads (ret a).
Proof. by intros h r h' [= _ <-]. Qed.
Lemma reads_undef {A} : reads (undef : C _ A).
Proof. by intros h r h'. Qed.
Lemma reads_lift {A} (o : option A) : reads (lift o).
Proof. intros h r h'. unfold lift. destruct o; [by intros [= _ <-]|done]. Qed.
Lemma reads_gets {A} (f : _ → A) : reads (gets f).
Proof. by intros h r h' [= _ <-]. Qed.
Lemma reads_bind {A B} (m : C _ A) (k : A → C _ B) :
  reads m → (∀ a, reads (k a)) → reads (bind m k).
Proof.
  intros Hm Hk h r h' E. apply bind_inv in E as (a & h1 & E1 & E2).
  apply Hm in E1 as ->. by eapply Hk.
Qed.
Lemma reads_param_at i : reads (param_at i).
Proof. intros h r h'. apply reads_lift. Qed.
Lemma reads_load p n : reads (in_mem (load p n)).
Proof.
  intros h r h'. unfold in_mem, zoom, load, lift. destruct (peek _ p n); [|done].
  intros [= _ <-]. by destruct h as [? []].
Qed.
Lemma reads_val_a v : reads (val_a v).
Proof. repeat (apply reads_bind; [apply reads_lift || apply reads_param_at|intros]). apply reads_ret. Qed.
Lemma reads_val_b v : reads (val_b v).
Proof. repeat (apply reads_bind; [apply reads_lift || apply reads_param_at|intros]). apply reads_ret. Qed.
Lemma reads_val_c v : reads (val_c v).
Proof. repeat (apply reads_bind; [apply reads_lift || apply reads_param_at|intros]). apply reads_ret. Qed.
End reads.
#[export] Hint Resolve reads_ret reads_undef reads_lift reads_gets reads_param_at reads_load
  reads_val_a reads_val_b reads_val_c : triple.

Ltac reads_step :=
  first
    [ solve [eauto with triple]
    | apply reads_bind; [|intros ?]
    | match goal with
      | |- reads (match ?x with _ => _ end) => destruct x
      | |- reads (if ?x then _ else _) => destruct x
      end ].

Section parameter_lemmas.
Context {O : Type} `{Posix O}.
Implicit Types (h : handler O).

Lemma reads_get_value n i : reads (get_value (O:=O) n i).
Proof. unfold get_value. repeat reads_step. Qed.
Lemma reads_get_param n i : reads (get_param (O:=O) n i).
Proof. unfold get_param, get_shm. repeat reads_step. Qed.
Lemma reads_param_to_va i : reads (tee_supp_param_to_va (O:=O) i).
Proof. unfold tee_supp_param_to_va, get_shm. repeat reads_step. Qed.

Lemma get_value_Some n i h v h' :
  get_value n i h = Ret (Some v, h') → v = Some i ∧ (i < n)%nat.
Proof.
  unfold get_value. case_decide; [done|]. intros E.
  apply bind_inv in E as (p & h1 & _ & E). destruct (tee_supp_param_is_value p); [|done].
  injection E as <- _. split; [done|lia].
Qed.

Lemma get_value_run n i h p :
  h_params h !! i = Some p → (i < n)%nat → tee_supp_param_is_value p = true →
  get_value n i h = Ret (Some (Some i), h).
Proof.
  intros Hp Hi Hv. unfold get_value. rewrite decide_False by lia.
  unfold bind, param_at. rewrite Hp. simpl. by rewrite Hv.
Qed.

Lemma need_run {A B} (m : C (handler O) (option A)) (code : B) k h a h' :
  m h = Ret (Some a, h') → need m code k h = k a h'.
Proof. intros E. unfold need. by rewrite (bind_run _ _ _ _ _ E). Qed.

Lemma need_value_inv {B} n i (code : B) k h r h' :
  need (get_value n i) code k h = Ret (r, h') →
  (r = code ∧ h' = h) ∨ k (Some i) h = Ret (r, h').
Proof.
  intros E. apply bind_inv in E as ([v|] & h1 & E1 & E2).
  - pose proof (reads_get_value _ _ _ _ _ E1) as ->. apply get_value_Some in E1 as [-> _]. by right.
  - pose proof (reads_get_value _ _ _ _ _ E1) as ->. injection E2 as <- <-. by left.
Qed.

Lemma need_param_inv {B} n i (code : B) k h r h' :
  need (get_param n i) code k h = Ret (r, h') →
  (r = code ∧ h' = h) ∨ ∃ shm, get_param n i h = Ret (Some shm, h) ∧ k shm h = Ret (r, h').
Proof.
  intros E. apply bind_inv in E as ([v|] & h1 & E1 & E2).
  - pose proof (reads_get_param _ _ _ _ _ E1) as ->. right. eauto.
  - pose proof (reads_get_param _ _ _ _ _ E1) as ->. injection E2 as <- <-. by left.
Qed.
End parameter_lemmas.
#[export] Hint Resolve reads_get_value reads_get_param reads_param_to_va : triple.

(** ** Properties of buffers *)

Definition param_wf (p : tee_ioctl_param) : Prop :=
  in_unsigned 64 (par_a p) ∧ in_unsigned 64 (par_b p) ∧ in_unsigned 64 (par_c p).

(** The object a parameter refers to holds the whole range it names. *)
Definition memref_in (l : list tee_shm) (p : tee_ioctl_param) (t : tee_shm) : Prop :=
  tee_supp_param_is_memref p = true ∧ find_tshm (s32 (MEMREF_SHM_ID p)) l = Some t ∧
  MEMREF_SHM_OFFS p + MEMREF_SIZE p ≤ shm_size t.
#[export] Instance memref_in_dec l p t : Decision (memref_in l p t).
Proof. unfold memref_in. apply _. Defined.

Section buffers.
Context {O : Type} `{Posix O}.
Implicit Types (h : handler O).

(** The overflow check is exact: for 64-bit fields the wrapped sum is accepted
    only when the true sum is in range. *)
Lemma wrapped_sum_check sz offs lim :
  in_unsigned 64 sz → in_unsigned 64 offs → in_unsigned 64 lim →
  (¬ u64 (sz + offs) < sz ∧ ¬ u64 (sz + offs) > lim) ↔ offs + sz ≤ lim.
Proof.
  unfold in_unsigned, unsigned. intros ? ? ?. destruct (decide (sz + offs < 2 ^ 64)).
  - rewrite Z.mod_small by lia. lia.
  - assert ((sz + offs) `mod` 2 ^ 64 = sz + offs - 2 ^ 64) as ->; [|lia].
    symmetry. apply Zmod_unique with 1; lia.
Qed.

Lemma get_param_Some n i h p t :
  h_params h !! i = Some p → param_wf p → (i < n)%nat → in_unsigned 64 (shm_size t) →
  find_tshm (s32 (MEMREF_SHM_ID p)) (p_shm (h_proc h)) = Some t →
  get_param n i h =
    Ret (if decide (memref_in (p_shm (h_proc h)) p t)
         then Some (SharedMemory (padd (shm_p t) (MEMREF_SHM_OFFS p)) (MEMREF_SIZE p)
                      (s32 (MEMREF_SHM_ID p)) (Z.lor TEEC_MEM_INPUT TEEC_MEM_OUTPUT))
         else None, h).
Proof.
  intros Hp (Ha & Hb & _) Hi Ht Hf. unfold get_param. rewrite decide_False by lia.
  unfold bind, param_at. rewrite Hp. simpl.
  destruct (tee_supp_param_is_memref p) eqn:Em; simpl.
  2:{ rewrite decide_False; [done|]. intros [? _]. congruence. }
  unfold get_shm, gets. rewrite Hf.
  pose proof (wrapped_sum_check (MEMREF_SIZE p) (MEMREF_SHM_OFFS p) (shm_size t) Hb Ha Ht) as Hc.
  unfold memref_in in *. repeat case_decide; try done; exfalso; tauto.
Qed.

Lemma param_to_va_Some i h p t :
  h_params h !! i = Some p → param_wf p → in_unsigned 64 (shm_size t) →
  find_tshm (s32 (MEMREF_SHM_ID p)) (p_shm (h_proc h)) = Some t →
  tee_supp_param_to_va i h =
    Ret (if decide (memref_in (p_shm (h_proc h)) p t)
         then padd (shm_p t) (MEMREF_SHM_OFFS p) else NULL, h).
Proof.
  intros Hp (Ha & Hb & _) Ht Hf. unfold tee_supp_param_to_va.
  unfold bind, param_at. rewrite Hp. simpl.
  destruct (tee_supp_param_is_memref p) eqn:Em; simpl.
  2:{ rewrite decide_False; [done|]. intros [? _]. congruence. }
  unfold get_shm, gets.
  pose proof (wrapped_sum_check (MEMREF_SIZE p) (MEMREF_SHM_OFFS p) (shm_size t) Hb Ha Ht) as Hc.
  pose proof (wrapped_sum_check (MEMREF_SHM_OFFS p) (MEMREF_SIZE p) (shm_size t) Ha Hb Ht) as Hc'.
  rewrite (Z.add_comm (MEMREF_SHM_OFFS p) (MEMREF_SIZE p)) in Hc'.
  case_decide; simpl; [|rewrite Hf; simpl]; unfold memref_in; repeat case_decide; try done;
    exfalso; intuition (unfold in_unsigned in *; lia).
Qed.
End buffers.

(** ** Allocation and release *)
Section allocation.
Context {O : Type} `{Posix O}.
Implicit Types (h : handler O).

(** Everything but the world below the process. *)
Definition local_state h : list tee_ioctl_param * list tee_shm * mem :=
  (h_params h, p_shm (h_proc h), p_mem (h_proc h)).

Lemma os_inv {A} (c : oscall A) h r h' :
  os c h = Ret (r, h') → local_state h' = local_state h.
Proof. unfold os. destruct (os_run c _). by intros [= _ <-]. Qed.

Lemma os_total {A} (c : oscall A) h :
  ∃ r o, os c h = Ret (r, Handler (h_params h) (Proc (p_shm (h_proc h)) (p_mem (h_proc h)) o)).
Proof. unfold os. destruct (os_run c _) as [r o]. eauto. Qed.

Lemma in_mem_alloc_inv k d h p h' :
  in_mem (alloc k d) h = Ret (p, h') →
  p = Ptr (m_next (p_mem (h_proc h))) 0 ∧ h_params h' = h_params h ∧
  p_shm (h_proc h') = p_shm (h_proc h) ∧
  p_mem (h_proc h') = Mem (m_next (p_mem (h_proc h)) + 1)
    (<[m_next (p_mem (h_proc h)) := Block k d]> (m_blocks (p_mem (h_proc h)))).
Proof. by intros [= <- <-]. Qed.

Lemma in_mem_free_inv p h h' :
  in_mem (free p) h = Ret (tt, h') →
  h_params h' = h_params h ∧ p_shm (h_proc h') = p_shm (h_proc h) ∧
  release p (p_mem (h_proc h)) = Some (p_mem (h_proc h')).
Proof.
  unfold in_mem, zoom, free, update. destruct (release p _); [|done]. by intros [= <-].
Qed.

Lemma in_mem_free_run p h m :
  release p (p_mem (h_proc h)) = Some m →
  in_mem (free p) h =
    Ret (tt, Handler (h_params h) (Proc (p_shm (h_proc h)) m (p_os (h_proc h)))).
Proof. intros E. unfold in_mem, zoom, free, update. by rewrite E. Qed.

(** A fresh block, released, leaves the blocks there were. *)
Lemma release_fresh m d :
  mem_wf m →
  release (Ptr (m_next m) 0) (Mem (m_next m + 1) (<[m_next m := Block Heap d]> (m_blocks m)))
  = Some (Mem (m_next m + 1) (m_blocks m)).
Proof.
  intros Hwf. simpl. rewrite lookup_insert_eq. simpl.
  by rewrite delete_insert_id by (by apply mem_wf_fresh).
Qed.

(** What both ways of making an object do to the process. *)
Definition made (h h' : handler O) (t : option tee_shm) : Prop :=
  h_params h' = h_params h ∧ p_shm (h_proc h') = p_shm (h_proc h) ∧
  match t with
  | None => m_blocks (p_mem (h_proc h')) = m_blocks (p_mem (h_proc h))
  | Some t =>
      shm_p t = Ptr (m_next (p_mem (h_proc h))) 0 ∧
      ∃ d, p_mem (h_proc h') = Mem (m_next (p_mem (h_proc h)) + 1)
             (<[m_next (p_mem (h_proc h)) := Block Heap d]> (m_blocks (p_mem (h_proc h))))
  end.

Lemma alloc_shm_made f n h t h' : alloc_shm f n h = Ret (t, h') → made h h' t.
Proof.
  intros E. apply bind_inv in E as (ok & h1 & E1 & E). apply os_inv in E1 as [= Hp1 Hs1 Hm1].
  unfold made. rewrite <- Hp1, <- Hs1, <- Hm1. clear Hp1 Hs1 Hm1.
  destruct ok; simpl in E; [|by injection E as <- <-].
  apply bind_inv in E as ([[sfd i] dsize] & h2 & E2 & E). apply os_inv in E2 as [= Hp2 Hs2 Hm2].
  rewrite <- Hp2, <- Hs2, <- Hm2. clear Hp2 Hs2 Hm2. case_decide; [by injection E as <- <-|].
  apply bind_inv in E as ([d|] & h3 & E3 & E); apply os_inv in E3 as [= Hp3 Hs3 Hm3];
    rewrite <- Hp3, <- Hs3, <- Hm3; clear Hp3 Hs3 Hm3.
  - apply bind_inv in E as (p & h4 & E4 & E). injection E as <- <-.
    apply in_mem_alloc_inv in E4 as (-> & -> & -> & ->). simpl. eauto.
  - apply bind_inv in E as (r & h4 & E4 & E). apply os_inv in E4 as [= <- <- <-].
    by injection E as <- <-.
Qed.

Lemma register_local_shm_made f n h t h' :
  mem_wf (p_mem (h_proc h)) → register_local_shm f n h = Ret (t, h') → made h h' t.
Proof.
  intros Hwf E. apply bind_inv in E as (b & h1 & E1 & E). apply os_inv in E1 as [= Hp1 Hs1 Hm1].
  unfold made. rewrite <- Hp1, <- Hs1, <- Hm1. rewrite <- Hm1 in Hwf. clear Hp1 Hs1 Hm1.
  destruct b as [d|]; [|by injection E as <- <-].
  apply bind_inv in E as (p & h2 & E2 & E). apply in_mem_alloc_inv in E2 as (-> & <- & <- & Hm2).
  apply bind_inv in E as (ok & h3 & E3 & E). apply os_inv in E3 as [= <- <- Hm3].
  rewrite <- Hm3 in Hm2. clear Hm3. destruct ok; simpl in E.
  2:{ apply bind_inv in E as ([] & h4 & E4 & E).
      apply in_mem_free_inv in E4 as (<- & <- & Er). injection E as <- <-.
      rewrite Hm2, release_fresh in Er by done. by injection Er as <-. }
  apply bind_inv in E as ([sfd i] & h4 & E4 & E). apply os_inv in E4 as [= <- <- Hm4].
  rewrite <- Hm4 in Hm2. clear Hm4. case_decide.
  - apply bind_inv in E as ([] & h5 & E5 & E).
    apply in_mem_free_inv in E5 as (<- & <- & Er). injection E as <- <-.
    rewrite Hm2, release_fresh in Er by done. by injection Er as <-.
  - injection E as <- <-. simpl. eauto.
Qed.

Lemma set_param_inv i f h h' :
  set_param i f h = Ret (tt, h') →
  ∃ p, h_params h !! i = Some p ∧ h_params h' = <[i := f p]> (h_params h) ∧
       h_proc h' = h_proc h.
Proof.
  unfold set_param, update. destruct (h_params h !! i) as [p|]; [|done].
  intros [= <-]. exists p. by split_and!.
Qed.

Lemma val_b_inv i h b h' :
  val_b (Some i) h = Ret (b, h') → ∃ p, h_params h !! i = Some p ∧ b = par_b p ∧ h' = h.
Proof.
  unfold val_b, bind, lift, param_at. destruct (h_params h !! i) as [p|]; [|done].
  intros [= <- <-]. eauto.
Qed.

(** [process_alloc], seen from outside. *)
Lemma process_alloc_inv cfg n h r h' :
  mem_wf (p_mem (h_proc h)) → process_alloc cfg n h = Ret (r, h') →
  (r ≠ TEEC_SUCCESS ∧ p_shm (h_proc h') = p_shm (h_proc h) ∧
   m_blocks (p_mem (h_proc h')) = m_blocks (p_mem (h_proc h)))
  ∨ (r = TEEC_SUCCESS ∧ ∃ p t d,
      h_params h !! 0%nat = Some p ∧
      h_params h' = <[0%nat := Param (attr p) (par_a p) (par_b p) (u64 (shm_id t))]> (h_params h) ∧
      p_shm (h_proc h') = t :: p_shm (h_proc h) ∧ shm_size t = par_b p ∧
      shm_p t = Ptr (m_next (p_mem (h_proc h))) 0 ∧
      p_mem (h_proc h') = Mem (m_next (p_mem (h_proc h)) + 1)
             (<[m_next (p_mem (h_proc h)) := Block Heap d]> (m_blocks (p_mem (h_proc h))))).
Proof.
  intros Hwf E. unfold process_alloc in E. case_decide; [by injection E as <- <-; left|].
  apply need_value_inv in E as [[-> ->]|E]; [by left|].
  apply bind_inv in E as (sz & h1 & E1 & E). apply val_b_inv in E1 as (p & Hp0 & -> & ->).
  apply bind_inv in E as (t & h2 & E2 & E).
  assert (made h h2 t) as (Hpar & Hshm & Hmem).
  { case_decide; [by eapply register_local_shm_made|by eapply alloc_shm_made]. }
  destruct t as [t|]; [|injection E as <- <-; left; by rewrite Hshm, Hmem].
  destruct Hmem as (Hptr & d & Hmem).
  apply bind_inv in E as (b & h3 & E3 & E). apply val_b_inv in E3 as (p' & Hp' & -> & ->).
  rewrite Hpar, Hp0 in Hp'. injection Hp' as <-.
  apply bind_inv in E as ([] & h4 & E4 & E).
  apply bind_inv in E4 as (i & h5 & Ei & E4). injection Ei as <- <-.
  apply set_param_inv in E4 as (p' & Hp' & Hpar4 & Hproc4).
  rewrite Hpar, Hp0 in Hp'. injection Hp' as <-.
  apply bind_inv in E as (l & h6 & E6 & E). injection E6 as <- <-.
  apply bind_inv in E as ([] & h7 & E7 & E). injection E7 as <-. injection E as <- <-.
  right. split; [done|]. exists p, (Tshm (shm_id t) (shm_p t) (par_b p) (shm_registered t) (shm_fd t)), d.
  simpl. rewrite Hproc4, Hpar4, Hpar, Hshm. by split_and!.
Qed.

(** A failed allocation costs nothing.  Whatever fails in [process_alloc]
    (the parameters, the descriptor, [calloc], [mmap], the ioctl), the list of
    objects and the blocks of memory are those there were. *)
Theorem process_alloc_failed cfg n h r h' :
  mem_wf (p_mem (h_proc h)) → process_alloc cfg n h = Ret (r, h') → r ≠ TEEC_SUCCESS →
  p_shm (h_proc h') = p_shm (h_proc h) ∧
  m_blocks (p_mem (h_proc h')) = m_blocks (p_mem (h_proc h)).
Proof. intros Hwf E Hr. destruct (process_alloc_inv _ _ _ _ _ Hwf E) as [(_ & ? & ?)|[? _]]; done. Qed.

(** C21: allocating and freeing are inverse.  A successful [process_alloc] puts
    one object of the size asked for, with a fresh block, at the head of the
    list and answers its identifier; a [process_free] of that identifier, in any
    later world, takes exactly that object off the list and gives the block
    back, unless unmapping it fails, when the block stays. *)
Theorem process_alloc_free cfg n h h1 :
  mem_wf (p_mem (h_proc h)) → process_alloc cfg n h = Ret (TEEC_SUCCESS, h1) →
  ∃ p t, h_params h1 !! 0%nat = Some p ∧ par_c p = u64 (shm_id t) ∧
    p_shm (h_proc h1) = t :: p_shm (h_proc h) ∧ shm_size t = par_b p ∧
    (in_signed 32 (shm_id t) → ∀ o q ps,
      tee_supp_param_is_value q = true → par_b q = u64 (shm_id t) →
      ∃ r h2,
        process_free 1 (Handler (q :: ps) (Proc (p_shm (h_proc h1)) (p_mem (h_proc h1)) o))
          = Ret (r, h2) ∧
        p_shm (h_proc h2) = p_shm (h_proc h) ∧
        (r = TEEC_SUCCESS ∧ m_blocks (p_mem (h_proc h2)) = m_blocks (p_mem (h_proc h))
         ∨ r = TEEC_ERROR_BAD_PARAMETERS ∧ shm_registered t = false ∧
           p_mem (h_proc h2) = p_mem (h_proc h1))).
Proof.
  intros Hwf E. destruct (process_alloc_inv _ _ _ _ _ Hwf E) as [[? _]|(_ & p & t & d & Hp & Hpar & Hshm & Hsz & Hptr & Hmem)]; [done|].
  exists (Param (attr p) (par_a p) (par_b p) (u64 (shm_id t))), t.
  split_and!; try done.
  { rewrite Hpar. apply list_lookup_insert_eq. by eapply lookup_lt_Some. }
  intros Hid o q ps Hq Hb.
  pose proof (release_fresh (p_mem (h_proc h)) d Hwf) as Hrel. rewrite <- Hmem, <- Hptr in Hrel.
  rewrite Hshm. generalize dependent (p_mem (h_proc h1)). intros m1 Hmem Hrel.
  unfold process_free. simpl.
  erewrite need_run by (apply (get_value_run 1 0 _ q); [done|lia|done]).
  unfold val_b at 1. cbn [bind lift param_at h_params lookup list_lookup ret].
  unfold bind at 1. cbn. rewrite Hb, signed_unsigned_id by (done || lia).
  rewrite decide_True by done.
  erewrite bind_run by reflexivity.
  match goal with |- context [bind (os ?c) _ ?h] => destruct (os_total c h) as (rc & o1 & E1) end.
  erewrite bind_run by (apply E1). clear E1. simpl.
  destruct (shm_registered t) eqn:Hreg.
  - erewrite bind_run by (by apply in_mem_free_run).
    eexists _, _. split; [done|]. split; [done|]. by left.
  - match goal with |- context [bind (os ?c) _ ?h] => destruct (os_total c h) as (rm & o2 & E2) end.
    erewrite bind_run by (apply E2). clear E2. case_decide.
    + eexists _, _. split; [done|]. split; [done|]. by right.
    + erewrite bind_run by (by apply in_mem_free_run).
      eexists _, _. split; [done|]. split; [done|]. by left.
Qed.
End allocation.

(** C38: a parameter resolves exactly when the object it names holds its whole
    range.  For 64-bit fields, whose sum may wrap, [get_param] accepts and
    [tee_supp_param_to_va] gives an address precisely when offset plus size stay
    within the object, and then both give the same address. *)
Theorem buffers_in_bounds {O} `{Posix O} (n i : nat) (h : handler O) p t :
  h_params h !! i = Some p → param_wf p → (i < n)%nat → in_unsigned 64 (shm_size t) →
  find_tshm (s32 (MEMREF_SHM_ID p)) (p_shm (h_proc h)) = Some t →
  if decide (memref_in (p_shm (h_proc h)) p t)
  then ∃ shm, get_param n i h = Ret (Some shm, h) ∧
         tee_supp_param_to_va i h = Ret (buffer shm, h) ∧
         buffer shm = padd (shm_p t) (MEMREF_SHM_OFFS p) ∧ size shm = MEMREF_SIZE p
  else get_param n i h = Ret (None, h) ∧ tee_supp_param_to_va i h = Ret (NULL, h).
Proof.
  intros Hp Hw Hi Ht Hf. rewrite (get_param_Some n i h p t), (param_to_va_Some i h p t) by done.
  case_decide; eauto.
Qed.
