(* ===== verification/SuppVfs.v ===== *)
(** * The supplicant: the VFS requests

Models the handlers [vfs_*] of optee_client/tee-supplicant/tee_supplicant.c and
the switch that chooses among them, [tee_supp_vfs_process].  A handler checks
its parameters, makes one system call (two for [fstat]) and stores the result
and [errno] over the second and third fields of the first parameter.

The theorems bound what a request may change, whoever sent it. *)
From S2P Require Import Prelude CMem Protocol SuppShm.
#[local] Open Scope Z_scope.
#[local] Open Scope c_scope.
Import Supplicant.

Section handlers.
Context {O : Type} `{Posix O}.

(** ** What a system call reads through a pointer

A null pointer makes the call fail with [EFAULT]; a pointer to fewer bytes than
the call reads is undefined behaviour. *)
Definition peek_str (m : mem) (p : ptr) : option bytes :=
  match p with
  | NULL => None
  | Ptr b o =>
      match m_blocks m !! b with
      | None => None
      | Some (Block _ d) => if decide (0 ≤ o) then cstring (drop (Z.to_nat o) d) else None
      end
  end.

Definition arg_str (p : ptr) : C (handler O) (option bytes) :=
  match p with
  | NULL => ret None
  | _ => let! m := gets (λ h, p_mem (h_proc h)) in
         let! s := lift (peek_str m p) in
         ret (Some s)
  end.

Definition arg_bytes (p : ptr) (n : Z) : C (handler O) (option bytes) :=
  match p with
  | NULL => ret None
  | _ => let! bs := in_mem (load p n) in ret (Some bs)
  end.

Abbreviation BAD := TEEC_ERROR_BAD_PARAMETERS.

(** [num_params != n || ...]: the checks every handler starts with. *)
Definition expect {A} (num_params n : nat) (code : A) (k : C (handler O) A) : C (handler O) A :=
  if decide (num_params ≠ n) then ret code else k.

(** [val0->b = r; val0->c = errno] *)
Definition answer0 (val0 : option nat) (r e : Z) : C (handler O) Z :=
  do! set_b val0 (u64 r) in
  do! set_c val0 (u64 e) in
  ret TEEC_SUCCESS.

(** ** The handlers *)

Definition vfs_open (num_params : nat) : C (handler O) Z :=
  expect num_params 3 BAD (
  need (get_value num_params 0) BAD (λ val0,
  need (get_value num_params 2) BAD (λ val2,
    let! p := tee_supp_param_to_va 1 in
    let! path := arg_str p in
    let! a := val_a val2 in
    let! b := val_b val2 in
    let! '(fd, errno) := os (OsOpen path (s32 a) (s32 b)) in
    answer0 val0 fd errno))).

Definition vfs_close (num_params : nat) : C (handler O) Z :=
  expect num_params 2 BAD (
  need (get_value num_params 0) BAD (λ val0,
  need (get_value num_params 1) BAD (λ val1,
    let! a := val_a val1 in
    let! '(r, errno) := os (OsClose (s32 a)) in
    answer0 val0 r errno))).

Definition vfs_access (num_params : nat) : C (handler O) Z :=
  expect num_params 3 BAD (
  need (get_value num_params 0) BAD (λ val0,
  need (get_value num_params 1) BAD (λ val1,
    let! p := tee_supp_param_to_va 2 in
    let! name := arg_str p in
    let! a := val_a val1 in
    let! '(r, errno) := os (OsAccess name (s32 a)) in
    answer0 val0 r errno))).

(** As many bytes as the request says are read, whatever the object holds. *)
Definition vfs_write (num_params : nat) : C (handler O) Z :=
  expect num_params 3 BAD (
  need (get_value num_params 0) BAD (λ val0,
  need (get_value num_params 1) BAD (λ val1,
    let! p := tee_supp_param_to_va 2 in
    let! a := val_a val1 in
    let! n := val_b val1 in
    let! data := arg_bytes p n in
    let! '(r, errno) := os (OsWrite (s32 a) data n) in
    answer0 val0 r errno))).

(** Only [errno] is answered. *)
Definition vfs_getcwd (num_params : nat) : C (handler O) Z :=
  expect num_params 3 BAD (
  need (get_value num_params 2) BAD (λ val2,
  need (get_param num_params 1) BAD (λ shm_buf,
  need (get_value num_params 0) BAD (λ val0,
    let! size := val_a val2 in
    let! '(errno, data) := os (OsGetcwd (is_null (buffer shm_buf)) size) in
    do! deliver (buffer shm_buf) data in
    do! set_c val0 (u64 errno) in
    ret TEEC_SUCCESS)))).

Definition vfs_stat (num_params : nat) : C (handler O) Z :=
  expect num_params 3 BAD (
  need (get_value num_params 0) BAD (λ val,
  need (get_param num_params 2) BAD (λ shm_buf,
    let! p := tee_supp_param_to_va 1 in
    let! file_name := arg_str p in
    let! '(r, errno, data) := os (OsStat file_name (is_null (buffer shm_buf))) in
    do! deliver (buffer shm_buf) data in
    answer0 val r errno))).

(** The second call overwrites the first one's result, and the size of the file
    takes the place of [errno]. *)
Definition vfs_fstat (num_params : nat) : C (handler O) Z :=
  expect num_params 3 BAD (
  need (get_value num_params 0) BAD (λ val0,
  need (get_value num_params 1) BAD (λ val1,
  need (get_param num_params 2) BAD (λ shm_buf,
    let! a := val_a val1 in
    let fd := s32 a in
    let! '(r, errno, data) := os (OsFstat fd (is_null (buffer shm_buf))) in
    do! deliver (buffer shm_buf) data in
    do! set_b val0 (u64 r) in
    let! '(r, errno, st_size) := os (OsFstatSize fd) in
    do! set_b val0 (u64 r) in
    do! set_c val0 (u64 st_size) in
    ret TEEC_SUCCESS)))).

Definition vfs_mkdir (num_params : nat) : C (handler O) Z :=
  expect num_params 3 BAD (
  need (get_value num_params 0) BAD (λ val0,
  need (get_value num_params 2) BAD (λ val2,
    let! p := tee_supp_param_to_va 1 in
    let! path := arg_str p in
    let! a := val_a val2 in
    let! '(r, errno) := os (OsMkdir path (u32 (s32 a))) in
    answer0 val0 r errno))).

Definition vfs_rmdir (num_params : nat) : C (handler O) Z :=
  expect num_params 2 BAD (
  need (get_value num_params 0) BAD (λ val,
    let! p := tee_supp_param_to_va 1 in
    let! path := arg_str p in
    let! '(r, errno) := os (OsRmdir path) in
    answer0 val r errno)).

Definition vfs_unlink (num_params : nat) : C (handler O) Z :=
  expect num_params 2 BAD (
  need (get_value num_params 0) BAD (λ val,
    let! p := tee_supp_param_to_va 1 in
    let! path := arg_str p in
    let! '(r, errno) := os (OsUnlink path) in
    answer0 val r errno)).

Definition vfs_ftruncate (num_params : nat) : C (handler O) Z :=
  expect num_params 2 BAD (
  need (get_value num_params 0) BAD (λ val0,
  need (get_value num_params 1) BAD (λ val1,
    let! a := val_a val1 in
    let! b := val_b val1 in
    let! '(r, errno) := os (OsFtruncate (s32 a) (s64 b)) in
    answer0 val0 r errno))).

(** As many bytes as the request says may be delivered, whatever the object
    holds. *)
Definition vfs_read (num_params : nat) : C (handler O) Z :=
  expect num_params 3 BAD (
  need (get_param num_params 1) BAD (λ shm_buf,
  need (get_value num_params 0) BAD (λ val0,
  need (get_value num_params 2) BAD (λ val2,
    let! a := val_a val2 in
    let! nbytes := val_b val2 in
    let! '(r, errno, data) := os (OsRead (s32 a) (is_null (buffer shm_buf)) nbytes) in
    do! deliver (buffer shm_buf) data in
    answer0 val0 r errno)))).

Definition vfs_fchmod (num_params : nat) : C (handler O) Z :=
  expect num_params 2 BAD (
  need (get_value num_params 0) BAD (λ val0,
  need (get_value num_params 1) BAD (λ val1,
    let! a := val_a val1 in
    let! b := val_b val1 in
    let! '(r, errno) := os (OsFchmod (s32 a) (u32 b)) in
    answer0 val0 r errno))).

Definition vfs_fchown (num_params : nat) : C (handler O) Z :=
  expect num_params 2 BAD (
  need (get_value num_params 0) BAD (λ val0,
  need (get_value num_params 1) BAD (λ val1,
    let! a := val_a val1 in
    let! b := val_b val1 in
    let! c := val_c val1 in
    let! '(r, errno) := os (OsFchown (s32 a) (u32 b) (u32 c)) in
    answer0 val0 r errno))).

Definition vfs_geteuid (num_params : nat) : C (handler O) Z :=
  expect num_params 1 BAD (
  need (get_value num_params 0) BAD (λ val,
    let! '(r, errno) := os OsGeteuid in
    answer0 val r errno)).

Definition vfs_getpid (num_params : nat) : C (handler O) Z :=
  expect num_params 1 BAD (
  need (get_value num_params 0) BAD (λ val,
    let! '(r, errno) := os OsGetpid in
    answer0 val r errno)).

(** [getenv] of a null pointer, and [strlen] of a variable that is not set, are
    undefined behaviour. *)
Definition vfs_getenv (num_params : nat) : C (handler O) Z :=
  expect num_params 3 BAD (
  need (get_value num_params 0) BAD (λ val,
  need (get_param num_params 2) BAD (λ shm_buf,
    let! p := tee_supp_param_to_va 1 in
    let! name := arg_str p in
    let! name := lift name in
    let! r := os (OsGetenv name) in
    let! s := lift r in
    let len := s32 (u64 (Z.of_nat (length s) + 1)) in
    do! set_b val (u64 len) in
    if is_null (buffer shm_buf) then ret TEEC_ERROR_SHORT_BUFFER
    else
      do! in_mem (store (buffer shm_buf) (take (Z.to_nat (u64 len)) (s ++ [0]))) in
      ret TEEC_SUCCESS))).

Definition vfs_lseek (num_params : nat) : C (handler O) Z :=
  expect num_params 2 BAD (
  need (get_value num_params 0) BAD (λ val0,
  need (get_value num_params 1) BAD (λ val1,
    let! a := val_a val1 in
    let! b := val_b val1 in
    let! c := val_c val1 in
    let! '(r, errno) := os (OsLseek (s32 a) (s64 b) (s32 c)) in
    answer0 val0 r errno))).

Definition vfs_fsync (num_params : nat) : C (handler O) Z :=
  expect num_params 2 BAD (
  need (get_value num_params 0) BAD (λ val0,
  need (get_value num_params 1) BAD (λ val1,
    let! a := val_a val1 in
    let! '(r, errno) := os (OsFsync (s32 a)) in
    answer0 val0 r errno))).

Definition vfs_sleep (num_params : nat) : C (handler O) Z :=
  expect num_params 2 BAD (
  need (get_value num_params 0) BAD (λ val0,
  need (get_value num_params 1) BAD (λ val1,
    let! a := val_a val1 in
    let! '(r, errno) := os (OsSleep (u32 (s32 a))) in
    answer0 val0 r errno))).

Definition vfs_pread (num_params : nat) : C (handler O) Z :=
  expect num_params 3 BAD (
  need (get_param num_params 1) BAD (λ shm_buf,
  need (get_value num_params 0) BAD (λ val0,
  need (get_value num_params 2) BAD (λ val2,
    let! a := val_a val2 in
    let! nbytes := val_b val2 in
    let! offset := val_c val2 in
    let! '(r, errno, data) :=
      os (OsPread (s32 a) (is_null (buffer shm_buf)) nbytes (s64 offset)) in
    do! deliver (buffer shm_buf) data in
    answer0 val0 r errno)))).

(** [val1] is never set: the one call to [get_value] stores into [val0]. *)
Definition vfs_pwrite (num_params : nat) : C (handler O) Z :=
  expect num_params 3 BAD (
  let val1 : option nat := None in
  need (get_value num_params 1) BAD (λ val0,
    let! p := tee_supp_param_to_va 2 in
    let! a := val_a val1 in
    let! n := val_b val1 in
    let! offset := val_c val1 in
    let! data := arg_bytes p n in
    let! '(r, errno) := os (OsPwrite (s32 a) data n (s64 offset)) in
    answer0 val0 r errno)).

Definition vfs_truncate (num_params : nat) : C (handler O) Z :=
  expect num_params 3 BAD (
  need (get_value num_params 0) BAD (λ val0,
  need (get_value num_params 2) BAD (λ val2,
    let! size := val_a val2 in
    let! p := tee_supp_param_to_va 1 in
    let! path := arg_str p in
    let! '(r, errno) := os (OsTruncate path (s64 size)) in
    answer0 val0 r errno))).

Definition vfs_getdayoftime (num_params : nat) : C (handler O) Z :=
  expect num_params 3 BAD (
  need (get_value num_params 0) BAD (λ val0,
  need (get_param num_params 1) BAD (λ tv_buf,
  need (get_param num_params 2) BAD (λ tz_buf,
    let! '(r, errno, tv, tz) :=
      os (OsGettimeofday (is_null (buffer tv_buf)) (is_null (buffer tz_buf))) in
    do! deliver (buffer tv_buf) tv in
    do! deliver (buffer tz_buf) tz in
    answer0 val0 r errno)))).

Definition vfs_fcntl_void (num_params : nat) : C (handler O) Z :=
  expect num_params 2 BAD (
  need (get_value num_params 0) BAD (λ val0,
  need (get_value num_params 1) BAD (λ val1,
    let! a := val_a val1 in
    let! b := val_b val1 in
    let! '(r, errno) := os (OsFcntlVoid (s32 a) (s32 b)) in
    answer0 val0 r errno))).

Definition vfs_fcntl_int (num_params : nat) : C (handler O) Z :=
  expect num_params 2 BAD (
  need (get_value num_params 0) BAD (λ val0,
  need (get_value num_params 1) BAD (λ val1,
    let! a := val_a val1 in
    let! b := val_b val1 in
    let! c := val_c val1 in
    let! '(r, errno) := os (OsFcntlInt (s32 a) (s32 b) (s32 c)) in
    answer0 val0 r errno))).

(** The [struct flock] of the system is read, and may be written. *)
Definition vfs_fcntl_flock (num_params : nat) : C (handler O) Z :=
  expect num_params 3 TEEC_ERROR_BAD_FORMAT (
  need (get_value num_params 0) TEEC_ERROR_BAD_FORMAT (λ val0,
  need (get_value num_params 1) TEEC_ERROR_BAD_FORMAT (λ val1,
  need (get_param num_params 2) TEEC_ERROR_BAD_FORMAT (λ shm_buf,
    let! a := val_a val1 in
    let! b := val_b val1 in
    let! fl := arg_bytes (buffer shm_buf) sizeof_my_flock in
    let! '(r, errno, data) := os (OsFcntlFlock (s32 a) (s32 b) fl) in
    do! deliver (buffer shm_buf) data in
    answer0 val0 r errno)))).

(** [utimes] reads two [struct timeval]s. *)
Definition vfs_utimes (num_params : nat) : C (handler O) Z :=
  expect num_params 3 BAD (
  need (get_value num_params 0) BAD (λ val0,
    let! p := tee_supp_param_to_va 1 in
    let! filename := arg_str p in
    let! q := tee_supp_param_to_va 2 in
    let! times := arg_bytes q (2 * sizeof_timeval) in
    let! '(r, errno) := os (OsUtimes filename times) in
    answer0 val0 r errno)).

Definition vfs_time (num_params : nat) : C (handler O) Z :=
  expect num_params 1 BAD (
  need (get_value num_params 0) BAD (λ val0,
    let! '(r, errno) := os OsTime in
    answer0 val0 r errno)).

Definition vfs_usleep (num_params : nat) : C (handler O) Z :=
  expect num_params 2 BAD (
  need (get_value num_params 0) BAD (λ val0,
  need (get_value num_params 1) BAD (λ val1,
    let! usec := val_a val1 in
    let! errno := os (OsUsleep (u32 usec)) in
    do! set_c val0 (u64 errno) in
    ret TEEC_SUCCESS))).

Definition vfs_filesize (num_params : nat) : C (handler O) Z :=
  expect num_params 2 BAD (
  need (get_value num_params 0) BAD (λ val0,
  need (get_value num_params 1) BAD (λ val1,
    let! a := val_a val1 in
    let! '(r, errno, st_size) := os (OsFstatSize (s32 a)) in
    do! set_c val0 (u64 errno) in
    do! set_b val0 (if decide (r ≠ -1) then u64 st_size else u64 (-1)) in
    ret TEEC_SUCCESS))).

(** ** The switch

[params->a], read before any check: the caller has passed the address of the
array, which holds at least one parameter. *)
Definition tee_supp_vfs_process (num_params : nat) : C (handler O) Z :=
  let! p := param_at 0 in
  let op := par_a p in
  if decide (op = OPTEE_VFS_OPEN) then vfs_open num_params else
  if decide (op = OPTEE_VFS_CLOSE) then vfs_close num_params else
  if decide (op = OPTEE_VFS_ACCESS) then vfs_access num_params else
  if decide (op = OPTEE_VFS_GETCWD) then vfs_getcwd num_params else
  if decide (op = OPTEE_VFS_STAT) then vfs_stat num_params else
  if decide (op = OPTEE_VFS_WRITE) then vfs_write num_params else
  if decide (op = OPTEE_VFS_MKDIR) then vfs_mkdir num_params else
  if decide (op = OPTEE_VFS_RMDIR) then vfs_rmdir num_params else
  if decide (op = OPTEE_VFS_UNLINK) then vfs_unlink num_params else
  if decide (op = OPTEE_VFS_FTRUNCATE) then vfs_ftruncate num_params else
  if decide (op = OPTEE_VFS_READ) then vfs_read num_params else
  if decide (op = OPTEE_VFS_FCHMOD) then vfs_fchmod num_params else
  if decide (op = OPTEE_VFS_FCHOWN) then vfs_fchown num_params else
  if decide (op = OPTEE_VFS_GETEUID) then vfs_geteuid num_params else
  if decide (op = OPTEE_VFS_GETPID) then vfs_getpid num_params else
  if decide (op = OPTEE_VFS_GETENV) then vfs_getenv num_params else
  if decide (op = OPTEE_VFS_LSEEK) then vfs_lseek num_params else
  if decide (op = OPTEE_VFS_FSYNC) then vfs_fsync num_params else
  if decide (op = OPTEE_VFS_SLEEP) then vfs_sleep num_params else
  if decide (op = OPTEE_VFS_GETTIMEOFDAY) then vfs_getdayoftime num_params else
  if decide (op = OPTEE_VFS_PWRITE) then vfs_pwrite num_params else
  if decide (op = OPTEE_VFS_PREAD) then vfs_pread num_params else
  if decide (op = OPTEE_VFS_TRUNCATE) then vfs_truncate num_params else
  if decide (op = OPTEE_VFS_FSTAT) then vfs_fstat num_params else
  if decide (op = OPTEE_VFS_FCNTL_VOID) then vfs_fcntl_void num_params else
  if decide (op = OPTEE_VFS_FCNTL_INT) then vfs_fcntl_int num_params else
  if decide (op = OPTEE_VFS_FCNTL_FLOCK) then vfs_fcntl_flock num_params else
  if decide (op = OPTEE_VFS_UTIMES) then vfs_utimes num_params else
  if decide (op = OPTEE_VFS_TIME) then vfs_time num_params else
  if decide (op = OPTEE_VFS_USLEEP) then vfs_usleep num_params else
  if decide (op = OPTEE_VFS_FILESIZE) then vfs_filesize num_params else
  ret TEEC_ERROR_NOT_SUPPORTED.
End handlers.

(** The handlers, for proofs about all of them. *)
Create HintDb vfs_handlers.
#[export] Hint Unfold vfs_open vfs_close vfs_access vfs_write vfs_getcwd vfs_stat vfs_fstat vfs_mkdir vfs_rmdir vfs_unlink vfs_ftruncate vfs_read vfs_fchmod vfs_fchown vfs_geteuid vfs_getpid vfs_getenv vfs_lseek vfs_fsync vfs_sleep vfs_pread vfs_pwrite vfs_truncate vfs_getdayoftime vfs_fcntl_void vfs_fcntl_int vfs_fcntl_flock vfs_utimes vfs_time vfs_usleep vfs_filesize : vfs_handlers.

(** ** What a request may change *)

(** Same blocks, of the same sizes: nothing allocated, freed or resized. *)
Definition same_shape (m m' : mem) : Prop :=
  m_next m' = m_next m ∧
  ∀ b, (length ∘ b_data) <$> m_blocks m' !! b = (length ∘ b_data) <$> m_blocks m !! b.

(** Of the parameters, the two answer fields of the first one; of the process,
    bytes inside existing blocks. *)
Definition answer_only {O} (h h' : handler O) : Prop :=
  p_shm (h_proc h') = p_shm (h_proc h) ∧
  same_shape (p_mem (h_proc h)) (p_mem (h_proc h')) ∧
  length (h_params h') = length (h_params h) ∧
  ∀ i p, h_params h !! i = Some p →
    ∃ p', h_params h' !! i = Some p' ∧ attr p' = attr p ∧ par_a p' = par_a p ∧
          (i ≠ 0%nat → p' = p).

#[export] Instance same_shape_preorder : PreOrder same_shape.
Proof.
  split; [by intros m|]. intros m1 m2 m3 [E1 H1] [E2 H2].
  split; [congruence|]. intros b. by rewrite H2.
Qed.

#[export] Instance answer_only_preorder {O} : PreOrder (answer_only (O:=O)).
Proof.
  split.
  - intros h. split_and!; try done. intros i p Hp. by exists p.
  - intros h1 h2 h3 (S1 & M1 & L1 & P1) (S2 & M2 & L2 & P2).
    split_and!; [congruence|by transitivity (p_mem (h_proc h2))|congruence|].
    intros i p Hp. destruct (P1 i p Hp) as (p2 & Hp2 & A1 & B1 & C1).
    destruct (P2 i p2 Hp2) as (p3 & Hp3 & A2 & B2 & C2).
    exists p3. split_and!; try congruence. intros Hi. by rewrite C2, C1.
Qed.

Lemma same_shape_poke p bs m m' : poke p bs m = Some m' → same_shape m m'.
Proof.
  intros (b & o & k & d & -> & E & ? & ? & ->)%poke_Some. split; [done|]. intros b'. simpl.
  destruct (decide (b = b')) as [<-|].
  - rewrite lookup_insert_eq, E. simpl. f_equal. apply CMem.length_splice. lia.
  - by rewrite lookup_insert_ne.
Qed.

Section frame.
Context {O : Type} `{Posix O}.
Implicit Types (h : handler O).

Definition frames {A} (m : C (handler O) A) : Prop := ∀ h r h', m h = Ret (r, h') → answer_only h h'.

Lemma frames_reads {A} (m : C (handler O) A) : reads m → frames m.
Proof. intros Hm h r h' E. by rewrite (Hm _ _ _ E). Qed.

Lemma frames_bind {A B} (m : C (handler O) A) (k : A → C _ B) :
  frames m → (∀ a, frames (k a)) → frames (bind m k).
Proof.
  intros Hm Hk h r h' E. apply bind_inv in E as (a & h1 & E1 & E2).
  transitivity h1; [by eapply Hm|by eapply Hk].
Qed.

Lemma frames_os {A} (c : oscall A) : frames (os c).
Proof.
  intros h r h' E. apply os_inv in E as [= E1 E2 E3]. unfold answer_only.
  rewrite E1, E2, E3. split_and!; try done. intros i p Hp. by exists p.
Qed.

Lemma frames_store p bs : frames (in_mem (store p bs)).
Proof.
  intros h r h'. unfold in_mem, zoom, store, update.
  destruct (poke p bs _) as [m|] eqn:E; [|done]. intros [= _ <-].
  split_and!; try done; [by eapply same_shape_poke|]. intros i q Hq. by exists q.
Qed.

Lemma frames_deliver p data : frames (deliver p data).
Proof. destruct data; [apply frames_reads; eauto with triple|apply frames_store]. Qed.

Lemma frames_set0 f :
  (∀ p, attr (f p) = attr p ∧ par_a (f p) = par_a p) → frames (set_param 0 f).
Proof.
  intros Hf h [] h' (p & Hp & Hps & Hproc)%set_param_inv. unfold answer_only.
  rewrite Hproc, Hps, length_insert. split_and!; try done. intros i q Hq.
  destruct (decide (i = 0%nat)) as [->|].
  - rewrite list_lookup_insert_eq by (by eapply lookup_lt_Some). rewrite Hp in Hq.
    injection Hq as ->. exists (f q). by destruct (Hf q).
  - rewrite list_lookup_insert_ne by done. by exists q.
Qed.

Lemma frames_set_b x : frames (set_b (Some 0%nat) x).
Proof. intros h r h' E. by eapply (frames_set0 _ _ h r h' E). Unshelve. done. Qed.

Lemma frames_set_c x : frames (set_c (Some 0%nat) x).
Proof. intros h r h' E. by eapply (frames_set0 _ _ h r h' E). Unshelve. done. Qed.

Lemma frames_answer0 r e : frames (answer0 (Some 0%nat) r e).
Proof.
  apply frames_bind; [apply frames_set_b|intros _].
  apply frames_bind; [apply frames_set_c|intros _]. apply frames_reads, reads_ret.
Qed.

Lemma frames_need_value {B} n i (code : B) k :
  frames (k (Some i)) → frames (need (get_value n i) code k).
Proof. intros Hk h r h' [[_ ->]|E]%need_value_inv; [done|by eapply Hk]. Qed.

Lemma frames_need_param {B} n i (code : B) k :
  (∀ shm, frames (k shm)) → frames (need (get_param n i) code k).
Proof. intros Hk h r h' [[_ ->]|(shm & _ & E)]%need_param_inv; [done|by eapply Hk]. Qed.

Lemma frames_expect {A} n m (code : A) k : frames k → frames (expect n m code k).
Proof.
  intros Hk. unfold expect. case_decide; [|done]. apply frames_reads, reads_ret.
Qed.

(** A field of the null pointer. *)
Lemma frames_null {B} (k : Z → C (handler O) B) : frames (bind (val_a None) k).
Proof. by intros h r h'. Qed.

Lemma reads_arg_str p : reads (arg_str (O:=O) p).
Proof. unfold arg_str. repeat reads_step. Qed.
Lemma reads_arg_bytes p n : reads (arg_bytes (O:=O) p n).
Proof. unfold arg_bytes. repeat reads_step. Qed.
End frame.
#[export] Hint Resolve reads_arg_str reads_arg_bytes frames_os frames_store frames_deliver
  frames_set_b frames_set_c frames_answer0 frames_null : triple.

Ltac frames_step :=
  first
    [ solve [eauto with triple]
    | apply frames_expect
    | apply frames_need_value
    | apply frames_need_param; intros ?
    | apply frames_reads; solve [eauto with triple]
    | apply frames_bind; [|intros ?]
    | match goal with
      | |- frames (match ?x with _ => _ end) => destruct x
      | |- frames (if ?x then _ else _) => destruct x
      end ].

Section requests.
Context {O : Type} `{Posix O}.
Implicit Types (h : handler O).

(** C10: a request writes its answer and nothing else.  Whatever parameters the
    secure world sends, when [tee_supp_vfs_process] returns, the list of
    shared-memory objects is the same, no block of memory was allocated, freed
    or resized, and of the parameters only the second and third fields of the
    first one may differ: attributes, the operation and every other parameter
    are as they were sent. *)
Theorem vfs_process_frame n h r h' :
  tee_supp_vfs_process n h = Ret (r, h') → answer_only h h'.
Proof.
  revert h r h'. change (frames (tee_supp_vfs_process (O:=O) n)).
  unfold tee_supp_vfs_process.
  apply frames_bind; [eauto using frames_reads with triple|]. intros p. cbv zeta.
  repeat (case_decide; [clear; solve [autounfold with vfs_handlers; cbv zeta; repeat frames_step]|]).
  eauto using frames_reads with triple.
Qed.

(** [accepts m]: the code [m] returns says the request was carried out, or that
    the buffer for its answer is missing. *)
Definition accepts (m : C (handler O) Z) : Prop :=
  ∀ h r h', m h = Ret (r, h') → r = TEEC_SUCCESS ∨ r = TEEC_ERROR_SHORT_BUFFER.

(** [clean m]: any other code comes before anything was touched. *)
Definition clean (m : C (handler O) Z) : Prop :=
  ∀ h r h', m h = Ret (r, h') → r = TEEC_SUCCESS ∨ r = TEEC_ERROR_SHORT_BUFFER ∨ h' = h.

Lemma accepts_ok : accepts (ret TEEC_SUCCESS).
Proof. intros h r h' [= <- _]. by left. Qed.
Lemma accepts_short : accepts (ret TEEC_ERROR_SHORT_BUFFER).
Proof. intros h r h' [= <- _]. by right. Qed.
Lemma accepts_bind {A} (m : C (handler O) A) k : (∀ a, accepts (k a)) → accepts (bind m k).
Proof. intros Hk h r h' (a & h1 & _ & E)%bind_inv. by eapply Hk. Qed.
Lemma accepts_answer0 v r e : accepts (answer0 v r e).
Proof. repeat (apply accepts_bind; intros). apply accepts_ok. Qed.

Lemma clean_ret r : clean (ret r).
Proof. intros h r' h' [= _ <-]. tauto. Qed.
Lemma clean_accepts m : accepts m → clean m.
Proof. intros Hm h r h' E. destruct (Hm _ _ _ E); tauto. Qed.
Lemma clean_bind {A} (m : C (handler O) A) k : reads m → (∀ a, clean (k a)) → clean (bind m k).
Proof.
  intros Hm Hk h r h' (a & h1 & E1 & E2)%bind_inv. apply Hm in E1 as ->. by eapply Hk.
Qed.
Lemma clean_need {A} (m : C (handler O) (option A)) code k :
  reads m → (∀ a, clean (k a)) → clean (need m code k).
Proof. intros Hm Hk. apply clean_bind; [done|]. intros [a|]; [apply Hk|apply clean_ret]. Qed.
Lemma clean_expect n m code k : clean k → clean (expect n m code k).
Proof. intros Hk. unfold expect. case_decide; [apply clean_ret|done]. Qed.
End requests.
#[export] Hint Resolve accepts_ok accepts_short accepts_answer0 clean_ret : triple.

Ltac accepts_step :=
  first
    [ solve [eauto with triple]
    | apply accepts_bind; intros ?
    | match goal with
      | |- accepts (match ?x with _ => _ end) => destruct x
      | |- accepts (if ?x then _ else _) => destruct x
      end ].

Ltac clean_step :=
  first
    [ solve [eauto with triple]
    | apply clean_expect
    | apply clean_need; [solve [eauto with triple]|intros ?]
    | apply clean_bind; [solve [eauto with triple]|intros ?]
    | apply clean_accepts; solve [repeat accepts_step] ].

Section rejections.
Context {O : Type} `{Posix O}.

(** C23: a request that is refused has no effect.  Whenever the code returned is
    an error (bad parameters, bad format, an operation that does not exist),
    nothing has changed: not the parameters, not the memory, not the world, in
    which no system call was made.  The exception is the missing answer buffer
    of [getenv], which is how its length is asked for. *)
Theorem vfs_process_refused n (h : handler O) r h' :
  tee_supp_vfs_process n h = Ret (r, h') →
  r ≠ TEEC_SUCCESS → r ≠ TEEC_ERROR_SHORT_BUFFER → h' = h.
Proof.
  intros E H1 H2. assert (clean (tee_supp_vfs_process (O:=O) n)) as Hc.
  { unfold tee_supp_vfs_process. apply clean_bind; [eauto with triple|]. intros p. cbv zeta.
    repeat (case_decide; [clear; solve [autounfold with vfs_handlers; cbv zeta; repeat clean_step]|]).
    eauto with triple. }
  destruct (Hc _ _ _ E); tauto.
Qed.
End rejections.
