(* ===== verification/SuppSafe.v ===== *)
(** * The supplicant: requests it survives

The handlers of [SuppVfs] check that a parameter names an object; most of them
do not compare the size of the object with what the system call reads or writes.
[well_sized] says, for each operation, what the request has to guarantee: where a
string must end, how many bytes must be there, how much room.  A request that
guarantees it is answered, whatever the operating system does within the
documented bounds of its calls ([PosixSizes]); one that does not can write
outside the object. *)
From S2P Require Import Prelude CMem Protocol SuppShm SuppVfs.
#[local] Open Scope Z_scope.
#[local] Open Scope c_scope.
Import Supplicant.

(** ** What the system calls promise *)

(** What a call delivers through a pointer to [n] bytes: nothing when it is null.
    The structures of the system are at most as large as the protocol's; of the
    128 bytes of [struct stat] on the 64-bit ARM this is so. *)
Definition fits (null : bool) (n : Z) (data : bytes) : Prop :=
  Z.of_nat (length data) ≤ if null then 0 else Z.max 0 n.

Definition deliveries {A} (c : oscall A) : A → Prop :=
  match c with
  | OsRead _ null n => λ r, fits null n r.2
  | OsPread _ null n _ => λ r, fits null n r.2
  | OsGetcwd null n => λ r, fits null n r.2
  | OsStat _ null => λ r, fits null sizeof_my_stat r.2
  | OsFstat _ null => λ r, fits null sizeof_my_stat r.2
  | OsGettimeofday null1 null2 => λ r,
      fits null1 sizeof_timeval r.1.2 ∧ fits null2 sizeof_timezone r.2
  | OsFcntlFlock _ _ fl => λ r, (length r.2 ≤ length (default [] fl))%nat
  | _ => λ _, True
  end.

Class PosixSizes (O : Type) `{Posix O} : Prop :=
  delivered : ∀ A (c : oscall A) (o : O), deliveries c (os_run c o).1.
Arguments delivered {O _ _} {A} c o.

Section safety.
Context {O : Type} `{Posix O}.
Implicit Types (h : handler O).

(** ** What a request has to guarantee *)

Definition field (f : tee_ioctl_param → Z) (i : nat) h : Z :=
  default 0 (f <$> h_params h !! i).

(** The address parameter [i] resolves to is null, or a string ends there. *)
Definition string_ok (i : nat) h : Prop :=
  ∀ q, tee_supp_param_to_va i h = Ret (q, h) → q = NULL ∨ is_Some (peek_str (p_mem (h_proc h)) q).

(** There are [n] bytes at a pointer. *)
Definition holds_bytes (m : mem) (q : ptr) (n : Z) : Prop := q = NULL ∨ is_Some (peek m q n).

Definition bytes_ok (i : nat) (n : Z) h : Prop :=
  ∀ q, tee_supp_param_to_va i h = Ret (q, h) → holds_bytes (p_mem (h_proc h)) q n.

Definition room_ok (num_params i : nat) (n : Z) h : Prop :=
  ∀ shm, get_param num_params i h = Ret (Some shm, h) → holds_bytes (p_mem (h_proc h)) (buffer shm) n.

(** The name is there, the variable is set, and there is room for its value, if
    there is a buffer at all. *)
Definition env_ok (num_params : nat) h : Prop :=
  ∀ q, tee_supp_param_to_va 1 h = Ret (q, h) →
  ∃ name s o, q ≠ NULL ∧ peek_str (p_mem (h_proc h)) q = Some name ∧
    os_run (OsGetenv name) (p_os (h_proc h)) = (Some s, o) ∧
    room_ok num_params 2 (Z.of_nat (length s) + 1) h.

Definition well_sized (op : Z) (num_params : nat) h : Prop :=
  if decide (op = OPTEE_VFS_OPEN ∨ op = OPTEE_VFS_MKDIR ∨ op = OPTEE_VFS_RMDIR ∨
             op = OPTEE_VFS_UNLINK ∨ op = OPTEE_VFS_TRUNCATE) then string_ok 1 h else
  if decide (op = OPTEE_VFS_ACCESS) then string_ok 2 h else
  if decide (op = OPTEE_VFS_STAT) then string_ok 1 h ∧ room_ok num_params 2 sizeof_my_stat h else
  if decide (op = OPTEE_VFS_FSTAT) then room_ok num_params 2 sizeof_my_stat h else
  if decide (op = OPTEE_VFS_WRITE) then bytes_ok 2 (field par_b 1 h) h else
  if decide (op = OPTEE_VFS_READ ∨ op = OPTEE_VFS_PREAD)
    then room_ok num_params 1 (field par_b 2 h) h else
  if decide (op = OPTEE_VFS_GETCWD) then room_ok num_params 1 (field par_a 2 h) h else
  if decide (op = OPTEE_VFS_GETTIMEOFDAY)
    then room_ok num_params 1 sizeof_timeval h ∧ room_ok num_params 2 sizeof_timezone h else
  if decide (op = OPTEE_VFS_FCNTL_FLOCK) then room_ok num_params 2 sizeof_my_flock h else
  if decide (op = OPTEE_VFS_UTIMES) then string_ok 1 h ∧ bytes_ok 2 (2 * sizeof_timeval) h else
  if decide (op = OPTEE_VFS_GETENV) then num_params = 3%nat → env_ok num_params h else
  op ≠ OPTEE_VFS_PWRITE.
End safety.

(** ** Computations that return *)

Section returns.
Context {O : Type} `{Posix O}.
Implicit Types (h : handler O).

Definition returns {A} (m : C (handler O) A) h : Prop := ∃ r h', m h = Ret (r, h').

Lemma returns_ret {A} (a : A) h : returns (ret a) h.
Proof. by exists a, h. Qed.

Lemma returns_reads {A B} (m : C (handler O) A) (k : A → C _ B) h :
  reads m → returns m h → (∀ a, m h = Ret (a, h) → returns (k a) h) → returns (bind m k) h.
Proof.
  intros Hm (a & h1 & E) Hk. pose proof (Hm _ _ _ E) as ->. unfold returns.
  rewrite (bind_run _ _ _ _ _ E). by apply Hk.
Qed.

Lemma returns_param_at i h : (i < length (h_params h))%nat → returns (param_at i) h.
Proof.
  intros Hi. unfold returns, param_at. destruct (lookup_lt_is_Some_2 _ _ Hi) as [p ->].
  by exists p, h.
Qed.

Lemma returns_get_value n i h : (n ≤ length (h_params h))%nat → returns (get_value n i) h.
Proof.
  intros Hn. unfold get_value. case_decide; [apply returns_ret|].
  apply returns_reads; [eauto with triple|apply returns_param_at; lia|]. intros. apply returns_ret.
Qed.

Lemma returns_get_param n i h : (n ≤ length (h_params h))%nat → returns (get_param n i) h.
Proof.
  intros Hn. unfold get_param. case_decide; [apply returns_ret|].
  apply returns_reads; [eauto with triple|apply returns_param_at; lia|]. intros p _.
  destruct (negb _); [apply returns_ret|].
  apply returns_reads; [apply reads_gets|by eexists _, _|]. intros l _.
  destruct (find_tshm _ l); repeat case_decide; apply returns_ret.
Qed.

Lemma returns_to_va i h : (i < length (h_params h))%nat → returns (tee_supp_param_to_va i) h.
Proof.
  intros Hi. unfold tee_supp_param_to_va.
  apply returns_reads; [eauto with triple|by apply returns_param_at|]. intros p _.
  destruct (negb _); [apply returns_ret|]. cbv zeta. case_decide; [apply returns_ret|].
  apply returns_reads; [apply reads_gets|by eexists _, _|]. intros l _.
  destruct (find_tshm _ l); repeat case_decide; apply returns_ret.
Qed.

Lemma returns_expect {A} n m (code : A) k h : (n = m → returns k h) → returns (expect n m code k) h.
Proof.
  intros Hk. unfold expect. destruct (decide (n = m)) as [->|].
  - rewrite decide_False by (intros Hc; by apply Hc). by apply Hk.
  - rewrite decide_True by done. apply returns_ret.
Qed.

Lemma returns_need_value {B} n i (code : B) k h :
  (n ≤ length (h_params h))%nat → returns (k (Some i)) h →
  returns (need (get_value n i) code k) h.
Proof.
  intros Hn Hk. apply returns_reads; [eauto with triple|by apply returns_get_value|].
  intros [v|] E; [|apply returns_ret]. by apply get_value_Some in E as [-> _].
Qed.

Lemma returns_need_param {B} n i (code : B) k h :
  (n ≤ length (h_params h))%nat →
  (∀ shm, get_param n i h = Ret (Some shm, h) → returns (k shm) h) →
  returns (need (get_param n i) code k) h.
Proof.
  intros Hn Hk. apply returns_reads; [eauto with triple|by apply returns_get_param|].
  intros [shm|] E; [by apply Hk|apply returns_ret].
Qed.

Lemma val_a_run i h : (i < length (h_params h))%nat → val_a (Some i) h = Ret (field par_a i h, h).
Proof.
  intros Hi. unfold val_a, bind, lift, param_at, field.
  by destruct (lookup_lt_is_Some_2 _ _ Hi) as [p ->].
Qed.
Lemma val_b_run i h : (i < length (h_params h))%nat → val_b (Some i) h = Ret (field par_b i h, h).
Proof.
  intros Hi. unfold val_b, bind, lift, param_at, field.
  by destruct (lookup_lt_is_Some_2 _ _ Hi) as [p ->].
Qed.
Lemma val_c_run i h : (i < length (h_params h))%nat → val_c (Some i) h = Ret (field par_c i h, h).
Proof.
  intros Hi. unfold val_c, bind, lift, param_at, field.
  by destruct (lookup_lt_is_Some_2 _ _ Hi) as [p ->].
Qed.

Lemma returns_run {A B} (m : C (handler O) A) (k : A → C _ B) h a :
  m h = Ret (a, h) → returns (k a) h → returns (bind m k) h.
Proof. intros E Hk. unfold returns. by rewrite (bind_run _ _ _ _ _ E). Qed.

Lemma returns_to_va_bind {B} i (k : ptr → C _ B) h :
  (i < length (h_params h))%nat →
  (∀ q, tee_supp_param_to_va i h = Ret (q, h) → returns (k q) h) →
  returns (bind (tee_supp_param_to_va i) k) h.
Proof.
  intros Hi Hk. apply returns_reads; [eauto with triple|by apply returns_to_va|done].
Qed.

Lemma returns_arg_str {B} q (k : option bytes → C _ B) h :
  q = NULL ∨ is_Some (peek_str (p_mem (h_proc h)) q) →
  (∀ s, arg_str q h = Ret (s, h) → returns (k s) h) → returns (bind (arg_str q) k) h.
Proof.
  intros Hq Hk. apply returns_reads; [eauto with triple| |done].
  destruct q as [|b o]; [apply returns_ret|]. destruct Hq as [?|[s Hs]]; [done|].
  unfold returns, arg_str, bind, gets, lift. rewrite Hs. by eexists _, _.
Qed.

Lemma returns_arg_bytes {B} q n (k : option bytes → C _ B) h :
  holds_bytes (p_mem (h_proc h)) q n →
  (∀ s, (if is_null q then s = None else ∃ bs, s = Some bs ∧ Z.of_nat (length bs) = n) →
        returns (k s) h) →
  returns (bind (arg_bytes q n) k) h.
Proof.
  intros Hq Hk. destruct q as [|b o].
  { unfold returns. erewrite bind_run by reflexivity. by apply Hk. }
  destruct Hq as [?|[bs Hs]]; [done|].
  assert (arg_bytes (Ptr b o) n h = Ret (Some bs, h)) as E.
  { unfold arg_bytes, bind, in_mem, zoom, load, lift. rewrite Hs. by destruct h as [? []]. }
  apply (returns_run _ _ _ _ E), Hk. exists bs. split; [done|]. by eapply peek_length.
Qed.

(** The handler, after a system call. *)
Definition after {A} (c : oscall A) h : handler O :=
  Handler (h_params h) (Proc (p_shm (h_proc h)) (p_mem (h_proc h)) (os_run c (p_os (h_proc h))).2).

Lemma returns_os {A B} (c : oscall A) (k : A → C _ B) h :
  returns (k (os_run c (p_os (h_proc h))).1) (after c h) → returns (bind (os c) k) h.
Proof.
  unfold returns, bind, os, after. by destruct (os_run c _) as [r o].
Qed.

Lemma holds_bytes_shape m m' q n : same_shape m m' → holds_bytes m q n → holds_bytes m' q n.
Proof.
  intros [_ Hs] [->|[bs Hp]]; [by left|right].
  apply peek_Some in Hp as (b & o & k & d & -> & Hb & ? & ? & ? & _).
  specialize (Hs b). rewrite Hb in Hs. simpl in Hs.
  apply fmap_Some in Hs as ([k' d'] & Hb' & Hl). simpl in Hl. simpl. rewrite Hb'.
  rewrite decide_True by lia. by eexists.
Qed.

(** Writing, and delivering, what fits. *)
Lemma returns_store {B} q data n (k : unit → C _ B) h :
  q ≠ NULL → holds_bytes (p_mem (h_proc h)) q n → Z.of_nat (length data) ≤ Z.max 0 n →
  (∀ h', answer_only h h' → returns (k tt) h') → returns (bind (in_mem (store q data)) k) h.
Proof.
  intros Hne [?|[bs Hp]] Hd Hk; [done|].
  assert (∃ m, poke q data (p_mem (h_proc h)) = Some m) as [m Hm].
  { apply peek_Some in Hp as (b & o & k' & d & -> & Hb & ? & ? & ? & _).
    eexists. apply poke_Some. exists b, o, k', d. split_and!; [done..|lia|done]. }
  assert (in_mem (store q data) h =
          Ret (tt, Handler (h_params h) (Proc (p_shm (h_proc h)) m (p_os (h_proc h))))) as E.
  { unfold in_mem, zoom, store, update. by rewrite Hm. }
  unfold returns. rewrite (bind_run _ _ _ _ _ E). apply Hk. by eapply frames_store.
Qed.

Lemma returns_deliver {B} q data n (k : unit → C _ B) h :
  holds_bytes (p_mem (h_proc h)) q n → fits (is_null q) n data →
  (∀ h', answer_only h h' → returns (k tt) h') → returns (bind (deliver q data) k) h.
Proof.
  intros Hq Hd Hk. destruct data as [|x data]; [by apply Hk|].
  destruct q as [|b o]; [unfold fits in Hd; simpl in Hd; lia|].
  by apply (returns_store _ (x :: data) n).
Qed.

Lemma returns_set_b {B} x (k : unit → C _ B) h :
  (0 < length (h_params h))%nat → (∀ h', answer_only h h' → returns (k tt) h') →
  returns (bind (set_b (Some 0%nat) x) k) h.
Proof.
  intros Hi Hk. destruct (lookup_lt_is_Some_2 _ _ Hi) as [p Hp].
  assert (∃ h', set_b (Some 0%nat) x h = Ret (tt, h')) as [h' E].
  { unfold set_b, bind, lift, set_param, update. rewrite Hp. by eexists. }
  unfold returns. rewrite (bind_run _ _ _ _ _ E). apply Hk. by eapply frames_set_b.
Qed.

Lemma returns_set_c {B} x (k : unit → C _ B) h :
  (0 < length (h_params h))%nat → (∀ h', answer_only h h' → returns (k tt) h') →
  returns (bind (set_c (Some 0%nat) x) k) h.
Proof.
  intros Hi Hk. destruct (lookup_lt_is_Some_2 _ _ Hi) as [p Hp].
  assert (∃ h', set_c (Some 0%nat) x h = Ret (tt, h')) as [h' E].
  { unfold set_c, bind, lift, set_param, update. rewrite Hp. by eexists. }
  unfold returns. rewrite (bind_run _ _ _ _ _ E). apply Hk. by eapply frames_set_c.
Qed.

Lemma returns_answer0 r e h : (0 < length (h_params h))%nat → returns (answer0 (Some 0%nat) r e) h.
Proof.
  intros Hi. apply returns_set_b; [done|]. intros h1 (_ & _ & L & _).
  apply returns_set_c; [lia|]. intros h2 _. apply returns_ret.
Qed.
End returns.

(** Take a handler one step further. *)
Ltac in_range := cbn [after h_params] in *; lia.

Ltac safe_step :=
  match goal with
  | |- returns (expect _ _ _ _) _ => apply returns_expect; intros ->
  | |- returns (need (get_value _ _) _ _) _ => apply returns_need_value; [in_range|]
  | |- returns (need (get_param _ _) _ _) _ =>
      apply returns_need_param; [in_range|intros ? ?]
  | |- returns (bind (val_a _) _) _ => eapply returns_run; [apply val_a_run; in_range|]
  | |- returns (bind (val_b _) _) _ => eapply returns_run; [apply val_b_run; in_range|]
  | |- returns (bind (val_c _) _) _ => eapply returns_run; [apply val_c_run; in_range|]
  | |- returns (bind (tee_supp_param_to_va _) _) _ =>
      apply returns_to_va_bind; [in_range|intros ? ?]
  | |- returns (bind (arg_str _) _) _ => apply returns_arg_str; [by eauto|intros ? ?]
  | |- returns (bind (arg_bytes _ _) _) _ => apply returns_arg_bytes; [by eauto|intros ? ?]
  | |- returns (bind (os _) _) _ => apply returns_os
  | |- returns (match (os_run ?c ?o).1 with _ => _ end) _ =>
      generalize (delivered c o); destruct (os_run c o).1; intros ?
  | |- returns (match ?x with (_, _) => _ end) _ => destruct x
  | |- returns (bind (deliver _ _) _) _ =>
      eapply returns_deliver; [by eauto|by eauto|intros ? (_ & ? & ? & _)]
  | |- returns (bind (set_b (Some 0%nat) _) _) _ =>
      apply returns_set_b; [in_range|intros ? (_ & _ & ? & _)]
  | |- returns (bind (set_c (Some 0%nat) _) _) _ =>
      apply returns_set_c; [in_range|intros ? (_ & _ & ? & _)]
  | |- returns (answer0 (Some 0%nat) _ _) _ => apply returns_answer0; in_range
  | |- returns (ret _) _ => apply returns_ret
  end.

(** ** The handlers *)
Section handlers_return.
Context {O : Type} `{PosixSizes O}.
Implicit Types (h : handler O).

(** Those that only take numbers. *)
Lemma numbers_return n h :
  (n ≤ length (h_params h))%nat →
  returns (vfs_close n) h ∧ returns (vfs_ftruncate n) h ∧ returns (vfs_fchmod n) h ∧
  returns (vfs_fchown n) h ∧ returns (vfs_geteuid n) h ∧ returns (vfs_getpid n) h ∧
  returns (vfs_lseek n) h ∧ returns (vfs_fsync n) h ∧ returns (vfs_sleep n) h ∧
  returns (vfs_fcntl_void n) h ∧ returns (vfs_fcntl_int n) h ∧ returns (vfs_time n) h ∧
  returns (vfs_usleep n) h ∧ returns (vfs_filesize n) h.
Proof.
  intros Hn. split_and!; autounfold with vfs_handlers; cbv zeta; repeat safe_step.
Qed.

(** Those that take a path, or bytes to write. *)
Lemma strings_return n h :
  (n ≤ length (h_params h))%nat → string_ok 1 h →
  returns (vfs_open n) h ∧ returns (vfs_mkdir n) h ∧ returns (vfs_rmdir n) h ∧
  returns (vfs_unlink n) h ∧ returns (vfs_truncate n) h.
Proof.
  unfold string_ok. intros Hn Hs.
  split_and!; autounfold with vfs_handlers; cbv zeta; repeat safe_step.
Qed.

Lemma access_returns n h :
  (n ≤ length (h_params h))%nat → string_ok 2 h → returns (vfs_access n) h.
Proof. unfold string_ok. intros. autounfold with vfs_handlers. repeat safe_step. Qed.

Lemma write_returns n h :
  (n ≤ length (h_params h))%nat → bytes_ok 2 (field par_b 1 h) h → returns (vfs_write n) h.
Proof. unfold bytes_ok. intros. autounfold with vfs_handlers. repeat safe_step. Qed.

Lemma utimes_returns n h :
  (n ≤ length (h_params h))%nat → string_ok 1 h → bytes_ok 2 (2 * sizeof_timeval) h →
  returns (vfs_utimes n) h.
Proof. unfold bytes_ok, string_ok. intros. autounfold with vfs_handlers. repeat safe_step. Qed.

(** Those with a buffer for the answer. *)
Lemma read_returns n h :
  (n ≤ length (h_params h))%nat → room_ok n 1 (field par_b 2 h) h →
  returns (vfs_read n) h ∧ returns (vfs_pread n) h.
Proof.
  unfold room_ok. intros. split; autounfold with vfs_handlers; repeat safe_step.
Qed.

Lemma getcwd_returns n h :
  (n ≤ length (h_params h))%nat → room_ok n 1 (field par_a 2 h) h → returns (vfs_getcwd n) h.
Proof. unfold room_ok. intros. autounfold with vfs_handlers. repeat safe_step. Qed.

Lemma stat_returns n h :
  (n ≤ length (h_params h))%nat → string_ok 1 h → room_ok n 2 sizeof_my_stat h →
  returns (vfs_stat n) h.
Proof. unfold room_ok, string_ok. intros. autounfold with vfs_handlers. repeat safe_step. Qed.

Lemma fstat_returns n h :
  (n ≤ length (h_params h))%nat → room_ok n 2 sizeof_my_stat h → returns (vfs_fstat n) h.
Proof. unfold room_ok. intros. autounfold with vfs_handlers. cbv zeta. repeat safe_step. Qed.

(** The second buffer is where it was after the first is written. *)
Lemma gettimeofday_returns n h :
  (n ≤ length (h_params h))%nat →
  room_ok n 1 sizeof_timeval h → room_ok n 2 sizeof_timezone h → returns (vfs_getdayoftime n) h.
Proof.
  unfold room_ok. intros ? H1 H2. autounfold with vfs_handlers. do 5 safe_step.
  match goal with E : get_param _ 2 _ = _ |- _ => pose proof (H2 _ E) end.
  match goal with |- context [os_run ?c ?o] => pose proof (delivered c o) as [? ?] end.
  destruct (os_run _ _).1 as [[[r e] tv] tz].
  eapply returns_deliver; [by eauto|by eauto|intros h1 (_ & ? & ? & _)].
  eapply returns_deliver; [by eapply holds_bytes_shape|by eauto|intros h2 (_ & ? & ? & _)].
  safe_step.
Qed.

(** What [fcntl] delivers replaces what it read. *)
Lemma flock_returns n h :
  (n ≤ length (h_params h))%nat → room_ok n 2 sizeof_my_flock h → returns (vfs_fcntl_flock n) h.
Proof.
  unfold room_ok. intros ? Hr. autounfold with vfs_handlers. do 6 safe_step.
  match goal with E : get_param _ 2 _ = _ |- _ => pose proof (Hr _ E) as Hb; clear E end.
  apply returns_arg_bytes; [done|]. intros fl Hfl. safe_step.
  match goal with |- context [os_run ?c ?o] => pose proof (delivered c o) as Hd end.
  destruct (os_run _ _).1 as [[r e] data]. cbn in Hd.
  eapply (returns_deliver _ _ sizeof_my_flock); [done| |intros h1 (_ & ? & ? & _); safe_step].
  unfold fits. destruct (is_null (buffer shm)); [subst fl; simpl in Hd; lia|].
  destruct Hfl as (bs & -> & Hl). simpl in Hd. lia.
Qed.

(** The length answered is cut to an [int]; what is copied is no longer. *)
Lemma getenv_returns n h :
  (n ≤ length (h_params h))%nat → (n = 3%nat → env_ok n h) → returns (vfs_getenv n) h.
Proof.
  unfold env_ok. intros Hn He. autounfold with vfs_handlers. do 4 safe_step.
  destruct (He eq_refl q) as (name & s & o & Hq & Hname & Hrun & Hroom); [done|].
  apply returns_arg_str; [right; by rewrite Hname|]. intros nm Hnm.
  assert (nm = Some name) as ->.
  { destruct q; [done|]. revert Hnm. unfold arg_str, bind, gets, lift. rewrite Hname.
    by intros [= <-]. }
  eapply returns_run; [reflexivity|]. apply returns_os. unfold after. rewrite Hrun.
  eapply returns_run; [reflexivity|]. cbv zeta.
  apply returns_set_b; [in_range|]. intros h1 (_ & Hs & ? & _).
  destruct (is_null (buffer shm)) eqn:Hnull; [apply returns_ret|].
  eapply (returns_store _ _ (Z.of_nat (length s) + 1)).
  - by intros Hq'; rewrite Hq' in Hnull.
  - eapply holds_bytes_shape; [exact Hs|by apply Hroom].
  - rewrite length_take, length_app. simpl. lia.
  - intros. apply returns_ret.
Qed.
End handlers_return.

Section survival.
Context {O : Type} `{PosixSizes O}.
Implicit Types (h : handler O).

(** C11: the requests the supplicant survives.  Let the array hold the parameters
    the request counts.  If strings end inside their objects, the bytes to write
    are there, and there is room for what is asked for, as [well_sized] says for
    each operation, then [tee_supp_vfs_process] returns, whatever the other
    parameters and whatever the system calls do within their documented bounds;
    operations of numbers alone, and operations that do not exist, are always
    safe.  Only [pwrite] is excluded whatever its parameters. *)
Theorem well_sized_requests_return n h p :
  h_params h !! 0%nat = Some p → (n ≤ length (h_params h))%nat → well_sized (par_a p) n h →
  ∃ r h', tee_supp_vfs_process n h = Ret (r, h').
Proof.
  intros Hp Hn Hw. change (returns (tee_supp_vfs_process n) h). unfold tee_supp_vfs_process.
  eapply returns_run; [unfold param_at; rewrite Hp; reflexivity|]. cbv zeta.
  destruct (numbers_return n h Hn) as (?&?&?&?&?&?&?&?&?&?&?&?&?&?).
  repeat (case_decide as Hop;
    [rewrite Hop in Hw; clear Hop;
     first
       [ done
       | apply (strings_return n h Hn Hw)
       | apply (access_returns n h Hn Hw)
       | apply (stat_returns n h Hn (proj1 Hw) (proj2 Hw))
       | apply (fstat_returns n h Hn Hw)
       | apply (write_returns n h Hn Hw)
       | apply (read_returns n h Hn Hw)
       | apply (getcwd_returns n h Hn Hw)
       | apply (gettimeofday_returns n h Hn (proj1 Hw) (proj2 Hw))
       | apply (flock_returns n h Hn Hw)
       | apply (utimes_returns n h Hn (proj1 Hw) (proj2 Hw))
       | apply (getenv_returns n h Hn Hw)
       | by exfalso; apply Hw ]|clear Hop]).
  apply returns_ret.
Qed.
End survival.

(** A request is well sized when no more is asked for than its reference names:
    what the handlers could have checked. *)
Lemma memref_room {O} `{Posix O} n i (h : handler O) p t b k d m :
  h_params h !! i = Some p → param_wf p → (i < n)%nat → in_unsigned 64 (shm_size t) →
  memref_in (p_shm (h_proc h)) p t → shm_p t = Ptr b 0 →
  m_blocks (p_mem (h_proc h)) !! b = Some (Block k d) → shm_size t ≤ Z.of_nat (length d) →
  0 ≤ m ≤ MEMREF_SIZE p → room_ok n i m h.
Proof.
  intros Hp Hw Hi Hs Hin Hptr Hb Hd Hm shm. pose proof Hin as (_ & Hf & Hle).
  rewrite (get_param_Some n i h p t) by done. rewrite decide_True by done. intros [= <-].
  right. destruct Hw as ([? ?] & _ & _). exists (take (Z.to_nat m) (drop (Z.to_nat (MEMREF_SHM_OFFS p)) d)).
  apply peek_Some. exists b, (0 + MEMREF_SHM_OFFS p), k, d. rewrite Hptr.
  unfold MEMREF_SHM_OFFS in *. split_and!; try done; lia.
Qed.

(** ** Requests it does not survive *)
Section overruns.
Context {O : Type} `{Posix O}.
Implicit Types (h : handler O).

Lemma deliver_outside q x data b o h k d :
  q = Ptr b o → m_blocks (p_mem (h_proc h)) !! b = Some (Block k d) →
  Z.of_nat (length d) < o + Z.of_nat (length (x :: data)) → deliver q (x :: data) h = Undef.
Proof.
  intros -> Hb Hl. unfold deliver, in_mem, zoom, store, update, poke. rewrite Hb.
  by rewrite decide_False by lia.
Qed.

(** C33: a [read] writes past its buffer.  The reference in the request is checked
    against the object, and then only its address is used: the number of bytes
    read is another parameter, compared with nothing.  When the file has more
    bytes than the object from that address on, [vfs_read] writes outside the
    object, whatever size the reference gives. *)
Theorem vfs_read_overruns h p0 p1 p2 t b o k d r e x data w' :
  h_params h = [p0; p1; p2] → par_a p0 = OPTEE_VFS_READ →
  tee_supp_param_is_value p0 = true → tee_supp_param_is_value p2 = true →
  param_wf p1 → in_unsigned 64 (shm_size t) → memref_in (p_shm (h_proc h)) p1 t →
  shm_p t = Ptr b o → m_blocks (p_mem (h_proc h)) !! b = Some (Block k d) →
  os_run (OsRead (s32 (par_a p2)) false (par_b p2)) (p_os (h_proc h)) = ((r, e, x :: data), w') →
  Z.of_nat (length d) < o + MEMREF_SHM_OFFS p1 + Z.of_nat (length (x :: data)) →
  tee_supp_vfs_process 3 h = Undef.
Proof.
  intros Hps Ha Hv0 Hv2 Hw Hs Hin Hp Hb Hos Hl. pose proof Hin as (_ & Hf & _).
  unfold tee_supp_vfs_process. erewrite bind_run by (unfold param_at; rewrite Hps; reflexivity).
  cbv zeta. rewrite Ha. change (vfs_read 3 h = Undef). unfold vfs_read, expect.
  rewrite decide_False by (intros Hc; by apply Hc).
  erewrite need_run.
  2:{ rewrite (get_param_Some 3 1 h p1 t) by (done || lia || by rewrite Hps).
      rewrite decide_True by done. rewrite Hp. reflexivity. }
  erewrite need_run by (apply (get_value_run 3 0 _ p0); [by rewrite Hps|lia|done]).
  erewrite need_run by (apply (get_value_run 3 2 _ p2); [by rewrite Hps|lia|done]).
  erewrite bind_run by (apply val_a_run; rewrite Hps; simpl; lia).
  erewrite bind_run by (apply val_b_run; rewrite Hps; simpl; lia).
  assert (field par_a 2 h = par_a p2 ∧ field par_b 2 h = par_b p2) as [-> ->]
    by (unfold field; by rewrite Hps).
  erewrite bind_run by (unfold os; cbn [buffer padd is_null bool_decide];
    change (is_null (Ptr _ _)) with false; rewrite Hos; reflexivity).
  apply bind_undef. by eapply deliver_outside.
Qed.

(** C34: asking for a variable that is not set brings the supplicant down.  For a
    well-formed [getenv] request, with or without a buffer, of a name for which
    [getenv] finds nothing, [vfs_getenv] takes the length of the null pointer. *)
Theorem unset_variable_is_undefined h p0 p1 p2 q shm name w' :
  h_params h = [p0; p1; p2] → par_a p0 = OPTEE_VFS_GETENV →
  tee_supp_param_is_value p0 = true → get_param 3 2 h = Ret (Some shm, h) →
  tee_supp_param_to_va 1 h = Ret (q, h) → q ≠ NULL →
  peek_str (p_mem (h_proc h)) q = Some name →
  os_run (OsGetenv name) (p_os (h_proc h)) = (None, w') →
  tee_supp_vfs_process 3 h = Undef.
Proof.
  intros Hps Ha Hv0 Hshm Hq Hne Hname Hos.
  unfold tee_supp_vfs_process. erewrite bind_run by (unfold param_at; rewrite Hps; reflexivity).
  cbv zeta. rewrite Ha. change (vfs_getenv 3 h = Undef). unfold vfs_getenv, expect.
  rewrite decide_False by (intros Hc; by apply Hc).
  erewrite need_run by (apply (get_value_run 3 0 _ p0); [by rewrite Hps|lia|done]).
  rewrite (need_run _ _ _ _ _ _ Hshm), (bind_run _ _ _ _ _ Hq).
  assert (arg_str q h = Ret (Some name, h)) as Hs.
  { destruct q; [done|]. unfold arg_str, bind, gets, lift. by rewrite Hname. }
  rewrite (bind_run _ _ _ _ _ Hs).
  erewrite bind_run by reflexivity.
  erewrite bind_run by (unfold os; rewrite Hos; reflexivity). by apply bind_undef.
Qed.
End overruns.
