(* ===== verification/SuppLoop.v ===== *)
(** * The supplicant: requests and threads

Models the main loop of optee_client/tee-supplicant/tee_supplicant.c:
[find_params], [process_one_request] with the switch over commands, and the
protocol by which threads keep one of them waiting for the next request
([num_waiters_inc], [num_waiters_dec], [spawn_thread], [thread_main]).

[process_one_request] is the code of one thread run by itself.  [pool_step] is
the step relation of all of them interleaved: every access to the counter is
made under the mutex, so a step is one locked section.  The commands other than
memory and files are handled by code that is not in this repository
([OtherServices]). *)
From S2P Require Import Prelude CMem Protocol SuppShm SuppVfs.
#[local] Open Scope Z_scope.
#[local] Open Scope c_scope.
Import Supplicant.

Definition RPC_NUM_PARAMS : nat := 5.

(** ** Finding the parameters of a request *)

Definition is_meta (p : tee_ioctl_param) : bool :=
  bool_decide (Z.land (attr p) TEE_IOCTL_PARAM_ATTR_META ≠ 0).

(** [for (; n < num; n++) if (test(p[n])) break;] with [todo] = [num - n]: the
    index where the loop ends, or nothing when it reads outside the array. *)
Fixpoint scan (test : tee_ioctl_param → bool) (p : list tee_ioctl_param) (todo n : nat)
    : option nat :=
  match todo with
  | O => Some n
  | S todo =>
      match p !! n with
      | None => None
      | Some q => if test q then Some n else scan test p todo (S n)
      end
  end.

Record found_params : Type := Found {
  f_ok : bool;              (** the value returned *)
  f_func : Z;
  f_num_params : nat;
  f_num_meta : nat          (** [*params] is the array from this index on *)
}.

Definition find_params (request : rpc_request) : option found_params :=
  let num := rq_num_params request in
  match scan (negb ∘ is_meta) (rq_params request) num 0 with
  | None => None
  | Some n =>
      match scan is_meta (rq_params request) (num - n) n with
      | None => None
      | Some m => Some (Found (bool_decide (m = num)) (rq_func request) (num - n) n)
      end
  end.

(** ** One thread *)

(** The counter shared by the threads, and the process. *)
Record tstate (O : Type) : Type := TState { num_waiters : Z; t_proc : proc O }.
Arguments TState {O}. Arguments num_waiters {O}. Arguments t_proc {O}.

(** The services whose code is elsewhere, by command. *)
Class OtherServices (O : Type) : Type := {
  other_service : Z → nat → C (handler O) Z;
  (** the request and its size, the answer and its size *)
  rpmb_process_request : ptr → Z → ptr → Z → C (handler O) Z
}.

Section thread.
Context {O : Type} `{Posix O} `{OtherServices O}.

Definition tos {A} (c : oscall A) : C (tstate O) A :=
  λ t, let '(r, o) := os_run c (p_os (t_proc t)) in
       Ret (r, TState (num_waiters t) (Proc (p_shm (t_proc t)) (p_mem (t_proc t)) o)).

(** [size_t], with the two [assert]s. *)
Definition num_waiters_inc : C (tstate O) Z :=
  let! n := gets num_waiters in
  let n := u64 (n + 1) in
  do! modify (λ t, TState n (t_proc t)) in
  do! c_assert (bool_decide (n ≠ 0)) in
  ret n.

Definition num_waiters_dec : C (tstate O) Z :=
  let! n := gets num_waiters in
  do! c_assert (bool_decide (n ≠ 0)) in
  let n := u64 (n - 1) in
  do! modify (λ t, TState n (t_proc t)) in
  ret n.

(** The new thread itself is not part of this one's run. *)
Definition spawn_thread : C (tstate O) bool :=
  let! n := num_waiters_inc in
  let! ok := tos OsThreadCreate in
  if negb ok then let! n := num_waiters_dec in ret false
  else ret true.

Definition process_rpmb (num_params : nat) : C (handler O) Z :=
  need (get_param num_params 0) TEEC_ERROR_BAD_PARAMETERS (λ req,
  need (get_param num_params 1) TEEC_ERROR_BAD_PARAMETERS (λ rsp,
    rpmb_process_request (buffer req) (size req) (buffer rsp) (size rsp))).

(** The switch over commands. *)
Definition dispatch (arg : thread_config) (func : Z) (num_params : nat) : C (handler O) Z :=
  if decide (func = OPTEE_MSG_RPC_CMD_LOAD_TA) then load_ta num_params else
  if decide (func = OPTEE_MSG_RPC_CMD_FS) then other_service func num_params else
  if decide (func = OPTEE_MSG_RPC_CMD_RPMB) then process_rpmb num_params else
  if decide (func = OPTEE_MSG_RPC_CMD_SHM_ALLOC) then process_alloc arg num_params else
  if decide (func = OPTEE_MSG_RPC_CMD_SHM_FREE) then process_free num_params else
  if decide (func = OPTEE_MSG_RPC_CMD_GPROF) then other_service func num_params else
  if decide (func = OPTEE_MSG_RPC_CMD_SOCKET) then other_service func num_params else
  if decide (func = OPTEE_MSG_RPC_CMD_FTRACE) then other_service func num_params else
  if decide (func = OPTEE_MSG_RPC_CMD_PLUGIN) then other_service func num_params else
  if decide (func = OPTEE_MSG_RPC_CMD_OPEN) then tee_supp_vfs_process num_params else
  ret TEEC_ERROR_NOT_SUPPORTED.

(** The handler runs on the array from [*params] on; its answers are in place
    when the array is sent back. *)
Definition handle (arg : thread_config) (request : rpc_request) (f : found_params)
    : C (tstate O) (Z * list tee_ioctl_param) :=
  λ t,
    let ps := rq_params request in
    match dispatch arg (f_func f) (f_num_params f)
            (Handler (drop (f_num_meta f) ps) (t_proc t)) with
    | Ret (r, h) =>
        Ret ((r, take (f_num_meta f) ps ++ h_params h), TState (num_waiters t) (h_proc h))
    | Undef => Undef
    end.

(** The request sent down says how many parameters there is room for, and marks
    the first one meta. *)
Definition empty_request : rpc_request :=
  Request 0 RPC_NUM_PARAMS
    (Param TEE_IOCTL_PARAM_ATTR_META 0 0 0 :: replicate (RPC_NUM_PARAMS - 1) (Param 0 0 0 0)).

Definition read_request (fd : Z) : C (tstate O) (option rpc_request) :=
  tos (OsSupplRecv fd empty_request).

Definition write_response (fd : Z) (answer : rpc_request) : C (tstate O) bool :=
  tos (OsSupplSend fd answer).

Definition process_one_request (arg : thread_config) : C (tstate O) bool :=
  let! n := num_waiters_inc in
  let! request := read_request (arg_fd arg) in
  match request with
  | None => ret false
  | Some request =>
      let! f := lift (find_params request) in
      if negb (f_ok f) then ret false
      else
        let! stop :=
          (if decide (f_num_meta f ≠ 0%nat) then
             let! n := num_waiters_dec in
             if decide (n = 0) then let! ok := spawn_thread in ret (negb ok) else ret false
           else ret false) in
        if stop : bool then ret false
        else
          let! '(r, params) := handle arg request f in
          write_response (arg_fd arg) (Request r (rq_num_params request) params)
  end.

(** [while (!arg->abort) if (!process_one_request(arg)) arg->abort = true;] for
    as many requests as [fuel]; the loop ends when it gives [true]. *)
Fixpoint serve (fuel : nat) (arg : thread_config) : C (tstate O) bool :=
  match fuel with
  | 0%nat => ret false
  | S fuel => let! ok := process_one_request arg in
              if ok : bool then serve fuel arg else ret true
  end.

Definition thread_main (fuel : nat) (arg : thread_config) : C (tstate O) bool :=
  let! n := num_waiters_dec in serve fuel arg.
End thread.

(** ** All the threads

Where a thread is in [thread_main] and [process_one_request]. *)
Inductive phase : Type :=
| Starting     (** created, before the decrement of [thread_main] *)
| Ready        (** at the test of [abort] *)
| Entering     (** past the test, before the increment of [process_one_request] *)
| Waiting      (** has incremented, waits in [read_request] *)
| Received     (** has a request with meta parameters, before the decrement *)
| Last         (** the decrement gave zero: about to call [spawn_thread] *)
| Spawning     (** in [spawn_thread], has incremented *)
| Working      (** handling the request *)
| Stopped.
#[export] Instance phase_eq_dec : EqDecision phase.
Proof. solve_decision. Defined.

Record pool : Type := Pool { waiters : Z; aborted : bool; threads : list phase }.

(** [main] starts alone, at its loop. *)
Definition pool_init : pool := Pool 0 false [Ready].

(** Thread [i] moves from phase [a] to phase [b]. *)
Definition moves (p : pool) (i : nat) (a b : phase) (ts : list phase) : Prop :=
  threads p !! i = Some a ∧ ts = <[i := b]> (threads p).

(** [plain]: whether the kernel may send a request without meta parameters,
    which is handled without touching the counter. *)
Inductive pool_step (plain : bool) : pool → pool → Prop :=
| step_start p i ts :
    moves p i Starting Ready ts → waiters p ≠ 0 →
    pool_step plain p (Pool (u64 (waiters p - 1)) (aborted p) ts)
| step_enter p i ts :
    moves p i Ready Entering ts → aborted p = false →
    pool_step plain p (Pool (waiters p) (aborted p) ts)
| step_wait p i ts :
    moves p i Entering Waiting ts → u64 (waiters p + 1) ≠ 0 →
    pool_step plain p (Pool (u64 (waiters p + 1)) (aborted p) ts)
| step_stop p i ts :
    moves p i Ready Stopped ts → aborted p = true →
    pool_step plain p (Pool (waiters p) true ts)
| step_refused p i ts :
    moves p i Waiting Ready ts →
    pool_step plain p (Pool (waiters p) true ts)
| step_received p i ts :
    moves p i Waiting Received ts →
    pool_step plain p (Pool (waiters p) (aborted p) ts)
| step_received_plain p i ts :
    plain = true → moves p i Waiting Working ts →
    pool_step plain p (Pool (waiters p) (aborted p) ts)
| step_dec p i ts :
    moves p i Received (if decide (u64 (waiters p - 1) = 0) then Last else Working) ts →
    waiters p ≠ 0 →
    pool_step plain p (Pool (u64 (waiters p - 1)) (aborted p) ts)
| step_spawn p i ts :
    moves p i Last Spawning ts → u64 (waiters p + 1) ≠ 0 →
    pool_step plain p (Pool (u64 (waiters p + 1)) (aborted p) ts)
| step_created p i ts :
    moves p i Spawning Working ts →
    pool_step plain p (Pool (waiters p) (aborted p) (ts ++ [Starting]))
| step_not_created p i ts :
    moves p i Spawning Ready ts → waiters p ≠ 0 →
    pool_step plain p (Pool (u64 (waiters p - 1)) true ts)
| step_answered p i ts :
    moves p i Working Ready ts →
    pool_step plain p (Pool (waiters p) (aborted p) ts)
| step_not_answered p i ts :
    moves p i Working Ready ts →
    pool_step plain p (Pool (waiters p) true ts).

Definition reachable (plain : bool) : pool → Prop := rtc (pool_step plain) pool_init.

(** A thread at a decrement, whose [assert] fails when the counter is zero. *)
Definition decrements (a : phase) : bool :=
  match a with Starting | Received | Spawning => true | _ => false end.

(** The threads the counter counts. *)
Definition counted (a : phase) : bool :=
  match a with Starting | Waiting | Received | Spawning => true | _ => false end.
Definition count (ts : list phase) : nat := length (filter (λ a, counted a = true) ts).

(** A thread that does not depend on anybody else to go on: it neither waits for
    the secure world nor handles a request. *)
Definition moves_alone (a : phase) : bool :=
  match a with Waiting | Working | Stopped => false | _ => true end.

(** A step of such a thread: the phase of thread [i] changes. *)
Definition own_step (p q : pool) : Prop :=
  pool_step false p q ∧
  ∃ i a, threads p !! i = Some a ∧ moves_alone a = true ∧ threads q !! i ≠ Some a.

(** The most such steps a thread makes, those of a thread it creates included. *)
Definition own_steps (a : phase) : nat :=
  match a with
  | Waiting | Working | Stopped => 0
  | Entering => 1 | Ready => 2 | Starting => 3 | Spawning => 4 | Last => 5 | Received => 6
  end.
Fixpoint work_left (ts : list phase) : nat :=
  match ts with [] => 0 | a :: ts => own_steps a + work_left ts end.

(** ** Lemmas *)

Lemma scan_spec test p todo n :
  (n + todo ≤ length p)%nat →
  ∃ m, scan test p todo n = Some m ∧ (n ≤ m ≤ n + todo)%nat ∧
    (∀ i q, (n ≤ i < m)%nat → p !! i = Some q → test q = false) ∧
    ((m < n + todo)%nat → ∃ q, p !! m = Some q ∧ test q = true).
Proof.
  revert n. induction todo as [|todo IH]; intros n Hn; simpl.
  { exists n. split; [done|]. split; [lia|]. split; intros; lia. }
  destruct (p !! n) as [q|] eqn:Hq; [|apply lookup_ge_None in Hq; lia].
  destruct (test q) eqn:Ht.
  - exists n. split; [done|]. split; [lia|]. split; [intros; lia|]. eauto.
  - destruct (IH (S n)) as (m & E & Hm & Hf & Hs); [lia|].
    exists m. split; [done|]. split; [lia|]. split; [|intros; apply Hs; lia].
    intros i r Hi Hr. destruct (decide (i = n)) as [->|]; [congruence|].
    by apply (Hf i); [lia|].
Qed.

Section find_params_spec.
Implicit Types (rq : rpc_request).

(** [find_params] splits a request at its leading meta parameters.  When the
    array holds as many parameters as the request says, it never reads outside
    it; the parameters before [num_meta] are exactly the meta ones in front; and
    it accepts the request if and only if no meta parameter comes later. *)
Theorem find_params_spec rq :
  (rq_num_params rq ≤ length (rq_params rq))%nat →
  ∃ f, find_params rq = Some f ∧
    f_func f = rq_func rq ∧ (f_num_meta f + f_num_params f = rq_num_params rq)%nat ∧
    (∀ i q, (i < f_num_meta f)%nat → rq_params rq !! i = Some q → is_meta q = true) ∧
    ((0 < f_num_params f)%nat →
       ∃ q, rq_params rq !! f_num_meta f = Some q ∧ is_meta q = false) ∧
    (f_ok f = true ↔
       ∀ i q, (f_num_meta f ≤ i < rq_num_params rq)%nat → rq_params rq !! i = Some q →
              is_meta q = false).
Proof.
  intros Hl. unfold find_params.
  destruct (scan_spec (negb ∘ is_meta) (rq_params rq) (rq_num_params rq) 0) as (n & -> & Hn & Hf & Hs);
    [lia|].
  destruct (scan_spec is_meta (rq_params rq) (rq_num_params rq - n) n) as (m & -> & Hm & Hf' & Hs');
    [lia|].
  eexists. split; [done|]. simpl. split; [done|]. split; [lia|]. split; [|split; [|split]].
  - intros i q Hi Hq. specialize (Hf i q ltac:(lia) Hq). simpl in Hf. by destruct (is_meta q).
  - intros Hlt. destruct (Hs ltac:(lia)) as (q & Hq & Ht). exists q. split; [done|].
    simpl in Ht. by destruct (is_meta q).
  - intros Hok%bool_decide_eq_true. subst m. intros i q Hi. by apply Hf'.
  - intros Ha. apply bool_decide_eq_true. destruct (decide (m = rq_num_params rq)); [done|].
    destruct (Hs' ltac:(lia)) as (q & Hq & Ht). rewrite (Ha m q) in Ht; [done|lia|done].
Qed.
End find_params_spec.

(** ** The counter *)

Lemma count_insert ts i a b :
  ts !! i = Some a →
  (count (<[i := b]> ts) + (if counted a then 1 else 0) = count ts + (if counted b then 1 else 0))%nat.
Proof.
  intros Ha. revert i Ha. unfold count. induction ts as [|c ts IH]; intros [|i] Ha; simplify_eq/=.
  - rewrite !filter_cons. destruct (counted a), (counted b); simpl; lia.
  - specialize (IH i Ha). rewrite !filter_cons. repeat case_decide; simpl; lia.
Qed.

Lemma count_app ts us : count (ts ++ us) = (count ts + count us)%nat.
Proof. unfold count. by rewrite filter_app, length_app. Qed.

Lemma count_pos ts i a : ts !! i = Some a → counted a = true → (0 < count ts)%nat.
Proof.
  intros Ha Hc. pose proof (count_insert ts i a Working Ha) as H. rewrite Hc in H. simpl in H. lia.
Qed.

(** Another thread that is counted, besides thread [i]. *)
Lemma count_two ts i a :
  ts !! i = Some a → counted a = true → (2 ≤ count ts)%nat →
  ∃ j b, j ≠ i ∧ ts !! j = Some b ∧ counted b = true.
Proof.
  intros Ha Hc Hn. pose proof (count_insert ts i a Working Ha) as H. rewrite Hc in H. simpl in H.
  assert (0 < count (<[i := Working]> ts))%nat as Hp by lia. unfold count in Hp.
  destruct (filter _ (<[i := Working]> ts)) as [|b l] eqn:E; [simpl in Hp; lia|].
  assert (b ∈ filter (λ a, counted a = true) (<[i := Working]> ts)) as Hb by (rewrite E; by left).
  apply list_elem_of_filter in Hb as [Hb [j Hj]%list_elem_of_lookup].
  destruct (decide (j = i)) as [->|Hne].
  - rewrite list_lookup_insert_eq in Hj by (by eapply lookup_lt_Some). simplify_eq/=.
  - rewrite list_lookup_insert_ne in Hj by done. eauto.
Qed.

(** The counter is at least the number of threads it counts; exactly, when every
    request has meta parameters, until a thread stops without decrementing. *)
Definition counter_ok (plain : bool) (p : pool) : Prop :=
  Z.of_nat (count (threads p)) ≤ waiters p < 2 ^ 64 ∧
  (plain = false → aborted p = false → waiters p = Z.of_nat (count (threads p))).

Lemma u64_pred n : 0 ≤ n < 2 ^ 64 → n ≠ 0 → u64 (n - 1) = n - 1.
Proof. intros. unfold unsigned. apply Z.mod_small. lia. Qed.

Lemma u64_succ n : 0 ≤ n < 2 ^ 64 → u64 (n + 1) ≠ 0 → u64 (n + 1) = n + 1 ∧ n + 1 < 2 ^ 64.
Proof.
  intros Hn. unfold unsigned. intros Hz. destruct (decide (n = 2 ^ 64 - 1)) as [->|]; [done|].
  split; [apply Z.mod_small|]; lia.
Qed.

Lemma counter_ok_step plain p q : pool_step plain p q → counter_ok plain p → counter_ok plain q.
Proof.
  intros Hs [[Hle Hlt] Heq].
  assert (0 ≤ waiters p < 2 ^ 64) as Hw by lia.
  pose proof (u64_pred _ Hw) as Hdec. pose proof (u64_succ _ Hw) as Hinc.
  destruct Hs; simpl in *;
    match goal with H : moves _ _ _ _ _ |- _ => destruct H as [Hi ->] end;
    match goal with
    | |- context [<[?i := ?b]> (threads ?p)] => pose proof (count_insert (threads p) i _ b Hi) as Hc
    end;
    try (destruct Hinc as [-> ?]; [done|]); rewrite ?Hdec in * by done;
    unfold counter_ok; simpl; rewrite ?count_app; change (count [Starting]) with 1%nat;
    try (case_decide as Hz); simpl in Hc.
  all: split; [split; lia|intros Hpl Hab; try done; try specialize (Heq Hpl Hab); simplify_eq; lia].
Qed.

Lemma counter_ok_reachable plain p : reachable plain p → counter_ok plain p.
Proof.
  intros Hr. unfold reachable in Hr. remember pool_init as p0 eqn:E0.
  assert (counter_ok plain p0) as H0 by (subst; split; [by vm_compute|done]).
  clear E0. induction Hr; eauto using counter_ok_step.
Qed.

(** C19: the counter of waiting threads never underflows.  In every reachable
    state of the pool, however the threads interleave and whatever requests
    come, the [assert] of a thread about to decrement the counter holds; and
    when every request carries meta parameters, until a failure stops the
    supplicant, the counter is exactly the
    number of threads that wait, were just created, or are between receiving a
    request and the decrement. *)
Theorem waiters_counted plain p :
  reachable plain p →
  (∀ i a, threads p !! i = Some a → decrements a = true → waiters p ≠ 0) ∧
  (plain = false → aborted p = false → waiters p = Z.of_nat (count (threads p))).
Proof.
  intros [[Hle Hlt] Heq]%counter_ok_reachable. split; [|done].
  intros i a Hi Hd. assert (counted a = true) as Hc by by destruct a.
  pose proof (count_pos _ _ _ Hi Hc). lia.
Qed.

(** ** Somebody waits *)

Lemma reachable_step plain p q : reachable plain p → pool_step plain p q → reachable plain q.
Proof. intros Hr Hs. by eapply rtc_r. Qed.

Lemma work_left_insert ts i a b :
  ts !! i = Some a → (work_left (<[i := b]> ts) + own_steps a = work_left ts + own_steps b)%nat.
Proof.
  revert i. induction ts as [|c ts IH]; intros [|i] Hi; simplify_eq/=; [lia|].
  specialize (IH i Hi). lia.
Qed.

Lemma work_left_app ts us : work_left (ts ++ us) = (work_left ts + work_left us)%nat.
Proof. induction ts as [|a ts IH]; simpl; [done|lia]. Qed.

(** A step of the thread [i] is its own when its phase says so. *)
Lemma own_step_moves p q i a b ts :
  pool_step false p q → moves p i a b ts → a ≠ b → moves_alone a = true →
  (threads q = ts ∨ ∃ us, threads q = ts ++ us) → own_step p q.
Proof.
  intros Hs [Hi ->] Hab Ha Hq. split; [done|]. exists i, a. split; [done|]. split; [done|].
  pose proof (lookup_lt_Some _ _ _ Hi) as Hlt.
  assert (<[i := b]> (threads p) !! i = Some b) as Hb by by apply list_lookup_insert_eq.
  destruct Hq as [-> |[us ->]]; [|rewrite lookup_app_l by by rewrite length_insert]; rewrite Hb; congruence.
Qed.

Lemma own_step_works p q : own_step p q → (work_left (threads q) < work_left (threads p))%nat.
Proof.
  intros [Hs (i & a & Hi & Ha & Hne)].
  assert (∀ j b c, threads p !! j = Some b → (threads q = <[j := c]> (threads p) ∨
            threads q = <[j := c]> (threads p) ++ [Starting]) → moves_alone b = true) as Hsame.
  { intros j b c Hj Hq. destruct (decide (i = j)) as [->|Hij]; [congruence|]. exfalso. apply Hne.
    pose proof (lookup_lt_Some _ _ _ Hi). destruct Hq as [-> | ->];
      rewrite ?lookup_app_l by (by rewrite length_insert); by rewrite list_lookup_insert_ne. }
  destruct Hs; simpl in *;
    match goal with H : moves _ _ _ _ _ |- _ => destruct H as [Hj ->] end;
    (match goal with |- context [<[?j := ?b]> (threads ?p)] =>
       pose proof (work_left_insert (threads p) j _ b Hj) as Hw; specialize (Hsame j _ b Hj) end);
    try (specialize (Hsame (or_introl eq_refl))); try (specialize (Hsame (or_intror eq_refl)));
    try discriminate; rewrite ?work_left_app; try case_decide; simpl in *; lia.
Qed.

Lemma count_witness ts :
  (0 < count ts)%nat → ∃ j b, ts !! j = Some b ∧ counted b = true.
Proof.
  unfold count. intros Hp. destruct (filter _ ts) as [|b l] eqn:E; [simpl in Hp; lia|].
  assert (b ∈ filter (λ a, counted a = true) ts) as Hb by (rewrite E; by left).
  apply list_elem_of_filter in Hb as [Hb [j Hj]%list_elem_of_lookup].
  by exists j, b.
Qed.

(** When no thread can go on by itself, one waits: the counter is not zero. *)
Lemma somebody_waits p :
  reachable false p → (¬ ∃ q, own_step p q) → aborted p = false →
  (∃ j a, threads p !! j = Some a ∧ counted a = true ∨ threads p !! j = Some a ∧ moves_alone a = true) →
  ∃ i, threads p !! i = Some Waiting.
Proof.
  intros Hr Hstuck Hab Hsome. pose proof (counter_ok_reachable _ _ Hr) as [[Hle Hlt] Hc].
  assert (∀ i a b w ab ts us, pool_step false p (Pool w ab (ts ++ us)) → moves p i a b ts → a ≠ b →
            moves_alone a = false) as Hno.
  { intros i a b w ab ts us Hs Hm Hne. destruct (moves_alone a) eqn:Ha; [|done]. exfalso. apply Hstuck.
    eexists. eapply own_step_moves; [exact Hs|exact Hm|done|done|]. right. by eexists. }
  assert (∀ i a, threads p !! i = Some a → counted a = true → a = Waiting) as Hcounted.
  { intros i a Hi Ha. pose proof (count_pos _ _ _ Hi Ha) as Hpos.
    destruct a; try done; exfalso.
    - discriminate (Hno i Starting Ready (u64 (waiters p - 1)) (aborted p) (<[i := Ready]> (threads p)) []
        ltac:(rewrite app_nil_r; apply step_start with i; [by split|lia]) ltac:(by split) ltac:(done)).
    - discriminate (Hno i Received _ (u64 (waiters p - 1)) (aborted p) _ []
        ltac:(rewrite app_nil_r; apply step_dec with i; [by split|lia]) ltac:(by split) ltac:(by case_decide)).
    - discriminate (Hno i Spawning Working (waiters p) (aborted p) (<[i := Working]> (threads p)) [Starting]
        ltac:(apply step_created with i; by split) ltac:(by split) ltac:(done)). }
  assert ((0 < count (threads p))%nat → ∃ i, threads p !! i = Some Waiting) as Hpos.
  { intros Hp. destruct (count_witness _ Hp) as (i & a & Hi & Ha). exists i. by rewrite Hi, (Hcounted i a Hi Ha). }
  assert (u64 (waiters p + 1) = 0 → (0 < count (threads p))%nat) as Hfull.
  { specialize (Hc eq_refl Hab). intros Hz. destruct (decide (waiters p = 0)) as [E|]; [by rewrite E in Hz|]. lia. }
  destruct Hsome as (j & a & [[Hj Ha]|[Hj Ha]]); [exists j; by rewrite Hj, (Hcounted j a Hj Ha)|].
  destruct a; try done; try (exists j; by rewrite Hj, (Hcounted j _ Hj eq_refl)).
  - (* Ready *) discriminate (Hno j Ready Entering (waiters p) (aborted p) (<[j := Entering]> (threads p)) []
      ltac:(rewrite app_nil_r; apply step_enter with j; [by split|done]) ltac:(by split) ltac:(done)).
  - (* Entering *) destruct (decide (u64 (waiters p + 1) = 0)) as [Hz|Hz]; [by apply Hpos, Hfull|].
    discriminate (Hno j Entering Waiting (u64 (waiters p + 1)) (aborted p) (<[j := Waiting]> (threads p)) []
      ltac:(rewrite app_nil_r; apply step_wait with j; [by split|done]) ltac:(by split) ltac:(done)).
  - (* Last *) destruct (decide (u64 (waiters p + 1) = 0)) as [Hz|Hz]; [by apply Hpos, Hfull|].
    discriminate (Hno j Last Spawning (u64 (waiters p + 1)) (aborted p) (<[j := Spawning]> (threads p)) []
      ltac:(rewrite app_nil_r; apply step_spawn with j; [by split|done]) ltac:(by split) ltac:(done)).
Qed.

(** There is always a thread that waits, or gets there or to its successor alone. *)
Definition somebody (p : pool) : Prop :=
  aborted p = true ∨ ∃ j b, threads p !! j = Some b ∧ (counted b = true ∨ moves_alone b = true).

(** A thread that moves to such a phase is the one. *)
Lemma somebody_moved w ab ts i a b :
  ts !! i = Some a → counted b = true ∨ moves_alone b = true → somebody (Pool w ab (<[i := b]> ts)).
Proof.
  intros Hi Hb. right. exists i, b. split; [|done]. simpl.
  apply list_lookup_insert_eq. by eapply lookup_lt_Some.
Qed.

Lemma somebody_step p q :
  pool_step false p q → counter_ok false p → somebody p → somebody q.
Proof.
  intros Hs Hok Hsome. pose proof (counter_ok_step _ _ _ Hs Hok) as [_ Heq'].
  destruct (aborted q) eqn:Hab; [by left|]. specialize (Heq' eq_refl eq_refl).
  destruct Hs; simpl in Hab; try done;
    match goal with H : moves _ _ _ _ _ |- _ => destruct H as [Hi ->] end;
    try (eapply somebody_moved; [exact Hi|by (left + right)]); try done.
  - (* the decrement *)
    case_decide as Hz; [eapply somebody_moved; [exact Hi|by right]|].
    right. destruct (count_witness (<[i := Working]> (threads p))) as (j & b & Hj & Hb); [simpl in *; lia|].
    exists j, b. by split; [|left].
  - (* the new thread *)
    right. simpl. exists (length (threads p)), Starting. split; [|by left].
    rewrite lookup_app_r by (rewrite length_insert; lia).
    by rewrite length_insert, Nat.sub_diag.
Qed.

Lemma somebody_reachable p : reachable false p → somebody p.
Proof.
  intros Hr. unfold reachable in Hr. remember pool_init as p0 eqn:E0.
  assert (counter_ok false p0 ∧ somebody p0) as [H0 H1].
  { subst. split; [split; [by vm_compute|done]|]. right. exists 0%nat, Ready. by split; [|right]. }
  clear E0. induction Hr; eauto using counter_ok_step, somebody_step.
Qed.

(** C37: the next request finds a thread that waits for it, even if none of the
    requests under way is ever finished.  When every request carries meta
    parameters, from every reachable state the threads that neither wait nor
    handle a request can make only so many steps, [work_left], whatever their
    order; and once none of them can go on, either the supplicant is stopping or a
    thread waits in [read_request]: whoever took the last waiter's place has created
    a successor first. *)
Theorem next_request_is_served p :
  reachable false p →
  (∀ n q, nsteps own_step n p q → (n ≤ work_left (threads p))%nat) ∧
  (∀ q, rtc own_step p q → (¬ ∃ q', own_step q q') →
     aborted q = true ∨ ∃ i, threads q !! i = Some Waiting).
Proof.
  intros Hr. split.
  - intros n q Hn. induction Hn as [|n p q r Hs Hn IH]; [lia|].
    pose proof (own_step_works _ _ Hs). specialize (IH (reachable_step _ _ _ Hr (proj1 Hs))). lia.
  - intros q Hq Hstuck. assert (reachable false q) as Hrq.
    { clear Hstuck. induction Hq as [|p q r Hs _ IH]; [done|]. by eapply IH, reachable_step, Hs. }
    destruct (aborted q) eqn:Hab; [by left|right]. apply somebody_waits; try done.
    destruct (somebody_reachable q Hrq) as [?|(j & b & Hj & [Hb|Hb])]; [congruence|exists j, b; tauto..].
Qed.
