(* ===== verification/SuppRace.v ===== *)
(** * The supplicant: threads that share buffers

The threads of the supplicant share one list of buffers.  Its mutex covers the
list and nothing more: [find_tshm] gives its result back before the buffer is
used, and [process_free] frees what [pop_tshm] took out of the list after the
mutex is released.  [race_step] interleaves what threads do between two locked
sections: allocating a buffer, listing it, finding one, writing to it, taking it
out, freeing it ([munmap] may fail).

A buffer is freed at most once, whatever the interleaving.  That it is not used
afterwards is up to the secure world, which must not free what a request under
way names ([careful]). *)
From S2P Require Import Prelude CMem Heap SuppShm.
#[local] Open Scope Z_scope.
#[local] Open Scope c_scope.

(** What a thread does with a buffer. *)
Inductive activity : Type :=
| Idle
| Allocated (t : tee_shm)   (** in [process_alloc], before [push_tshm] *)
| Using (t : tee_shm)       (** after [find_tshm] *)
| Freeing (t : tee_shm).    (** in [process_free], after [pop_tshm] *)

Record race : Type := Race {
  r_list : list tee_shm;
  r_mem : mem;
  r_threads : list activity
}.

(** Thread [i] goes from [a] to [b]. *)
Definition turns (s : race) (i : nat) (a b : activity) (ts : list activity) : Prop :=
  r_threads s !! i = Some a ∧ ts = <[i := b]> (r_threads s).

(** [careful]: whether the secure world frees only what no request under way
    names. *)
Inductive race_step (careful : bool) : race → race → Prop :=
| race_spawn s :
    race_step careful s (Race (r_list s) (r_mem s) (r_threads s ++ [Idle]))
| race_alloc s i t data m ts :
    turns s i Idle (Allocated t) ts → alloc Heap data (r_mem s) = Ret (shm_p t, m) →
    race_step careful s (Race (r_list s) m ts)
| race_push s i t ts :
    turns s i (Allocated t) Idle ts →
    race_step careful s (Race (push_tshm t (r_list s)) (r_mem s) ts)
| race_find s i t id ts :
    turns s i Idle (Using t) ts → find_tshm id (r_list s) = Some t →
    race_step careful s (Race (r_list s) (r_mem s) ts)
| race_write s i t ts off bs m :
    turns s i (Using t) (Using t) ts → poke (padd (shm_p t) off) bs (r_mem s) = Some m →
    race_step careful s (Race (r_list s) m ts)
| race_done s i t ts :
    turns s i (Using t) Idle ts →
    race_step careful s (Race (r_list s) (r_mem s) ts)
| race_pop s i t id l ts :
    turns s i Idle (Freeing t) ts → pop_tshm id (r_list s) = (Some t, l) →
    (careful = true → ∀ j u, r_threads s !! j = Some (Using u) → shm_id u ≠ id) →
    race_step careful s (Race l (r_mem s) ts)
| race_free s i t m ts :
    turns s i (Freeing t) Idle ts → free (shm_p t) (r_mem s) = Ret (tt, m) →
    race_step careful s (Race (r_list s) m ts)
| race_not_unmapped s i t ts :
    turns s i (Freeing t) Idle ts →
    race_step careful s (Race (r_list s) (r_mem s) ts).

Definition race_init : race := Race [] mem_empty [Idle].
Definition race_reachable (careful : bool) : race → Prop := rtc (race_step careful) race_init.

(** ** Who owns a buffer *)

Definition own (a : activity) : list ptr :=
  match a with Allocated t | Freeing t => [shm_p t] | _ => [] end.

Definition owned (s : race) : list ptr := (shm_p <$> r_list s) ++ (r_threads s ≫= own).

Definition race_ok (s : race) : Prop := mem_wf (r_mem s) ∧ freeable (owned s) (r_mem s).

(** What is in use is in the list. *)
Definition uses_listed (s : race) : Prop :=
  ∀ i t, r_threads s !! i = Some (Using t) → t ∈ r_list s.

Lemma own_insert ts i a b :
  ts !! i = Some a → own a ++ (<[i := b]> ts ≫= own) ≡ₚ own b ++ (ts ≫= own).
Proof.
  intros Hi. rewrite <- (take_drop_middle ts i a Hi) at 2.
  rewrite insert_take_drop by by apply lookup_lt_Some in Hi. rewrite !bind_app. cbn [mbind list_bind].
  rewrite !(assoc_L (++)). rewrite (Permutation_app_comm (own a)), (Permutation_app_comm (own b)).
  rewrite <- !(assoc_L (++)). apply Permutation_app_head. rewrite !(assoc_L (++)).
  apply Permutation_app_tail, Permutation_app_comm.
Qed.

Lemma pop_perm id l t l' : pop_tshm id l = (Some t, l') → l ≡ₚ t :: l' ∧ shm_id t = id.
Proof.
  revert l'. induction l as [|u l IH]; intros l'; simpl; [done|]. case_decide; [by intros [= -> ->]|].
  destruct (pop_tshm id l) as [r k] eqn:E. intros [= -> <-]. destruct (IH k eq_refl) as [-> ?].
  split; [constructor|done].
Qed.

Lemma find_elem id l t : find_tshm id l = Some t → t ∈ l.
Proof.
  induction l as [|u l IH]; simpl; [done|]. case_decide; [intros [= ->]; by left|]. intros E. right. by apply IH.
Qed.

(** A step that moves nothing in memory keeps the owners apart. *)
Lemma race_ok_perm s l ts :
  race_ok s → owned (Race l (r_mem s) ts) ≡ₚ owned s → race_ok (Race l (r_mem s) ts).
Proof. intros [Hwf Hf] Hp. split; [done|]. simpl r_mem. by rewrite Hp. Qed.

(** Thread [i] goes on, and owns [own b] instead of [own a]. *)
Lemma owned_turn s l m i a b :
  r_threads s !! i = Some a →
  own a ++ owned (Race l m (<[i := b]> (r_threads s))) ≡ₚ own b ++ (shm_p <$> l) ++ (r_threads s ≫= own).
Proof.
  intros Hi. unfold owned. simpl. rewrite !(assoc_L (++)), (Permutation_app_comm (own a)), (Permutation_app_comm (own b)).
  rewrite <- !(assoc_L (++)). apply Permutation_app_head. by apply own_insert.
Qed.

Lemma race_ok_alloc s i t data m :
  r_threads s !! i = Some Idle → alloc Heap data (r_mem s) = Ret (shm_p t, m) → race_ok s →
  race_ok (Race (r_list s) m (<[i := Allocated t]> (r_threads s))).
Proof.
  intros Hi E [Hwf Hf]. injection E as Ep <-. pose proof (mem_wf_alloc (r_mem s) Heap data Hwf) as Hwf'.
  split; [exact Hwf'|].
  assert (∀ m, owned (Race (r_list s) m (<[i := Allocated t]> (r_threads s))) ≡ₚ shm_p t :: owned s) as ->
    by (intros m; apply (owned_turn s (r_list s) m i Idle (Allocated t) Hi)).
  rewrite <- Ep. apply freeable_cons.
  - apply (freeable_frame (λ _, False) _ (r_mem s)); [exact Hf|exact Hwf| |intros ? _ []|intros ?; right; intros []].
    split; [exact Hwf'|]. split; [simpl; lia|]. intros b Hb _. simpl. by rewrite lookup_insert_ne by lia.
  - exists (m_next (r_mem s)), data. split; [done|]. simpl. by rewrite lookup_insert_eq.
  - by apply (freeable_lt _ _ _ Hf Hwf).
Qed.

Lemma race_ok_write s ts p off bs m :
  poke (padd p off) bs (r_mem s) = Some m → owned (Race (r_list s) m ts) = owned s → race_ok s →
  race_ok (Race (r_list s) m ts).
Proof.
  intros E Ho [Hwf Hf]. split; [by eapply mem_wf_poke|]. rewrite Ho.
  apply poke_Some in E as E'. destruct E' as (b & o & k & d & Ep & Hb & _ & _ & Em).
  rewrite Ep in E. pose proof (poke_frame _ _ _ _ _ Hwf E) as Hfr. simpl r_mem.
  apply (freeable_frame _ _ _ _ Hf Hwf Hfr); [|intros x; by destruct (decide (x = b)); [left|right]].
  intros x Hx ->. destruct Hf as [_ Hh]. pose proof (proj1 (Forall_forall _ _) Hh _ Hx) as (b' & d' & [= <-] & Hd).
  rewrite Hb in Hd. injection Hd as -> ->. eexists b, _. split; [done|]. rewrite Em. simpl. by rewrite lookup_insert_eq.
Qed.

Lemma race_ok_free s i t m :
  r_threads s !! i = Some (Freeing t) → free (shm_p t) (r_mem s) = Ret (tt, m) → race_ok s →
  race_ok (Race (r_list s) m (<[i := Idle]> (r_threads s))).
Proof.
  intros Hi E [Hwf Hf]. assert (owned s ≡ₚ [shm_p t] ++ owned (Race (r_list s) m (<[i := Idle]> (r_threads s)))) as Hp
    by (rewrite (owned_turn s (r_list s) m i (Freeing t) Idle Hi); done).
  rewrite Hp in Hf. destruct (free_one (shm_p t) (r_mem s)) as (m' & E' & Hfr); [by eapply freeable_app|].
  rewrite E in E'. injection E' as <-. split; [by eapply freed_wf|]. by eapply freed_freeable.
Qed.

Lemma race_ok_step careful s s' : race_step careful s s' → race_ok s → race_ok s'.
Proof.
  intros Hs Hok. destruct Hs as [s|s i t data m ts [Hi ->] E|s i t ts [Hi ->]|s i t id ts [Hi ->] E
    |s i t ts off bs m [Hi ->] E|s i t ts [Hi ->]|s i t id l ts [Hi ->] E _|s i t m ts [Hi ->] E|s i t ts [Hi ->]].
  - apply race_ok_perm; [done|]. unfold owned. simpl. by rewrite bind_app, app_nil_r.
  - by eapply race_ok_alloc.
  - apply race_ok_perm; [done|]. apply (Permutation_app_inv_l (own (Allocated t))). rewrite (owned_turn s _ _ i _ Idle Hi).
    done.
  - apply race_ok_perm; [done|]. apply (owned_turn s _ _ i Idle (Using t) Hi).
  - apply (race_ok_write s _ (shm_p t) off bs); [done| |done]. by rewrite list_insert_id.
  - apply race_ok_perm; [done|]. apply (owned_turn s _ _ i (Using t) Idle Hi).
  - apply pop_perm in E as [Hl _]. apply race_ok_perm; [done|].
    etrans; [apply (owned_turn s l (r_mem s) i Idle (Freeing t) Hi)|]. unfold owned. by rewrite Hl.
  - by eapply race_ok_free.
  - destruct Hok as [Hwf Hf]. split; [done|]. apply (freeable_tail [shm_p t]).
    revert Hf. apply freeable_proper; [apply (owned_turn s _ (r_mem s) i (Freeing t) Idle Hi)|done].
Qed.

Lemma uses_listed_step s s' : race_step true s s' → uses_listed s → uses_listed s'.
Proof.
  assert (∀ (ts : list activity) i a (l' : list tee_shm), (∀ j t, ts !! j = Some (Using t) → j ≠ i → t ∈ l') →
    (∀ t, a = Using t → t ∈ l') → ∀ j t, <[i := a]> ts !! j = Some (Using t) → t ∈ l') as Hins.
  { intros ts i a l' Hts Ha j t Hj. apply list_lookup_insert_Some in Hj as [(<- & -> & _)|[Hne Hj]]; eauto. }
  intros Hs Hok. destruct Hs as [s|s i t data m ts [Hi ->] E|s i t ts [Hi ->]|s i t id ts [Hi ->] E
    |s i t ts off bs m [Hi ->] E|s i t ts [Hi ->]|s i t id l ts [Hi ->] E Hc|s i t m ts [Hi ->] E|s i t ts [Hi ->]];
    intros j u; simpl; try (apply (Hins _ _ _); [by eauto|intros v Hv; by simplify_eq]).
  - intros [Hj|[_ Hj]]%lookup_app_Some; [by eapply Hok|]. by destruct (j - _)%nat as [|[|]].
  - apply (Hins _ _ _); [|done]. intros k v Hv _. right. by eapply Hok.
  - apply (Hins _ _ _); [by eauto|]. intros v [= <-]. by eapply find_elem.
  - apply (Hins _ _ _); [by eauto|]. intros v [= <-]. by eapply Hok.
  - apply (Hins _ _ _); [|done]. intros k v Hv _. apply pop_perm in E as [Hl Hid].
    pose proof (Hok k v Hv) as Hin. rewrite Hl in Hin. apply elem_of_cons in Hin as [->|]; [|done].
    by destruct (Hc eq_refl k t Hv).
Qed.

Lemma race_reachable_ok careful s :
  race_reachable careful s → race_ok s ∧ (careful = true → uses_listed s).
Proof.
  intros Hr. unfold race_reachable in Hr. remember race_init as s0 eqn:E0.
  assert (race_ok s0 ∧ (careful = true → uses_listed s0)) as H0.
  { subst s0. split; [|intros _ [|i] t Hi; done]. split; [split; [done|by intros b _]|]. split; [apply NoDup_nil_2|by apply Forall_nil]. }
  clear E0. induction Hr as [s|s s1 s2 Hs _ IH]; [done|]. apply IH. destruct H0 as [Hok Hu].
  split; [by eapply race_ok_step|]. intros ->. eapply uses_listed_step; [exact Hs|by apply Hu].
Qed.

(** The block of a thread that frees is nobody else's. *)
Lemma freeing_alone s i t :
  race_ok s → r_threads s !! i = Some (Freeing t) →
  heap_start (r_mem s) (shm_p t) ∧ (shm_p t ∉ shm_p <$> r_list s) ∧
  ∀ j u, j ≠ i → r_threads s !! j = Some (Freeing u) → shm_p u ≠ shm_p t.
Proof.
  intros [_ Hf] Hi.
  assert (owned s ≡ₚ shm_p t :: owned (Race (r_list s) (r_mem s) (<[i := Idle]> (r_threads s)))) as Hp
    by (symmetry; apply (owned_turn s (r_list s) (r_mem s) i (Freeing t) Idle Hi)).
  rewrite Hp in Hf. destruct Hf as [Hnd Hh]. apply NoDup_cons in Hnd as [Hn _]. apply Forall_cons in Hh as [Hh _].
  unfold owned in Hn. simpl in Hn. rewrite not_elem_of_app in Hn. destruct Hn as [Hl Ht].
  split; [done|]. split; [done|]. intros j u Hne Hj E. apply Ht. apply list_elem_of_bind.
  exists (Freeing u). split; [rewrite <- E; by left|]. apply (list_elem_of_lookup_2 _ j).
  by rewrite list_lookup_insert_ne by done.
Qed.

(** C20: a shared buffer is freed at most once, and, if the secure world is careful,
    never while it is used.  However the threads interleave, a thread that is about
    to free a buffer can: the buffer is live, it is not in the list any more, and
    no other thread is about to free it too, even when two requests free the same
    identifier.  When the secure world frees no buffer that a request under way
    names, whatever a thread uses is live, and nobody is about to free it. *)
Theorem buffers_are_freed_once careful s :
  race_reachable careful s →
  (∀ i t, r_threads s !! i = Some (Freeing t) →
     (∃ m, free (shm_p t) (r_mem s) = Ret (tt, m)) ∧ (shm_p t ∉ shm_p <$> r_list s) ∧
     ∀ j u, j ≠ i → r_threads s !! j = Some (Freeing u) → shm_p u ≠ shm_p t) ∧
  (careful = true → ∀ i t, r_threads s !! i = Some (Using t) →
     heap_start (r_mem s) (shm_p t) ∧ ∀ j u, r_threads s !! j = Some (Freeing u) → shm_p u ≠ shm_p t).
Proof.
  intros [Hok Hu]%race_reachable_ok. split.
  - intros i t Hi. destruct (freeing_alone s i t Hok Hi) as (Hh & Hl & Ho). split; [|done].
    destruct (free_one (shm_p t) (r_mem s)) as (m & E & _); [|by exists m].
    split; [apply NoDup_singleton|by apply Forall_singleton].
  - intros Hc i t Hi. specialize (Hu Hc i t Hi). apply (list_elem_of_fmap_2 shm_p) in Hu. split.
    + destruct Hok as [_ [_ Hh]]. apply (proj1 (Forall_forall _ _) Hh). unfold owned. apply elem_of_app. by left.
    + intros j u Hj E. destruct (freeing_alone s j u Hok Hj) as (_ & Hl & _). by rewrite E in Hl.
Qed.

(** ** A race

One thread finds the buffer 7; another one takes it out and frees it. *)
Definition ex_shm : tee_shm := Tshm 7 (Ptr 1 0) 4 false 0.
Definition ex_mem : mem := Mem 2 {[1 := Block Heap [0; 0; 0; 0]]}.

Lemma ex_listed careful : race_reachable careful (Race [ex_shm] ex_mem [Idle; Idle]).
Proof.
  eapply rtc_l; [apply (race_alloc careful race_init 0 ex_shm [0; 0; 0; 0]); [by split|reflexivity]|].
  eapply rtc_l; [by apply (race_push careful _ 0 ex_shm); split|].
  eapply rtc_l; [apply race_spawn|]. apply rtc_refl.
Qed.

Lemma ex_found careful : race_reachable careful (Race [ex_shm] ex_mem [Using ex_shm; Idle]).
Proof. eapply rtc_r; [apply ex_listed|]. by apply (race_find careful (Race [ex_shm] ex_mem [Idle; Idle]) 0 ex_shm 7); [split|]. Qed.

(** A careless secure world: the buffer is gone while it is used. *)
Lemma careless_use_after_free :
  ∃ s, race_reachable false s ∧ r_threads s !! 0%nat = Some (Using ex_shm) ∧
    poke (shm_p ex_shm) [1] (r_mem s) = None.
Proof.
  exists (Race [] (Mem 2 ∅) [Using ex_shm; Idle]). split_and!; [|done|done].
  eapply rtc_r; [eapply rtc_r; [apply ex_found|]|].
  - by apply (race_pop false (Race [ex_shm] ex_mem [Using ex_shm; Idle]) 1 ex_shm 7 [] [Using ex_shm; Freeing ex_shm]); [split|..].
  - by apply (race_free false (Race [] ex_mem [Using ex_shm; Freeing ex_shm]) 1 ex_shm); [split|].
Qed.

Lemma buffers_are_freed_once_witness :
  let s := Race [ex_shm] ex_mem [Using ex_shm; Idle] in
  (∀ i t, r_threads s !! i = Some (Freeing t) →
     (∃ m, free (shm_p t) (r_mem s) = Ret (tt, m)) ∧ (shm_p t ∉ shm_p <$> r_list s) ∧
     ∀ j u, j ≠ i → r_threads s !! j = Some (Freeing u) → shm_p u ≠ shm_p t) ∧
  (true = true → ∀ i t, r_threads s !! i = Some (Using t) →
     heap_start (r_mem s) (shm_p t) ∧ ∀ j u, r_threads s !! j = Some (Freeing u) → shm_p u ≠ shm_p t).
Proof. apply (buffers_are_freed_once true _ (ex_found true)). Defined.
