(* ===== verification/Transport.v ===== *)
(** * From a system call of the trusted application to the normal world

The kernel's system calls ([KernelVfs]) and the supplicant's handlers
([SuppVfs]) are written against each other but meet through code that is not in
this repository: the OP-TEE message layer, the monitor and the Linux driver.
[Channel] states what that code is documented to do: a request sent with
[thread_rpc_cmd] is handed to the supplicant's switch over commands with the
same numbers in its parameters, the output fields come back, and a payload is
an object the supplicant has mapped, its bytes shared.  [PosixLaws] states what
the calls the supplicant makes promise about one open file.

Under these laws the system calls satisfy [FileLaws], so the whole stack does
what the SQLite VFS of the trusted application relies on. *)
From S2P Require Import Prelude CMem UteeVfs MemFile TeeVfs Protocol KernelVfs SuppShm SuppVfs SuppLoop.
#[local] Open Scope Z_scope.
#[local] Open Scope c_scope.

(** ** Parameters on the wire *)

Definition value_attr (d : param_dir) : Z :=
  match d with
  | IN => TEE_IOCTL_PARAM_ATTR_TYPE_VALUE_INPUT
  | OUT => TEE_IOCTL_PARAM_ATTR_TYPE_VALUE_OUTPUT
  | INOUT => TEE_IOCTL_PARAM_ATTR_TYPE_VALUE_INOUT
  end.

Definition memref_attr (d : param_dir) : Z :=
  match d with
  | IN => TEE_IOCTL_PARAM_ATTR_TYPE_MEMREF_INPUT
  | OUT => TEE_IOCTL_PARAM_ATTR_TYPE_MEMREF_OUTPUT
  | INOUT => TEE_IOCTL_PARAM_ATTR_TYPE_MEMREF_INOUT
  end.

(** A memory reference names its object by identifier; a missing one is
    [TEE_MEMREF_NULL], all ones. *)
Definition to_ioctl (p : thread_param) : tee_ioctl_param :=
  match p with
  | THREAD_PARAM_VALUE d a b c => Param (value_attr d) a b c
  | THREAD_PARAM_MEMREF d (Some mo) offs size => Param (memref_attr d) offs size (u64 (mobj_id mo))
  | THREAD_PARAM_MEMREF d None offs size => Param (memref_attr d) 0 0 (u64 (-1))
  end.

(** What the kernel sees of the answer: the fields of an output value, the size
    of an output buffer. *)
Definition from_ioctl (p : thread_param) (q : tee_ioctl_param) : thread_param :=
  match p with
  | THREAD_PARAM_VALUE IN _ _ _ => p
  | THREAD_PARAM_VALUE d _ _ _ => THREAD_PARAM_VALUE d (par_a q) (par_b q) (par_c q)
  | THREAD_PARAM_MEMREF IN _ _ _ => p
  | THREAD_PARAM_MEMREF d mo offs _ => THREAD_PARAM_MEMREF d mo offs (par_b q)
  end.

Definition answer_params (ps : list thread_param) (qs : list tee_ioctl_param) : list thread_param :=
  zip_with from_ioctl ps qs.

(** ** What the system calls of the normal world promise about an open file *)
Class PosixLaws (O : Type) `{Posix O} : Type := {
  os_file : O → Z → option (bytes * nat);
  os_lseek_law o f off l pos :
    os_file o f = Some (l, pos) → 0 ≤ off < 2 ^ 63 →
    ∃ r e o', os_run (OsLseek f off SEEK_SET) o = ((r, e), o') ∧ in_signed 64 r ∧
      ((r = off ∧ os_file o' f = Some (l, Z.to_nat off)) ∨
       (r ≠ off ∧ os_file o' f = Some (l, pos)));
  os_write_law o f bs l pos :
    os_file o f = Some (l, pos) → Z.of_nat (length bs) < 2 ^ 31 →
    ∃ r e o' l' pos', os_run (OsWrite f (Some bs) (Z.of_nat (length bs))) o = ((r, e), o') ∧
      write_result l pos bs r l' pos' ∧ os_file o' f = Some (l', pos');
  os_read_law o f n l pos :
    os_file o f = Some (l, pos) → 0 ≤ n < 2 ^ 31 →
    ∃ r e data o', os_run (OsRead f false n) o = ((r, e, data), o') ∧
      ((r = -1 ∧ data = [] ∧ os_file o' f = Some (l, pos)) ∨
       (∃ k : nat, (k ≤ length (read_at l pos (Z.to_nat n)))%nat ∧ r = Z.of_nat k ∧
          data = take k (read_at l pos (Z.to_nat n)) ∧ os_file o' f = Some (l, (pos + k)%nat)));
  os_fsync_law o f l pos :
    os_file o f = Some (l, pos) →
    ∃ r e o', os_run (OsFsync f) o = ((r, e), o') ∧ in_signed 32 r ∧ os_file o' f = Some (l, pos);
  os_fstat_law o f l pos :
    os_file o f = Some (l, pos) →
    ∃ r e sz o', os_run (OsFstatSize f) o = ((r, e, sz), o') ∧
      (r = -1 ∨ (r ≠ -1 ∧ sz = Z.of_nat (length l) ∧ in_signed 64 sz)) ∧
      os_file o' f = Some (l, pos)
}.

(** ** What lies between the two worlds *)
Section channel.
Context {O : Type} `{PosixLaws O}.

Definition same_files (w w' : proc O) : Prop := ∀ f, os_file (p_os w') f = os_file (p_os w) f.

(** The object behind a payload, with its block. *)
Definition payload_at (w : proc O) (mo : mobj) (t : tee_shm) (b : Z) (d : bytes) : Prop :=
  find_tshm (mobj_id mo) (p_shm w) = Some t ∧ shm_p t = Ptr b 0 ∧
  m_blocks (p_mem w) !! b = Some (Block Heap d) ∧ mobj_size mo ≤ Z.of_nat (length d).
End channel.

Class Channel (O : Type) `{PosixLaws O} `{OtherServices O} `{Rpc (proc O)} : Type := {
  ch_config : thread_config;
  ch_cmd : OPTEE_RPC_CMD_VFS = Supplicant.OPTEE_MSG_RPC_CMD_OPEN;
  ch_rpc ps w r h :
    dispatch ch_config OPTEE_RPC_CMD_VFS (length ps) (Handler (map to_ioctl ps) w) = Ret (r, h) →
    thread_rpc_cmd OPTEE_RPC_CMD_VFS ps w = Ret ((r, answer_params ps (h_params h)), h_proc h);
  ch_alloc n w :
    0 ≤ n →
    ∃ m w', thread_rpc_alloc_payload n w = Ret (m, w') ∧ same_files w w' ∧
      ∀ mo, m = Some mo → ∃ t b d, payload_at w' mo t b d ∧ in_signed 32 (mobj_id mo) ∧
                                   in_unsigned 64 (shm_size t);
  ch_free mo w t b d :
    payload_at w mo t b d →
    ∃ w', thread_rpc_free_payload (Some mo) w = Ret (tt, w') ∧ same_files w w';
  ch_free_null w : thread_rpc_free_payload None w = Ret (tt, w);
  (** another payload keeps its object and its bytes, which are its own *)
  ch_alloc_keeps n w m w' mo0 t0 b0 d0 :
    thread_rpc_alloc_payload n w = Ret (m, w') → payload_at w mo0 t0 b0 d0 →
    payload_at w' mo0 t0 b0 d0 ∧
    ∀ mo t b d, m = Some mo → payload_at w' mo t b d → mobj_id mo ≠ mobj_id mo0 ∧ b ≠ b0;
  ch_free_keeps mo w w' mo0 t0 b0 d0 :
    thread_rpc_free_payload (Some mo) w = Ret (tt, w') → mobj_id mo0 ≠ mobj_id mo →
    payload_at w mo0 t0 b0 d0 → payload_at w' mo0 t0 b0 d0;
  ch_get_va mo n w t b d :
    payload_at w mo t b d → n ≤ mobj_size mo → mobj_get_va mo 0 n w = Ret (Ptr b 0, w);
  ch_write p bs w m :
    poke p bs (p_mem w) = Some m →
    va_write p bs w = Ret (tt, Proc (p_shm w) m (p_os w));
  ch_read p n w bs : peek (p_mem w) p n = Some bs → va_read p n w = Ret (bs, w)
}.

(** ** Lemmas *)

Section handlers_run.
Context {O : Type} `{Posix O}.
Implicit Types (w : proc O).

Definition with_os (w : proc O) (o : O) : proc O := Proc (p_shm w) (p_mem w) o.

Lemma vfs_lseek_run op a b c w :
  vfs_lseek 2 (Handler [Param 3 op 0 0; Param 1 a b c] w) =
  let '((r, e), o) := os_run (OsLseek (s32 a) (s64 b) (s32 c)) (p_os w) in
  Ret (TEEC_SUCCESS, Handler [Param 3 op (u64 r) (u64 e); Param 1 a b c] (with_os w o)).
Proof.
  unfold vfs_lseek, expect, need, bind, os. simpl.
  destruct (os_run _ _) as [[r e] o]. reflexivity.
Qed.

Lemma vfs_fsync_run op a b c w :
  vfs_fsync 2 (Handler [Param 3 op 0 0; Param 1 a b c] w) =
  let '((r, e), o) := os_run (OsFsync (s32 a)) (p_os w) in
  Ret (TEEC_SUCCESS, Handler [Param 3 op (u64 r) (u64 e); Param 1 a b c] (with_os w o)).
Proof.
  unfold vfs_fsync, expect, need, bind, os. simpl.
  destruct (os_run _ _) as [[r e] o]. reflexivity.
Qed.

Lemma vfs_close_run op a b c w :
  vfs_close 2 (Handler [Param 3 op 0 0; Param 1 a b c] w) =
  let '((r, e), o) := os_run (OsClose (s32 a)) (p_os w) in
  Ret (TEEC_SUCCESS, Handler [Param 3 op (u64 r) (u64 e); Param 1 a b c] (with_os w o)).
Proof.
  unfold vfs_close, expect, need, bind, os. simpl.
  destruct (os_run _ _) as [[r e] o]. reflexivity.
Qed.

Lemma vfs_filesize_run op a b c w :
  vfs_filesize 2 (Handler [Param 3 op 0 0; Param 1 a b c] w) =
  let '((r, e, sz), o) := os_run (OsFstatSize (s32 a)) (p_os w) in
  Ret (TEEC_SUCCESS,
       Handler [Param 3 op (if decide (r ≠ -1) then u64 sz else u64 (-1)) (u64 e); Param 1 a b c]
         (with_os w o)).
Proof.
  unfold vfs_filesize, expect, need, bind, os. simpl.
  destruct (os_run _ _) as [[[r e] sz] o]. reflexivity.
Qed.

Lemma memref_whole l d i t :
  find_tshm (s32 i) l = Some t → in_unsigned 64 (shm_size t) →
  memref_in l (Param (memref_attr d) 0 0 i) t.
Proof.
  intros Hf Hs. split_and!; [by destruct d|done|]. unfold in_unsigned in Hs. simpl. lia.
Qed.

Lemma arg_bytes_run b n bs (h : handler O) :
  peek (p_mem (h_proc h)) (Ptr b 0) n = Some bs → arg_bytes (Ptr b 0) n h = Ret (Some bs, h).
Proof.
  intros Hb. unfold arg_bytes, bind, in_mem, zoom, load, lift. rewrite Hb. by destruct h as [? []].
Qed.

Lemma vfs_write_run op a n c i w t b bs :
  in_unsigned 64 i → find_tshm (s32 i) (p_shm w) = Some t → in_unsigned 64 (shm_size t) →
  shm_p t = Ptr b 0 → peek (p_mem w) (Ptr b 0) n = Some bs →
  vfs_write 3 (Handler [Param 3 op 0 0; Param 1 a n c; Param 5 0 0 i] w) =
  let '((r, e), o) := os_run (OsWrite (s32 a) (Some bs) n) (p_os w) in
  Ret (TEEC_SUCCESS, Handler [Param 3 op (u64 r) (u64 e); Param 1 a n c; Param 5 0 0 i] (with_os w o)).
Proof.
  intros Hi Hf Hs Hp Hb. unfold vfs_write, expect.
  rewrite decide_False by naive_solver.
  erewrite need_run by (eapply (get_value_run 3 0); [done|lia|done]).
  erewrite need_run by (eapply (get_value_run 3 1); [done|lia|done]).
  erewrite bind_run.
  2:{ apply (param_to_va_Some 2 _ (Param 5 0 0 i) t); [done| |done|done].
      split_and!; simpl; done || (unfold in_unsigned; lia). }
  rewrite decide_True by by apply (memref_whole _ IN).
  rewrite Hp. erewrite bind_run by reflexivity. erewrite bind_run by reflexivity.
  erewrite bind_run by (by apply arg_bytes_run).
  unfold bind, os. simpl. destruct (os_run _ _) as [[r e] o]. reflexivity.
Qed.

Lemma vfs_read_run op a n c i w t b d :
  in_unsigned 64 i → find_tshm (s32 i) (p_shm w) = Some t → in_unsigned 64 (shm_size t) →
  shm_p t = Ptr b 0 → m_blocks (p_mem w) !! b = Some (Block Heap d) →
  ∀ r e data o,
  os_run (OsRead (s32 a) false n) (p_os w) = ((r, e, data), o) →
  (length data ≤ length d)%nat →
  vfs_read 3 (Handler [Param 3 op 0 0; Param 6 0 0 i; Param 1 a n c] w) =
  Ret (TEEC_SUCCESS, Handler [Param 3 op (u64 r) (u64 e); Param 6 0 0 i; Param 1 a n c]
         (Proc (p_shm w)
               (Mem (m_next (p_mem w))
                    (<[b := Block Heap (splice d 0 data)]> (m_blocks (p_mem w)))) o)).
Proof.
  intros Hi Hf Hs Hp Hb r e data o Hos Hlen. unfold vfs_read, expect.
  rewrite decide_False by naive_solver.
  erewrite need_run.
  2:{ rewrite (get_param_Some 3 1 _ (Param 6 0 0 i) t); [|done| |lia|done|done].
      - rewrite decide_True by by apply (memref_whole _ OUT). done.
      - split_and!; simpl; done || (unfold in_unsigned; lia). }
  erewrite need_run by (eapply (get_value_run 3 0); [done|lia|done]).
  erewrite need_run by (eapply (get_value_run 3 2); [done|lia|done]).
  rewrite Hp. erewrite bind_run by reflexivity. erewrite bind_run by reflexivity.
  erewrite bind_run.
  2:{ unfold os. cbn [p_os h_proc]. cbn [par_a par_b]. change (is_null _) with false. rewrite Hos. reflexivity. }
  destruct data as [|x data].
  - unfold splice. simpl. rewrite ?drop_0, insert_id by done.
    by destruct w as [? [] ?].
  - erewrite bind_run.
    2:{ unfold deliver, in_mem, zoom, store, update, poke. cbn [buffer padd p_mem h_proc].
    rewrite Hb, decide_True by (simpl in *; lia). reflexivity. }
    reflexivity.
Qed.
End handlers_run.

(** The switch finds the handler of each operation the VFS uses. *)
Lemma dispatch_vfs {O} `{Posix O} `{OtherServices O} cfg n (h : handler O) :
  dispatch cfg Supplicant.OPTEE_MSG_RPC_CMD_OPEN n h = tee_supp_vfs_process n h.
Proof. reflexivity. Qed.

Section stack.
Context {O : Type} `{Channel O}.
Implicit Types (w : proc O).

(** A request, answered by the handler its operation selects. *)
Lemma vfs_rpc_run ps w r h :
  tee_supp_vfs_process (length ps) (Handler (map to_ioctl ps) w) = Ret (r, h) →
  vfs_rpc ps w = Ret (answer_params ps (h_params h), h_proc h).
Proof.
  intros E. unfold vfs_rpc. erewrite bind_run; [|apply ch_rpc].
  2:{ rewrite ch_cmd, dispatch_vfs. exact E. }
  done.
Qed.

Lemma same_files_refl w : same_files w w.
Proof. done. Qed.

(** A function that works through one payload: it ends with its give-up value
    and no other effect, or as its body does. *)
Lemma with_payload_law {A} len (a0 : A) body (Q : A → proc O → Prop) w :
  0 ≤ len →
  (∀ a w1 w2, same_files w1 w2 → Q a w1 → Q a w2) →
  (∀ w1, same_files w w1 → Q a0 w1) →
  (∀ mo t b d w1, payload_at w1 mo t b d → in_signed 32 (mobj_id mo) → in_unsigned 64 (shm_size t) →
     len ≤ mobj_size mo → same_files w w1 →
     ∃ a w2 d2, body mo w1 = Ret (a, w2) ∧ payload_at w2 mo t b d2 ∧ Q a w2) →
  ∃ a w', with_payload len (ret a0) body w = Ret (a, w') ∧ Q a w'.
Proof.
  intros Hn HQ Hg Hb. unfold with_payload.
  destruct (ch_alloc len w Hn) as (m & w1 & E & Hs & Hm). rewrite (bind_run _ _ _ _ _ E).
  destruct m as [mo|].
  - destruct (Hm mo eq_refl) as (t & b & d & Hp & Hid & Hsz). case_decide.
    + rewrite bind_ret_l. destruct (ch_free mo w1 t b d Hp) as (w2 & E2 & Hs2).
      rewrite (bind_run _ _ _ _ _ E2). exists a0, w2. split; [done|].
      apply (HQ _ w1); [done|by apply Hg].
    + destruct (Hb mo t b d w1) as (a & w2 & d2 & E2 & Hp2 & Hq); [done..|lia|done|].
      rewrite (bind_run _ _ _ _ _ E2). destruct (ch_free mo w2 t b d2 Hp2) as (w3 & E3 & Hs3).
      rewrite (bind_run _ _ _ _ _ E3). exists a, w3. split; [done|]. by apply (HQ _ w2).
  - rewrite bind_ret_l, (bind_run _ _ _ _ _ (ch_free_null _)). exists a0, w1. split; [done|by apply Hg].
Qed.
End stack.

Section laws.
Context {O : Type} `{Channel O}.
Implicit Types (w : proc O).

Definition stack_file (w : proc O) (f : Z) : option (bytes * nat) :=
  if decide (in_signed 32 f) then os_file (p_os w) f else None.

Lemma stack_file_Some w f x :
  stack_file w f = Some x → in_signed 32 f ∧ os_file (p_os w) f = Some x.
Proof. unfold stack_file. case_decide; naive_solver. Qed.

Lemma stack_file_eq w f x :
  in_signed 32 f → os_file (p_os w) f = Some x → stack_file w f = Some x.
Proof. intros. unfold stack_file. by rewrite decide_True. Qed.

(** An [int] is the same on both sides. *)
Lemma int_crosses z : in_signed 32 z → s32 (u64 z) = z.
Proof. intros. apply signed_unsigned_id; lia || done. Qed.

Lemma int64_crosses z : in_signed 64 z → s64 (u64 z) = z.
Proof. intros. apply signed_unsigned_id; lia || done. Qed.

Lemma syscall_lseek_law w f off l pos :
  stack_file w f = Some (l, pos) → 0 ≤ off < 2 ^ 63 →
  ∃ r w', syscall_vfs_lseek f off SEEK_SET w = Ret (r, w') ∧
    ((r = off ∧ stack_file w' f = Some (l, Z.to_nat off)) ∨
     (r ≠ off ∧ stack_file w' f = Some (l, pos))).
Proof.
  intros [Hf Hof]%stack_file_Some Hoff.
  destruct (os_lseek_law _ _ off _ _ Hof Hoff) as (r & e & o & E & Hr & Hcase).
  unfold syscall_vfs_lseek. erewrite bind_run.
  2:{ eapply vfs_rpc_run.
      change (tee_supp_vfs_process _ ?h) with (vfs_lseek 2 h). simpl map.
      rewrite vfs_lseek_run, int_crosses, int64_crosses by (done || (unfold in_signed; lia)).
      change (s32 (u64 SEEK_SET)) with SEEK_SET. rewrite E. reflexivity. }
  simpl. exists r, (with_os w o). unfold bind, ret. simpl.
  rewrite int64_crosses by done. split; [done|].
  destruct Hcase as [[-> Hl]|[? Hl]]; [left|right]; (split; [done|by apply stack_file_eq]).
Qed.

Lemma syscall_fsync_law w f l pos :
  stack_file w f = Some (l, pos) →
  ∃ r w', syscall_vfs_fsync f w = Ret (r, w') ∧ stack_file w' f = Some (l, pos).
Proof.
  intros [Hf Hof]%stack_file_Some.
  destruct (os_fsync_law _ _ _ _ Hof) as (r & e & o & E & Hr & Hl).
  unfold syscall_vfs_fsync. erewrite bind_run.
  2:{ eapply vfs_rpc_run. change (tee_supp_vfs_process _ ?h) with (vfs_fsync 2 h). simpl map.
      rewrite vfs_fsync_run, int_crosses by done. rewrite E. reflexivity. }
  eexists _, (with_os w o). split; [done|by apply stack_file_eq].
Qed.

Lemma syscall_filesize_law w f l pos :
  stack_file w f = Some (l, pos) →
  ∃ r w', syscall_vfs_filesize f w = Ret (r, w') ∧
    (r = -1 ∨ r = Z.of_nat (length l)) ∧ stack_file w' f = Some (l, pos).
Proof.
  intros [Hf Hof]%stack_file_Some.
  destruct (os_fstat_law _ _ _ _ Hof) as (r & e & sz & o & E & Hr & Hl).
  unfold syscall_vfs_filesize. erewrite bind_run.
  2:{ eapply vfs_rpc_run. change (tee_supp_vfs_process _ ?h) with (vfs_filesize 2 h). simpl map.
      rewrite vfs_filesize_run, int_crosses by done. rewrite E. reflexivity. }
  eexists _, (with_os w o). split; [done|]. split; [|by apply stack_file_eq].
  simpl. case_decide as Hd.
  - destruct Hr as [?|(_ & -> & Hs)]; [done|right]. by apply int64_crosses.
  - left. by apply int64_crosses.
Qed.

Lemma syscall_close_law w f l pos :
  stack_file w f = Some (l, pos) → ∃ r w', syscall_vfs_close f w = Ret (r, w').
Proof.
  intros _. unfold syscall_vfs_close.
  destruct (os_run (OsClose (s32 (u64 f))) (p_os w)) as [[r e] o] eqn:E. erewrite bind_run.
  2:{ eapply vfs_rpc_run. change (tee_supp_vfs_process _ ?h) with (vfs_close 2 h). simpl map.
      rewrite vfs_close_run, E. reflexivity. }
  eexists _, _. done.
Qed.

(** *** Through a payload *)

Lemma payload_write w mo t b d bs :
  payload_at w mo t b d → (length bs ≤ length d)%nat →
  ∃ w', va_write (Ptr b 0) bs w = Ret (tt, w') ∧ payload_at w' mo t b (splice d 0 bs) ∧
        p_os w' = p_os w ∧ p_shm w' = p_shm w.
Proof.
  intros (Hf & Hp & Hb & Hs) Hl. eexists. split.
  { apply ch_write. unfold poke. rewrite Hb, decide_True by lia. reflexivity. }
  split; [|done]. split_and!; [exact Hf|exact Hp|apply lookup_insert_eq|].
  rewrite CMem.length_splice by lia. lia.
Qed.

Lemma payload_peek w mo t b d bs :
  payload_at w mo t b (splice d 0 bs) → (length bs ≤ length d)%nat →
  peek (p_mem w) (Ptr b 0) (Z.of_nat (length bs)) = Some bs.
Proof.
  intros (_ & _ & Hb & _) Hl. apply peek_Some.
  exists b, 0, Heap, (splice d 0 bs). rewrite CMem.length_splice by lia.
  split_and!; try done; try lia. rewrite Nat2Z.id. symmetry. by apply CMem.splice_read_same.
Qed.

Lemma id_crosses mo w t b d :
  payload_at w mo t b d → in_signed 32 (mobj_id mo) →
  in_unsigned 64 (u64 (mobj_id mo)) ∧ find_tshm (s32 (u64 (mobj_id mo))) (p_shm w) = Some t.
Proof.
  intros (Hf & _) Hid. split; [apply unsigned_range; lia|]. by rewrite int_crosses.
Qed.

Lemma syscall_write_law w f bs l pos :
  stack_file w f = Some (l, pos) → Z.of_nat (length bs) < 2 ^ 31 →
  ∃ r w' l' pos', syscall_vfs_write f bs w = Ret (r, w') ∧
    write_result l pos bs r l' pos' ∧ stack_file w' f = Some (l', pos').
Proof.
  intros [Hf Hof]%stack_file_Some Hl. set (n := Z.of_nat (length bs)) in *.
  destruct (with_payload_law n (-1)
    (λ buf_mobj, let! va_buf := mobj_get_va buf_mobj 0 n in
       do! va_write va_buf (zeros n) in do! va_write va_buf bs in
       let! params := vfs_rpc [THREAD_PARAM_VALUE INOUT Kernel.OPTEE_VFS_WRITE 0 0;
          THREAD_PARAM_VALUE IN (u64 f) (u64 n) 0; THREAD_PARAM_MEMREF IN (Some buf_mobj) 0 0] in
       let! b := value_b params in ret (s32 b))
    (λ r w', ∃ l' pos', write_result l pos bs r l' pos' ∧ os_file (p_os w') f = Some (l', pos')) w)
    as (r & w' & E & l' & pos' & Hw & Hof'); [lia| | | |].
  - intros a w1 w2 Hs (l' & pos' & Hw & Hf1). exists l', pos'. by rewrite Hs.
  - intros w1 Hs. exists l, pos. rewrite Hs. split; [|done]. exists 0%nat.
    split_and!; [lia|by right|done|lia].
  - intros mo t b d w1 Hp Hid Hsz Hn Hs.
    assert (length (zeros n) = length bs) as Hz by (unfold zeros, n; rewrite length_replicate; lia).
    pose proof Hp as (_ & _ & _ & Hd).
    assert (length bs ≤ length d)%nat as Hbd by lia.
    rewrite (bind_run _ _ _ _ _ (ch_get_va _ _ _ _ _ _ Hp Hn)).
    destruct (payload_write _ _ _ _ _ (zeros n) Hp) as (w2 & E2 & Hp2 & Ho2 & _); [lia|].
    rewrite (bind_run _ _ _ _ _ E2).
    destruct (payload_write _ _ _ _ _ bs Hp2) as (w3 & E3 & Hp3 & Ho3 & _);
      [rewrite CMem.length_splice; lia|].
    rewrite (bind_run _ _ _ _ _ E3).
    destruct (id_crosses _ _ _ _ _ Hp3 Hid) as [Hi Hfind].
    rewrite <- (Hs f), <- Ho2, <- Ho3 in Hof.
    destruct (os_write_law _ _ bs _ _ Hof Hl) as (r & e & o & l' & pos' & E & Hw & Hof').
    exists r, (with_os w3 o), (splice (splice d 0 (zeros n)) 0 bs). split.
    + erewrite bind_run.
      2:{ eapply vfs_rpc_run. change (tee_supp_vfs_process _ ?h) with (vfs_write 3 h). simpl map.
          rewrite (vfs_write_run _ _ _ _ _ w3 t b bs); try done.
          - rewrite (int_crosses f), (unsigned_id 64 n) by (done || (unfold in_unsigned; lia)).
            fold n in E. rewrite E. reflexivity.
          - by destruct Hp3 as (_ & ? & _).
          - rewrite (unsigned_id 64 n) by (unfold in_unsigned; lia).
            apply (payload_peek _ _ _ _ _ _ Hp3). rewrite CMem.length_splice; lia. }
      unfold bind, ret. simpl. do 2 f_equal. apply int_crosses.
      unfold in_signed. destruct Hw as (k & Hk & Hr & _). lia.
    + split; [done|]. exists l', pos'. done.
  - exists r, w', l', pos'. split; [exact E|]. split; [done|by apply stack_file_eq].
Qed.

Lemma splice_splice_peek (d zs data : bytes) :
  (length zs ≤ length d)%nat → (length data ≤ length zs)%nat →
  take (length zs) (splice (splice d 0 zs) 0 data) = data ++ drop (length data) zs.
Proof.
  intros Hz Hd. unfold splice. simpl.
  rewrite drop_app_le, app_assoc by lia. apply take_app_length'.
  rewrite length_app, length_drop. lia.
Qed.

(** What the normal world read, padded with the zeros of the payload. *)
Lemma padded_read_result l pos buf zs r data (fileof : nat → Prop) :
  length zs = length buf → Z.of_nat (length buf) < 2 ^ 31 →
  (r = -1 ∧ data = [] ∧ fileof pos) ∨
  (∃ k : nat, (k ≤ length (read_at l pos (length buf)))%nat ∧ r = Z.of_nat k ∧
     data = take k (read_at l pos (length buf)) ∧ fileof (pos + k)%nat) →
  (length data ≤ length buf)%nat ∧ in_signed 64 r ∧
  ∃ pos', read_result l pos buf r (data ++ drop (length data) zs) pos' ∧ fileof pos'.
Proof.
  intros Hz Hl [(-> & -> & Hf)|(k & Hk & -> & -> & Hf)].
  - split; [simpl; lia|]. split; [done|]. exists pos. split; [|done].
    split; [simpl; rewrite length_drop; lia|by left].
  - assert (k ≤ length buf)%nat as Hkb by (rewrite length_read_at in Hk; lia).
    assert (length (take k (read_at l pos (length buf))) = k) as Hdk by (rewrite length_take; lia).
    split; [lia|]. split; [unfold in_signed; lia|]. exists (pos + k)%nat. split; [|done].
    split; [rewrite length_app, length_drop; lia|]. right. exists k.
    split_and!; [done|done| |done]. rewrite take_app_le, take_ge by lia. done.
Qed.

(** The read request, and the payload copied back. *)
Lemma read_request_run w mo t b d f n zs r e data o :
  payload_at w mo t b (splice d 0 zs) → in_signed 32 (mobj_id mo) → in_unsigned 64 (shm_size t) →
  in_signed 32 f → n = Z.of_nat (length zs) → n < 2 ^ 31 → (length zs ≤ length d)%nat →
  os_run (OsRead f false n) (p_os w) = ((r, e, data), o) → (length data ≤ length zs)%nat → in_signed 64 r →
  ∃ w' d', payload_at w' mo t b d' ∧ p_os w' = o ∧
    (let! params := vfs_rpc [THREAD_PARAM_VALUE INOUT Kernel.OPTEE_VFS_READ 0 0;
       THREAD_PARAM_MEMREF OUT (Some mo) 0 0; THREAD_PARAM_VALUE IN (u64 f) (u64 n) 0] in
     let! buf' := va_read (Ptr b 0) n in
     let! b := value_b params in ret (s64 b, buf')) w = Ret ((r, data ++ drop (length data) zs), w').
Proof.
  intros Hp Hid Hsz Hf Hn Hn31 Hzd E Hdl Hr. destruct (id_crosses _ _ _ _ _ Hp Hid) as [Hi Hfind].
  set (d2 := splice d 0 zs) in *. assert (length d2 = length d) as Hd2 by (apply CMem.length_splice; lia).
  set (w' := Proc (p_shm w) (Mem (m_next (p_mem w)) (<[b := Block Heap (splice d2 0 data)]> (m_blocks (p_mem w)))) o).
  exists w', (splice d2 0 data). destruct Hp as (? & ? & ? & ?). split; [|split; [done|]].
  - split_and!; [done|done|apply lookup_insert_eq|]. rewrite CMem.length_splice by lia. lia.
  - erewrite bind_run.
    2:{ eapply vfs_rpc_run. change (tee_supp_vfs_process _ ?h) with (vfs_read 3 h). simpl map.
        rewrite (vfs_read_run _ _ _ _ _ w t b d2) with (r := r) (e := e) (data := data) (o := o); try done; [|lia].
        by rewrite (int_crosses f), (unsigned_id 64 n) by (done || (unfold in_unsigned; lia)). }
    erewrite bind_run.
    2:{ eapply (ch_read _ n _ (data ++ drop (length data) zs)). apply peek_Some.
        exists b, 0, Heap, (splice d2 0 data).
        split_and!; try done; try lia; [apply lookup_insert_eq|rewrite CMem.length_splice; lia|].
        replace (Z.to_nat n) with (length zs) by lia. symmetry. apply splice_splice_peek; lia. }
    unfold bind, ret. simpl. do 3 f_equal. by apply int64_crosses.
Qed.

Lemma syscall_read_law w f buf l pos :
  stack_file w f = Some (l, pos) → Z.of_nat (length buf) < 2 ^ 31 →
  ∃ r buf' w' pos', syscall_vfs_read f buf w = Ret ((r, buf'), w') ∧
    read_result l pos buf r buf' pos' ∧ stack_file w' f = Some (l, pos').
Proof.
  intros [Hf Hof]%stack_file_Some Hl. set (n := Z.of_nat (length buf)) in *.
  destruct (with_payload_law n (-1, buf)
    (λ buf_mobj, let! va_buf := mobj_get_va buf_mobj 0 n in
       do! va_write va_buf (zeros n) in
       let! params := vfs_rpc [THREAD_PARAM_VALUE INOUT Kernel.OPTEE_VFS_READ 0 0;
          THREAD_PARAM_MEMREF OUT (Some buf_mobj) 0 0; THREAD_PARAM_VALUE IN (u64 f) (u64 n) 0] in
       let! buf' := va_read va_buf n in
       let! b := value_b params in ret (s64 b, buf'))
    (λ a w', ∃ pos', read_result l pos buf a.1 a.2 pos' ∧ os_file (p_os w') f = Some (l, pos')) w)
    as ([r buf'] & w' & E & pos' & Hr & Hof'); [lia| | | |].
  - intros a w1 w2 Hs (pos' & Hr & Hf1). exists pos'. by rewrite Hs.
  - intros w1 Hs. exists pos. rewrite Hs. split; [|done]. split; [done|]. by left.
  - intros mo t b d w1 Hp Hid Hsz Hn Hs.
    assert (length (zeros n) = length buf) as Hz by (unfold zeros, n; rewrite length_replicate; lia).
    pose proof Hp as (_ & _ & _ & Hd).
    rewrite (bind_run _ _ _ _ _ (ch_get_va _ _ _ _ _ _ Hp Hn)).
    destruct (payload_write _ _ _ _ _ (zeros n) Hp) as (w2 & E2 & Hp2 & Ho2 & _); [lia|].
    rewrite (bind_run _ _ _ _ _ E2). rewrite <- (Hs f), <- Ho2 in Hof.
    destruct (os_read_law _ _ n _ _ Hof) as (r & e & data & o & E & Hcase); [lia|].
    unfold n in Hcase. rewrite Nat2Z.id in Hcase.
    destruct (padded_read_result l pos buf (zeros n) r data (λ q, os_file o f = Some (l, q)) Hz Hl Hcase)
      as (Hdl & Hr & Hres).
    destruct (read_request_run w2 mo t b d f n (zeros n) r e data o) as (w3 & d3 & Hp3 & <- & E3); try done; [lia..|].
    by exists (r, data ++ drop (length data) (zeros n)), w3, d3.
  - exists r, buf', w', pos'. split; [exact E|]. split; [done|by apply stack_file_eq].
Qed.

#[export] Instance stack_laws : FileLaws (proc O) := {
  fd_file := stack_file;
  lseek_law := syscall_lseek_law;
  write_law := syscall_write_law;
  read_law := syscall_read_law;
  fsync_law := syscall_fsync_law;
  filesize_law := syscall_filesize_law;
  close_law := syscall_close_law
}.
End laws.

(** ** Properties of the whole stack *)
Section stack_properties.
Context {O : Type} `{Channel O}.
Implicit Types (w : proc O).

(** A [write] of the trusted application reaches the file.  Through the
    kernel's marshalling, the payload, the supplicant's handler and the system
    call of the normal world, [syscall_vfs_write] returns, and its result is
    that of one POSIX write of the same bytes at the offset of the open file:
    the descriptor, the count and the result keep their values across the
    64-bit fields of the message; with no payload to be had it returns -1 and
    writes nothing. *)
Theorem stack_write w f bs l pos :
  stack_file w f = Some (l, pos) → Z.of_nat (length bs) < 2 ^ 31 →
  ∃ r w' l' pos', syscall_vfs_write f bs w = Ret (r, w') ∧
    write_result l pos bs r l' pos' ∧ stack_file w' f = Some (l', pos').
Proof. apply syscall_write_law. Qed.

(** A [read] of the trusted application gets the file's bytes.
    [syscall_vfs_read] returns, never changes the file, keeps the size of the
    buffer, and when it returns [k] the first [k] bytes of the buffer are the
    bytes of the file at its offset. *)
Theorem stack_read w f buf l pos :
  stack_file w f = Some (l, pos) → Z.of_nat (length buf) < 2 ^ 31 →
  ∃ r buf' w' pos', syscall_vfs_read f buf w = Ret ((r, buf'), w') ∧
    read_result l pos buf r buf' pos' ∧ stack_file w' f = Some (l, pos').
Proof. apply syscall_read_law. Qed.

(** What SQLite wrote and synced is on the disk of the normal world.  From
    an open file that SQLite sees as [v], with the whole stack below, if
    [demoWrite] and then [demoSync] return [SQLITE_OK], the operating system's
    file holds [v] with the bytes written over it. *)
Theorem written_and_synced_is_on_disk p w v zBuf iAmt iOfst flags p1 w1 p2 w2 :
  demo_repr p w v →
  0 ≤ iAmt ≤ Z.of_nat (length zBuf) → iAmt < 2 ^ 31 → 0 ≤ iOfst → iOfst + iAmt < 2 ^ 63 →
  demoWrite p zBuf iAmt iOfst w = Ret ((SQLITE_OK, p1), w1) →
  demoSync p1 flags w1 = Ret ((SQLITE_OK, p2), w2) →
  ∃ pos, os_file (p_os w2) (fd p) =
    Some (write_at v (Z.to_nat iOfst) (take (Z.to_nat iAmt) zBuf), pos).
Proof.
  intros (l & pos & Hf & Hok & Hv)%demo_repr_open Ha Hm Ho Hom E1 E2.
  destruct (demoWrite_spec p w l pos zBuf iAmt iOfst)
    as (rc & p1' & w1' & E1' & Hok1 & Hfd & [[l1 pos1] Hf1] & Hrc); try done.
  rewrite E1 in E1'. injection E1' as <- <- <-. destruct Hrc as [[_ Hv1]|?]; [|done].
  rewrite Hv in Hv1. simpl in Hv1.
  destruct (demoSync_spec p1 w1 _ flags (conj Hok1 Hv1))
    as (rc & p2' & w2' & l2 & pos2 & E2' & Hf2 & _ & _ & Hrc).
  rewrite E2 in E2'. injection E2' as <- <- <-.
  destruct Hrc as [[_ ->]|[[? _]|?]]; try done.
  rewrite Hfd in Hf2. apply stack_file_Some in Hf2 as [_ ->]. eauto.
Qed.

(** [truncate] never truncates.  The kernel sends it as the operation of
    [ftruncate] with three parameters; the supplicant's handler wants two and
    refuses.  Every file is as it was, and the call reports success. *)
Theorem truncate_changes_nothing path size w :
  ∃ r w', syscall_vfs_truncate path size w = Ret (r, w') ∧ (r = 0 ∨ r = -1) ∧ same_files w w'.
Proof.
  destruct (with_payload_law (strlen path + 1) (-1)
    (λ path_mobj, let! va := mobj_get_va path_mobj 0 (strlen path + 1) in
       do! va_write va (path ++ [0]) in
       let! params := vfs_rpc [THREAD_PARAM_VALUE INOUT Kernel.OPTEE_VFS_FTRUNCATE 0 0;
          THREAD_PARAM_MEMREF IN (Some path_mobj) 0 0; THREAD_PARAM_VALUE IN (u64 size) 0 0] in
       let! b := value_b params in ret (s32 b))
    (λ r w', (r = 0 ∨ r = -1) ∧ same_files w w') w) as (r & w' & E & Hr & Hs);
    [unfold strlen; lia| | | |].
  - intros a w1 w2 Hs12 [Ha Hs1]. split; [done|]. intros f. by rewrite Hs12.
  - intros w1 Hs. split; [by right|done].
  - intros mo t b d w1 Hp Hid Hsz Hn Hs. pose proof Hp as (_ & _ & _ & Hd). unfold strlen in *.
    rewrite (bind_run _ _ _ _ _ (ch_get_va _ _ _ _ _ _ Hp Hn)).
    destruct (payload_write _ _ _ _ _ (path ++ [0]) Hp) as (w2 & E2 & Hp2 & Ho2 & _);
      [rewrite length_app; simpl; lia|].
    rewrite (bind_run _ _ _ _ _ E2). exists 0, w2, (splice d 0 (path ++ [0])). split.
    + match goal with |- context [vfs_rpc ?ps] => set (request := ps) end.
      erewrite bind_run; [|apply (vfs_rpc_run request _ TEEC_ERROR_BAD_PARAMETERS
                                    (Handler (map to_ioctl request) w2)); reflexivity].
      done.
    + split; [done|]. split; [by left|]. intros f. by rewrite Ho2.
  - exists r, w'. by split_and!.
Qed.
End stack_properties.

(** ** Requests that reach their handler *)

(** The handler written for a call. *)
Definition handler_for {O} `{Posix O} {A} (c : vfs_call A) : nat → C (handler O) Z :=
  match c with
  | VfsOpen _ _ _ => vfs_open | VfsClose _ => vfs_close | VfsAccess _ _ => vfs_access
  | VfsGetcwd _ => vfs_getcwd | VfsStat _ _ => vfs_stat | VfsFstat _ _ => vfs_fstat
  | VfsWrite _ _ => vfs_write | VfsMkdir _ _ => vfs_mkdir | VfsRmdir _ => vfs_rmdir
  | VfsUnlink _ _ => vfs_unlink | VfsFtruncate _ _ => vfs_ftruncate | VfsRead _ _ => vfs_read
  | VfsFchmod _ _ => vfs_fchmod | VfsFchown _ _ _ => vfs_fchown | VfsGeteuid => vfs_geteuid
  | VfsGetpid => vfs_getpid | VfsGetenv _ => vfs_getenv | VfsLseek _ _ _ => vfs_lseek
  | VfsFsync _ => vfs_fsync | VfsSleep _ => vfs_sleep | VfsPread _ _ _ => vfs_pread
  | VfsPwrite _ _ _ => vfs_pwrite | VfsTruncate _ _ => vfs_truncate
  | VfsGettimeofday _ _ => vfs_getdayoftime | VfsFcntlVoid _ _ => vfs_fcntl_void
  | VfsFcntlInt _ _ _ => vfs_fcntl_int | VfsFcntlFlock _ _ _ => vfs_fcntl_flock
  | VfsUtimes _ _ => vfs_utimes | VfsTime _ => vfs_time | VfsUsleep _ => vfs_usleep
  | VfsFilesize _ => vfs_filesize
  end.

Definition is_truncate {A} (c : vfs_call A) : bool :=
  match c with VfsTruncate _ _ => true | _ => false end.

Section agreement.
Context {O : Type} `{Posix O}.

(** The two worlds number their operations alike.  For every described
    system call but [truncate], a message whose first parameter carries the
    operation the kernel sends is handled by the supplicant's function of that
    call, whatever its other parameters. *)
Theorem requests_reach_their_handler {W} `{Rpc W} {A} (c : vfs_call A) (d : desc W A) n
    (h : handler O) p :
  describe c = Some d → is_truncate c = false →
  h_params h !! 0%nat = Some p → par_a p = d_op d →
  tee_supp_vfs_process n h = handler_for c n h.
Proof.
  intros Hd Ht Hp Ha. unfold tee_supp_vfs_process, bind, param_at. rewrite Hp. simpl. rewrite Ha.
  destruct c; simplify_eq/=; reflexivity.
Qed.

(** [pwrite] brings the supplicant down.  The handler of a well-formed
    [pwrite] request stores the result of its only [get_value] in [val0] and
    reads the descriptor through [val1], which is still [NULL]. *)
Theorem pwrite_dereferences_null (h : handler O) p0 p1 p2 :
  h_params h = [p0; p1; p2] → par_a p0 = Kernel.OPTEE_VFS_PWRITE →
  tee_supp_param_is_value p1 = true → tee_supp_vfs_process 3 h = Undef.
Proof.
  intros Hps Ha Hv. unfold tee_supp_vfs_process, bind at 1, param_at. rewrite Hps. simpl. rewrite Ha.
  change (vfs_pwrite 3 h = Undef). unfold vfs_pwrite, expect. rewrite decide_False by naive_solver.
  erewrite need_run by (apply (get_value_run 3 1 _ p1); [by rewrite Hps|lia|done]).
  unfold bind. destruct (tee_supp_param_to_va 2 h) as [[q h1]|]; reflexivity.
Qed.
End agreement.
