(* ===== verification/Loopback.v ===== *)
(** * A concrete channel, and the properties at work

An operating system whose files live in memory, and a channel that hands every
request straight to the supplicant's switch: [PosixLaws], [RpcLaws] and
[Channel] hold of them, so the theorems of [SuppShm], [SuppVfs], [SuppLoop] and
[Transport] are applied here to concrete requests. *)
From S2P Require Import Prelude CMem UteeVfs MemFile TeeVfs Protocol KernelVfs SuppShm SuppVfs SuppSafe SuppLoop Transport.
#[local] Open Scope Z_scope.
#[local] Open Scope c_scope.

(** ** The operating system *)

Record host : Type := Host { host_files : gmap Z (bytes * nat); host_ids : Z }.

Definition set_file (o : host) (f : Z) (x : bytes * nat) : host :=
  Host (<[f := x]> (host_files o)) (host_ids o).

Definition host_lseek (f off whence : Z) (o : host) : Z * Z * host :=
  match host_files o !! f with
  | Some (l, _) =>
      if decide (whence = SEEK_SET ∧ 0 ≤ off < 2 ^ 63) then ((off, 0), set_file o f (l, Z.to_nat off))
      else ((-1, 22), o)
  | None => ((-1, 9), o)
  end.

Definition host_write (f : Z) (data : option bytes) (o : host) : Z * Z * host :=
  match host_files o !! f, data with
  | Some (l, pos), Some bs =>
      ((Z.of_nat (length bs), 0), set_file o f (write_at l pos bs, (pos + length bs)%nat))
  | _, _ => ((-1, 9), o)
  end.

Definition host_read (f : Z) (null : bool) (n : Z) (o : host) : Z * Z * bytes * host :=
  match host_files o !! f with
  | Some (l, pos) =>
      if null then ((-1, 14, []), o)
      else let got := read_at l pos (Z.to_nat n) in
           ((Z.of_nat (length got), 0, got), set_file o f (l, (pos + length got)%nat))
  | None => ((-1, 9, []), o)
  end.

Definition host_fstat (f : Z) (o : host) : Z * Z * Z * host :=
  match host_files o !! f with
  | Some (l, _) =>
      if decide (Z.of_nat (length l) < 2 ^ 63) then ((0, 0, Z.of_nat (length l)), o)
      else ((-1, 75, 0), o)
  | None => ((-1, 9, 0), o)
  end.

(** Files open at descriptors can be used; every other call fails, except those
    that make shared memory. *)
#[export] Instance host_posix : Posix host := λ A c,
  match c in oscall A return host → A * host with
  | OsLseek f off whence => host_lseek f off whence
  | OsWrite f data _ => host_write f data
  | OsRead f null n => host_read f null n
  | OsFstatSize f => host_fstat f
  | OsFsync _ | OsSleep _ | OsGeteuid | OsGetpid | OsTime | OsClose _ => λ o, ((0, 0), o)
  | OsOpen _ _ _ | OsAccess _ _ | OsMkdir _ _ | OsRmdir _ | OsUnlink _ | OsFtruncate _ _
  | OsFchmod _ _ | OsFchown _ _ _ | OsPwrite _ _ _ _ | OsTruncate _ _ | OsFcntlVoid _ _
  | OsFcntlInt _ _ _ | OsUtimes _ _ => λ o, ((-1, 38), o)
  | OsGetcwd _ _ => λ o, ((38, []), o)
  | OsStat _ _ | OsFstat _ _ | OsPread _ _ _ _ | OsFcntlFlock _ _ _ => λ o, ((-1, 38, []), o)
  | OsGettimeofday _ _ => λ o, ((-1, 38, [], []), o)
  | OsGetenv _ => λ o, (None, o)
  | OsUsleep _ => λ o, (0, o)
  | OsCalloc | OsThreadCreate | OsSupplSend _ _ => λ o, (true, o)
  | OsMemalign n => λ o, (Some (zeros n), o)
  | OsShmAlloc _ n => λ o, ((7, host_ids o, n), Host (host_files o) (host_ids o + 1))
  | OsShmRegister _ _ _ => λ o, ((7, host_ids o), Host (host_files o) (host_ids o + 1))
  | OsMmap n _ => λ o, (Some (zeros n), o)
  | OsMunmap _ _ => λ o, (0, o)
  | OsSupplRecv _ _ => λ o, (None, o)
  | OsLoadTA _ _ _ => λ o, ((1, 0, []), o)
  end.

#[export] Instance host_services : OtherServices host := {
  other_service _ _ := ret TEEC_ERROR_NOT_SUPPORTED;
  rpmb_process_request _ _ _ _ := ret TEEC_ERROR_NOT_SUPPORTED
}.

#[export] Program Instance host_laws : PosixLaws host := {
  os_file o f := host_files o !! f
}.
Next Obligation.
  intros o f off l pos Hf Hoff. unfold os_run. simpl. unfold host_lseek. rewrite Hf.
  rewrite decide_True by done. eexists off, _, _. split; [done|].
  split; [unfold in_signed; lia|]. left. split; [done|]. apply lookup_insert_eq.
Qed.
Next Obligation.
  intros o f bs l pos Hf _. unfold os_run. simpl. unfold host_write. rewrite Hf.
  eexists _, _, _, _, _. split; [done|]. split; [|apply lookup_insert_eq].
  exists (length bs). split_and!; [lia|by left|by rewrite take_ge by lia|done].
Qed.
Next Obligation.
  intros o f n l pos Hf _. unfold os_run. simpl. unfold host_read. rewrite Hf.
  eexists _, _, _, _. split; [done|]. right. exists (length (read_at l pos (Z.to_nat n))).
  split_and!; [lia|done|by rewrite take_ge by lia|apply lookup_insert_eq].
Qed.
Next Obligation.
  intros o f l pos Hf. eexists 0, _, _. split; [reflexivity|].
  split; [unfold in_signed; lia|done].
Qed.
Next Obligation.
  intros o f l pos Hf. unfold os_run. simpl. unfold host_fstat. rewrite Hf.
  case_decide; eexists _, _, _, _; (split; [done|]); (split; [|done]).
  - right. split; [lia|]. split; [done|]. unfold in_signed. lia.
  - by left.
Qed.

(** It delivers no more than it is asked for. *)
#[export] Instance host_sizes : PosixSizes host.
Proof.
  intros A c o.
  destruct c; simpl; unfold fits; simpl; try destruct null; try destruct tv_null;
    try destruct tz_null; try (simpl; lia); try done.
  - unfold os_run. simpl. unfold host_read.
    destruct (host_files o !! fd) as [[l pos]|]; simpl; lia.
  - unfold os_run. simpl. unfold host_read.
    destruct (host_files o !! fd) as [[l pos]|]; simpl; [|lia].
    unfold read_at. rewrite length_take. lia.
Qed.

(** ** The channel *)

Abbreviation node := (proc host).

(** An identifier above all those in use. *)
Definition next_id (l : list tee_shm) : Z := foldr (λ t i, Z.max (shm_id t + 1) i) 1 l.

Definition loop_alloc (n : Z) : C node (option mobj) :=
  run (λ w, let i := next_id (p_shm w) in
            let b := fresh (dom (m_blocks (p_mem w))) in
            if decide (in_signed 32 i ∧ in_unsigned 64 n)
            then (Some (Mobj i n),
                  Proc (Tshm i (Ptr b 0) n false 7 :: p_shm w)
                       (Mem (m_next (p_mem w)) (<[b := Block Heap (zeros n)]> (m_blocks (p_mem w))))
                       (p_os w))
            else (None, w)).

Definition loop_free (m : option mobj) : C node unit :=
  modify (λ w, match m with
               | None => w
               | Some mo => Proc (filter (λ t, shm_id t ≠ mobj_id mo) (p_shm w)) (p_mem w) (p_os w)
               end).

Definition loop_get_va (mo : mobj) (o n : Z) : C node ptr :=
  λ w, match find_tshm (mobj_id mo) (p_shm w) with
       | Some t => Ret (padd (shm_p t) o, w)
       | None => Undef
       end.

Definition loop_config : thread_config := ThreadConfig 3 0.

Definition loop_rpc (cmd : Z) (ps : list thread_param) : C node (Z * list thread_param) :=
  λ w, match dispatch loop_config cmd (length ps) (Handler (map to_ioctl ps) w) with
       | Ret (r, h) => Ret ((r, answer_params ps (h_params h)), h_proc h)
       | Undef => Undef
       end.

#[export] Instance loop_kernel : Rpc node := {
  OPTEE_RPC_CMD_VFS := Supplicant.OPTEE_MSG_RPC_CMD_OPEN;
  thread_rpc_alloc_payload := loop_alloc;
  thread_rpc_free_payload := loop_free;
  mobj_get_va := loop_get_va;
  va_write p bs := zoom p_mem (λ m w, Proc (p_shm w) m (p_os w)) (store p bs);
  va_read p n := λ w, lift (peek (p_mem w) p n) w;
  thread_rpc_cmd := loop_rpc;
  kmalloc n := ret true
}.

Lemma next_id_above l i t : find_tshm i l = Some t → i < next_id l.
Proof.
  induction l as [|u l IH]; simpl; [done|]. case_decide; [lia|]. intros ?%IH. lia.
Qed.

Lemma find_tshm_filter l i j :
  i ≠ j → find_tshm i (filter (λ t, shm_id t ≠ j) l) = find_tshm i l.
Proof.
  intros Hij. induction l as [|u l IH]; simpl; [done|].
  rewrite filter_cons. case_decide as Hu; simpl; [by rewrite IH|].
  rewrite decide_False; [done|]. intros <-. apply Hij. by destruct (decide (shm_id u = j)).
Qed.

#[export] Program Instance loop_channel : Channel host := {
  ch_config := loop_config
}.
Next Obligation. done. Qed.
Next Obligation. intros ps w r h E. change (loop_rpc Supplicant.OPTEE_MSG_RPC_CMD_OPEN ps w = Ret ((r, answer_params ps (h_params h)), h_proc h)).
  unfold loop_rpc. change Supplicant.OPTEE_MSG_RPC_CMD_OPEN with (@OPTEE_RPC_CMD_VFS _ loop_kernel). by rewrite E. Qed.
Next Obligation.
  intros n w Hn. simpl. unfold loop_alloc, run. case_decide as Hd.
  - eexists _, _. split; [done|]. split; [done|]. intros mo [= <-].
    exists (Tshm (next_id (p_shm w)) (Ptr (fresh (dom (m_blocks (p_mem w)))) 0) n false 7),
      (fresh (dom (m_blocks (p_mem w)))), (zeros n).
    split; [|exact Hd]. split_and!; simpl; [by rewrite decide_True|done|apply lookup_insert_eq|].
    unfold zeros. rewrite length_replicate. lia.
  - eexists _, _. split; [done|]. split; [done|]. by intros mo.
Qed.
Next Obligation. intros mo w t b d _. by eexists. Qed.
Next Obligation. by intros [? ? ?]. Qed.
Next Obligation.
  intros n w m w' mo0 t0 b0 d0 E (Hf & Hp & Hb & Hs). simpl in E.
  assert (mobj_id mo0 < next_id (p_shm w)) as Hid by by eapply next_id_above.
  assert (fresh (dom (m_blocks (p_mem w))) ≠ b0) as Hne.
  { intros Heq. apply (is_fresh (dom (m_blocks (p_mem w)))). rewrite Heq.
    by eapply elem_of_dom_2. }
  unfold loop_alloc, run in E. case_decide; injection E as <- <-.
  2:{ split; [by split_and!|]. by intros mo t b d. }
  split.
  - split_and!; simpl; [by rewrite decide_False by lia|done|by rewrite lookup_insert_ne|done].
  - intros mo t b d [= <-] (Hf' & Hp' & _). simpl in *. rewrite decide_True in Hf' by done.
    injection Hf' as <-. simpl in Hp'. injection Hp' as <-. split; [lia|done].
Qed.
Next Obligation.
  intros mo w w' mo0 t0 b0 d0 E Hne (Hf & Hp & Hb & Hs). simpl in E.
  unfold loop_free, modify in E. injection E as <-. split_and!; simpl; try done.
  by rewrite find_tshm_filter.
Qed.
Next Obligation.
  intros mo n w t b d (Hf & Hp & _) _. simpl. unfold loop_get_va. rewrite Hf, Hp. done.
Qed.
Next Obligation. intros p bs w m E. simpl. unfold zoom, store, update. by rewrite E. Qed.
Next Obligation. intros p n w bs E. simpl. by rewrite E. Qed.

(** ** Examples *)

(** A process with no shared memory and one file, open at descriptor 3. *)
Definition ex_node : node := Proc [] mem_empty (Host {[3 := ([1; 2; 3; 4], 0%nat)]} 1).

Definition ex_value (a b c : Z) : tee_ioctl_param := Param 3 a b c.

Definition ex_alloc : handler host := Handler [ex_value 0 16 0] ex_node.
Definition ex_alloc_config : thread_config := ThreadConfig 3 TEE_GEN_CAP_REG_MEM.

Definition ex_alloced : handler host :=
  match process_alloc ex_alloc_config 1 ex_alloc with Ret (_, h) => h | Undef => ex_alloc end.

Lemma ex_wf : mem_wf (p_mem (h_proc ex_alloc)).
Proof. split; [reflexivity|]. intros b _. apply lookup_empty. Qed.

Lemma process_alloc_failed_witness :
  ∃ r h', process_alloc ex_alloc_config 2 ex_alloc = Ret (r, h') ∧ r ≠ TEEC_SUCCESS ∧
    p_shm (h_proc h') = p_shm (h_proc ex_alloc) ∧
    m_blocks (p_mem (h_proc h')) = m_blocks (p_mem (h_proc ex_alloc)).
Proof.
  exists TEEC_ERROR_BAD_PARAMETERS, ex_alloc. split; [reflexivity|]. split; [discriminate|].
  apply (process_alloc_failed ex_alloc_config 2 ex_alloc TEEC_ERROR_BAD_PARAMETERS ex_alloc ex_wf);
    [reflexivity|discriminate].
Defined.

Lemma process_alloc_free_witness :
  ∃ p t, h_params ex_alloced !! 0%nat = Some p ∧ par_c p = u64 (shm_id t) ∧
    p_shm (h_proc ex_alloced) = t :: p_shm (h_proc ex_alloc) ∧ shm_size t = par_b p ∧
    (in_signed 32 (shm_id t) → ∀ o q ps,
      tee_supp_param_is_value q = true → par_b q = u64 (shm_id t) →
      ∃ r h2,
        process_free 1 (Handler (q :: ps) (Proc (p_shm (h_proc ex_alloced)) (p_mem (h_proc ex_alloced)) o))
          = Ret (r, h2) ∧
        p_shm (h_proc h2) = p_shm (h_proc ex_alloc) ∧
        (r = TEEC_SUCCESS ∧ m_blocks (p_mem (h_proc h2)) = m_blocks (p_mem (h_proc ex_alloc))
         ∨ r = TEEC_ERROR_BAD_PARAMETERS ∧ shm_registered t = false ∧
           p_mem (h_proc h2) = p_mem (h_proc ex_alloced))).
Proof.
  apply (process_alloc_free ex_alloc_config 1 ex_alloc ex_alloced ex_wf). vm_compute. reflexivity.
Defined.

Definition ex_shm : tee_shm := Tshm 5 (Ptr 1 0) 16 true 7.
Definition ex_ref (offs size : Z) : tee_ioctl_param := Param 6 offs size 5.
Definition ex_read_request : handler host :=
  Handler [Param 3 Supplicant.OPTEE_VFS_READ 0 0; ex_ref 4 12; Param 1 3 12 0]
    (Proc [ex_shm] (Mem 2 {[1 := Block Heap (zeros 16)]}) (p_os ex_node)).

Lemma buffers_in_bounds_witness :
  ∃ shm, get_param 3 1 ex_read_request = Ret (Some shm, ex_read_request) ∧
         tee_supp_param_to_va 1 ex_read_request = Ret (buffer shm, ex_read_request) ∧
         buffer shm = Ptr 1 4 ∧ size shm = 12.
Proof.
  pose proof (buffers_in_bounds 3 1 ex_read_request (ex_ref 4 12) ex_shm eq_refl
    ltac:(split_and!; by vm_compute) ltac:(lia) ltac:(by vm_compute) eq_refl) as H.
  exact H.
Defined.

Lemma vfs_process_frame_witness :
  ∃ r h', tee_supp_vfs_process 3 ex_read_request = Ret (r, h') ∧ answer_only ex_read_request h'.
Proof.
  destruct (tee_supp_vfs_process 3 ex_read_request) as [[r h']|] eqn:E;
    [|vm_compute in E; discriminate E].
  exists r, h'. split; [reflexivity|]. exact (vfs_process_frame 3 ex_read_request r h' E).
Defined.

Lemma vfs_process_refused_witness :
  ∃ r h', tee_supp_vfs_process 2 ex_read_request = Ret (r, h') ∧ h' = ex_read_request.
Proof.
  exists TEEC_ERROR_BAD_PARAMETERS, ex_read_request. split; [reflexivity|].
  apply (vfs_process_refused 2 ex_read_request TEEC_ERROR_BAD_PARAMETERS);
    [reflexivity|discriminate|discriminate].
Defined.

Lemma well_sized_requests_return_witness :
  ∃ r h', tee_supp_vfs_process 3 ex_read_request = Ret (r, h').
Proof.
  apply (well_sized_requests_return 3 ex_read_request (Param 3 Supplicant.OPTEE_VFS_READ 0 0));
    [reflexivity|simpl; lia|].
  apply (memref_room 3 1 ex_read_request (ex_ref 4 12) ex_shm 1 Heap (zeros 16));
    first [reflexivity | lia | split_and!; by vm_compute | vm_compute; split; discriminate | idtac].
Defined.

(** Two bytes of the object are named, four are asked for, and the file has
    them. *)
Definition ex_overrun : handler host :=
  Handler [Param 3 Supplicant.OPTEE_VFS_READ 0 0; ex_ref 14 2; Param 1 3 4 0]
    (Proc [ex_shm] (Mem 2 {[1 := Block Heap (zeros 16)]}) (p_os ex_node)).

Lemma vfs_read_overruns_witness :
  memref_in (p_shm (h_proc ex_overrun)) (ex_ref 14 2) ex_shm ∧
  tee_supp_vfs_process 3 ex_overrun = Undef.
Proof.
  assert (memref_in (p_shm (h_proc ex_overrun)) (ex_ref 14 2) ex_shm) as Hin
    by (split_and!; [reflexivity|reflexivity|vm_compute; discriminate]).
  split; [exact Hin|].
  apply (vfs_read_overruns ex_overrun (Param 3 Supplicant.OPTEE_VFS_READ 0 0) (ex_ref 14 2)
           (Param 1 3 4 0) ex_shm 1 0 Heap (zeros 16) 4 0 1 [2; 3; 4]
           (Host {[3 := ([1; 2; 3; 4], 4%nat)]} 1)); try reflexivity.
  - split_and!; by vm_compute.
  - split; by vm_compute.
  - exact Hin.
Defined.

(** The name ["A"], which is not set, and no buffer. *)
Definition ex_getenv : handler host :=
  Handler [Param 3 Supplicant.OPTEE_VFS_GETENV 0 0; Param 5 0 16 5; Param 6 0 0 (u64 (-1))]
    (Proc [ex_shm] (Mem 2 {[1 := Block Heap (65 :: zeros 15)]}) (p_os ex_node)).

Lemma unset_variable_is_undefined_witness : tee_supp_vfs_process 3 ex_getenv = Undef.
Proof.
  apply (unset_variable_is_undefined ex_getenv (Param 3 Supplicant.OPTEE_VFS_GETENV 0 0)
           (Param 5 0 16 5) (Param 6 0 0 (u64 (-1))) (Ptr 1 0) SharedMemory_zero [65]
           (p_os ex_node)); first [reflexivity | discriminate].
Defined.

Definition ex_request : rpc_request :=
  Request 30 3 [Param TEE_IOCTL_PARAM_ATTR_META 0 0 0; Param 3 18 0 0; Param 1 1 0 0; Param 0 0 0 0;
                Param 0 0 0 0].

Lemma find_params_spec_witness :
  ∃ f, find_params ex_request = Some f ∧
    f_func f = 30 ∧ (f_num_meta f + f_num_params f = 3)%nat ∧
    (∀ i q, (i < f_num_meta f)%nat → rq_params ex_request !! i = Some q → is_meta q = true) ∧
    ((0 < f_num_params f)%nat →
       ∃ q, rq_params ex_request !! f_num_meta f = Some q ∧ is_meta q = false) ∧
    (f_ok f = true ↔
       ∀ i q, (f_num_meta f ≤ i < 3)%nat → rq_params ex_request !! i = Some q → is_meta q = false).
Proof. apply (find_params_spec ex_request). simpl. lia. Defined.

(** One thread has taken a request and created its successor. *)
Definition ex_pool : pool := Pool 1 false [Working; Starting].

Lemma ex_pool_reachable : reachable false ex_pool.
Proof.
  unfold reachable.
  apply (rtc_l _ _ (Pool 0 false [Entering])); [by apply (step_enter _ pool_init 0); [split|]|].
  apply (rtc_l _ _ (Pool 1 false [Waiting]));
    [by apply (step_wait _ (Pool 0 false [Entering]) 0); [split|vm_compute]|].
  apply (rtc_l _ _ (Pool 1 false [Received])).
  { apply (step_received _ (Pool 1 false [Waiting]) 0); by split. }
  apply (rtc_l _ _ (Pool 0 false [Last])).
  { apply (step_dec _ (Pool 1 false [Received]) 0); [by split|done]. }
  apply (rtc_l _ _ (Pool 1 false [Spawning])).
  { apply (step_spawn _ (Pool 0 false [Last]) 0); [by split|by vm_compute]. }
  apply (rtc_l _ _ ex_pool).
  { apply (step_created _ (Pool 1 false [Spawning]) 0 [Working]). by split. }
  apply rtc_refl.
Qed.

Lemma waiters_counted_witness :
  reachable false ex_pool ∧
  (∀ i a, threads ex_pool !! i = Some a → decrements a = true → waiters ex_pool ≠ 0) ∧
  (false = false → aborted ex_pool = false →
   waiters ex_pool = Z.of_nat (count (threads ex_pool))).
Proof. split; [exact ex_pool_reachable|]. apply (waiters_counted false ex_pool ex_pool_reachable). Defined.

Lemma next_request_is_served_witness :
  reachable false ex_pool ∧
  (∀ n q, nsteps own_step n ex_pool q → (n ≤ 3)%nat) ∧
  (∀ q, rtc own_step ex_pool q → (¬ ∃ q', own_step q q') →
     aborted q = true ∨ ∃ i, threads q !! i = Some Waiting).
Proof.
  split; [exact ex_pool_reachable|]. exact (next_request_is_served ex_pool ex_pool_reachable).
Defined.

Lemma stack_write_witness :
  ∃ r w' l' pos', syscall_vfs_write 3 [9; 8] ex_node = Ret (r, w') ∧
    write_result [1; 2; 3; 4] 0 [9; 8] r l' pos' ∧ stack_file w' 3 = Some (l', pos').
Proof. apply (stack_write ex_node 3 [9; 8] [1; 2; 3; 4] 0); [reflexivity|simpl; lia]. Defined.

Lemma stack_read_witness :
  ∃ r buf' w' pos', syscall_vfs_read 3 [0; 0] ex_node = Ret ((r, buf'), w') ∧
    read_result [1; 2; 3; 4] 0 [0; 0] r buf' pos' ∧ stack_file w' 3 = Some ([1; 2; 3; 4], pos').
Proof. apply (stack_read ex_node 3 [0; 0] [1; 2; 3; 4] 0); [reflexivity|simpl; lia]. Defined.

(** A journal over the file, two bytes of it buffered. *)
Definition ex_stack_journal : DemoFile :=
  mkDemoFile true 3 (Some (9 :: 8 :: zeros 8190)) 2 4.

Lemma ex_stack_repr : demo_repr ex_stack_journal ex_node [1; 2; 3; 4; 9; 8].
Proof. split; [|reflexivity]. vm_compute. repeat split; discriminate. Qed.

Definition ex_after_write : DemoFile * node :=
  match demoWrite ex_stack_journal [5; 6] 2 6 ex_node with
  | Ret ((_, p), w) => (p, w) | Undef => (ex_stack_journal, ex_node) end.
Definition ex_after_sync : DemoFile * node :=
  match demoSync ex_after_write.1 0 ex_after_write.2 with
  | Ret ((_, p), w) => (p, w) | Undef => ex_after_write end.

Lemma written_and_synced_is_on_disk_witness :
  ∃ pos, os_file (p_os ex_after_sync.2) 3 = Some ([1; 2; 3; 4; 9; 8; 5; 6], pos).
Proof.
  apply (written_and_synced_is_on_disk ex_stack_journal ex_node [1; 2; 3; 4; 9; 8] [5; 6] 2 6 0
           ex_after_write.1 ex_after_write.2 ex_after_sync.1 ex_after_sync.2);
    [exact ex_stack_repr|simpl; lia|lia|lia|lia|vm_compute; reflexivity|vm_compute; reflexivity].
Defined.

Lemma requests_reach_their_handler_witness :
  tee_supp_vfs_process 3 ex_read_request =
  handler_for (VfsRead 3 [0]) 3 ex_read_request.
Proof.
  eapply (requests_reach_their_handler (W:=node) (VfsRead 3 [0])); reflexivity.
Defined.

Lemma pwrite_dereferences_null_witness :
  tee_supp_vfs_process 3
    (Handler [Param 3 Kernel.OPTEE_VFS_PWRITE 0 0; Param 1 3 1 0; ex_ref 0 0] ex_node) = Undef.
Proof.
  apply (pwrite_dereferences_null
           (Handler [Param 3 Kernel.OPTEE_VFS_PWRITE 0 0; Param 1 3 1 0; ex_ref 0 0] ex_node)
           (Param 3 Kernel.OPTEE_VFS_PWRITE 0 0) (Param 1 3 1 0) (ex_ref 0 0)); reflexivity.
Defined.
