(* ===== verification/Forward.v ===== *)
(** * The system calls, seen from the operating system

The trusted application calls [utee_vfs_*] as if it called the operating system
of the normal world.  [direct] says what that would be, for each system call:
one call of the operating system (two for [fstat]) with the application's own
arguments, and its results.  The theorem is that the whole path (the marshalling
of [KernelVfs], the payloads, the message, the parameters of [SuppShm] and the
handlers of [SuppVfs]) does that and nothing else, for every call but the five
whose defects are recorded elsewhere. *)
From S2P Require Import Prelude CMem UteeVfs MemFile TeeVfs Protocol KernelVfs SuppShm SuppVfs SuppSafe SuppLoop Transport Loopback.
#[local] Open Scope Z_scope.
#[local] Open Scope c_scope.

(** ** The reference *)

(** The bytes delivered, in a payload of [n] zeros. *)
Definition padded (n : Z) (data : bytes) : bytes := data ++ drop (length data) (zeros n).

(** What the application would get from the operating system itself.  Results
    are cut to the type the call returns. *)
Definition direct {O A} `{Posix O} (c : vfs_call A) : option (O → A * O) :=
  let status (cut : Z → Z) (x : oscall (Z * Z)) := λ o,
    let '((r, e), o') := os_run x o in (cut r, o') in
  let buffer (cut : Z → Z) n (x : oscall (Z * Z * bytes)) := λ o,
    let '((r, e, data), o') := os_run x o in ((cut r, padded n data), o') in
  match c in vfs_call A return option (O → A * O) with
  | VfsOpen p f a => Some (status s32 (OsOpen (Some p) f a))
  | VfsClose fd => Some (status s32 (OsClose fd))
  | VfsAccess n t => Some (status s32 (OsAccess (Some n) t))
  | VfsGetcwd buf => Some (λ o,
      let n := Z.of_nat (length buf) in
      let '((e, data), o') := os_run (OsGetcwd false n) o in (padded n data, o'))
  | VfsStat n _ => Some (buffer s32 sizeof_my_stat (OsStat (Some n) false))
  | VfsFstat fd _ => Some (λ o,
      let '((_, _, data), o1) := os_run (OsFstat fd false) o in
      let '((r, _, _), o2) := os_run (OsFstatSize fd) o1 in
      ((s32 r, padded sizeof_my_stat data), o2))
  | VfsWrite fd buf => Some (status s32 (OsWrite fd (Some buf) (Z.of_nat (length buf))))
  | VfsMkdir p m => Some (status s32 (OsMkdir (Some p) (u32 m)))
  | VfsRmdir p => Some (status s32 (OsRmdir (Some p)))
  | VfsUnlink n _ => Some (λ o,
      let '((r, e), o') := os_run (OsUnlink (Some n)) o in ((s32 r, s32 e), o'))
  | VfsFtruncate fd s => Some (status s32 (OsFtruncate fd s))
  | VfsRead fd buf =>
      let n := Z.of_nat (length buf) in Some (buffer s64 n (OsRead fd false n))
  | VfsFchmod fd m => Some (status s32 (OsFchmod fd (u32 m)))
  | VfsFchown fd o g => Some (status s32 (OsFchown fd (u32 o) (u32 g)))
  | VfsGeteuid => Some (status u32 OsGeteuid)
  | VfsGetpid => Some (status u32 OsGetpid)
  | VfsLseek fd off w => Some (status s64 (OsLseek fd off w))
  | VfsFsync fd => Some (status s32 (OsFsync fd))
  | VfsSleep s => Some (status (λ r, u32 (s32 r)) (OsSleep (u32 s)))
  | VfsPread fd buf off =>
      let n := Z.of_nat (length buf) in Some (buffer s64 n (OsPread fd false n off))
  | VfsGettimeofday tv tz => Some (λ o,
      let '((r, _, d1, d2), o') := os_run (OsGettimeofday false false) o in
      ((s32 r, padded sizeof_timeval d1,
        (λ _, padded sizeof_timezone d2) <$> tz), o'))
  | VfsFcntlVoid fd c => Some (status s32 (OsFcntlVoid fd c))
  | VfsFcntlInt fd c a => Some (status s32 (OsFcntlInt fd c a))
  | VfsTime t => Some (λ o,
      let '((r, _), o') := os_run OsTime o in
      ((s32 r, (λ old, splice old 0 (le_bytes 4 (u32 (s32 r)))) <$> t), o'))
  | VfsUsleep u => Some (λ o, let '(_, o') := os_run (OsUsleep (u32 u)) o in (tt, o'))
  | VfsFilesize fd => Some (λ o,
      let '((r, _, sz), o') := os_run (OsFstatSize fd) o in
      ((if decide (r ≠ -1) then s64 sz else -1), o'))
  | VfsGetenv _ | VfsPwrite _ _ _ | VfsTruncate _ _ | VfsFcntlFlock _ _ _ | VfsUtimes _ _ => None
  end.

(** What C's types and strings give of the arguments. *)
Definition args_ok {A} (c : vfs_call A) : Prop :=
  match c with
  | VfsOpen p f a => (0 ∉ p) ∧ in_signed 32 f ∧ in_signed 32 a
  | VfsAccess n t => (0 ∉ n) ∧ in_signed 32 t
  | VfsStat n _ | VfsRmdir n | VfsUnlink n _ | VfsMkdir n _ => 0 ∉ n
  | VfsGetcwd buf => in_unsigned 64 (Z.of_nat (length buf))
  | VfsWrite fd buf | VfsRead fd buf => in_signed 32 fd ∧ in_unsigned 64 (Z.of_nat (length buf))
  | VfsPread fd buf off => in_signed 32 fd ∧ in_unsigned 64 (Z.of_nat (length buf)) ∧ in_signed 64 off
  | VfsClose fd | VfsFstat fd _ | VfsFsync fd | VfsFilesize fd | VfsFchmod fd _
  | VfsFchown fd _ _ => in_signed 32 fd
  | VfsFtruncate fd s => in_signed 32 fd ∧ in_signed 64 s
  | VfsLseek fd off w => in_signed 32 fd ∧ in_signed 64 off ∧ in_signed 32 w
  | VfsFcntlVoid fd c => in_signed 32 fd ∧ in_signed 32 c
  | VfsFcntlInt fd c a => in_signed 32 fd ∧ in_signed 32 c ∧ in_signed 32 a
  | _ => True
  end.

(** ** Payloads held *)

(** A payload with the object behind it and the bytes it has. *)
Record payload : Type := Payload { pl_mo : mobj; pl_shm : tee_shm; pl_blk : Z; pl_data : bytes }.

Definition with_data (P : payload) (d : bytes) : payload :=
  Payload (pl_mo P) (pl_shm P) (pl_blk P) d.

(** Which object it is, whatever its bytes. *)
Definition object (P : payload) : mobj * tee_shm * Z := (pl_mo P, pl_shm P, pl_blk P).

Section held.
Context {O : Type} `{Channel O}.
Implicit Types (w : proc O) (P : payload).

Definition present w P : Prop :=
  payload_at w (pl_mo P) (pl_shm P) (pl_blk P) (pl_data P) ∧
  in_signed 32 (mobj_id (pl_mo P)) ∧ in_unsigned 64 (shm_size (pl_shm P)).

Definition apart P Q : Prop := mobj_id (pl_mo P) ≠ mobj_id (pl_mo Q) ∧ pl_blk P ≠ pl_blk Q.

(** All of them are there, none shares anything with another. *)
Fixpoint held w (l : list payload) : Prop :=
  match l with
  | [] => True
  | P :: l => present w P ∧ Forall (apart P) l ∧ held w l
  end.

Lemma held_present w l P : held w l → P ∈ l → present w P.
Proof.
  induction l as [|Q l IH]; simpl; [by intros _ ?%not_elem_of_nil|].
  intros (? & _ & ?) [->|?]%elem_of_cons; [done|by apply IH].
Qed.

(** Payloads are held as long as each stays where it is. *)
Lemma held_mono w w' l : (∀ P, P ∈ l → present w P → present w' P) → held w l → held w' l.
Proof.
  induction l as [|P l IH]; simpl; [done|]. intros Hm (HP & Ha & Hh). split_and!; [|done|].
  - apply Hm; [by left|done].
  - apply IH; [|done]. intros Q HQ. apply Hm. by right.
Qed.

(** A new one. *)
Lemma held_alloc n w w' mo t b d l :
  thread_rpc_alloc_payload n w = Ret (Some mo, w') → payload_at w' mo t b d →
  in_signed 32 (mobj_id mo) → in_unsigned 64 (shm_size t) → held w l →
  held w' (Payload mo t b d :: l).
Proof.
  intros E Hp Hi Hs Hh. split; [by split_and!|]. split.
  - apply Forall_forall. intros P (HP & _)%(held_present w l); [|done].
    destruct (ch_alloc_keeps _ _ _ _ _ _ _ _ E HP) as [_ Hd]. by apply (Hd mo t b d).
  - apply (held_mono w); [|done]. intros P _ (HP & ? & ?). split; [|done].
    by apply (ch_alloc_keeps _ _ _ _ _ _ _ _ E HP).
Qed.

Lemma held_alloc_none n w w' l :
  thread_rpc_alloc_payload n w = Ret (None, w') → held w l → held w' l.
Proof.
  intros E. apply held_mono. intros P _ (HP & ? & ?). split; [|done].
  by apply (ch_alloc_keeps _ _ _ _ _ _ _ _ E HP).
Qed.

(** The last one is freed. *)
Lemma held_free w w' P l :
  thread_rpc_free_payload (Some (pl_mo P)) w = Ret (tt, w') → held w (P :: l) → held w' l.
Proof.
  intros E (_ & Ha & Hh). apply (held_mono w); [|done].
  intros Q HQ (Hp & ? & ?). split; [|done]. rewrite Forall_forall in Ha.
  destruct (Ha Q HQ) as [? _]. by eapply ch_free_keeps.
Qed.

(** A payload whose block got other bytes, of the same number. *)
Lemma held_poke w P l d o :
  held w (P :: l) → length d = length (pl_data P) →
  held (Proc (p_shm w) (Mem (m_next (p_mem w)) (<[pl_blk P := Block Heap d]> (m_blocks (p_mem w)))) o)
       (with_data P d :: l).
Proof.
  intros (((? & ? & Hb & ?) & ? & ?) & Ha & Hh) Hd. split; [|split; [done|]].
  - split; [|done]. split_and!; [done|done|apply lookup_insert_eq|simpl; lia].
  - apply (held_mono w); [|done]. intros Q HQ ((? & ? & HbQ & ?) & ?). split; [|done].
    rewrite Forall_forall in Ha. destruct (Ha Q HQ) as [_ ?].
    split_and!; try done. simpl. by rewrite lookup_insert_ne.
Qed.

Lemma held_os w l o : held w l → held (with_os w o) l.
Proof. by apply held_mono. Qed.

Lemma va_write_held w P l bs :
  held w (P :: l) → (length bs ≤ length (pl_data P))%nat →
  ∃ w', va_write (Ptr (pl_blk P) 0) bs w = Ret (tt, w') ∧ p_os w' = p_os w ∧
        held w' (with_data P (splice (pl_data P) 0 bs) :: l).
Proof.
  intros Hh Hl. pose proof Hh as (((_ & _ & Hb & _) & _) & _).
  eexists. split; [apply ch_write; unfold poke; rewrite Hb, decide_True by lia; reflexivity|].
  split; [done|]. apply held_poke; [done|]. by apply CMem.length_splice.
Qed.

(** A function that works through a payload, while others are held. *)
Lemma with_payload_held {A} len (a0 : A) body (Q : A → proc O → Prop) l w :
  0 ≤ len → held w l →
  (∀ a w1 w2, same_files w1 w2 → Q a w1 → Q a w2) →
  (∀ w1, same_files w w1 → Q a0 w1) →
  (∀ P w1, held w1 (P :: l) → len ≤ mobj_size (pl_mo P) → same_files w w1 →
     ∃ a w2 l2, body (pl_mo P) w1 = Ret (a, w2) ∧ held w2 l2 ∧
       map object l2 = map object (P :: l) ∧ Q a w2) →
  ∃ a w' l', with_payload len (ret a0) body w = Ret (a, w') ∧ held w' l' ∧
    map object l' = map object l ∧ Q a w'.
Proof.
  intros Hn Hh HQ Hg Hb. unfold with_payload.
  destruct (ch_alloc len w Hn) as (m & w1 & E & Hs & Hm). rewrite (bind_run _ _ _ _ _ E).
  destruct m as [mo|].
  2:{ rewrite bind_ret_l, (bind_run _ _ _ _ _ (ch_free_null _)).
      exists a0, w1, l. split_and!; [done|by eapply held_alloc_none|done|by apply Hg]. }
  destruct (Hm mo eq_refl) as (t & b & d & Hp & Hid & Hsz).
  pose proof (held_alloc _ _ _ _ _ _ _ _ E Hp Hid Hsz Hh) as Hh1. case_decide.
  - rewrite bind_ret_l. destruct (ch_free mo w1 t b d Hp) as (w2 & E2 & Hs2).
    rewrite (bind_run _ _ _ _ _ E2). exists a0, w2, l.
    split_and!; [done|by eapply (held_free _ _ (Payload mo t b d))|done|].
    by apply (HQ _ w1), Hg.
  - destruct (Hb (Payload mo t b d) w1) as (a & w2 & l2 & E2 & Hh2 & Ho & Hq); [done|simpl; lia|done|].
    destruct l2 as [|[mo2 t2 b2 d2] l2]; [done|]. injection Ho as -> -> -> Ho.
    rewrite (bind_run _ _ _ _ _ E2). pose proof Hh2 as ((Hp2 & _) & _).
    destruct (ch_free mo w2 t b d2 Hp2) as (w3 & E3 & Hs3). rewrite (bind_run _ _ _ _ _ E3).
    exists a, w3, l2. split_and!; [done|by eapply (held_free _ _ (Payload mo t b d2))|done|].
    by apply (HQ _ w2).
Qed.
End held.

(** ** The slots of a description *)

(** What a buffer holds once its initial contents are written. *)
Definition written (d : bytes) (init : list bytes) : bytes :=
  foldl (λ d bs, splice d 0 bs) d init.

Definition slot_ok (s : slot) : Prop :=
  match s with
  | SVal _ _ _ => True
  | SBuf _ len init _ => 0 ≤ len ∧ Forall (λ bs, Z.of_nat (length bs) ≤ len) init
  end.

Definition has_buffer (slots : list slot) : bool :=
  existsb (λ s, match s with SBuf _ _ _ _ => true | SVal _ _ _ => false end) slots.

(** [ready slots l ps outs l']: the parameters and outputs that stand for the
    slots, when the payloads [l] were held before and [l'] are held now. *)
Inductive ready : list slot → list payload → list thread_param →
    list (mobj * ptr * Z * copy_back) → list payload → Prop :=
| ready_nil l : ready [] l [] [] l
| ready_val a b c slots l ps outs l' :
    ready slots l ps outs l' →
    ready (SVal a b c :: slots) l (THREAD_PARAM_VALUE IN a b c :: ps) outs l'
| ready_buf dir len init back mo t b d slots l ps outs l' :
    len ≤ mobj_size mo → len ≤ Z.of_nat (length d) →
    ready slots (Payload mo t b (written d init) :: l) ps outs l' →
    ready (SBuf dir len init back :: slots) l (THREAD_PARAM_MEMREF dir (Some mo) 0 0 :: ps)
          ((mo, Ptr b 0, len, back) :: outs) l'.

Section slots.
Context {O : Type} `{Channel O}.
Implicit Types (w : proc O) (P : payload) (l : list payload).

(** The initial contents, written one over the other. *)
Lemma run_writes_held {A} w P l len init (k : C (proc O) A) :
  held w (P :: l) → Forall (λ bs, Z.of_nat (length bs) ≤ len) init →
  len ≤ Z.of_nat (length (pl_data P)) →
  ∃ w', run_writes (Ptr (pl_blk P) 0) init k w = k w' ∧ p_os w' = p_os w ∧
        held w' (with_data P (written (pl_data P) init) :: l).
Proof.
  revert w P. induction init as [|bs init IH]; intros w P Hh Hi Hl; simpl.
  { exists w. destruct P. do 2 (split; [done|]). exact Hh. }
  apply Forall_cons in Hi as [Hb Hi].
  destruct (va_write_held w P l bs Hh) as (w1 & E1 & Ho1 & Hh1); [lia|].
  rewrite (bind_run _ _ _ _ _ E1).
  destruct (IH w1 _ Hh1 Hi) as (w2 & E2 & Ho2 & Hh2); [simpl; rewrite CMem.length_splice; lia|].
  exists w2. split; [exact E2|]. split; [congruence|exact Hh2].
Qed.

(** A marshalling gives up, or sends what is ready. *)
Lemma with_slots_held {A} (a0 : A) slots (Q : A → proc O → Prop) k l w :
  Forall slot_ok slots → held w l →
  (∀ a w1 w2, same_files w1 w2 → Q a w1 → Q a w2) →
  (has_buffer slots = true → ∀ w1, same_files w w1 → Q a0 w1) →
  (∀ ps outs l1 w1, ready slots l ps outs l1 → held w1 l1 → same_files w w1 →
     ∃ a w2 l2, k ps outs w1 = Ret (a, w2) ∧ held w2 l2 ∧ map object l2 = map object l1 ∧ Q a w2) →
  ∃ a w' l', with_slots a0 slots k w = Ret (a, w') ∧ held w' l' ∧
    map object l' = map object l ∧ Q a w'.
Proof.
  intros Hok. revert k l w.
  induction Hok as [|[a b c|dir len init back] slots Hs Hok IH]; intros k l w Hh HQ Hg Hk; simpl.
  - apply (Hk [] [] l w); [constructor|done|apply same_files_refl].
  - apply (IH _ l w); [done..|]. intros ps outs l1 w1 Hr Hh1 Hs1. by apply (Hk _ _ l1); [constructor|..].
  - destruct Hs as [Hlen Hi]. specialize (Hg eq_refl). apply with_payload_held; [done..|].
    intros P w1 Hh1 Hsz Hs1. pose proof Hh1 as ((Hp & _) & _).
    rewrite (bind_run _ _ _ _ _ (ch_get_va _ len _ _ _ _ Hp Hsz)).
    pose proof Hp as (_ & _ & _ & Hd).
    destruct (run_writes_held w1 P l len init
      (with_slots a0 slots (λ ps outs,
         k (THREAD_PARAM_MEMREF dir (Some (pl_mo P)) 0 0 :: ps)
           ((pl_mo P, Ptr (pl_blk P) 0, len, back) :: outs))) Hh1 Hi)
      as (w2 & E2 & Ho2 & Hh2); [lia|].
    rewrite E2. clear E2. assert (same_files w w2) as Hs2 by (intros f; by rewrite Ho2).
    destruct (IH (λ ps outs, k (THREAD_PARAM_MEMREF dir (Some (pl_mo P)) 0 0 :: ps)
                 ((pl_mo P, Ptr (pl_blk P) 0, len, back) :: outs)) _ w2 Hh2 HQ)
      as (a & w3 & l3 & E3 & Hh3 & Ho3 & Hq).
    + intros _ w3 Hs3. apply Hg. intros f. by rewrite Hs3.
    + intros ps outs l1 w3 Hr Hh3 Hs3. apply (Hk _ _ l1); [|done|intros f; by rewrite Hs3].
      apply (ready_buf _ _ _ _ _ (pl_shm P) _ (pl_data P)); [done|lia|done].
    + by exists a, w3, l3.
Qed.
End slots.

(** ** Each call *)

Lemma unsigned_signed w z : 0 < w → unsigned w (signed w z) = unsigned w z.
Proof.
  intros Hw. unfold unsigned, signed.
  rewrite Zminus_mod_idemp_l. f_equal. lia.
Qed.

Section each.
Context {O : Type} `{Channel O}.
Implicit Types (w : proc O) (l : list payload).

(** Once the slots are ready, the request is answered as [f] says, and the
    payloads are still there. *)
Definition serves {A} (d : desc (proc O) A) (f : O → A * O) : Prop :=
  ∀ ps outs l w, ready (d_slots d) [] ps outs l → held w l →
  ∃ w2 l2,
    (let! params := vfs_rpc (THREAD_PARAM_VALUE INOUT (d_op d) 0 0 :: ps) in
     run_reads outs (λ bufs, d_done d params bufs)) w = Ret ((f (p_os w)).1, w2) ∧
    held w2 l2 ∧ map object l2 = map object l ∧ p_os w2 = (f (p_os w)).2.

Definition call_served {A} (c : vfs_call A) : Prop :=
  ∀ (d : desc (proc O) A) f, describe c = Some d → direct c = Some f → serves d f.
End each.

Ltac invert_ready :=
  repeat match goal with H : ready _ _ _ _ _ |- _ => inversion H; clear H; subst end.

(** Numbers keep their value through a 64-bit field. *)
Ltac crossing :=
  rewrite ?int_crosses, ?int64_crosses by (done || (unfold in_signed; lia));
  rewrite ?(unsigned_signed 32), ?(unsigned_unsigned 32 64) by lia.

(** The handler of the call, on the parameters the call sends. *)
Ltac find_handler c :=
  match goal with
  | |- tee_supp_vfs_process ?n ?h = _ =>
      change (tee_supp_vfs_process n h) with (handler_for c n h)
  end;
  cbn [handler_for length map to_ioctl value_attr memref_attr].

Ltac results :=
  simpl; unfold answer, answer_buf, bind, ret; simpl;
  rewrite ?(signed_unsigned 32 64), ?(signed_unsigned 64 64), ?(unsigned_unsigned 32 64) by lia.

(** A call that sends numbers only. *)
Ltac serve_numbers :=
  match goal with
  | |- call_served ?c =>
      let w := fresh "w" in let o := fresh "o" in let res := fresh "res" in
      let E := fresh "E" in
      intros ? ? [= <-] [= <-] ? ? ? w ? ?; invert_ready; cbn [d_op d_slots d_done];
      match goal with
      | |- context [os_run ?x (p_os w)] => destruct (os_run x (p_os w)) as [res o] eqn:E
      end;
      repeat match goal with x : (_ * _)%type |- _ => destruct x end;
      exists (with_os w o), []; split; [|by split_and!; [apply held_os|..]];
      erewrite bind_run;
      [|eapply vfs_rpc_run; find_handler c; autounfold with vfs_handlers;
        unfold expect, need, bind, os; simpl; crossing; rewrite E; simpl; reflexivity];
      results
  end.

Section numbers.
Context {O : Type} `{Channel O}.

Lemma close_served fd : in_signed 32 fd → call_served (VfsClose fd).
Proof. intros. by serve_numbers. Qed.
Lemma ftruncate_served fd n :
  in_signed 32 fd → in_signed 64 n → call_served (VfsFtruncate fd n).
Proof. intros. by serve_numbers. Qed.
Lemma fchmod_served fd m : in_signed 32 fd → call_served (VfsFchmod fd m).
Proof. intros. by serve_numbers. Qed.
Lemma fchown_served fd o g : in_signed 32 fd → call_served (VfsFchown fd o g).
Proof. intros. by serve_numbers. Qed.
Lemma geteuid_served : call_served VfsGeteuid.
Proof. by serve_numbers. Qed.
Lemma getpid_served : call_served VfsGetpid.
Proof. by serve_numbers. Qed.
Lemma lseek_served fd off wh :
  in_signed 32 fd → in_signed 64 off → in_signed 32 wh → call_served (VfsLseek fd off wh).
Proof. intros. by serve_numbers. Qed.
Lemma fsync_served fd : in_signed 32 fd → call_served (VfsFsync fd).
Proof. intros. by serve_numbers. Qed.
Lemma sleep_served s : call_served (VfsSleep s).
Proof. by serve_numbers. Qed.
Lemma fcntl_void_served fd c :
  in_signed 32 fd → in_signed 32 c → call_served (VfsFcntlVoid fd c).
Proof. intros. by serve_numbers. Qed.
Lemma fcntl_int_served fd c a :
  in_signed 32 fd → in_signed 32 c → in_signed 32 a → call_served (VfsFcntlInt fd c a).
Proof. intros. by serve_numbers. Qed.
Lemma time_served t : call_served (VfsTime t).
Proof. by serve_numbers. Qed.
Lemma usleep_served u : call_served (VfsUsleep u).
Proof. by serve_numbers. Qed.
Lemma filesize_served fd : in_signed 32 fd → call_served (VfsFilesize fd).
Proof.
  intros. serve_numbers. by case_decide; results.
Qed.
End numbers.

(** *** Through one payload *)

Section one_payload.
Context {O : Type} `{Channel O}.
Implicit Types (w : proc O) (P : payload) (l : list payload).

Definition memref (dir : param_dir) P : tee_ioctl_param :=
  Param (memref_attr dir) 0 0 (u64 (mobj_id (pl_mo P))).

Lemma memref_wf dir P : param_wf (memref dir P).
Proof. split_and!; simpl; try done. apply unsigned_range. lia. Qed.

(** The supplicant finds the payload under its identifier. *)
Lemma present_found w P dir :
  present w P →
  find_tshm (s32 (MEMREF_SHM_ID (memref dir P))) (p_shm w) = Some (pl_shm P) ∧
  memref_in (p_shm w) (memref dir P) (pl_shm P).
Proof.
  intros (Hp & Hi & Hs). destruct (id_crosses _ _ _ _ _ Hp Hi) as [_ Hf].
  split; [done|by apply memref_whole].
Qed.

Lemma to_va_present w P dir i ps :
  present w P → ps !! i = Some (memref dir P) →
  tee_supp_param_to_va i (Handler ps w) = Ret (Ptr (pl_blk P) 0, Handler ps w).
Proof.
  intros HP Hi. destruct (present_found w P dir HP) as [Hf Hin]. pose proof HP as ((_ & Hp & _) & _ & Hs).
  rewrite (param_to_va_Some i _ (memref dir P) (pl_shm P)) by (done || apply memref_wf).
  rewrite decide_True by done. by rewrite Hp.
Qed.

Lemma get_param_present w P dir n i ps :
  present w P → (i < n)%nat → ps !! i = Some (memref dir P) →
  get_param n i (Handler ps w) =
    Ret (Some (SharedMemory (Ptr (pl_blk P) 0) 0 (s32 (u64 (mobj_id (pl_mo P))))
                 (Z.lor TEEC_MEM_INPUT TEEC_MEM_OUTPUT)), Handler ps w).
Proof.
  intros HP Hn Hi. destruct (present_found w P dir HP) as [Hf Hin]. pose proof HP as ((_ & Hp & _) & _ & Hs).
  rewrite (get_param_Some n i _ (memref dir P) (pl_shm P)) by (done || apply memref_wf).
  rewrite decide_True by done. by rewrite Hp.
Qed.

(** A path written into a payload is read back by the handler. *)
Lemma arg_str_present w P ps d s :
  present w P → pl_data P = written d [s ++ [0]] → strlen s + 1 ≤ Z.of_nat (length d) → 0 ∉ s →
  arg_str (Ptr (pl_blk P) 0) (Handler ps w) = Ret (Some s, Handler ps w).
Proof.
  intros ((_ & _ & Hb & _) & _) Hd Hl Hs. unfold arg_str, bind, gets, lift, peek_str. simpl.
  rewrite Hb, Hd. simpl. rewrite drop_0. unfold splice. simpl.
  rewrite <- app_assoc. simpl. by rewrite cstring_app.
Qed.

(** And bytes. *)
Lemma arg_bytes_present w P ps d init bs n :
  present w P → pl_data P = written d (init ++ [bs]) → n = Z.of_nat (length bs) →
  Forall (λ bs, (length bs ≤ length d)%nat) (init ++ [bs]) →
  arg_bytes (Ptr (pl_blk P) 0) n (Handler ps w) = Ret (Some bs, Handler ps w).
Proof.
  intros (Hp & _) Hd -> [Hi Hl]%Forall_app. apply Forall_cons in Hl as [Hl _].
  unfold written in Hd. rewrite foldl_app in Hd. simpl in Hd.
  apply arg_bytes_run. rewrite Hd in Hp. apply (payload_peek _ _ _ _ _ _ Hp).
  assert (∀ init d, Forall (λ bs, (length bs ≤ length d)%nat) init →
            length (foldl (λ d bs, splice d 0 bs) d init) = length d) as Hf; [|by rewrite Hf].
  clear. induction init as [|bs init IH]; intros d Hi; simpl; [done|].
  apply Forall_cons in Hi as [Hb Hi].
  rewrite IH; rewrite CMem.length_splice by lia; done.
Qed.
End one_payload.

(** The checks at the start of a handler, which pass. *)
Ltac pass_checks :=
  unfold expect; rewrite decide_False by (let Hc := fresh in intros Hc; by apply Hc);
  repeat
    first
      [ erewrite need_run by (eapply get_value_run; [reflexivity|lia|reflexivity])
      | erewrite need_run by (eapply (get_param_present _ _ OUT); [eassumption|lia|reflexivity])
      | erewrite need_run by (eapply (get_param_present _ _ IN); [eassumption|lia|reflexivity]) ].

(** A call that sends a path. *)
Ltac serve_path :=
  match goal with
  | |- call_served ?c =>
      let w := fresh "w" in let o := fresh "o" in let res := fresh "res" in
      let E := fresh "E" in let Hh := fresh "Hh" in
      intros ? ? [= <-] [= <-] ? ? ? w ? Hh; unfold SPath in *; cbn [d_slots] in *; invert_ready;
      cbn [d_op d_slots d_done];
      pose proof (proj1 Hh);
      match goal with
      | |- context [os_run ?x (p_os w)] => destruct (os_run x (p_os w)) as [res o] eqn:E
      end;
      repeat match goal with x : (_ * _)%type |- _ => destruct x end;
      eexists (with_os w o), _; split; [|split; [by apply held_os|by split]];
      erewrite bind_run;
      [|eapply vfs_rpc_run; find_handler c; autounfold with vfs_handlers; pass_checks;
        erewrite bind_run by (eapply (to_va_present _ _ IN); [eassumption|reflexivity]);
        erewrite bind_run by (eapply arg_str_present; [eassumption|reflexivity|done|done]);
        unfold bind, os; simpl; crossing; rewrite E; simpl; reflexivity];
      results
  end.

Section paths.
Context {O : Type} `{Channel O}.

Lemma open_served p f a :
  (0 ∉ p) → in_signed 32 f → in_signed 32 a → call_served (VfsOpen p f a).
Proof. intros. by serve_path. Qed.
Lemma access_served p a : (0 ∉ p) → in_signed 32 a → call_served (VfsAccess p a).
Proof. intros. by serve_path. Qed.
Lemma mkdir_served p m : (0 ∉ p) → call_served (VfsMkdir p m).
Proof. intros. by serve_path. Qed.
Lemma rmdir_served p : (0 ∉ p) → call_served (VfsRmdir p).
Proof. intros. by serve_path. Qed.
Lemma unlink_served p e : (0 ∉ p) → call_served (VfsUnlink p e).
Proof. intros. by serve_path. Qed.
End paths.

(** *** Bytes to write, bytes delivered *)

Section buffers.
Context {O : Type} `{Channel O}.
Implicit Types (w : proc O) (P : payload) (l : list payload).

Lemma length_zeros n : 0 ≤ n → Z.of_nat (length (zeros n)) = n.
Proof. intros. unfold zeros. rewrite length_replicate. lia. Qed.

Lemma write_served fd buf :
  in_signed 32 fd → in_unsigned 64 (Z.of_nat (length buf)) → call_served (VfsWrite fd buf).
Proof.
  intros Hfd Hn d f [= <-] [= <-] ps outs l w Hr Hh. cbn [d_slots] in Hr. invert_ready.
  cbn [d_op d_slots d_done]. pose proof (proj1 Hh) as HP.
  destruct (os_run (OsWrite fd (Some buf) _) (p_os w)) as [[r e] o] eqn:E.
  eexists (with_os w o), _. split; [|split; [by apply held_os|by split]].
  pose proof (length_zeros (Z.of_nat (length buf)) ltac:(lia)) as Hz.
  assert (u64 (Z.of_nat (length buf)) = Z.of_nat (length buf)) as Hu
    by by apply unsigned_id.
  erewrite bind_run.
  2:{ eapply vfs_rpc_run. find_handler (VfsWrite fd buf). autounfold with vfs_handlers. pass_checks.
      erewrite bind_run by (eapply (to_va_present _ _ IN); [exact HP|reflexivity]).
      do 2 (erewrite bind_run by reflexivity).
      erewrite bind_run.
      2:{ eapply (arg_bytes_present _ _ _ _ [zeros (Z.of_nat (length buf))] buf);
            [exact HP|reflexivity|exact Hu|repeat constructor; lia]. }
      unfold bind, os. simpl. rewrite Hu. crossing. rewrite E. simpl. reflexivity. }
  results. done.
Qed.

(** Delivering into a payload. *)
Lemma deliver_held w P l data :
  held w (P :: l) → (length data ≤ length (pl_data P))%nat →
  ∃ w', (∀ ps, deliver (Ptr (pl_blk P) 0) data (Handler ps w) = Ret (tt, Handler ps w')) ∧
        p_os w' = p_os w ∧ held w' (with_data P (splice (pl_data P) 0 data) :: l).
Proof.
  intros Hh Hl. destruct data as [|x data].
  { exists w. destruct P as [mo t b d]. unfold splice. simpl. by rewrite drop_0. }
  eexists. split.
  { intros ps. unfold deliver, in_mem, zoom, store, update, poke. simpl p_mem.
    pose proof Hh as (((_ & _ & Hb & _) & _) & _). rewrite Hb, decide_True by lia. simpl h_proc. reflexivity. }
  split; [done|]. apply held_poke; [done|]. by apply CMem.length_splice.
Qed.

(** The payload, read back by the kernel. *)
Lemma read_back w P d n data :
  m_blocks (p_mem w) !! pl_blk P = Some (Block Heap (pl_data P)) → pl_data P = splice (written d [zeros n]) 0 data →
  0 ≤ n ≤ Z.of_nat (length d) → Z.of_nat (length data) ≤ n →
  va_read (Ptr (pl_blk P) 0) n w = Ret (padded n data, w).
Proof.
  intros Hb Hd Hn Hl. pose proof (length_zeros n ltac:(lia)) as Hz.
  apply ch_read, peek_Some. exists (pl_blk P), 0, Heap, (pl_data P).
  assert (length (pl_data P) = length d) as Hlen.
  { rewrite Hd. unfold written. simpl. rewrite CMem.length_splice; rewrite CMem.length_splice; lia. }
  split_and!; [done|done|lia|lia|lia|]. rewrite Hd. unfold written, padded. simpl foldl.
  replace (Z.to_nat n) with (length (zeros n)) by lia. symmetry.
  apply splice_splice_peek; lia.
Qed.

Lemma held_swap w P Q l : held w (P :: Q :: l) → held w (Q :: P :: l).
Proof.
  intros (HP & [[? ?] HPl]%Forall_cons & HQ & HQl & Hh).
  split; [done|]. split; [constructor; [by split; apply not_eq_sym|done]|]. by split_and!.
Qed.

(** What the system delivers, delivered into a payload of zeros and read back. *)
Lemma deliver_read_back w P l d n data :
  held w (P :: l) → pl_data P = written d [zeros n] → 0 ≤ n ≤ Z.of_nat (length d) →
  Z.of_nat (length data) ≤ Z.max 0 n →
  ∃ w', (∀ ps, deliver (Ptr (pl_blk P) 0) data (Handler ps w) = Ret (tt, Handler ps w')) ∧
    p_os w' = p_os w ∧ held w' (with_data P (splice (pl_data P) 0 data) :: l) ∧
    ∀ w3, p_mem w3 = p_mem w' → va_read (Ptr (pl_blk P) 0) n w3 = Ret (padded n data, w3).
Proof.
  intros Hh Hd Hn Hl. pose proof (length_zeros n ltac:(lia)) as Hz.
  destruct (deliver_held w P l data Hh) as (w' & E & Ho & Hh').
  { rewrite Hd. unfold written. simpl. rewrite CMem.length_splice; lia. }
  exists w'. split; [done|]. split; [done|]. split; [done|]. intros w3 Hm.
  eapply (read_back w3 (with_data P (splice (pl_data P) 0 data))); [|by rewrite Hd|lia|lia].
  rewrite Hm. by destruct Hh' as (((_ & _ & ? & _) & _) & _).
Qed.
End buffers.

(** A call with one buffer, which the system call [x] fills with up to [n] bytes. *)
Ltac serve_buffer n x :=
  match goal with
  | |- call_served ?c =>
      let w := fresh "w" in let o := fresh "o" in let E := fresh "E" in
      let Hh := fresh "Hh" in let Hd := fresh "Hd" in let w2 := fresh "w2" in
      let E2 := fresh "E2" in let E3 := fresh "E3" in let Ho := fresh "Ho" in
      let Hh2 := fresh "Hh2" in
      intros ? ? [= <-] [= <-] ? ? ? w ? Hh; cbn [d_slots] in *; invert_ready;
      cbn [d_op d_slots d_done]; pose proof (proj1 Hh);
      pose proof (delivered x (p_os w)) as Hd;
      destruct (os_run x (p_os w)) as [? o] eqn:E;
      repeat match goal with y : (_ * _)%type |- _ => destruct y end;
      simpl in Hd; unfold fits in Hd;
      edestruct deliver_read_back as (w2 & E2 & Ho & Hh2 & E3);
        [exact (held_os _ _ o Hh)|reflexivity|split; [|eassumption]; simpl; lia|exact Hd|];
      exists w2; eexists; split; [|split; [exact Hh2|by split]];
      erewrite bind_run;
      [|eapply vfs_rpc_run; find_handler c; autounfold with vfs_handlers; pass_checks;
        repeat (erewrite bind_run by reflexivity);
        erewrite bind_run by (unfold os; simpl; change (is_null (Ptr _ _)) with false;
                              crossing; rewrite ?(unsigned_id 64 n) by done;
                              rewrite E; reflexivity);
        cbn [buffer]; rewrite (bind_run _ _ _ _ _ (E2 _)); reflexivity];
      cbn [run_reads];
      try (erewrite bind_run by (eapply ch_get_va; [exact (proj1 (proj1 Hh2))|simpl; eassumption]));
      cbn [pl_blk with_data] in *; rewrite (bind_run _ _ _ _ _ (E3 _ eq_refl)); results
  end.

Section buffered.
Context {O : Type} `{Channel O} `{!PosixSizes O}.

Lemma read_served fd buf :
  in_signed 32 fd → in_unsigned 64 (Z.of_nat (length buf)) → call_served (VfsRead fd buf).
Proof.
  intros. by serve_buffer (Z.of_nat (length buf)) (OsRead fd false (Z.of_nat (length buf))).
Qed.

Lemma pread_served fd buf off :
  in_signed 32 fd → in_unsigned 64 (Z.of_nat (length buf)) → in_signed 64 off →
  call_served (VfsPread fd buf off).
Proof.
  intros. by serve_buffer (Z.of_nat (length buf)) (OsPread fd false (Z.of_nat (length buf)) off).
Qed.

Lemma getcwd_served buf :
  in_unsigned 64 (Z.of_nat (length buf)) → call_served (VfsGetcwd buf).
Proof.
  intros. by serve_buffer (Z.of_nat (length buf)) (OsGetcwd false (Z.of_nat (length buf))).
Qed.
End buffered.

Section structures.
Context {O : Type} `{Channel O} `{!PosixSizes O}.
Implicit Types (w : proc O) (P : payload) (l : list payload).

Lemma fstat_served fd buf : in_signed 32 fd → call_served (VfsFstat fd buf).
Proof.
  intros Hfd ds f [= <-] [= <-] ps outs l w Hr Hh. cbn [d_slots] in Hr. invert_ready.
  cbn [d_op d_slots d_done]. pose proof (proj1 Hh) as HP.
  pose proof (delivered (OsFstat fd false) (p_os w)) as Hd.
  destruct (os_run (OsFstat fd false) (p_os w)) as [[[r e] data] o] eqn:E. simpl in Hd. unfold fits in Hd.
  edestruct deliver_read_back as (w2 & E2 & Ho & Hh2 & E3);
    [exact (held_os _ _ o Hh)|reflexivity|split; [done|eassumption]|exact Hd|].
  cbn [pl_blk with_data] in *.
  destruct (os_run (OsFstatSize fd) o) as [[[r' e'] sz] o'] eqn:E'.
  exists (with_os w2 o'). eexists. split; [|split; [exact (held_os _ _ o' Hh2)|by split]].
  erewrite bind_run.
  2:{ eapply vfs_rpc_run. find_handler (VfsFstat fd buf). autounfold with vfs_handlers. pass_checks.
      erewrite bind_run by reflexivity.
      erewrite bind_run by (unfold os; simpl; change (is_null (Ptr _ _)) with false; crossing;
                            rewrite E; reflexivity).
      cbn [buffer]. rewrite (bind_run _ _ _ _ _ (E2 _)).
      erewrite bind_run by reflexivity.
      erewrite bind_run by (unfold os; simpl; crossing; rewrite Ho; simpl; rewrite E'; reflexivity).
      reflexivity. }
  cbn [run_reads]. rewrite (bind_run _ _ _ _ _ (E3 (with_os w2 o') eq_refl)). results. done.
Qed.

(** The name is in the payload allocated first. *)
Lemma stat_served name buf : (0 ∉ name) → call_served (VfsStat name buf).
Proof.
  intros Hn ds f [= <-] [= <-] ps outs l w Hr Hh. unfold SPath in Hr. cbn [d_slots] in Hr. invert_ready.
  cbn [d_op d_slots d_done]. pose proof (proj1 Hh) as HP. pose proof (proj1 (proj2 (proj2 Hh))) as HQ.
  pose proof (delivered (OsStat (Some name) false) (p_os w)) as Hd.
  destruct (os_run (OsStat (Some name) false) (p_os w)) as [[[r e] data] o] eqn:E.
  simpl in Hd. unfold fits in Hd.
  edestruct deliver_read_back as (w2 & E2 & Ho & Hh2 & E3);
    [exact (held_os _ _ o Hh)|reflexivity|split; [done|eassumption]|exact Hd|].
  cbn [pl_blk with_data] in *.
  exists w2. eexists. split; [|split; [exact Hh2|by split]].
  erewrite bind_run.
  2:{ eapply vfs_rpc_run. find_handler (VfsStat name buf). autounfold with vfs_handlers.
      unfold expect. rewrite decide_False by (intros Hc; by apply Hc).
      erewrite need_run by (eapply get_value_run; [reflexivity|lia|reflexivity]).
      erewrite need_run by (eapply (get_param_present _ _ OUT); [exact HP|lia|reflexivity]).
      erewrite bind_run by (eapply (to_va_present _ _ IN); [exact HQ|reflexivity]).
      erewrite bind_run by (eapply arg_str_present; [exact HQ|reflexivity|done|done]).
      erewrite bind_run by (unfold os; simpl; change (is_null (Ptr _ _)) with false;
                            rewrite E; reflexivity).
      cbn [buffer]. rewrite (bind_run _ _ _ _ _ (E2 _)). reflexivity. }
  cbn [run_reads]. rewrite (bind_run _ _ _ _ _ (E3 _ eq_refl)). results. done.
Qed.

(** Two buffers are filled, the one allocated first first. *)
Lemma gettimeofday_served tv tz : call_served (VfsGettimeofday tv tz).
Proof.
  intros ds f Hds [= <-] ps outs l w Hr Hh.
  assert (d_op ds = Kernel.OPTEE_VFS_GETTIMEOFDAY ∧
    d_slots ds = [SBuf IN sizeof_timeval [zeros sizeof_timeval] Copy;
                  SBuf IN sizeof_timezone [zeros sizeof_timezone]
                    (match tz with Some _ => Copy | None => NoCopy end)] ∧
    d_done ds = (λ ps bufs, let! b := value_b ps in
      ret (s32 b, nth 0 bufs [], match tz with Some _ => Some (nth 1 bufs []) | None => None end)))
    as (Hop & Hsl & Hdone) by by injection Hds as <-.
  rewrite Hsl in Hr. rewrite Hop, Hdone. clear Hds Hop Hsl Hdone. invert_ready.
  pose proof (delivered (OsGettimeofday false false) (p_os w)) as Hd.
  destruct (os_run (OsGettimeofday false false) (p_os w)) as [[[[r e] d1] d2] o] eqn:E.
  simpl in Hd. unfold fits in Hd. destruct Hd as [Hd1 Hd2].
  pose proof (proj1 Hh) as HP. pose proof (proj1 (proj2 (proj2 Hh))) as HQ.
  pose proof (held_swap _ _ _ _ (held_os _ _ o Hh)) as Hh1.
  edestruct deliver_read_back as (w2 & E2 & Ho & Hh2 & E3);
    [exact Hh1|reflexivity|split; [done|eassumption]|exact Hd1|].
  edestruct deliver_read_back as (w3 & E4 & Ho' & Hh3 & E5);
    [exact (held_swap _ _ _ _ Hh2)|reflexivity|split; [done|eassumption]|exact Hd2|].
  cbn [pl_blk with_data] in *.
  exists w3. eexists. split; [|split; [exact Hh3|split; [done|]]].
  2:{ by rewrite Ho', Ho. }
  erewrite bind_run.
  2:{ eapply vfs_rpc_run. find_handler (VfsGettimeofday tv tz). autounfold with vfs_handlers.
      unfold expect. rewrite decide_False by (intros Hc; by apply Hc).
      erewrite need_run by (eapply get_value_run; [reflexivity|lia|reflexivity]).
      erewrite need_run by (eapply (get_param_present _ _ IN); [exact HQ|lia|reflexivity]).
      erewrite need_run by (eapply (get_param_present _ _ IN); [exact HP|lia|reflexivity]).
      erewrite bind_run by (unfold os; simpl; change (is_null (Ptr _ _)) with false;
                            rewrite E; reflexivity).
      cbn [buffer]. rewrite (bind_run _ _ _ _ _ (E2 _)), (bind_run _ _ _ _ _ (E4 _)). reflexivity. }
  cbn [run_reads].
  assert (va_read (Ptr b 0) sizeof_timeval w3 = Ret (padded sizeof_timeval d1, w3)) as E6.
  { destruct Hh3 as (_ & _ & ((_ & _ & Hb & _) & _) & _).
    eapply (read_back w3 (Payload mo t b _)); [exact Hb|reflexivity|split; [done|eassumption]|exact Hd1]. }
  rewrite (bind_run _ _ _ _ _ E6).
  destruct tz; cbn [run_reads]; rewrite ?(bind_run _ _ _ _ _ (E5 _ eq_refl)); results; done.
Qed.
End structures.

(** ** Every call *)
Section every_call.
Context {O : Type} `{Channel O} `{!PosixSizes O}.
Implicit Types (w : proc O).

Lemma all_served {A} (c : vfs_call A) : args_ok c → call_served c.
Proof.
  destruct c; simpl; intros Ha; destruct_and?;
    first
      [ by intros d f _ Hf
      | by apply open_served | by apply close_served | by apply access_served
      | by apply getcwd_served | by apply stat_served | by apply fstat_served
      | by apply write_served | by apply mkdir_served | by apply rmdir_served
      | by apply unlink_served | by apply ftruncate_served | by apply read_served
      | by apply fchmod_served | by apply fchown_served | by apply geteuid_served
      | by apply getpid_served | by apply lseek_served | by apply fsync_served
      | by apply sleep_served | by apply pread_served | by apply gettimeofday_served
      | by apply fcntl_void_served | by apply fcntl_int_served | by apply time_served
      | by apply usleep_served | by apply filesize_served ].
Qed.

Lemma slots_fit {A} (c : vfs_call A) (d : desc (proc O) A) f :
  describe c = Some d → direct (O:=O) c = Some f → Forall slot_ok (d_slots d).
Proof.
  destruct c; intros Hd Hf; try discriminate Hf; simplify_eq/=;
    repeat (constructor; try done); simpl; unfold strlen, zeros;
    rewrite ?length_app, ?length_replicate; simpl; lia.
Qed.

Definition same_os (o o' : O) : Prop := ∀ fd, os_file o' fd = os_file o fd.

(** C4: the two worlds and what lies between them add up to a direct call.  For
    26 of the 31 system calls (all but getenv, pwrite, truncate, fcntl_flock and
    utimes), called with arguments of their C types, [syscall_vfs_*] on top of the
    message layer and the supplicant always returns.  Either it gave up because a
    payload was refused, which only calls with a buffer can, and no open file has
    changed; or the operating system was asked exactly what [direct] says, once, by
    the same paths, bytes, descriptors and offsets that the application gave, in a
    state whose open files are those the call began with, and its result, cut to
    the type of the call, and its bytes, padded with zeros, are what the
    application gets. *)
Theorem calls_are_forwarded {A} (c : vfs_call A) (f : O → A * O) (d : desc (proc O) A) w :
  direct c = Some f → describe c = Some d → args_ok c →
  ∃ a w', do_call c w = Ret (a, w') ∧
    ((has_buffer (d_slots d) = true ∧ a = d_give_up d ∧ same_files w w') ∨
     ∃ o, same_os (p_os w) o ∧ a = (f o).1 ∧ same_os (f o).2 (p_os w')).
Proof.
  intros Hf Hd Ha. rewrite (do_call_marshal c d w Hd). unfold marshal.
  destruct (with_slots_held (d_give_up d) (d_slots d)
    (λ a w', (has_buffer (d_slots d) = true ∧ a = d_give_up d ∧ same_files w w') ∨
       ∃ o, same_os (p_os w) o ∧ a = (f o).1 ∧ same_os (f o).2 (p_os w'))
    (λ ps outs, let! params := vfs_rpc (THREAD_PARAM_VALUE INOUT (d_op d) 0 0 :: ps) in
                run_reads outs (λ bufs, d_done d params bufs)) [] w)
    as (a & w' & l' & E & _ & _ & Hq); [by eapply slots_fit|done|..].
  - intros a w1 w2 Hs [(? & ? & Hs1)|(o & ? & ? & Hs1)]; [left|right].
    + split_and!; [done..|]. intros fd. by rewrite Hs.
    + exists o. split_and!; [done..|]. intros fd. by rewrite (Hs fd).
  - intros Hb w1 Hs. by left.
  - intros ps outs l1 w1 Hr Hh Hs.
    destruct (all_served c Ha d f Hd Hf ps outs l1 w1 Hr Hh) as (w2 & l2 & E & ? & ? & Ho).
    exists (f (p_os w1)).1, w2, l2. split_and!; [done..|]. right. exists (p_os w1).
    split_and!; [exact Hs|done|]. intros fd. by rewrite Ho.
  - by exists a, w'.
Qed.
End every_call.

(** ** At work *)

Definition ex_read_call : vfs_call (Z * bytes) := VfsRead 3 [0; 0].

Definition ex_direct_read (o : host) : (Z * bytes) * host :=
  let '((r, e, data), o') := os_run (OsRead 3 false 2) o in ((s64 r, padded 2 data), o').

Lemma calls_are_forwarded_witness :
  ∃ a w', do_call ex_read_call ex_node = Ret (a, w') ∧
    ((true = true ∧ a = (-1, [0; 0]) ∧ same_files ex_node w') ∨
     ∃ o, same_os (p_os ex_node) o ∧ a = (ex_direct_read o).1 ∧
          same_os (ex_direct_read o).2 (p_os w')).
Proof.
  apply (calls_are_forwarded (O:=host) ex_read_call ex_direct_read _ ex_node eq_refl eq_refl).
  split; split; simpl; lia.
Defined.

(** And it does read the file. *)
Example read_call_reads :
  match do_call ex_read_call ex_node with Ret (a, _) => a = (2, [1; 2]) | Undef => False end.
Proof. vm_compute. reflexivity. Qed.
