(* ===== verification/Session.v ===== *)
(** * Sessions: any sequence of calls through the method table

SQLite reaches an open file through the table [demoio] that [demoOpen] installs.
A session is any list of calls made through it.  Two things are shown of every
session: its answers are those of a file without a write buffer, and what is in
the file below is always a prefix, byte by byte, of what was written: the buffer
delays writes but never reorders them, and a sync is a barrier.  That is what a
rollback journal relies on when the application dies in the middle of it. *)
From S2P Require Import Prelude CMem UteeVfs MemFile TeeVfs KernelVfs SuppShm SuppLoop Transport Loopback.
#[local] Open Scope Z_scope.
#[local] Open Scope c_scope.

(** ** The method tables

The members that the tables of tee_vfs.c set; those of later versions stay NULL. *)
Record sqlite3_io_methods (W : Type) : Type := IoMethods {
  iVersion : Z;
  xClose : DemoFile → C W Z;
  xRead : DemoFile → bytes → Z → Z → C W (Z * DemoFile * bytes);
  xWrite : DemoFile → bytes → Z → Z → C W (Z * DemoFile);
  xTruncate : DemoFile → Z → C W Z;
  xSync : DemoFile → Z → C W (Z * DemoFile);
  xFileSize : DemoFile → C W (Z * DemoFile * option Z);
  xLock : DemoFile → Z → C W Z;
  xUnlock : DemoFile → Z → C W Z;
  xCheckReservedLock : DemoFile → C W (Z * Z);
  xFileControl : DemoFile → Z → C W Z;
  xSectorSize : DemoFile → C W Z;
  xDeviceCharacteristics : DemoFile → C W Z
}.
Arguments IoMethods {W}. Arguments xClose {W}. Arguments xRead {W}. Arguments xWrite {W}.
Arguments xTruncate {W}. Arguments xSync {W}. Arguments xFileSize {W}. Arguments xLock {W}.
Arguments xUnlock {W}. Arguments xCheckReservedLock {W}. Arguments xFileControl {W}.
Arguments xSectorSize {W}. Arguments xDeviceCharacteristics {W}.

(** [sqlite3_free] is the allocator's, as in [TeeVfs]. *)
Definition demoio {W} `{UteeVfs W} (sqlite3_free : option bytes → C W unit) : sqlite3_io_methods W :=
  IoMethods 1 (demoClose sqlite3_free) demoRead demoWrite demoTruncate demoSync demoFileSize
    demoLock demoUnlock demoCheckReservedLock demoFileControl demoSectorSize demoDeviceCharacteristics.

(** The table of the VFS.  [sizeof_DemoFile] is the compiler's. *)
Record sqlite3_vfs (W : Type) : Type := Vfs {
  vfs_iVersion : Z;
  szOsFile : Z;
  mxPathname : Z;
  pNext : option Z;
  vfs_zName : bytes;
  pAppData : option Z;
  xOpen : option bytes → DemoFile → Z → bool → C W (Z * DemoFile * option Z);
  xDelete : bytes → Z → C W Z;
  xAccess : bytes → Z → C W (Z * Z);
  xFullPathname : bytes → Z → bytes → C W (Z * bytes);
  xDlOpen : bytes → C W (option Z);
  xDlError : Z → bytes → C W bytes;
  xDlSym : bytes → C W (option Z);
  xDlClose : C W unit;
  xRandomness : Z → bytes → C W (Z * bytes);
  xSleep : Z → C W Z;
  xCurrentTime : C W (Z * SpecFloat.spec_float)
}.
Arguments Vfs {W}. Arguments xOpen {W}.

(** ["demo"] *)
Definition demo_name : bytes := [100; 101; 109; 111].

(** The allocator, the formatted print and what local arrays hold are those of
    [TeeVfs]. *)
Definition sqlite3_demovfs {W} `{UteeVfs W} (sqlite3_malloc : Z → C W (option bytes))
    (sqlite3_free : option bytes → C W unit) (sqlite3_snprintf : Z → bytes → bytes → bytes)
    (uninit : Z → bytes) (sizeof_DemoFile : Z) : sqlite3_vfs W :=
  Vfs 1 sizeof_DemoFile MAXPATHNAME None demo_name None
    (demoOpen sqlite3_malloc sqlite3_free) (demoDelete sqlite3_snprintf uninit) demoAccess
    (demoFullPathname sqlite3_snprintf uninit) demoDlOpen (demoDlError sqlite3_snprintf) demoDlSym demoDlClose
    demoRandomness demoSleep demoCurrentTime.

(** ** Sessions *)
Inductive call : Type :=
| CRead (zBuf : bytes) (iAmt iOfst : Z)
| CWrite (zBuf : bytes) (iAmt iOfst : Z)
| CTruncate (size : Z)
| CSync (flags : Z)
| CFileSize
| CLock (eLock : Z)
| CUnlock (eLock : Z)
| CCheckReservedLock
| CFileControl (op : Z)
| CSectorSize
| CDeviceCharacteristics.

(** The code, the caller's buffer after a read, and the number stored. *)
Record answer : Type := Answer { a_rc : Z; a_buf : bytes; a_num : option Z }.

Definition invoke {W} (t : sqlite3_io_methods W) (c : call) (p : DemoFile) : C W (answer * DemoFile) :=
  match c with
  | CRead zBuf n i => let! '(rc, p, buf) := xRead t p zBuf n i in ret (Answer rc buf None, p)
  | CWrite zBuf n i => let! '(rc, p) := xWrite t p zBuf n i in ret (Answer rc [] None, p)
  | CTruncate size => let! rc := xTruncate t p size in ret (Answer rc [] None, p)
  | CSync flags => let! '(rc, p) := xSync t p flags in ret (Answer rc [] None, p)
  | CFileSize => let! '(rc, p, size) := xFileSize t p in ret (Answer rc [] size, p)
  | CLock e => let! rc := xLock t p e in ret (Answer rc [] None, p)
  | CUnlock e => let! rc := xUnlock t p e in ret (Answer rc [] None, p)
  | CCheckReservedLock => let! '(rc, out) := xCheckReservedLock t p in ret (Answer rc [] (Some out), p)
  | CFileControl op => let! rc := xFileControl t p op in ret (Answer rc [] None, p)
  | CSectorSize => let! rc := xSectorSize t p in ret (Answer rc [] None, p)
  | CDeviceCharacteristics => let! rc := xDeviceCharacteristics t p in ret (Answer rc [] None, p)
  end.

Fixpoint session {W} (t : sqlite3_io_methods W) (cs : list call) (p : DemoFile)
    : C W (list answer * DemoFile) :=
  match cs with
  | [] => ret ([], p)
  | c :: cs =>
      let! '(a, p) := invoke t c p in
      let! '(l, p) := session t cs p in
      ret (a :: l, p)
  end.

(** What SQLite keeps to: buffers that hold what it names, sizes that are [int]s,
    offsets that are not negative. *)
Definition call_ok (c : call) : Prop :=
  match c with
  | CRead zBuf n i => 0 ≤ n ≤ Z.of_nat (length zBuf) ∧ n < 2 ^ 31 ∧ 0 ≤ i < 2 ^ 63
  | CWrite zBuf n i => 0 ≤ n ≤ Z.of_nat (length zBuf) ∧ n < 2 ^ 31 ∧ 0 ≤ i ∧ i + n < 2 ^ 63
  | _ => True
  end.

(** ** The file without a buffer *)

Definition failed (a : answer) : bool :=
  bool_decide (a_rc a ∈ [SQLITE_IOERR_READ; SQLITE_IOERR_WRITE; SQLITE_IOERR_FSYNC; SQLITE_IOERR_FSTAT]).

(** What [c] answers on a file that holds [v], when it does not fail.  A read may
    be short, of the file or of the transfer. *)
Definition answered (v : bytes) (c : call) (a : answer) : Prop :=
  match c with
  | CRead zBuf n i =>
      let n := Z.to_nat n in
      let range := read_at v (Z.to_nat i) n in
      drop n (a_buf a) = drop n zBuf ∧
      (a_rc a = SQLITE_OK ∧ take n (a_buf a) = range ∧ length range = n
       ∨ a_rc a = SQLITE_IOERR_SHORT_READ ∧
         ∃ k, (k < n)%nat ∧ take n (a_buf a) = take k range ++ replicate (n - k) 0)
  | CFileSize => a_rc a = SQLITE_OK ∧ a_num a = Some (Z.of_nat (length v))
  | CCheckReservedLock => a_rc a = SQLITE_OK ∧ a_num a = Some 0
  | CFileControl _ => a_rc a = SQLITE_NOTFOUND
  | CSectorSize | CDeviceCharacteristics => a_rc a = 0
  | _ => a_rc a = SQLITE_OK
  end.

Definition effect (v : bytes) (c : call) : bytes :=
  match c with CWrite zBuf n i => write_at v (Z.to_nat i) (take (Z.to_nat n) zBuf) | _ => v end.

(** The answers are those of a file that holds [v], up to the first that fails. *)
Fixpoint agrees (v : bytes) (cs : list call) (l : list answer) : Prop :=
  match cs, l with
  | [], [] => True
  | c :: cs, a :: l =>
      if failed a then length cs = length l
      else answered v c a ∧ agrees (effect v c) cs l
  | _, _ => False
  end.

(** ** Byte by byte *)

(** The bytes of a write, each with its place, in order. *)
Definition bytes_at (o : nat) (bs : bytes) : list (nat * Z) := imap (λ i b, ((o + i)%nat, b)) bs.

(** The file after them. *)
Definition replay (l : bytes) (ws : list (nat * Z)) : bytes :=
  foldl (λ l w, write_at l w.1 [w.2]) l ws.

Definition written (c : call) : list (nat * Z) :=
  match c with CWrite zBuf n i => bytes_at (Z.to_nat i) (take (Z.to_nat n) zBuf) | _ => [] end.

(** What the buffer still holds. *)
Definition pending (p : DemoFile) : list (nat * Z) :=
  match aBuffer p with
  | Some buf => bytes_at (Z.to_nat (iBufferOfst p)) (take (Z.to_nat (nBuffer p)) buf)
  | None => []
  end.

(** The writes [ws] have been made to a file that held [l0]: [done] are in the
    file, the rest is buffered. *)
Definition logged {W} `{FileLaws W} (l0 : bytes) (done ws : list (nat * Z)) (p : DemoFile) (w : W) : Prop :=
  demo_ok p ∧ (∃ pos, fd_file w (fd p) = Some (replay l0 done, pos)) ∧ ws = done ++ pending p.

Lemma bytes_at_cons o b bs : bytes_at o (b :: bs) = (o, b) :: bytes_at (S o) bs.
Proof.
  unfold bytes_at. cbn [imap]. rewrite Nat.add_0_r. f_equal. apply imap_ext. intros i x _. simpl.
  f_equal. lia.
Qed.

Lemma bytes_at_app o a bs : bytes_at o (a ++ bs) = bytes_at o a ++ bytes_at (o + length a) bs.
Proof.
  revert o. induction a as [|x a IH]; intros o; [by rewrite Nat.add_0_r|].
  cbn [app length]. rewrite !bytes_at_cons, IH. cbn [app].
  by replace (S o + length a)%nat with (o + S (length a))%nat by lia.
Qed.

Lemma bytes_at_take o k bs : bytes_at o (take k bs) `prefix_of` bytes_at o bs.
Proof. rewrite <- (take_drop k bs) at 2. rewrite bytes_at_app. by eexists. Qed.

Lemma replay_app l a b : replay l (a ++ b) = replay (replay l a) b.
Proof. apply foldl_app. Qed.

Lemma replay_bytes_at l o bs : replay l (bytes_at o bs) = write_at l o bs.
Proof.
  revert l o. induction bs as [|b bs IH]; intros l o; [done|]. rewrite bytes_at_cons.
  change (replay l ((o, b) :: bytes_at (S o) bs)) with (replay (write_at l o [b]) (bytes_at (S o) bs)).
  rewrite IH. replace (S o) with (o + length [b])%nat by (simpl; lia). by rewrite write_at_app.
Qed.

Section logged.
Context {W : Type} `{FileLaws W}.
Implicit Types (p : DemoFile) (w : W) (l buf zBuf : bytes) (done ws : list (nat * Z)).

Lemma pending_empty p : nBuffer p = 0 → pending p = [].
Proof. unfold pending. intros ->. by destruct (aBuffer p). Qed.

Lemma logged_repr l0 done ws p w : logged l0 done ws p w → demo_repr p w (replay l0 ws).
Proof.
  intros (Hok & (pos & Hf) & ->). split; [done|]. unfold demo_view. rewrite Hf, replay_app. f_equal.
  unfold pending. destruct (aBuffer p); [|done]. by rewrite replay_bytes_at.
Qed.

Lemma logged_start p w l pos :
  demo_ok p → fd_file w (fd p) = Some (l, pos) → logged l [] (pending p) p w.
Proof. intros Hok Hf. split; [done|]. split; [by exists pos|done]. Qed.

(** From [ws] on, [new] has been written, all of it if [ok]; nothing that was in
    the file is lost. *)
Definition progress (l0 : bytes) (done ws new : list (nat * Z)) (ok : Prop) (p p' : DemoFile) (w' : W) : Prop :=
  fd p' = fd p ∧
  ∃ done' ws', done `prefix_of` done' ∧ logged l0 done' ws' p' w' ∧ ws' `prefix_of` ws ++ new ∧
    (ok → ws' = ws ++ new).

Lemma progress_none l0 done ws (ok : Prop) p w : logged l0 done ws p w → progress l0 done ws [] ok p p w.
Proof. intros Hl. split; [done|]. exists done, ws. rewrite app_nil_r. by split_and!. Qed.

(** A step that failed loses what was to be written. *)
Lemma progress_failed l0 done ws new ok (ok' : Prop) p p' (w' : W) :
  progress l0 done ws [] ok p p' w' → (ok' → False) → progress l0 done ws new ok' p p' w'.
Proof.
  intros (Hfd & done' & ws' & Hd & Hl & Hws & _) Hf. split; [done|]. exists done', ws'. split_and!; try done.
  rewrite app_nil_r in Hws. by apply prefix_app_r.
Qed.

Lemma progress_app l0 done ws a b ok p p1 p' (w' : W) done1 :
  done `prefix_of` done1 → fd p1 = fd p → progress l0 done1 (ws ++ a) b ok p1 p' w' →
  progress l0 done ws (a ++ b) ok p p' w'.
Proof.
  intros Hd1 Hfd1 (Hfd & done' & ws' & Hd & Hl & Hws & Hok). split; [by rewrite Hfd|].
  exists done', ws'. rewrite (assoc_L (++)). split_and!; try done. by etrans.
Qed.

(** Bytes written straight to a file with nothing buffered. *)
Lemma direct_logged l0 done ws p p' w' k o bs (ok : Prop) pos :
  demo_ok p' → fd p' = fd p → pending p' = [] → ws = done →
  fd_file w' (fd p) = Some (write_at (replay l0 done) o (take k bs), pos) → (ok → (length bs ≤ k)%nat) →
  progress l0 done ws (bytes_at o bs) ok p p' w'.
Proof.
  intros Hok Hfd Hp -> Hf Hk. split; [done|].
  exists (done ++ bytes_at o (take k bs)), (done ++ bytes_at o (take k bs)).
  split; [by eexists|]. split; [|split].
  - split; [done|]. split; [|by rewrite Hp, app_nil_r]. exists pos. by rewrite Hfd, replay_app, replay_bytes_at.
  - apply prefix_app, bytes_at_take.
  - intros Hok'. by rewrite take_ge by by apply Hk.
Qed.

(** ** Each method *)

Lemma flush_logged l0 done ws p w :
  logged l0 done ws p w →
  ∃ rc p' w', demoFlushBuffer p w = Ret ((rc, p'), w') ∧ nBuffer p' = 0 ∧ aBuffer p' = aBuffer p ∧
    progress l0 done ws [] (rc = SQLITE_OK) p p' w' ∧ (rc = SQLITE_OK ∨ rc = SQLITE_IOERR_WRITE).
Proof.
  intros (Hok & (pos & Hf) & ->). unfold demoFlushBuffer. case_decide as Hn.
  2:{ exists SQLITE_OK, p, w. split_and!; try done; [|by left].
      apply progress_none. split; [done|]. by split; [eexists|]. }
  destruct (aBuffer p) as [buf|] eqn:Eb; [|by unfold demo_ok in Hok; rewrite Eb in Hok].
  destruct (demo_ok_buffer p buf Hok Eb) as (Hl & Hr & ? & ?). unfold SQLITE_TEEVFS_BUFFERSZ in *.
  destruct (demoDirectWrite_spec p buf (nBuffer p) (iBufferOfst p) w _ pos Hf)
    as (rc & w' & k & pos' & E & Hk & Hf' & Hrc); [lia..|].
  change (lift (Some buf)) with (ret (S:=W) buf). rewrite bind_ret_l, (bind_run _ _ _ _ _ E).
  exists rc, (set_buffer p (Some buf) 0 (iBufferOfst p)), w'. split_and!; try done; [|tauto].
  assert (∀ q, q = set_buffer p (Some buf) 0 (iBufferOfst p) → demo_ok q) as Hok'
    by (intros q ->; revert Hok; unfold demo_ok; simpl; rewrite Eb; unfold SQLITE_TEEVFS_BUFFERSZ; lia).
  destruct (direct_logged l0 done done p (set_buffer p (Some buf) 0 (iBufferOfst p)) w' k (Z.to_nat (iBufferOfst p))
    (take (Z.to_nat (nBuffer p)) buf) (rc = SQLITE_OK) pos') as (Hfd & done' & ws' & Hd & Hlog & Hws & Hall).
  - by apply Hok'.
  - done.
  - done.
  - done.
  - by rewrite take_take, Nat.min_l by lia.
  - intros ->. destruct Hrc as [[_ ->]|?]; [|done]. rewrite length_take. lia.
  - split; [done|]. exists done', ws'. split_and!; try done.
    + rewrite app_nil_r. unfold pending. by rewrite Eb.
    + rewrite app_nil_r. unfold pending. by rewrite Eb.
Qed.

(** Copying into the buffer, where there is room and it continues what is there. *)
Lemma append_logged l0 done ws p w buf src i :
  logged l0 done ws p w → aBuffer p = Some buf → 0 ≤ i →
  nBuffer p = 0 ∨ iBufferOfst p + nBuffer p = i →
  nBuffer p + Z.of_nat (length src) ≤ SQLITE_TEEVFS_BUFFERSZ → i + Z.of_nat (length src) < 2 ^ 63 →
  logged l0 done (ws ++ bytes_at (Z.to_nat i) src)
    (set_buffer p (Some (splice buf (Z.to_nat (nBuffer p)) src))
      (nBuffer p + Z.of_nat (length src)) (i - nBuffer p)) w.
Proof.
  intros (Hok & Hf & ->) Eb Hi Hat Hfit Hmax. destruct (demo_ok_buffer p buf Hok Eb) as (Hl & Hr & ? & ?).
  split; [by apply demo_ok_append|]. split; [done|]. rewrite <- (assoc_L (++)). f_equal.
  unfold pending. rewrite Eb. simpl.
  assert (take (Z.to_nat (nBuffer p + Z.of_nat (length src))) (splice buf (Z.to_nat (nBuffer p)) src)
          = take (Z.to_nat (nBuffer p)) buf ++ src) as ->.
  { unfold splice. rewrite app_assoc, take_app_le; [apply take_ge|]; rewrite length_app, length_take; lia. }
  rewrite bytes_at_app, length_take, Nat.min_l by lia. destruct Hat as [Hz|<-].
  - rewrite Hz. change (Z.to_nat 0) with 0%nat. rewrite take_0, Z.sub_0_r, Nat.add_0_r. done.
  - replace (iBufferOfst p + nBuffer p - nBuffer p) with (iBufferOfst p) by lia. do 2 f_equal. lia.
Qed.

Lemma room_logged (b : bool) l0 done ws p i w buf :
  logged l0 done ws p w → aBuffer p = Some buf →
  (b = false → nBuffer p ≠ SQLITE_TEEVFS_BUFFERSZ ∧ iBufferOfst p + nBuffer p = i) →
  ∃ rc p1 w1,
    (if b then demoFlushBuffer p else ret (SQLITE_OK, p)) w = Ret ((rc, p1), w1) ∧ aBuffer p1 = Some buf ∧
    (nBuffer p1 = 0 ∨ nBuffer p1 ≠ SQLITE_TEEVFS_BUFFERSZ ∧ iBufferOfst p1 + nBuffer p1 = i) ∧
    progress l0 done ws [] (rc = SQLITE_OK) p p1 w1 ∧ (rc = SQLITE_OK ∨ rc = SQLITE_IOERR_WRITE).
Proof.
  intros Hl Eb Hb. destruct b.
  - destruct (flush_logged l0 done ws p w Hl) as (rc & p1 & w1 & E & Hn & Ha & Hp & Hrc).
    exists rc, p1, w1. rewrite Ha. split_and!; try done. by left.
  - exists SQLITE_OK, p, w. split_and!; try done; [right; by apply Hb|by apply progress_none|by left].
Qed.


Lemma loop_logged fuel l0 done ws p z n i w :
  logged l0 done ws p w → is_Some (aBuffer p) →
  0 ≤ n ≤ Z.of_nat (length z) → n ≤ Z.of_nat fuel → 0 ≤ i → i + n < 2 ^ 63 →
  ∃ rc p' w', demoWrite_loop fuel p z n i w = Ret ((rc, p'), w') ∧
    progress l0 done ws (bytes_at (Z.to_nat i) (take (Z.to_nat n) z)) (rc = SQLITE_OK) p p' w' ∧
    (rc = SQLITE_OK ∨ rc = SQLITE_IOERR_WRITE).
Proof.
  revert done ws p z n i w. induction fuel as [|fuel IH]; intros done ws p z n i w Hl [buf Eb] Hn Hfuel Hi Hmax.
  all: destruct (decide (n = 0)) as [->|Hn0].
  all: try (by exfalso; lia).
  1-2: exists SQLITE_OK, p, w; split; [done|split; [by apply progress_none|by left]].
  destruct (full_or_apart_spec p i w buf (proj1 Hl) Eb) as (b & E & Hb).
  destruct (room_logged b l0 done ws p i w buf Hl Eb Hb) as (rc & p1 & w1 & E1 & Eb1 & Hat & Hp1 & Hrc).
  destruct Hrc as [-> | ->].
  2:{ cbn [demoWrite_loop]. rewrite decide_True by lia. rewrite (bind_run _ _ _ _ _ E), (bind_run _ _ _ _ _ E1).
      rewrite decide_True by done. exists SQLITE_IOERR_WRITE, p1, w1. split; [done|]. split; [|by right].
      by eapply progress_failed. }
  destruct Hp1 as (Hfd1 & done1 & ws1 & Hd1 & Hl1 & _ & Hall). rewrite (Hall eq_refl), app_nil_r in Hl1. clear Hall ws1.
  destruct (loop_turn p z n i w b p1 w1 buf E E1 (proj1 Hl1) Eb1 Hat) as (src & Hsn & Hsrc & Hls & Hfit & _ & ->); [lia..|].
  assert (0 < length src)%nat as Hpos by (destruct src; [done|simpl; lia]).
  assert (nBuffer p1 = 0 ∨ iBufferOfst p1 + nBuffer p1 = i) as Hat' by tauto.
  pose proof (append_logged l0 done1 ws p1 w1 buf src i Hl1 Eb1 Hi Hat' Hfit ltac:(lia)) as Hl2.
  set (p2 := set_buffer p1 _ _ _) in *.
  destruct (IH done1 _ p2 (drop (length src) z) (n - Z.of_nat (length src)) (i + Z.of_nat (length src)) w1 Hl2)
    as (rc & p' & w' & E' & Hp' & Hrc); [by eexists|rewrite length_drop; lia|lia..|].
  exists rc, p', w'. split; [done|]. split; [|done].
  assert (bytes_at (Z.to_nat i) (take (Z.to_nat n) z) = bytes_at (Z.to_nat i) src ++
    bytes_at (Z.to_nat (i + Z.of_nat (length src))) (take (Z.to_nat (n - Z.of_nat (length src))) (drop (length src) z))) as ->.
  { replace (Z.to_nat (i + Z.of_nat (length src))) with (Z.to_nat i + length src)%nat by lia.
    rewrite <- bytes_at_app. f_equal.
    transitivity (take (length src) z ++ take (Z.to_nat (n - Z.of_nat (length src))) (drop (length src) z)); [|by rewrite <- Hsrc].
    rewrite take_take_drop. f_equal. lia. }
  by apply (progress_app l0 done ws _ _ _ p p2 p' w' done1).
Qed.

Lemma write_logged l0 done ws p w zBuf n i :
  logged l0 done ws p w → call_ok (CWrite zBuf n i) →
  ∃ rc p' w', demoWrite p zBuf n i w = Ret ((rc, p'), w') ∧
    progress l0 done ws (written (CWrite zBuf n i)) (rc = SQLITE_OK) p p' w' ∧
    (rc = SQLITE_OK ∨ rc = SQLITE_IOERR_WRITE).
Proof.
  intros Hl (Hn & Hn31 & Hi & Hmax). unfold demoWrite. destruct (aBuffer p) as [buf|] eqn:Eb.
  - apply loop_logged; try done; lia.
  - destruct Hl as (Hok & (pos & Hf) & ->).
    assert (pending p = []) as Hp by (unfold pending; by rewrite Eb).
    destruct (demoDirectWrite_spec p zBuf n i w _ pos Hf) as (rc & w' & k & pos' & E & Hk & Hf' & Hrc); [lia..|].
    rewrite (bind_run _ _ _ _ _ E). exists rc, p, w'. split; [done|]. split; [|tauto].
    apply (direct_logged l0 done _ p p w' k _ _ _ pos'); try done; [by rewrite Hp, app_nil_r| |].
    + by rewrite take_take, Nat.min_l by lia.
    + intros ->. destruct Hrc as [[_ ->]|?]; [|done]. rewrite length_take. lia.
Qed.

(** Nothing buffered and the file as it was: the log is as it was. *)
Lemma logged_same_file l0 done ws p w w' :
  logged l0 done ws p w → (∀ l pos, fd_file w (fd p) = Some (l, pos) → ∃ pos', fd_file w' (fd p) = Some (l, pos')) →
  logged l0 done ws p w'.
Proof. intros (Hok & (pos & Hf) & ->) Hsame. split; [done|]. split; [by eapply Hsame|done]. Qed.

Lemma progress_same_file l0 done ws new ok p p' (w w' : W) :
  progress l0 done ws new ok p p' w →
  (∀ l pos, fd_file w (fd p') = Some (l, pos) → ∃ pos', fd_file w' (fd p') = Some (l, pos')) →
  progress l0 done ws new ok p p' w'.
Proof.
  intros (Hfd & done' & ws' & Hd & Hl & Hws & Hall) Hsame. split; [done|]. exists done', ws'. split_and!; try done.
  by eapply logged_same_file.
Qed.

Lemma progress_file l0 done ws new ok p p' (w' : W) :
  progress l0 done ws new ok p p' w' → ∃ l pos, fd_file w' (fd p') = Some (l, pos).
Proof. intros (_ & done' & ws' & _ & (_ & (pos & Hf) & _) & _). eauto. Qed.

(** After its flush [demoRead] leaves the file alone. *)
Lemma read_after_flush p zBuf n i w rc p' buf w' rc1 p1 w1 :
  demoRead p zBuf n i w = Ret ((rc, p', buf), w') → demoFlushBuffer p w = Ret ((rc1, p1), w1) →
  0 ≤ n ≤ Z.of_nat (length zBuf) → n < 2 ^ 31 → 0 ≤ i < 2 ^ 63 →
  p' = p1 ∧ (rc1 ≠ SQLITE_OK → rc = rc1) ∧
  ∀ l pos, fd_file w1 (fd p1) = Some (l, pos) → ∃ pos', fd_file w' (fd p1) = Some (l, pos').
Proof.
  intros E E1 Hn Hn31 Hi. unfold demoRead in E. rewrite (bind_run _ _ _ _ _ E1) in E.
  case_decide as Hrc; [injection E as <- <- <- <-; eauto|].
  cut (p' = p1 ∧ ∀ l pos, fd_file w1 (fd p1) = Some (l, pos) → ∃ pos', fd_file w' (fd p1) = Some (l, pos')); [tauto|].
  apply bind_inv in E as (r & w2 & E2 & E).
  assert (∀ l pos, fd_file w1 (fd p1) = Some (l, pos) → ∃ pos', fd_file w2 (fd p1) = Some (l, pos')) as H2.
  { intros l pos Hf. destruct (lseek_law w1 (fd p1) i l pos Hf Hi) as (? & ? & E2' & Hr). rewrite E2 in E2'.
    injection E2' as <- <-. destruct Hr as [[_ ?]|[_ ?]]; eauto. }
  case_decide as Hr; [injection E as <- <- <- <-; eauto|].
  assert (u64 n = n) as Hu by (apply unsigned_id; unfold in_unsigned; lia). rewrite Hu in E.
  rewrite (bind_run _ _ _ _ _ (read_buf_eq _ _ _ Hn)) in E. apply bind_inv in E as ([r' part] & w3 & E3 & E).
  assert (w' = w3 ∧ p' = p1) as [-> ->].
  { repeat case_decide; try (by injection E as <- <- <- <-);
      apply bind_inv in E as (zb & w4 & E4 & E); injection E as <- <- <- <-;
      first [unfold memcpy_at in E4; case_decide; [by injection E4 as _ <-|done]|by injection E4 as _ <-]. }
  split; [done|]. intros l pos Hf. destruct (H2 l pos Hf) as (pos2 & Hf2).
  destruct (read_step_spec p1 zBuf n w2 l pos2 Hf2 Hn Hn31) as (? & ? & ? & pos3 & E3' & _ & Hf3 & _).
  rewrite E3 in E3'. injection E3' as <- <- <-. eauto.
Qed.

Lemma progress_mono l0 done ws new (ok ok' : Prop) p p' (w' : W) :
  progress l0 done ws new ok p p' w' → (ok' → ok) → progress l0 done ws new ok' p p' w'.
Proof.
  intros (Hfd & done' & ws' & Hd & Hl & Hws & Hall) Himp. split; [done|]. exists done', ws'. split_and!; eauto.
Qed.

Lemma read_logged l0 done ws p w zBuf n i :
  logged l0 done ws p w → call_ok (CRead zBuf n i) →
  ∃ rc p' buf w', demoRead p zBuf n i w = Ret ((rc, p', buf), w') ∧
    progress l0 done ws [] (failed (Answer rc buf None) = false) p p' w' ∧
    (failed (Answer rc buf None) = false → answered (replay l0 ws) (CRead zBuf n i) (Answer rc buf None)).
Proof.
  intros Hl (Hn & Hn31 & Hi). destruct (logged_repr _ _ _ _ _ Hl) as [Hok Hv].
  pose proof Hl as (_ & (pos & Hf) & _).
  destruct (flush_logged l0 done ws p w Hl) as (rc1 & p1 & w1 & E1 & _ & _ & Hp1 & Hrc1).
  destruct (demoRead_spec p w _ pos zBuf n i Hf Hok) as (rc & p' & buf & w' & E & _ & _ & Hd & Hrc); try done.
  destruct (read_after_flush p zBuf n i w rc p' buf w' rc1 p1 w1 E E1) as (-> & Hfail & Hsame); try done.
  exists rc, p1, buf, w'. split; [done|]. split.
  - apply (progress_mono l0 done ws [] (rc1 = SQLITE_OK)); [by eapply progress_same_file|].
    intros Hnf. destruct (decide (rc1 = SQLITE_OK)) as [|Hne]; [done|]. rewrite (Hfail Hne) in Hnf.
    destruct Hrc1 as [->| ->]; done.
  - intros Hnf. split; [done|]. destruct Hrc as [(-> & v & Hv1 & _ & Ht & Hlen)|[(-> & v & k & Hv1 & _ & Hk & Ht)|[->| ->]]]; try done.
    + rewrite Hv in Hv1. injection Hv1 as <-. left. split; [done|]. split; [done|]. rewrite length_read_at. lia.
    + rewrite Hv in Hv1. injection Hv1 as <-. right. split; [done|]. by exists k.
Qed.

Lemma sync_logged l0 done ws p w flags :
  logged l0 done ws p w →
  ∃ rc p' w', demoSync p flags w = Ret ((rc, p'), w') ∧ pending p' = [] ∧
    progress l0 done ws [] (failed (Answer rc [] None) = false) p p' w' ∧
    (rc = SQLITE_OK ∨ rc = SQLITE_IOERR_FSYNC ∨ rc = SQLITE_IOERR_WRITE).
Proof.
  intros Hl. destruct (flush_logged l0 done ws p w Hl) as (rc1 & p1 & w1 & E1 & Hn & _ & Hp1 & Hrc1).
  unfold demoSync. rewrite (bind_run _ _ _ _ _ E1). apply pending_empty in Hn. destruct Hrc1 as [-> | ->].
  - rewrite decide_False by (intros Hne; by apply Hne).
    destruct (progress_file _ _ _ _ _ _ _ _ Hp1) as (l & pos & Hf).
    destruct (fsync_law w1 (fd p1) l pos Hf) as (r & w2 & E2 & Hf2). rewrite (bind_run _ _ _ _ _ E2).
    eexists _, p1, w2. split; [done|]. split; [done|]. split; [|case_decide; tauto].
    apply (progress_mono l0 done ws [] (SQLITE_OK = SQLITE_OK)); [|done].
    eapply progress_same_file; [exact Hp1|]. intros l' pos' Hf'. rewrite Hf in Hf'. injection Hf' as <- <-. eauto.
  - rewrite decide_True by done. exists SQLITE_IOERR_WRITE, p1, w1. split_and!; try done; [|tauto].
    by eapply progress_failed.
Qed.

Lemma filesize_logged l0 done ws p w :
  logged l0 done ws p w →
  ∃ rc p' size w', demoFileSize p w = Ret ((rc, p', size), w') ∧
    progress l0 done ws [] (failed (Answer rc [] size) = false) p p' w' ∧
    (failed (Answer rc [] size) = false → answered (replay l0 ws) CFileSize (Answer rc [] size)).
Proof.
  intros Hl. destruct (flush_logged l0 done ws p w Hl) as (rc1 & p1 & w1 & E1 & Hn & _ & Hp1 & Hrc1).
  unfold demoFileSize. rewrite (bind_run _ _ _ _ _ E1). destruct Hrc1 as [-> | ->].
  - rewrite decide_False by (intros Hne; by apply Hne).
    destruct Hp1 as (Hfd & done1 & ws1 & Hd & Hl1 & _ & Hall). rewrite (Hall eq_refl), app_nil_r in Hl1.
    pose proof Hl1 as (_ & (pos & Hf) & Hws). rewrite (pending_empty p1 Hn), app_nil_r in Hws. subst done1.
    destruct (filesize_law w1 (fd p1) _ pos Hf) as (r & w2 & E2 & Hr & Hf2). rewrite (bind_run _ _ _ _ _ E2).
    assert (∀ ok : Prop, progress l0 done ws [] ok p p1 w2) as Hp2.
    { intros ok. split; [done|]. exists ws, ws. rewrite app_nil_r. split_and!; try done.
      eapply logged_same_file; [exact Hl1|]. intros l' pos' Hf'. rewrite Hf in Hf'. injection Hf' as <- <-. eauto. }
    case_decide as Hr1; eexists _, p1, _, w2; (split; [done|]); (split; [done|]); [done|].
    intros _. split; [done|]. simpl. destruct Hr as [?| ->]; [done|]. done.
  - rewrite decide_True by done. exists SQLITE_IOERR_WRITE, p1, None, w1. split_and!; try done.
    by eapply progress_failed.
Qed.

Lemma invoke_logged sqlite3_free c l0 done ws p w :
  logged l0 done ws p w → call_ok c →
  ∃ a p' w', invoke (demoio sqlite3_free) c p w = Ret ((a, p'), w') ∧
    progress l0 done ws (written c) (failed a = false) p p' w' ∧
    (failed a = false → answered (replay l0 ws) c a) ∧
    (∀ flags, c = CSync flags → pending p' = []).
Proof.
  intros Hl Hc. destruct c; simpl invoke;
    try (eexists _, p, w; split; [reflexivity|]; split; [by apply progress_none|]; by split).
  - destruct (read_logged l0 done ws p w zBuf iAmt iOfst Hl Hc) as (rc & p' & buf & w' & E & Hp & Ha).
    rewrite (bind_run _ _ _ _ _ E). by eexists _, p', w'.
  - destruct (write_logged l0 done ws p w zBuf iAmt iOfst Hl Hc) as (rc & p' & w' & E & Hp & Hrc).
    rewrite (bind_run _ _ _ _ _ E). eexists _, p', w'. split; [done|].
    split; [eapply progress_mono; [exact Hp|]|split; [|done]]; intros Hnf; destruct Hrc as [->| ->]; done.
  - destruct (sync_logged l0 done ws p w flags Hl) as (rc & p' & w' & E & Hn & Hp & Hrc).
    rewrite (bind_run _ _ _ _ _ E). eexists _, p', w'. split; [done|]. split; [done|]. split; [|done].
    intros Hnf. by destruct Hrc as [->|[->| ->]].
  - destruct (filesize_logged l0 done ws p w Hl) as (rc & p' & size & w' & E & Hp & Ha).
    rewrite (bind_run _ _ _ _ _ E). by eexists _, p', w'.
Qed.

Definition fine (l : list answer) : Prop := Forall (λ a, failed a = false) l.

Lemma session_logged sqlite3_free cs l0 done ws p w :
  logged l0 done ws p w → Forall call_ok cs →
  ∃ (ans : list answer) p' w' done' ws', session (demoio sqlite3_free) cs p w = Ret ((ans, p'), w') ∧ fd p' = fd p ∧
    done `prefix_of` done' ∧ logged l0 done' ws' p' w' ∧
    agrees (replay l0 ws) cs ans ∧ length ans = length cs ∧
    (fine ans → ws' = ws ++ flat_map written cs) ∧
    (fine (removelast ans) → ws' `prefix_of` ws ++ flat_map written cs) ∧
    (∀ cs1 flags cs2, cs = cs1 ++ CSync flags :: cs2 → fine (take (S (length cs1)) ans) →
       ws ++ flat_map written cs1 `prefix_of` done').
Proof.
  revert done ws p w. induction cs as [|c cs IH]; intros done ws p w Hl Hcs.
  { exists [], p, w, done, ws. rewrite app_nil_r. split_and!; try done. by intros [|]. }
  apply Forall_cons in Hcs as [Hc Hcs].
  destruct (invoke_logged sqlite3_free c l0 done ws p w Hl Hc)
    as (a & p1 & w1 & E1 & (Hfd1 & done1 & ws1 & Hd1 & Hl1 & Hpre & Hall) & Ha & Hsync).
  destruct (IH done1 ws1 p1 w1 Hl1 Hcs) as (ans & p' & w' & done' & ws' & E & Hfd & Hd & Hl' & Hag & Hlen & Hfine & Hlast & Hbar).
  exists (a :: ans), p', w', done', ws'. simpl session. rewrite (bind_run _ _ _ _ _ E1), (bind_run _ _ _ _ _ E).
  split; [done|]. split; [by rewrite Hfd|]. split; [by etrans|]. split; [done|].
  assert (failed a = false → ws1 = ws ++ written c) as Hws1 by done.
  assert (effect (replay l0 ws) c = replay l0 (ws ++ written c)) as Heff.
  { rewrite replay_app. destruct c; try done. simpl. by rewrite replay_bytes_at. }
  split; [|split; [simpl; by rewrite Hlen|split; [|split]]].
  - simpl. destruct (failed a) eqn:Hf; [done|]. split; [by apply Ha|]. rewrite Heff, <- Hws1 by done. done.
  - intros [Hf Hl2]%Forall_cons. rewrite (Hfine Hl2), Hws1 by done. simpl. by rewrite (assoc_L (++)).
  - destruct ans as [|a' ans].
    + intros _. destruct cs; [|done]. simpl. rewrite app_nil_r. rewrite (Hfine (Forall_nil_2 _)). simpl.
      by rewrite app_nil_r.
    + intros [Hf Hl2]%Forall_cons. rewrite (Hws1 Hf) in Hlast. simpl. rewrite (assoc_L (++)). by apply Hlast.
  - intros [|c' cs1] flags cs2 Hcs1; simplify_eq/=; intros [Hf Hl2]%Forall_cons.
    + rewrite app_nil_r. specialize (Hws1 Hf). simpl in Hws1. rewrite app_nil_r in Hws1.
      destruct Hl1 as (_ & _ & Heq). rewrite (Hsync flags eq_refl), app_nil_r in Heq. by rewrite <- Hws1, Heq.
    + rewrite (assoc_L (++)), <- (Hws1 Hf). by apply (Hbar cs1 flags cs2).
Qed.
End logged.

(** ** Properties *)
Section refinement.
Context {W : Type} `{FileLaws W}.
Variable sqlite3_free : option bytes → C W unit.
Implicit Types (p : DemoFile) (w : W).

Lemma replay_effect cs v : foldl effect v cs = replay v (flat_map written cs).
Proof.
  revert v. induction cs as [|c cs IH]; intros v; [done|]. simpl. rewrite IH, replay_app. f_equal.
  destruct c; try done. simpl. by rewrite replay_bytes_at.
Qed.

(** C3: SQLite cannot tell the buffer is there.  Whatever sequence of calls it makes
    on an open file, in bounds, every call returns; up to the first that fails,
    each answer is that of a file without a buffer on which the calls before it
    had their effect at once; and when none fails SQLite sees the file as they
    left it. *)
Theorem sessions_answer_as_the_file cs p w v :
  demo_repr p w v → Forall call_ok cs →
  ∃ (ans : list answer) p' w', session (demoio sqlite3_free) cs p w = Ret ((ans, p'), w') ∧
    agrees v cs ans ∧ (fine ans → demo_repr p' w' (foldl effect v cs)).
Proof.
  intros (l & pos & Hf & Hok & Hv)%demo_repr_open Hcs.
  pose proof (logged_start p w l pos Hok Hf) as Hl. pose proof (logged_repr _ _ _ _ _ Hl) as [_ Hv'].
  rewrite Hv in Hv'. injection Hv' as ->.
  destruct (session_logged sqlite3_free cs l [] _ p w Hl Hcs)
    as (ans & p' & w' & done' & ws' & E & _ & _ & Hl' & Hag & _ & Hfine & _).
  exists ans, p', w'. split; [done|]. split; [done|]. intros Hans.
  rewrite replay_effect, <- replay_app, <- (Hfine Hans). by eapply logged_repr.
Qed.
End refinement.

Section life.
Context {W : Type} `{FileLaws W}.
Variable sqlite3_malloc : Z → C W (option bytes).
Variable sqlite3_free : option bytes → C W unit.
Variable sqlite3_snprintf : Z → bytes → bytes → bytes.
Variable uninit : Z → bytes.
Variable sizeof_DemoFile : Z.
Hypothesis malloc_law : ∀ n w b w', sqlite3_malloc n w = Ret (Some b, w') → 0 ≤ n → Z.of_nat (length b) = n.
(** Freeing leaves the files alone. *)
Hypothesis free_law : ∀ b w, ∃ w', sqlite3_free b w = Ret (tt, w') ∧ ∀ f, fd_file w' f = fd_file w f.
Implicit Types (p : DemoFile) (w : W) (v : bytes).

(** Closing flushes, and what it flushed is there when the descriptor is closed. *)
Lemma close_logged l0 done ws p w :
  logged l0 done ws p w →
  ∃ rc w' w3 r disk pos, demoClose sqlite3_free p w = Ret (rc, w') ∧ utee_vfs_close (fd p) w3 = Ret (r, w') ∧
    fd_file w3 (fd p) = Some (replay l0 disk, pos) ∧ disk `prefix_of` ws ∧ (rc = SQLITE_OK → disk = ws).
Proof.
  intros Hl. destruct (flush_logged l0 done ws p w Hl) as (rc & p1 & w1 & E & Hn & _ & Hp & _).
  destruct Hp as (Hfd & disk & ws1 & _ & (_ & (pos & Hf) & Heq) & Hpre & Hall).
  rewrite (pending_empty p1 Hn), app_nil_r in Heq. subst ws1. rewrite app_nil_r in Hpre, Hall.
  destruct (free_law (aBuffer p1) w1) as (w3 & Efree & Hsame). rewrite <- Hsame in Hf.
  destruct (close_law w3 (fd p1) _ _ Hf) as (r & w' & Eclose). rewrite Hfd in Hf, Eclose.
  exists rc, w', w3, r, disk, pos. split_and!; try done.
  unfold demoClose. rewrite (bind_run _ _ _ _ _ E), (bind_run _ _ _ _ _ Efree), Hfd. by rewrite (bind_run _ _ _ _ _ Eclose).
Qed.

(** C5: a file from its opening to its end.  When [xOpen] answers [SQLITE_OK], its
    descriptor comes from one [open] with mode 0600 and the flags that SQLite's
    bits stand for, and a write buffer is there exactly for a main journal.
    Whatever is then called through the method table, and [xClose] at the end,
    returns; up to the first failure the answers are those of a file without a
    buffer; and when the descriptor is closed the file holds what was written
    through the table, in order and byte by byte: all of it if no call failed and
    [xClose] answers [SQLITE_OK], and never more than a prefix if the last call or
    [xClose] was the first to fail. *)
Theorem file_from_open_to_close name p0 flags out w p o w1 v pos cs :
  xOpen (sqlite3_demovfs sqlite3_malloc sqlite3_free sqlite3_snprintf uninit sizeof_DemoFile) (Some name) p0 flags out w = Ret ((SQLITE_OK, p, o), w1) →
  fd_file w1 (fd p) = Some (v, pos) → Forall call_ok cs →
  (∃ w0, utee_vfs_open name (open_flags flags) 384 w0 = Ret (fd p, w1)) ∧
  (is_Some (aBuffer p) ↔ Z.testbit flags 11 = true) ∧ o = (if out then Some flags else None) ∧
  ∃ (ans : list answer) p' w2 rc w3 w4 r disk pos',
    session (demoio sqlite3_free) cs p w1 = Ret ((ans, p'), w2) ∧ agrees v cs ans ∧
    xClose (demoio sqlite3_free) p' w2 = Ret (rc, w4) ∧ utee_vfs_close (fd p) w3 = Ret (r, w4) ∧
    fd_file w3 (fd p) = Some (replay v disk, pos') ∧
    (fine (removelast ans) → disk `prefix_of` flat_map written cs) ∧
    (fine ans → rc = SQLITE_OK → disk = flat_map written cs ∧ replay v disk = foldl effect v cs).
Proof.
  intros Eo Hf Hcs.
  change (demoOpen sqlite3_malloc sqlite3_free (Some name) p0 flags out w = Ret ((SQLITE_OK, p, o), w1)) in Eo.
  apply (demoOpen_spec _ _ malloc_law) in Eo
    as [(_ & (name' & w0 & [= <-] & Eo) & _ & _ & Hok & Hn & Hb & Ho)|[Hbad _]].
  2:{ by destruct Hbad as [[? _]|[[? _]|[? _]]]. }
  split; [by exists w0|]. split; [done|]. split; [done|].
  pose proof (logged_start p w1 v pos Hok Hf) as Hl. rewrite (pending_empty p Hn) in Hl.
  destruct (session_logged sqlite3_free cs v [] [] p w1 Hl Hcs)
    as (ans & p' & w2 & done & ws & E & Hfd & _ & Hl' & Hag & _ & Hfine & Hlast & _).
  destruct (close_logged v done ws p' w2 Hl') as (rc & w4 & w3 & r & disk & pos' & Ec & Eu & Hd & Hpre & Hall).
  rewrite Hfd in Eu, Hd. exists ans, p', w2, rc, w3, w4, r, disk, pos'. split_and!; try done.
  - intros Hans. etrans; [done|]. by apply Hlast.
  - intros Hans Hrc. rewrite (Hall Hrc), (Hfine Hans). split; [done|]. by rewrite replay_effect.
Qed.
End life.

Section disk.
Context {O : Type} `{Channel O}.
Variable sqlite3_free : option bytes → C (proc O) unit.

(** C2: the disk lags behind but never out of order.  On the whole stack, from an
    open file with an empty buffer over a file of the normal world that holds [v],
    whatever SQLite calls and wherever it stops, up to and including the first
    call that fails, that file holds [v] with a prefix of the bytes SQLite wrote,
    in the order in which it wrote them; and everything written before a sync
    that has succeeded is in that prefix for good, even when calls after it
    fail. *)
Theorem disk_holds_a_prefix cs p w v pos :
  demo_ok p → nBuffer p = 0 → in_signed 32 (fd p) → os_file (p_os w) (fd p) = Some (v, pos) →
  Forall call_ok cs →
  ∃ (ans : list answer) p' w' disk pos', session (demoio sqlite3_free) cs p w = Ret ((ans, p'), w') ∧
    os_file (p_os w') (fd p) = Some (replay v disk, pos') ∧
    (fine (removelast ans) → disk `prefix_of` flat_map written cs) ∧
    (∀ cs1 flags cs2, cs = cs1 ++ CSync flags :: cs2 → fine (take (S (length cs1)) ans) →
       flat_map written cs1 `prefix_of` disk).
Proof.
  intros Hok Hn Hs Hf Hcs. pose proof (logged_start p w v pos Hok (stack_file_eq _ _ _ Hs Hf)) as Hl.
  rewrite (pending_empty p Hn) in Hl.
  destruct (session_logged sqlite3_free cs v [] [] p w Hl Hcs)
    as (ans & p' & w' & disk & ws & E & Hfd & _ & (_ & (pos' & Hf') & ->) & _ & _ & _ & Hlast & Hbar).
  exists ans, p', w', disk, pos'. split; [done|]. split; [|split; [|done]].
  - rewrite Hfd in Hf'. by apply stack_file_Some in Hf' as [_ Hf'].
  - intros Hans. etrans; [by eexists|by apply Hlast].
Qed.
End disk.

(** ** The properties at work

A journal on the stack of [Loopback]. *)
Definition ex_session : list call :=
  [CWrite [5; 6] 2 6; CFileSize; CWrite [1; 2; 3] 3 0; CRead [0; 0; 0; 0] 4 1; CSync 0; CWrite [9] 1 20].

Lemma ex_session_ok : Forall call_ok ex_session.
Proof. repeat constructor; simpl; lia. Qed.

Definition ex_free_stack (b : option bytes) : C node unit := ret tt.

Lemma sessions_answer_as_the_file_witness :
  ∃ (ans : list answer) p' w', session (demoio ex_free_stack) ex_session ex_stack_journal ex_node = Ret ((ans, p'), w') ∧
    agrees [1; 2; 3; 4; 9; 8] ex_session ans ∧
    (fine ans → demo_repr p' w' (foldl effect [1; 2; 3; 4; 9; 8] ex_session)).
Proof.
  apply (sessions_answer_as_the_file ex_free_stack ex_session ex_stack_journal ex_node [1; 2; 3; 4; 9; 8]);
    [exact ex_stack_repr|exact ex_session_ok].
Defined.

Definition ex_empty_journal : DemoFile := set_buffer ex_stack_journal (aBuffer ex_stack_journal) 0 0.

Lemma disk_holds_a_prefix_witness :
  ∃ (ans : list answer) p' w' disk pos',
    session (demoio ex_free_stack) ex_session ex_empty_journal ex_node = Ret ((ans, p'), w') ∧
    os_file (p_os w') 3 = Some (replay [1; 2; 3; 4] disk, pos') ∧
    (fine (removelast ans) → disk `prefix_of` flat_map written ex_session) ∧
    (∀ cs1 flags cs2, ex_session = cs1 ++ CSync flags :: cs2 → fine (take (S (length cs1)) ans) →
       flat_map written cs1 `prefix_of` disk).
Proof.
  apply (disk_holds_a_prefix ex_free_stack ex_session ex_empty_journal ex_node [1; 2; 3; 4] 0);
    [vm_compute; repeat split; discriminate|done|done|done|exact ex_session_ok].
Defined.

(** A journal of [MemFile], opened to be read, written and created. *)
Definition ex_table : sqlite3_vfs memfs := sqlite3_demovfs ex_malloc ex_free ex_snprintf ex_uninit 40.
Definition ex_no_files : memfs := MemFs ∅ ∅ [].

Lemma ex_free_law b (w : memfs) : ∃ w', ex_free b w = Ret (tt, w') ∧ ∀ f, fd_file w' f = fd_file w f.
Proof. by exists w. Qed.

Lemma file_from_open_to_close_witness :
  ∃ p o w1, xOpen ex_table (Some [98]) DemoFile_zero 2054 true ex_no_files = Ret ((SQLITE_OK, p, o), w1) ∧
  (∃ w0, utee_vfs_open [98] (open_flags 2054) 384 w0 = Ret (fd p, w1)) ∧
  (is_Some (aBuffer p) ↔ Z.testbit 2054 11 = true) ∧ o = Some 2054 ∧
  ∃ (ans : list answer) p' w2 rc w3 w4 r disk pos',
    session (demoio ex_free) ex_session p w1 = Ret ((ans, p'), w2) ∧ agrees [] ex_session ans ∧
    xClose (demoio ex_free) p' w2 = Ret (rc, w4) ∧ utee_vfs_close (fd p) w3 = Ret (r, w4) ∧
    fd_file w3 (fd p) = Some (replay [] disk, pos') ∧
    (fine (removelast ans) → disk `prefix_of` flat_map written ex_session) ∧
    (fine ans → rc = SQLITE_OK → disk = flat_map written ex_session ∧ replay [] disk = foldl effect [] ex_session).
Proof.
  eexists _, _, _. split; [vm_compute; reflexivity|].
  eapply (file_from_open_to_close ex_malloc ex_free ex_snprintf ex_uninit 40 ex_malloc_law ex_free_law
    [98] DemoFile_zero 2054 true ex_no_files); [vm_compute; reflexivity|vm_compute; reflexivity|exact ex_session_ok].
Defined.
