(* ===== verification/Calls.v ===== *)
(** * Programs that call their surroundings

A program whose surroundings are a parameter makes calls, of a type [call A] when
they give an [A]; [Sys call O] says that a world [O] answers all of them.  A
world can keep a record of the calls made ([traced]), and [does m Q] says of a
program [m] that it returns, whatever the world answers, and that [Q] holds of its
result and of the calls it made.

A program may also end before it returns to its caller ([life]). *)
From S2P Require Import Prelude.
#[local] Open Scope c_scope.

Class Sys (call : Type → Type) (O : Type) : Type := sys_run : ∀ A, call A → O → A * O.
Arguments sys_run {call O _} {A} c o.

Definition sys {call O} `{Sys call O} {A} (c : call A) : C O A := run (sys_run c).

(** ** Programs that may end *)

Inductive life (A : Type) : Type :=
| Exits (status : Z)
| Goes (a : A).
Arguments Exits {A} status.
Arguments Goes {A} a.

Definition exit {S A} (status : Z) : C S (life A) := ret (Exits status).

Definition and_then {S A B} (m : C S (life A)) (k : A → C S (life B)) : C S (life B) :=
  let! r := m in match r with Exits status => ret (Exits status) | Goes a => k a end.

Notation "'live!' x ':=' m 'in' k" := (and_then m (λ x, k))
  (at level 10, x name, m at level 100, k at level 200) : c_scope.

Definition chars (s : string) : bytes := (λ c, Z.of_N (Ascii.N_of_ascii c)) <$> String.list_ascii_of_string s.

(** ** Runs with a record of the calls *)

Inductive event (call : Type → Type) : Type :=
| Event {A} (c : call A) (a : A).
Arguments Event {call A} c a.

(** The latest call first. *)
Record traced (call : Type → Type) (O : Type) : Type := Traced { trace : list (event call); under : O }.
Arguments Traced {call O}. Arguments trace {call O}. Arguments under {call O}.

#[export] Instance traced_sys {call O} `{Sys call O} : Sys call (traced call O) :=
  λ A c t, let '(a, o) := sys_run c (under t) in (a, Traced (Event c a :: trace t) o).

Definition does {call O A} (m : C (traced call O) A) (Q : A → list (event call) → Prop) : Prop :=
  ∀ t, ∃ a t' new, m t = Ret (a, t') ∧ trace t' = new ++ trace t ∧ Q a new.

Section does.
Context {call : Type → Type} {O : Type} `{Sys call O} {A B D : Type}.
Implicit Types (m : C (traced call O) A) (Q : A → list (event call) → Prop).

Lemma does_ret a Q : Q a [] → does (O:=O) (ret a) Q.
Proof. intros HQ t. by exists a, t, []. Qed.

Lemma does_bind m (k : A → C (traced call O) B) R (Q : B → list (event call) → Prop) :
  does m R → (∀ a n1, R a n1 → does (k a) (λ b n2, Q b (n2 ++ n1))) → does (bind m k) Q.
Proof.
  intros Hm Hk t. destruct (Hm t) as (a & t1 & n1 & E1 & T1 & HR).
  destruct (Hk a n1 HR t1) as (b & t2 & n2 & E2 & T2 & HQ).
  exists b, t2, (n2 ++ n1). rewrite (bind_run _ _ _ _ _ E1), T2, T1. by rewrite (assoc_L (++)).
Qed.

Lemma does_sys (c : call A) Q : (∀ a, Q a [Event c a]) → does (O:=O) (sys c) Q.
Proof.
  intros HQ t. unfold sys, run, sys_run, traced_sys. destruct (sys_run c (under t)) as [a o].
  by exists a, (Traced (Event c a :: trace t) o), [Event c a].
Qed.

Lemma does_weaken m Q R : does m R → (∀ a n, R a n → Q a n) → does m Q.
Proof. intros Hm HQ t. destruct (Hm t) as (a & t' & n & ? & ? & ?). exists a, t', n. by auto. Qed.

Lemma does_assoc m (k : A → C (traced call O) B) (h : B → C (traced call O) D) (Q : D → list (event call) → Prop) :
  does (bind m (λ a, bind (k a) h)) Q → does (bind (bind m k) h) Q.
Proof. intros HQ t. rewrite bind_bind. apply HQ. Qed.

Lemma does_ret_bind a (k : A → C (traced call O) B) (Q : B → list (event call) → Prop) : does (k a) Q → does (bind (ret a) k) Q.
Proof. intros HQ t. rewrite bind_ret_l. apply HQ. Qed.

(** A run of a program that is known to return. *)
Lemma does_run m Q t a t' : does m Q → m t = Ret (a, t') → ∃ new, trace t' = new ++ trace t ∧ Q a new.
Proof. intros Hm E. destruct (Hm t) as (b & s & new & E' & Ht & HQ). rewrite E in E'. injection E' as <- <-. by exists new. Qed.
End does.

Lemma does_call {call O} `{Sys call O} {A B} (c : call A) (k : A → C (traced call O) B) Q :
  (∀ a, does (k a) (λ b n, Q b (n ++ [Event c a]))) → does (bind (sys c) k) Q.
Proof. intros Hk. apply (does_bind _ _ (λ a n, n = [Event c a])); [by apply does_sys|]. intros a n ->. apply Hk. Qed.

Lemma does_and_then {call O} `{Sys call O} {A B} (m : C (traced call O) (life A))
    (k : A → C (traced call O) (life B)) R Q :
  does m R → (∀ s n, R (Exits s) n → Q (Exits s) n) →
  (∀ a n1, R (Goes a) n1 → does (k a) (λ b n2, Q b (n2 ++ n1))) → does (and_then m k) Q.
Proof.
  intros Hm He Hk. unfold and_then. eapply does_bind; [exact Hm|]. intros [s|a] n HR.
  - apply does_ret. by apply He.
  - by apply Hk.
Qed.

(** Walk through a computation, one case for each of its ends. *)
Ltac walk :=
  cbn beta iota zeta;
  lazymatch goal with
  | |- does (and_then _ _) _ => unfold and_then at 1; walk
  | |- does (bind (and_then _ _) _) _ => unfold and_then at 1; walk
  | |- does (bind (bind _ _) _) _ => apply does_assoc; walk
  | |- does (bind (ret _) _) _ => apply does_ret_bind; walk
  | |- does (bind (exit _) _) _ => apply does_ret_bind; walk
  | |- does (bind (sys _) _) _ => apply does_call; intros ?; walk
  | |- does (ret _) _ => apply does_ret
  | |- does (exit _) _ => apply does_ret
  | |- does (bind (if decide ?P then _ else _) _) _ => destruct (decide P); try (exfalso; lia); walk
  | |- does (if decide ?P then _ else _) _ => destruct (decide P); try (exfalso; lia); walk
  | |- does (match ?v with (_, _) => _ end) _ => destruct v; walk
  | |- does (match ?v with Some _ => _ | None => _ end) _ => destruct v as [[? ?]|]; walk
  | |- _ => idtac
  end.
