(* ===== verification/TaPath.v ===== *)
(** * The supplicant: where trusted applications are looked for

Models [set_ta_path] of optee_client/tee-supplicant/tee_supplicant.c, which cuts
the search path into its components with two passes of [strtok_r]: one counts
them, one stores their addresses in an array of exactly that size and a NULL.

The string is an object of its own, [bytes] with its terminator; a [char *] into it
is an offset.  [strtok_r] is the C library's: it skips separators, ends the
component with a NUL in the string itself and remembers where to go on. *)
From S2P Require Import Prelude.
#[local] Open Scope c_scope.

Definition SEP : Z := 58.        (** ':' *)
Definition EXIT_SUCCESS : Z := 0.
Definition EXIT_FAILURE : Z := 1.

(** ** The C library *)

(** How many bytes come before the first that satisfies [stop]; nothing when the
    string is left without finding one. *)
Fixpoint count_until (stop : Z → bool) (l : bytes) : option nat :=
  match l with
  | [] => None
  | b :: l => if stop b then Some 0 else S <$> count_until stop l
  end.

Definition strspn (l : bytes) (accept : Z) : option nat :=
  count_until (λ b, bool_decide (b ≠ accept)) l.
Definition strcspn (l : bytes) (reject : Z) : option nat :=
  count_until (λ b, bool_decide (b = reject ∨ b = 0%Z)) l.

(** [strtok_r(s, delim, &save)] with one separator: the string, the component
    found, and where the next call goes on. *)
Definition strtok_r (buf : bytes) (s : option nat) (delim : Z) (save : option nat)
    : option (bytes * option nat * option nat) :=
  s ← (match s with Some s => Some s | None => save end);
  k ← strspn (drop s buf) delim;
  let s := s + k in
  c ← buf !! s;
  if decide (c = 0%Z) then Some (buf, None, Some s)
  else
    n ← strcspn (drop s buf) delim;
    let e := s + n in
    c ← buf !! e;
    if decide (c = 0%Z) then Some (buf, Some s, Some e)
    else Some (<[e := 0%Z]> buf, Some s, Some (S e)).

(** ** The two loops of [set_ta_path] *)

(** [while (strtok_r(p, ":", &saveptr)) { p = NULL; n++; }] *)
Fixpoint count_tokens (fuel : nat) (buf : bytes) (p save : option nat) (n : nat)
    : option (bytes * option nat * nat) :=
  match fuel with
  | O => None
  | S fuel =>
      '(buf, t, save) ← strtok_r buf p SEP save;
      match t with
      | None => Some (buf, save, n)
      | Some _ => count_tokens fuel buf None save (S n)
      end
  end.

(** [while ((ta_path[n++] = strtok_r(p, ":", &saveptr))) p = NULL;]  A cell that has
    not been written is [None]; writing outside the array is undefined. *)
Fixpoint fill (fuel : nat) (buf : bytes) (p save : option nat) (n : nat)
    (ta_path : list (option (option nat))) : option (bytes * list (option (option nat))) :=
  match fuel with
  | O => None
  | S fuel =>
      '(buf, t, save) ← strtok_r buf p SEP save;
      _ ← ta_path !! n;
      let ta_path := <[n := Some t]> ta_path in
      match t with
      | None => Some (buf, ta_path)
      | Some _ => fill fuel buf None save (S n) ta_path
      end
  end.

(** The two objects are given by the allocator, or not; [path] is the literal
    without its terminator. *)
Inductive ta_paths : Type :=
| Exit (status : Z)
| TaPath (ta_path_str : bytes) (ta_path : list (option (option nat))).

Definition set_ta_path (path : bytes) (strdup_ok malloc_ok : bool) : option ta_paths :=
  let fuel := S (length path) in
  if negb strdup_ok then Some (Exit EXIT_FAILURE)
  else
    let ta_path_str := path ++ [0%Z] in
    '(ta_path_str, saveptr, n) ← count_tokens fuel ta_path_str (Some 0) None 0;
    let n := S n in
    if negb malloc_ok then Some (Exit EXIT_FAILURE)
    else
      let ta_path := replicate n None in
      let ta_path_str := path ++ [0%Z] in
      '(ta_path_str, ta_path) ← fill fuel ta_path_str (Some 0) saveptr 0 ta_path;
      Some (TaPath ta_path_str ta_path).

(** ** The components of a path

The reference: cut at every separator and leave out what is empty. *)
Fixpoint pieces (l : bytes) : list bytes :=
  match l with
  | [] => [[]]
  | b :: l =>
      if decide (b = SEP) then [] :: pieces l
      else match pieces l with
           | [] => [[b]]
           | w :: ws => (b :: w) :: ws
           end
  end.

Definition components (l : bytes) : list bytes := filter (.≠ []) (pieces l).

(** [w] starts at [o] in the string [buf]. *)
Definition starts_at (buf : bytes) (o : nat) (w : bytes) : Prop := cstring (drop o buf) = Some w.

(** ** Lemmas *)

Lemma pieces_not_nil l : pieces l ≠ [].
Proof. destruct l as [|b l]; simpl; [done|]. case_decide; [done|]. by destruct (pieces l). Qed.

Lemma pieces_word w : SEP ∉ w → pieces w = [w].
Proof.
  induction w as [|b w IH]; intros Hw; simpl; [done|]. apply not_elem_of_cons in Hw as [Hb Hw].
  rewrite decide_False by done. by rewrite IH.
Qed.

Lemma pieces_app w l : SEP ∉ w → pieces (w ++ SEP :: l) = w :: pieces l.
Proof.
  induction w as [|b w IH]; intros Hw; simpl; [done|]. apply not_elem_of_cons in Hw as [Hb Hw].
  rewrite decide_False by done. by rewrite IH.
Qed.

Lemma components_seps d l : Forall (eq SEP) d → components (d ++ l) = components l.
Proof.
  induction 1 as [|b d <- _ IH]; [done|]. rewrite <- IH. unfold components. simpl.
  rewrite filter_cons_False by naive_solver. done.
Qed.

Lemma components_nil : components [] = [].
Proof. done. Qed.

Lemma components_word w : w ≠ [] → SEP ∉ w → components w = [w].
Proof. intros Hn Hw. unfold components. rewrite pieces_word by done. by rewrite filter_cons_True. Qed.

Lemma components_app w l : w ≠ [] → SEP ∉ w → components (w ++ SEP :: l) = w :: components l.
Proof. intros Hn Hw. unfold components. rewrite pieces_app by done. by rewrite filter_cons_True. Qed.

(** What is left of a path: separators, a component and the rest. *)
Lemma next_component l :
  ∃ d w, Forall (eq SEP) d ∧ (SEP ∉ w) ∧
    (l = d ++ w ∨ (w ≠ [] ∧ ∃ t, l = d ++ w ++ SEP :: t)).
Proof.
  induction l as [|b l (d & w & Hd & Hw & Hl)].
  { exists [], []. split; [done|]. split; [apply not_elem_of_nil|by left]. }
  destruct (decide (b = SEP)) as [->|Hb].
  { exists (SEP :: d), w. split; [by constructor|]. split; [done|].
    destruct Hl as [->|(Hn & t & ->)]; [by left|right]. split; [done|]. by exists t. }
  destruct Hd as [|? d <- Hd].
  - exists [], (b :: w). split; [done|]. split; [by apply not_elem_of_cons|].
    destruct Hl as [->|(Hn & t & ->)]; [by left|right]. split; [done|]. by exists t.
  - exists [], [b]. split; [done|]. split; [by apply not_elem_of_cons; split; [|apply not_elem_of_nil]|].
    right. split; [done|]. destruct Hl as [->|(Hn & t & ->)]; by eexists.
Qed.

Lemma count_until_app stop l r b :
  Forall (λ b, stop b = false) l → stop b = true → count_until stop (l ++ b :: r) = Some (length l).
Proof. intros Hl Hb. induction Hl as [|c l Hc _ IH]; simpl; [by rewrite Hb|]. rewrite Hc, IH. done. Qed.

Lemma strspn_eq d b r : Forall (eq SEP) d → b ≠ SEP → strspn (d ++ b :: r) SEP = Some (length d).
Proof.
  intros Hd Hb. apply (count_until_app (λ b, bool_decide (b ≠ SEP))); [|by apply bool_decide_true].
  eapply Forall_impl; [exact Hd|]. intros c <-. apply bool_decide_false. by intros [].
Qed.

Lemma strcspn_eq w b r :
  SEP ∉ w → 0%Z ∉ w → b = SEP ∨ b = 0%Z → strcspn (w ++ b :: r) SEP = Some (length w).
Proof.
  intros Hs Hz Hb. apply count_until_app; [|by apply bool_decide_true].
  apply Forall_forall. intros c Hc. apply bool_decide_false. intros [-> | ->]; done.
Qed.

(** The string cut into the part that is done, and the part that is not. *)
Definition at_offset (s save : option nat) (o : nat) : Prop := s = Some o ∨ s = None ∧ save = Some o.

Section strtok.
Implicit Types (pre d w t : bytes) (s save : option nat).

Lemma strtok_end pre d s save :
  at_offset s save (length pre) → Forall (eq SEP) d →
  strtok_r (pre ++ d ++ [0%Z]) s SEP save = Some (pre ++ d ++ [0%Z], None, Some (length pre + length d)).
Proof.
  intros Hs Hd. unfold strtok_r.
  assert (match s with Some s => Some s | None => save end = Some (length pre)) as ->
    by (destruct Hs as [->|[-> ->]]; done).
  simpl. rewrite drop_app_length, strspn_eq by done. simpl.
  rewrite lookup_app_r, Nat.add_comm, Nat.add_sub by lia.
  rewrite lookup_app_r, Nat.sub_diag by lia. simpl. by rewrite Nat.add_comm.
Qed.

(** The byte where a component ends, whichever it is. *)
Lemma strtok_word pre d w b t s save :
  at_offset s save (length pre) → Forall (eq SEP) d → SEP ∉ w → 0%Z ∉ w → w ≠ [] → b = SEP ∨ b = 0%Z →
  strtok_r (pre ++ d ++ w ++ b :: t) s SEP save =
  Some (pre ++ d ++ w ++ 0%Z :: t, Some (length (pre ++ d)),
        Some (length (pre ++ d ++ w) + if decide (b = 0%Z) then 0 else 1)).
Proof.
  intros Hs Hd Hsep Hz Hw Hb. unfold strtok_r.
  assert (match s with Some s => Some s | None => save end = Some (length pre)) as ->
    by (destruct Hs as [->|[-> ->]]; done).
  destruct w as [|c w]; [done|]. apply not_elem_of_cons in Hsep as [Hc Hsep'], Hz as [Hcz Hz'].
  simpl. rewrite drop_app_length, strspn_eq by done. simpl.
  rewrite <- length_app, (assoc_L (++) pre d), list_lookup_middle by done. simpl.
  rewrite decide_False by done. rewrite drop_app_length.
  change (c :: w ++ b :: t) with ((c :: w) ++ b :: t).
  rewrite strcspn_eq by (done || by apply not_elem_of_cons). cbn [mbind option_bind].
  rewrite (assoc_L (++) (pre ++ d)), <- length_app, list_lookup_middle by done. cbn [mbind option_bind].
  destruct Hb as [-> | ->]; [rewrite !decide_False by done|rewrite !decide_True by done].
  - rewrite insert_app_r_alt, Nat.sub_diag by lia. simpl. rewrite <- !(assoc_L (++)). repeat f_equal. simpl. lia.
  - rewrite <- !(assoc_L (++)). by rewrite Nat.add_0_r.
Qed.
End strtok.

(** One call of [strtok_r] where [rest] is still to be cut: nothing is left, or the
    first component is found; it can be read at its offset whatever happens to
    the rest of the string later. *)
Lemma strtok_next pre rest s save :
  at_offset s save (length pre) → 0%Z ∉ rest →
  (components rest = [] ∧
   ∃ save', strtok_r (pre ++ rest ++ [0%Z]) s SEP save = Some (pre ++ rest ++ [0%Z], None, save')) ∨
  (∃ x rest' o w,
     strtok_r (pre ++ rest ++ [0%Z]) s SEP save =
       Some ((pre ++ x) ++ rest' ++ [0%Z], Some o, Some (length (pre ++ x))) ∧
     components rest = w :: components rest' ∧ (0%Z ∉ rest') ∧ length rest' < length rest ∧
     length x + length rest' = length rest ∧
     ∀ r', (rest' = [] → r' = [0%Z]) → starts_at ((pre ++ x) ++ r') o w).
Proof.
  intros Hs Hz. destruct (next_component rest) as (d & w & Hd & Hsep & Hrest).
  destruct (decide (w = [])) as [->|Hw].
  { left. destruct Hrest as [->|[? _]]; [|done]. rewrite app_nil_r in *.
    split; [by rewrite <- (app_nil_r d), components_seps|]. eexists. by apply strtok_end. }
  assert ((0%Z ∉ w) ∧ ∀ t, rest = d ++ w ++ SEP :: t → 0%Z ∉ t) as [Hzw Hzt].
  { split; [|intros t ->]; intros Hin; apply Hz.
    - destruct Hrest as [->|(_ & t & ->)]; rewrite !elem_of_app; tauto.
    - rewrite !elem_of_app, elem_of_cons. tauto. }
  assert (0 < length w) as Hlw by (destruct w; simpl; [done|lia]). right.
  destruct Hrest as [->|(_ & t & ->)].
  - exists (d ++ w), [], (length (pre ++ d)), w. split_and!.
    + pose proof (strtok_word pre d w 0 [] s save Hs Hd Hsep Hzw Hw) as E.
      rewrite <- !(assoc_L (++)). rewrite E by by right. clear E. simpl. by rewrite Nat.add_0_r.
    + by rewrite components_seps, components_word.
    + apply not_elem_of_nil.
    + rewrite length_app. simpl. lia.
    + simpl. lia.
    + intros r' Hr'. rewrite (Hr' eq_refl). unfold starts_at.
      rewrite (assoc_L (++) pre), <- (assoc_L (++) (pre ++ d)), drop_app_length. by apply cstring_app.
  - exists (d ++ w ++ [0%Z]), t, (length (pre ++ d)), w. split_and!.
    + pose proof (strtok_word pre d w SEP (t ++ [0%Z]) s save Hs Hd Hsep Hzw Hw) as E.
      rewrite <- !(assoc_L (++)) in *. simpl in *. rewrite E by by left. clear E. simpl.
      repeat f_equal. rewrite !length_app. simpl. lia.
    + by rewrite components_seps, components_app.
    + by apply Hzt.
    + rewrite !length_app. simpl. lia.
    + rewrite !length_app. simpl. lia.
    + intros r' _. unfold starts_at.
      rewrite (assoc_L (++) pre), <- (assoc_L (++) (pre ++ d)), drop_app_length.
      rewrite <- (assoc_L (++)). by apply cstring_app.
Qed.

(** The first pass counts the components. *)
Lemma count_tokens_spec fuel pre rest s save n :
  at_offset s save (length pre) → 0%Z ∉ rest → length rest < fuel →
  ∃ buf save', count_tokens fuel (pre ++ rest ++ [0%Z]) s save n =
    Some (buf, save', n + length (components rest)).
Proof.
  revert pre rest s save n. induction fuel as [|fuel IH]; intros pre rest s save n Hs Hz Hf; [lia|].
  simpl. destruct (strtok_next pre rest s save Hs Hz)
    as [(-> & save' & ->)|(x & rest' & o & w & -> & -> & Hz' & Hlt & _)]; simpl.
  - rewrite Nat.add_0_r. by eexists _, _.
  - destruct (IH (pre ++ x) rest' None (Some (length (pre ++ x))) (S n)) as (buf & save' & ->);
      [by right|done|lia|]. eexists _, _. by rewrite Nat.add_succ_r.
Qed.

(** The second one stores where they start. *)
Lemma fill_spec fuel pre rest s save done :
  at_offset s save (length pre) → 0%Z ∉ rest → length rest < fuel →
  ∃ r' offs, fill fuel (pre ++ rest ++ [0%Z]) s save (length done)
      (done ++ replicate (S (length (components rest))) None) =
    Some (pre ++ r', done ++ (Some <$> (Some <$> offs) ++ [None])) ∧
    length r' = S (length rest) ∧ (rest = [] → r' = [0%Z]) ∧
    Forall2 (starts_at (pre ++ r')) offs (components rest).
Proof.
  revert pre rest s save done. induction fuel as [|fuel IH]; intros pre rest s save done Hs Hz Hf; [lia|].
  simpl. destruct (strtok_next pre rest s save Hs Hz)
    as [(-> & save' & ->)|(x & rest' & o & w & -> & -> & Hz' & Hlt & Hlen & Hw)]; simpl.
  - rewrite list_lookup_middle by reflexivity. simpl. rewrite insert_app_r_alt, Nat.sub_diag by lia.
    exists (rest ++ [0%Z]), []. split; [reflexivity|]. split; [by rewrite length_app, Nat.add_comm|].
    split; [by intros ->|constructor].
  - rewrite list_lookup_middle by reflexivity. simpl. rewrite insert_app_r_alt, Nat.sub_diag by lia. simpl.
    destruct (IH (pre ++ x) rest' None (Some (length (pre ++ x))) (done ++ [Some (Some o)]))
      as (r' & offs & E & Hlr & Hr' & Hoffs); [by right|exact Hz'|lia|].
    rewrite (length_app done), (Nat.add_comm (length done)), <- (assoc_L (++) done) in E. simpl in E. rewrite E.
    exists (x ++ r'), (o :: offs). rewrite (assoc_L (++) pre), <- (assoc_L (++) done). split; [reflexivity|].
    split; [rewrite length_app; lia|]. split; [intros ->; simpl in Hlt; lia|].
    constructor; [|exact Hoffs]. by apply Hw.
Qed.

(** It always comes to an end, and a failure is all it can exit with. *)
Lemma set_ta_path_ends path strdup_ok malloc_ok :
  0%Z ∉ path →
  ∃ r, set_ta_path path strdup_ok malloc_ok = Some r ∧ ∀ status, r = Exit status → status = EXIT_FAILURE.
Proof.
  intros Hz. unfold set_ta_path. destruct strdup_ok; [|eexists; split; [done|by intros ? [= <-]]].
  destruct (count_tokens_spec (S (length path)) [] path (Some 0) None 0) as (buf & save & E);
    [by left|done|lia|]. cbn [app Nat.add] in E. cbn [negb]. rewrite E. cbn [mbind option_bind].
  destruct malloc_ok; [|eexists; split; [done|by intros ? [= <-]]].
  destruct (fill_spec (S (length path)) [] path (Some 0) save []) as (r' & offs & Ef & _);
    [by left|done|lia|]. cbn [app length] in Ef. cbn [negb]. rewrite Ef. cbn [mbind option_bind].
  by eexists.
Qed.

(** ** Properties *)

(** C29: the search path is cut correctly, and in bounds.  For a path without NUL
    [set_ta_path] always comes to an end, and when there is memory it leaves an
    array with one cell for each non-empty component of the path, in order, and a
    final NULL, every cell written and none outside; each address holds its
    component as a C string; without memory the program exits with a failure. *)
Theorem set_ta_path_spec path strdup_ok malloc_ok :
  0%Z ∉ path →
  ∃ r, set_ta_path path strdup_ok malloc_ok = Some r ∧
    if strdup_ok && malloc_ok then
      ∃ str offs, r = TaPath str (Some <$> (Some <$> offs) ++ [None]) ∧
        length str = S (length path) ∧ Forall2 (starts_at str) offs (components path)
    else r = Exit EXIT_FAILURE.
Proof.
  intros Hz. unfold set_ta_path. destruct strdup_ok; [|by eexists].
  destruct (count_tokens_spec (S (length path)) [] path (Some 0) None 0) as (buf & save & E);
    [by left|done|lia|]. cbn [app Nat.add] in E. cbn [negb]. rewrite E. cbn [mbind option_bind].
  destruct malloc_ok; [|by eexists].
  destruct (fill_spec (S (length path)) [] path (Some 0) save []) as (r' & offs & Ef & Hl & _ & Hoffs);
    [by left|done|lia|]. cbn [app length] in Ef. cbn [negb]. rewrite Ef. cbn [mbind option_bind].
  eexists. split; [reflexivity|]. exists r', offs. by split_and!.
Qed.

(** The path of the code, before a system directory. *)
Definition TEEC_TEST_LOAD_PATH : bytes :=
  [47; 102; 111; 111; 58; 47; 98; 97; 114; 58; 58; 47; 98; 97; 122]%Z.

(** "/foo:/bar::/baz:/lib" *)
Definition ex_path : bytes := TEEC_TEST_LOAD_PATH ++ [SEP; 47; 108; 105; 98]%Z.

Example ex_components :
  components ex_path =
  [[47; 102; 111; 111]; [47; 98; 97; 114]; [47; 98; 97; 122]; [47; 108; 105; 98]]%Z.
Proof. reflexivity. Qed.

Lemma set_ta_path_spec_witness :
  ∃ str o1 o2 o3 o4,
    set_ta_path ex_path true true = Some (TaPath str (Some <$> [Some o1; Some o2; Some o3; Some o4; None])) ∧
    starts_at str o2 [47; 98; 97; 114]%Z.
Proof.
  destruct (set_ta_path_spec ex_path true true) as (r & E & str & offs & -> & _ & H);
    [apply (bool_decide_unpack _); vm_compute; exact I|].
  rewrite ex_components in H.
  destruct (Forall2_cons_inv_r _ _ _ _ H) as (o1 & offs1 & _ & H1 & ->).
  destruct (Forall2_cons_inv_r _ _ _ _ H1) as (o2 & offs2 & W & H2 & ->).
  destruct (Forall2_cons_inv_r _ _ _ _ H2) as (o3 & offs3 & _ & H3 & ->).
  destruct (Forall2_cons_inv_r _ _ _ _ H3) as (o4 & offs4 & _ & H4 & ->).
  rewrite (Forall2_nil_inv_r _ _ H4) in E. exists str, o1, o2, o3, o4. by split.
Defined.
