(* ===== verification/SuppStart.v ===== *)
(** * The supplicant: start-up

Models the rest of optee_client/tee-supplicant/tee_supplicant.c: finding the TEE
device ([open_dev], [get_dev_fd]), becoming a daemon ([make_daemon]) and [main],
with the parameters it takes from the command line.

The operating system is the parameter [StartOs]; what
[getopt_long] makes of the arguments is [cmdline].  Once the device is open,
[main] is the loop of [SuppLoop]. *)
From Stdlib Require Import Ascii.
From stdpp Require Import pretty.
From S2P Require Import Prelude CMem Protocol SuppShm SuppVfs SuppLoop TaPath Calls.
#[local] Open Scope Z_scope.
#[local] Open Scope c_scope.

(** ** The operating system *)

Inductive startcall : Type → Type :=
| StMutexInit : startcall Z
| StStrdup : startcall bool
| StMalloc : startcall bool
| StPluginLoadAll : startcall Z
| StPipe : startcall (option (Z * Z))          (** read end, write end *)
| StFork : startcall Z
| StRead1 (fd : Z) : startcall Z               (** how many of one byte *)
| StWrite1 (fd : Z) : startcall Z
| StSetsid : startcall Z
| StChdir (path : bytes) : startcall Z
| StOpen (path : bytes) (flags : Z) : startcall Z
| StDup2 (fd fd2 : Z) : startcall Z
| StClose (fd : Z) : startcall Z
(** TEE_IOC_VERSION: [impl_id] and [gen_caps], when it succeeds *)
| StVersion (fd : Z) : startcall (option (Z * Z)).

Abbreviation StartOs := (Sys startcall).

(** ** The device *)

Definition MAX_DEV_SEQ : nat := 10.
Definition O_RDWR : Z := 2.
Definition TEE_IMPL_ID_OPTEE : Z := 1.

Section device.
Context {O : Type} `{StartOs O}.

(** The result, and what [*gen_caps] holds then. *)
Definition open_dev (devname : bytes) (gen_caps : Z) : C O (Z * Z) :=
  let! fd := sys (StOpen devname O_RDWR) in
  if decide (fd < 0) then ret (-1, gen_caps)
  else
    let! vers := sys (StVersion fd) in
    match vers with
    | None => do! sys (StClose fd) in ret (-1, gen_caps)
    | Some (impl_id, vers_gen_caps) =>
        if decide (impl_id ≠ TEE_IMPL_ID_OPTEE) then
          do! sys (StClose fd) in ret (-1, gen_caps)
        else ret (fd, vers_gen_caps)
    end.

(** [snprintf(name, sizeof(name), "/dev/teepriv%zu", n)] *)
Definition dev_name (n : nat) : bytes := chars ("/dev/teepriv" +:+ pretty (N.of_nat n)).

(** [for (; n < MAX_DEV_SEQ; n++)], with [todo] numbers left to try. *)
Fixpoint get_dev_loop (todo n : nat) (gen_caps : Z) : C O (Z * Z) :=
  match todo with
  | 0%nat => ret (-1, gen_caps)
  | S todo =>
      let! '(fd, gen_caps) := open_dev (dev_name n) gen_caps in
      if decide (fd >= 0) then ret (fd, gen_caps) else get_dev_loop todo (S n) gen_caps
  end.

Definition get_dev_fd (gen_caps : Z) : C O (Z * Z) := get_dev_loop MAX_DEV_SEQ 0 gen_caps.
End device.

(** ** Parameters and command line *)

Record tee_supplicant_params : Type := SupplicantParams {
  ta_dir : bytes;
  plugin_load_path : option bytes;
  fs_parent_path : bytes;
  rpmb_cid : option bytes
}.

(** [supplicant_params] at the start: the last two are constants of the build. *)
Definition supplicant_params (plugin : option bytes) (fs : bytes) : tee_supplicant_params :=
  SupplicantParams (chars "optee_armtz") plugin fs None.

(** What [getopt_long] finds: the options in order, with their arguments, and the
    arguments that are not options. *)
Record cmdline : Type := Cmdline { options : list (ascii * bytes); operands : list bytes }.

(** It prints the help. *)
Definition usage (status : Z) : Z := status.

(** The loop over options. *)
Fixpoint read_options (opts : list (ascii * bytes)) (ps : tee_supplicant_params) (daemonize : bool)
    : life (tee_supplicant_params * bool) :=
  match opts with
  | [] => Goes (ps, daemonize)
  | (opt, optarg) :: opts =>
      if decide (opt = "h"%char) then Exits (usage EXIT_SUCCESS) else
      if decide (opt = "d"%char) then read_options opts ps true else
      if decide (opt = "f"%char) then
        read_options opts (SupplicantParams (ta_dir ps) (plugin_load_path ps) optarg (rpmb_cid ps)) daemonize else
      if decide (opt = "t"%char) then
        read_options opts (SupplicantParams optarg (plugin_load_path ps) (fs_parent_path ps) (rpmb_cid ps)) daemonize else
      if decide (opt = "p"%char) then
        read_options opts (SupplicantParams (ta_dir ps) (Some optarg) (fs_parent_path ps) (rpmb_cid ps)) daemonize else
      if decide (opt = "r"%char) then
        read_options opts (SupplicantParams (ta_dir ps) (plugin_load_path ps) (fs_parent_path ps) (Some optarg)) daemonize else
      Exits (usage EXIT_FAILURE)
  end.

(** The device named on the command line, if any. *)
Definition read_operands (args : list bytes) : life (option bytes) :=
  match args with
  | [] => Goes None
  | [dev] => Goes (Some dev)
  | _ :: _ :: _ => Exits (usage EXIT_FAILURE)
  end.

(** ** Start-up *)
Section start.
Context {O : Type} `{StartOs O}.

(** [fork] gives a different value in the parent and in the child; [_exit] and
    [exit] end the process alike. *)
Definition make_daemon (pipefd : Z * Z) : C O (life Z) :=
  let! pid := sys StFork in
  if decide (pid = -1) then ret (Goes (-1))
  else
    live! e :=
      (if decide (pid = 0) then let! r := sys (StClose pipefd.1) in ret (Goes 0)
       else
         do! sys (StClose pipefd.2) in
         let! n := sys (StRead1 pipefd.1) in
         do! sys (StClose pipefd.1) in
         if decide (n = 0) then ret (Goes (-1)) else exit EXIT_SUCCESS) in
    if decide (e < 0) then ret (Goes e)
    else
      let! r := sys StSetsid in
      if decide (r < 0) then ret (Goes (-2))
      else
        let! r := sys (StChdir (chars "/")) in
        if decide (r < 0) then ret (Goes (-3))
        else
          let! fd := sys (StOpen (chars "/dev/null") O_RDWR) in
          if decide (fd < 0) then ret (Goes (-4))
          else
            do! sys (StDup2 fd 0) in
            do! sys (StDup2 fd 1) in
            do! sys (StDup2 fd 2) in
            do! sys (StClose fd) in
            ret (Goes 0).

(** The path is cut as in [TaPath]; the allocator is asked in the code's order. *)
Definition run_set_ta_path (path : bytes) : C O (life (bytes * list (option (option nat)))) :=
  let! strdup_ok := sys StStrdup in
  let! malloc_ok := (if strdup_ok : bool then sys StMalloc else ret true) in
  let! r := lift (set_ta_path path strdup_ok malloc_ok) in
  match r with
  | Exit status => exit status
  | TaPath str cells => ret (Goes (str, cells))
  end.

(** [if (daemonize) { ... }], before the device is opened. *)
Definition become_daemon (daemonize : bool) : C O (life (Z * Z)) :=
  if daemonize then
    let! p := sys StPipe in
    match p with
    | None => exit EXIT_FAILURE
    | Some pipefd =>
        live! e := make_daemon pipefd in
        if decide (e < 0) then exit EXIT_FAILURE else ret (Goes pipefd)
    end
  else ret (Goes (0, 0)).

Definition open_device (dev : option bytes) : C O (life (Z * Z)) :=
  let! '(fd, caps) := (match dev with Some dev => open_dev dev 0 | None => get_dev_fd 0 end) in
  if decide (fd < 0) then exit EXIT_FAILURE else ret (Goes (fd, caps)).

(** Release the parent. *)
Definition tell_parent (daemonize : bool) (pipefd : Z * Z) : C O (life unit) :=
  if daemonize then
    let! n := sys (StWrite1 pipefd.2) in
    if decide (n ≠ 1) then exit EXIT_FAILURE
    else let! r := sys (StClose pipefd.2) in ret (Goes tt)
  else ret (Goes tt).

(** What the loop starts from, with the global variables. *)
Record started : Type := Started {
  s_config : thread_config;
  s_params : tee_supplicant_params;
  s_ta_path_str : bytes;
  s_ta_path : list (option (option nat))
}.

(** [main] up to its loop; [path] is the constant of [set_ta_path]. *)
Definition start (path : bytes) (ps : tee_supplicant_params) (args : cmdline) : C O (life started) :=
  let! e := sys StMutexInit in
  if decide (e ≠ 0) then exit EXIT_FAILURE
  else
    live! o := ret (read_options (options args) ps false) in
    live! dev := ret (read_operands (operands args)) in
    live! ta := run_set_ta_path path in
    let! e := sys StPluginLoadAll in
    if decide (e ≠ 0) then exit EXIT_FAILURE
    else
      live! pipefd := become_daemon o.2 in
      live! d := open_device dev in
      live! r := tell_parent o.2 pipefd in
      ret (Goes (Started (ThreadConfig d.1 d.2) o.1 ta.1 ta.2)).

Context `{Posix O} `{OtherServices O}.

(** The whole of [main], its loop cut after [fuel] requests: when the loop ends,
    the device is closed. *)
Definition main (fuel : nat) (path : bytes) (ps : tee_supplicant_params) (args : cmdline)
    : O → outcome (life unit * tstate O) :=
  λ o,
    match start path ps args o with
    | Undef => Undef
    | Ret (Exits status, o) => Ret (Exits status, TState 0 (Proc [] mem_empty o))
    | Ret (Goes st, o) =>
        (let! stop := serve fuel (s_config st) in
         if stop : bool then
           let! r := tos (OsClose (arg_fd (s_config st))) in ret (Exits EXIT_FAILURE)
         else ret (Goes tt)) (TState 0 (Proc [] mem_empty o))
    end.
End start.

(** ** What a run says *)

Definition forked (e : event startcall) : option Z :=
  let (A, c, a) := e in
  match c in startcall A return A → option Z with StFork => Some | _ => λ _, None end a.

(** The byte on the pipe: what the parent read, what the child wrote. *)
Definition pipe_read (e : event startcall) : option Z :=
  let (A, c, a) := e in
  match c in startcall A return A → option Z with StRead1 _ => Some | _ => λ _, None end a.
Definition pipe_written (e : event startcall) : option Z :=
  let (A, c, a) := e in
  match c in startcall A return A → option Z with StWrite1 _ => Some | _ => λ _, None end a.

(** A descriptor that turned out to be an OP-TEE device. *)
Definition device_found (e : event startcall) : option (Z * Z) :=
  let (A, c, a) := e in
  match c in startcall A return A → option (Z * Z) with
  | StVersion fd => λ v, '(impl_id, caps) ← v; if decide (impl_id = TEE_IMPL_ID_OPTEE) then Some (fd, caps) else None
  | _ => λ _, None
  end a.

(** The names a run tried to open. *)
Definition open_name (e : event startcall) : option bytes :=
  let (A, c, a) := e in
  match c in startcall A return A → option bytes with StOpen name _ => λ _, Some name | _ => λ _, None end a.

(** The open descriptors, the latest first: what an event does to them. *)
Definition open_fd (e : event startcall) : option Z :=
  let (A, c, a) := e in
  match c in startcall A return A → option Z with
  | StOpen _ _ => λ fd, if decide (fd < 0) then None else Some fd
  | _ => λ _, None
  end a.
Definition close_fd (e : event startcall) : option Z :=
  let (A, c, a) := e in
  match c in startcall A return A → option Z with StClose fd => λ _, Some fd | _ => λ _, None end a.

Fixpoint remove_first (fd : Z) (l : list Z) : list Z :=
  match l with
  | [] => []
  | x :: l => if decide (x = fd) then l else x :: remove_first fd l
  end.

Definition fd_effect (e : event startcall) (l : list Z) : list Z :=
  match open_fd e, close_fd e with
  | Some fd, _ => fd :: l
  | None, Some fd => remove_first fd l
  | None, None => l
  end.

(** An event that has nothing to do with becoming a daemon. *)
Definition quiet (e : event startcall) : Prop := forked e = None ∧ pipe_read e = None ∧ pipe_written e = None.

(** ** Runs of the device functions *)

(** Settle the [decide]s about descriptors. *)
Ltac fd_calc :=
  split_and?; try done; try lia; intros ls; unfold fd_effect; simpl; repeat (case_decide; simpl); done || lia.

Section device_runs.
Context {O : Type} `{StartOs O}.

(** What [open_dev] leaves open, and what it found. *)
Lemma open_dev_does name caps :
  does (O:=O) (open_dev name caps) (λ r new,
    Forall quiet new ∧ omap open_name new = [name] ∧
    ((0 ≤ r.1 ∧ omap device_found new = [r] ∧ ∀ l, foldr fd_effect l new = r.1 :: l) ∨
     (r = (-1, caps) ∧ omap device_found new = [] ∧ ∀ l, foldr fd_effect l new = l))).
Proof.
  unfold open_dev. walk; cbn.
  all: split; [by repeat constructor|split; [reflexivity|]]; cbn; repeat case_decide; try done.
  1,2,4: right; fd_calc.
  left; fd_calc.
Qed.
(** The loop stops at the first device, [k] numbers having failed before. *)
Definition tried (todo n : nat) (caps : Z) (r : Z * Z) (new : list (event startcall)) : Prop :=
  Forall quiet new ∧
  ((0 ≤ r.1 ∧ omap device_found new = [r] ∧ (∀ l, foldr fd_effect l new = r.1 :: l) ∧
    ∃ k, (k < todo)%nat ∧ omap open_name new = reverse (dev_name <$> seq n (S k))) ∨
   (r = (-1, caps) ∧ omap device_found new = [] ∧ (∀ l, foldr fd_effect l new = l) ∧
    omap open_name new = reverse (dev_name <$> seq n todo))).

Lemma get_dev_loop_does todo n caps : does (O:=O) (get_dev_loop todo n caps) (tried todo n caps).
Proof.
  revert n caps. induction todo as [|todo IH]; intros n caps; cbn [get_dev_loop].
  { apply does_ret. split; [done|]. by right. }
  eapply does_bind; [apply open_dev_does|].
  intros [fd c] n1 (Hq & Hn & [(Hfd & Hf & He)|(Hr & Hf & He)]); cbn beta iota.
  - simpl in Hfd. rewrite decide_True by lia. apply does_ret. split; [done|]. left.
    split_and!; try done. exists 0%nat. split; [lia|]. exact Hn.
  - injection Hr as -> ->. rewrite decide_False by lia. eapply does_weaken; [apply IH|].
    intros r n2 (Hq2 & Ht). split; [by apply Forall_app|].
    destruct Ht as [(Hr & Hf2 & He2 & k & Hk & Hn2)|(Hr & Hf2 & He2 & Hn2)]; [left|right];
      rewrite !omap_app, Hf, Hn, Hf2, Hn2, app_nil_r; (split; [done|split; [done|split]]).
    + intros l. by rewrite foldr_app, He.
    + exists (S k). split; [lia|]. by rewrite <- (cons_seq (S k) n), (fmap_cons dev_name n), reverse_cons.
    + intros l. by rewrite foldr_app, He.
    + by rewrite <- (cons_seq todo n), (fmap_cons dev_name n), reverse_cons.
Qed.
End device_runs.

(** ** Runs of the start-up *)

(** What the events of a run say about becoming a daemon. *)
Definition forks (new : list (event startcall)) : list Z := omap forked new.
Definition reads (new : list (event startcall)) : list Z := omap pipe_read new.
Definition writes (new : list (event startcall)) : list Z := omap pipe_written new.

Lemma quiet_omap new : Forall quiet new → forks new = [] ∧ reads new = [] ∧ writes new = [].
Proof.
  induction 1 as [|e new (Hf & Hr & Hw) _ (IHf & IHr & IHw)]; [done|].
  unfold forks, reads, writes in *. cbn. by rewrite Hf, Hr, Hw.
Qed.

Lemma forks_app n1 n2 : forks (n2 ++ n1) = forks n2 ++ forks n1.
Proof. apply omap_app. Qed.
Lemma reads_app n1 n2 : reads (n2 ++ n1) = reads n2 ++ reads n1.
Proof. apply omap_app. Qed.
Lemma writes_app n1 n2 : writes (n2 ++ n1) = writes n2 ++ writes n1.
Proof. apply omap_app. Qed.

Create Rewrite HintDb story.
#[export] Hint Rewrite forks_app reads_app writes_app app_nil_r : story.

(** Which process this is, and what it read from and wrote to the pipe. *)
Definition says (new : list (event startcall)) (f r w : list Z) : Prop :=
  forks new = f ∧ reads new = r ∧ writes new = w.

Lemma says_app n1 n2 f r w f2 r2 w2 :
  says n1 f r w → says n2 f2 r2 w2 → says (n2 ++ n1) (f2 ++ f) (r2 ++ r) (w2 ++ w).
Proof. intros (<- & <- & <-) (<- & <- & <-). unfold says. by autorewrite with story. Qed.

Lemma quiet_says new : Forall quiet new → says new [] [] [].
Proof. apply quiet_omap. Qed.

(** The status the parent ends with: it has read [n] bytes. *)
Definition parent_status (n : Z) : Z := if decide (n = 0) then EXIT_FAILURE else EXIT_SUCCESS.

Section start_runs.
Context {O : Type} `{StartOs O}.

(** Where [become_daemon] leads. *)
Inductive forked_into (new : list (event startcall)) : life (Z * Z) → Prop :=
| into_parent pid n :
    pid ≠ 0 → pid ≠ -1 → says new [pid] [n] [] → forked_into new (Exits (parent_status n))
| into_child r : says new [0] [] [] → r = Exits EXIT_FAILURE ∨ (∃ p, r = Goes p) → forked_into new r
| into_nothing f : f = [] ∨ f = [-1] → says new f [] [] → forked_into new (Exits EXIT_FAILURE).

Lemma become_daemon_does :
  does (O:=O) (become_daemon true) (λ r new, forked_into new r).
Proof.
  unfold become_daemon, make_daemon. walk; subst.
  (* the child *)
  all: try (apply into_child; [done|by eauto]).
  - by apply (into_nothing _ [-1]); [right|].
  - by apply (into_parent _ a 0).
  - assert (EXIT_SUCCESS = parent_status a1) as -> by (unfold parent_status; by rewrite decide_False).
    by apply (into_parent _ a a1).
  - by apply (into_nothing _ []); [left|].
Qed.

Lemma run_set_ta_path_does path :
  0 ∉ path →
  does (O:=O) (run_set_ta_path path) (λ r new, Forall quiet new ∧ (r = Exits EXIT_FAILURE ∨ ∃ ta, r = Goes ta)).
Proof.
  intros Hz. unfold run_set_ta_path. apply does_call. intros strdup_ok.
  assert (∀ malloc_ok e, Forall quiet e → does (O:=O)
    (let! r := lift (set_ta_path path strdup_ok malloc_ok) in
     match r with Exit status => exit status | TaPath str cells => ret (Goes (str, cells)) end)
    (λ r new, Forall quiet (new ++ e) ∧ (r = Exits EXIT_FAILURE ∨ ∃ ta, r = Goes ta))) as Hlift.
  { intros malloc_ok e He t. destruct (set_ta_path_ends path strdup_ok malloc_ok Hz) as (r & E & Hr).
    rewrite E. change (lift (Some r)) with (ret (S:=traced startcall O) r). rewrite bind_ret_l.
    destruct r as [status|str cells]; eexists _, t, []; split_and!; try done; [left|right]; [|by eauto].
    by rewrite (Hr status). }
  destruct strdup_ok; [apply does_call; intros malloc_ok|apply does_ret_bind].
  - eapply does_weaken; [apply (Hlift malloc_ok [Event StMalloc malloc_ok; Event StStrdup true]); by repeat constructor|].
    intros r n. cbn beta. by rewrite <- (assoc_L (++)).
  - apply Hlift. by repeat constructor.
Qed.

Lemma open_device_does dev :
  does (O:=O) (open_device dev) (λ r new, Forall quiet new ∧
    (r = Exits EXIT_FAILURE ∨ ∃ d, r = Goes d ∧ 0 ≤ d.1 ∧ omap device_found new = [d])).
Proof.
  assert (does (O:=O) (match dev with Some dev => open_dev dev 0 | None => get_dev_fd 0 end) (λ r new,
    Forall quiet new ∧ (r = (-1, 0) ∨ 0 ≤ r.1 ∧ omap device_found new = [r]))) as Hd.
  { destruct dev as [dev|]; (eapply does_weaken; [apply open_dev_does || apply get_dev_loop_does|]);
      intros r n; cbn; unfold tried; intuition. }
  unfold open_device. eapply does_bind; [exact Hd|]. intros [fd caps] n (Hq & Hr). cbn beta iota.
  walk; (split; [done|]); [by left|right]. exists (fd, caps).
  destruct Hr as [[= -> ->]|[? ?]]; [lia|done].
Qed.

Lemma tell_parent_does pipefd :
  does (O:=O) (tell_parent true pipefd) (λ r new, ∃ n, says new [] [] [n] ∧
    ((n ≠ 1 ∧ r = Exits EXIT_FAILURE) ∨ (n = 1 ∧ r = Goes tt))).
Proof.
  unfold tell_parent. walk; eexists; (split; [done|]); [by left|right]. split; [|done]. lia.
Qed.

(** [start] goes on with a device that has been found. *)
Definition has_device (st : started) (new : list (event startcall)) : Prop :=
  0 ≤ arg_fd (s_config st) ∧ (arg_fd (s_config st), gen_caps (s_config st)) ∈ omap device_found new.

Lemma has_device_app st n1 n2 : has_device st n2 → has_device st (n2 ++ n1).
Proof. intros [? Hd]. split; [done|]. rewrite omap_app. apply elem_of_app. by left. Qed.

(** How [start] ends, by what the process says: it is a parent; or its child; or
    it never forked. *)
Inductive ending (ps : tee_supplicant_params) (args : cmdline) (new : list (event startcall)) : life started → Prop :=
| ends_parent pid n :
    pid ≠ 0 → pid ≠ -1 → says new [pid] [n] [] → ending ps args new (Exits (parent_status n))
| ends_child_failed w :
    says new [0] [] w → 1 ∉ w → ending ps args new (Exits EXIT_FAILURE)
| ends_child_ready st :
    says new [0] [] [1] → has_device st new → ending ps args new (Goes st)
| ends_alone f status :
    f = [] ∨ f = [-1] → says new f [] [] →
    (status = EXIT_FAILURE ∨ read_options (options args) ps false = Exits status ∨
     read_operands (operands args) = Exits status) →
    ending ps args new (Exits status)
| ends_foreground st :
    says new [] [] [] → has_device st new → ending ps args new (Goes st).

(** From the device on, as a daemon's child ([w]: what it has said before). *)
Lemma child_does ps0 ps args o (ta : bytes * list (option (option nat))) pipefd n0 :
  says n0 [0] [] [] →
  does (O:=O)
    (live! d := open_device o in
     live! r := tell_parent true pipefd in
     ret (Goes (Started (ThreadConfig d.1 d.2) ps ta.1 ta.2)))
    (λ r new, ending ps0 args (new ++ n0) r).
Proof.
  intros Hs0. eapply does_and_then; [apply open_device_does| |].
  - intros s n (Hq & [[= ->]|(d & [=] & _)]).
    apply (ends_child_failed _ _ _ []); [|apply not_elem_of_nil].
    apply (says_app _ _ _ _ _ _ _ _ Hs0 (quiet_says _ Hq)).
  - intros d n1 (Hq & [[=]|(? & [= <-] & Hd & Hf)]).
    pose proof (says_app _ _ _ _ _ _ _ _ Hs0 (quiet_says _ Hq)) as Hs1.
    eapply does_and_then; [apply tell_parent_does| |].
    + intros s n2 (n & Hs & [(Hn & [= ->])|(_ & [=])]). rewrite <- (assoc_L (++)).
      apply (ends_child_failed _ _ _ [n]); [exact (says_app _ _ _ _ _ _ _ _ Hs1 Hs)|by intros ?%list_elem_of_singleton].
    + intros [] n2 (n & Hs & [(_ & [=])|(-> & _)]). apply does_ret. rewrite <- !(assoc_L (++)).
      apply ends_child_ready; [exact (says_app _ _ _ _ _ _ _ _ Hs1 Hs)|].
      simpl app. rewrite (assoc_L (++)). apply has_device_app. split; [done|]. simpl.
      rewrite omap_app, Hf. apply elem_of_app. right. destruct d. by apply list_elem_of_singleton.
Qed.

(** The same in the foreground. *)
Lemma foreground_does ps0 ps args o (ta : bytes * list (option (option nat))) n0 :
  says n0 [] [] [] →
  does (O:=O)
    (live! d := open_device o in
     live! r := tell_parent false (0, 0) in
     ret (Goes (Started (ThreadConfig d.1 d.2) ps ta.1 ta.2)))
    (λ r new, ending ps0 args (new ++ n0) r).
Proof.
  intros Hs0. eapply does_and_then; [apply open_device_does| |].
  - intros s n (Hq & [[= ->]|(d & [=] & _)]).
    apply (ends_alone _ _ _ []); [by left| |by left].
    apply (says_app _ _ _ _ _ _ _ _ Hs0 (quiet_says _ Hq)).
  - intros d n1 (Hq & [[=]|(? & [= <-] & Hd & Hf)]). unfold and_then, tell_parent. walk.
    apply ends_foreground; [exact (says_app _ _ _ _ _ _ _ _ Hs0 (quiet_says _ Hq))|].
    apply (has_device_app _ n0 n1). split; [done|]. rewrite Hf. destruct d. by apply list_elem_of_singleton.
Qed.

Lemma start_does path ps args :
  0 ∉ path → does (O:=O) (start path ps args) (λ r new, ending ps args new r).
Proof.
  intros Hz. unfold start. apply does_call. intros e. cbn beta.
  set (n0 := [Event StMutexInit e]). assert (Forall quiet n0) as Hq0 by by repeat constructor.
  destruct (decide (e ≠ 0)) as [He|He]; [apply does_ret; apply (ends_alone _ _ _ []); [by left|done|by left]|].
  destruct (read_options (options args) ps false) as [status|[ps' daemonize]] eqn:Eo.
  { apply does_ret. apply (ends_alone _ _ _ []); [by left|done|by right; left]. }
  unfold and_then at 1. apply does_ret_bind.
  destruct (read_operands (operands args)) as [status|dev] eqn:Ed.
  { apply does_ret. apply (ends_alone _ _ _ []); [by left|done|by right; right]. }
  unfold and_then at 1. apply does_ret_bind.
  eapply does_and_then; [by apply run_set_ta_path_does| |].
  { intros s n1 (Hq & [[= ->]|(? & [=])]). apply (ends_alone _ _ _ []); [by left| |by left].
    apply quiet_says. by apply Forall_app. }
  intros ta n1 (Hq1 & _). cbn beta. apply does_call. intros e2. cbn beta.
  assert (says ([Event StPluginLoadAll e2] ++ n1 ++ n0) [] [] []) as Hs
    by (apply quiet_says; repeat (apply Forall_app; split); try done; by repeat constructor).
  destruct (decide (e2 ≠ 0)) as [He2|He2].
  { apply does_ret. by apply (ends_alone _ _ _ []); [left| |left]. }
  destruct daemonize; cbn [fst snd].
  - eapply does_and_then; [apply become_daemon_does| |].
    + intros s m2 Hf. rewrite <- !(assoc_L (++)). inversion Hf as [pid n ? ? Hn|? Hn Hr|f Hff Hn].
      * by apply (ends_parent _ _ _ pid n); [..|exact (says_app _ _ _ _ _ _ _ _ Hs Hn)].
      * destruct Hr as [[= ->]|(? & [=])].
        apply (ends_child_failed _ _ _ []); [exact (says_app _ _ _ _ _ _ _ _ Hs Hn)|apply not_elem_of_nil].
      * apply (ends_alone _ _ _ f); [done| |by left].
        rewrite <- (app_nil_r f). exact (says_app _ _ _ _ _ _ _ _ Hs Hn).
    + intros pipefd m2 Hf. inversion Hf as [|? Hn _|]. subst.
      eapply does_weaken; [apply (child_does ps ps' args dev ta pipefd); exact (says_app _ _ _ _ _ _ _ _ Hs Hn)|].
      intros r n3 Hr. rewrite <- !(assoc_L (++)) in *. exact Hr.
  - apply does_ret_bind. cbn beta iota.
    eapply does_weaken; [apply (foreground_does ps ps' args dev ta); exact Hs|].
    intros r n3 Hr. rewrite <- !(assoc_L (++)) in *. exact Hr.
Qed.
End start_runs.

(** ** Properties *)

(** The calls of the loop pass through the record. *)
#[export] Instance traced_posix {O} `{Posix O} : Posix (traced startcall O) :=
  λ A c t, let '(a, o) := os_run c (under t) in (a, Traced (trace t) o).

Section properties.
Context {O : Type} `{StartOs O}.

(** [get_dev_fd] finds the first device.  Whatever the operating system
    answers it returns; it tries /dev/teepriv0, 1, ... in this order and stops at
    the first that opens and says it is OP-TEE, whose capabilities it stores, or
    gives -1 after ten; and of all it opened, only what it returns is left open. *)
Theorem get_dev_fd_spec (caps : Z) (w : traced startcall O) :
  ∃ fd caps' w' new k, get_dev_fd caps w = Ret ((fd, caps'), w') ∧ trace w' = new ++ trace w ∧
    omap open_name new = reverse (dev_name <$> seq 0 k) ∧ (k ≤ MAX_DEV_SEQ)%nat ∧
    ((0 ≤ fd ∧ omap device_found new = [(fd, caps')] ∧ ∀ fds, foldr fd_effect fds new = fd :: fds) ∨
     (fd = -1 ∧ caps' = caps ∧ k = MAX_DEV_SEQ ∧ omap device_found new = [] ∧
      ∀ fds, foldr fd_effect fds new = fds)).
Proof.
  destruct (get_dev_loop_does MAX_DEV_SEQ 0 caps w) as ([fd c] & w' & new & E & Ht & _ & Hr).
  destruct Hr as [(Hfd & Hf & He & k & Hk & Hn)|([= -> ->] & Hf & He & Hn)].
  - exists fd, c, w', new, (S k). split_and!; try done. by left.
  - exists (-1), caps, w', new, MAX_DEV_SEQ. split_and!; try done. by right.
Qed.

(** C8: the parent of a daemon tells the truth.  Take the two runs that [fork]
    makes of one: in the child it gives 0, in the parent the child's number; and
    what the parent reads from the pipe is what the child wrote to it.  Then either
    the parent ends with success, and the child has opened an OP-TEE device and
    enters its loop with it; or both end with failure. *)
Theorem daemon_reports_child path ps args (wc wp : O) rc tc rp tp pid :
  0 ∉ path →
  start path ps args (Traced [] wc) = Ret (rc, tc) → 0 ∈ forks (trace tc) →
  start path ps args (Traced [] wp) = Ret (rp, tp) → pid ∈ forks (trace tp) → 0 < pid →
  (∀ n, n ∈ reads (trace tp) → n = if decide (1 ∈ writes (trace tc)) then 1 else 0) →
  (rp = Exits EXIT_SUCCESS ∧ ∃ st, rc = Goes st ∧ has_device st (trace tc)) ∨
  (rp = Exits EXIT_FAILURE ∧ rc = Exits EXIT_FAILURE).
Proof.
  intros Hz Ec Hc Ep Hp Hpid Hpipe.
  destruct (start_does path ps args Hz (Traced [] wc)) as (? & ? & nc & Ec' & Tc & Hec).
  rewrite Ec in Ec'. injection Ec' as <- <-.
  destruct (start_does path ps args Hz (Traced [] wp)) as (? & ? & np & Ep' & Tp & Hep).
  rewrite Ep in Ep'. injection Ep' as <- <-. simpl in Tc, Tp. rewrite app_nil_r in Tc, Tp. rewrite Tc, Tp in *.
  assert (rp = Exits (if decide (1 ∈ writes nc) then EXIT_SUCCESS else EXIT_FAILURE)) as ->.
  { inversion Hep as [p n ? ? (Hf & Hr & Hw)|w (Hf & ?)|st (Hf & ?)|f s Hff (Hf & ?)|st (Hf & ?)];
      rewrite Hf in Hp; try (apply list_elem_of_singleton in Hp; lia).
    - rewrite (Hpipe n) by (rewrite Hr; by apply list_elem_of_singleton). unfold parent_status. by case_decide.
    - exfalso. destruct Hff as [->| ->]; [by apply elem_of_nil in Hp|apply list_elem_of_singleton in Hp; lia].
    - by apply elem_of_nil in Hp. }
  inversion Hec as [p n ? ? (Hf & _)|w (Hf & _ & Hw) Hw1|st (Hf & _ & Hw) Hd|f s Hff (Hf & _)|st (Hf & _)];
    rewrite Hf in Hc.
  - by apply list_elem_of_singleton in Hc.
  - right. rewrite Hw. by rewrite decide_False.
  - left. rewrite Hw, decide_True by (by apply list_elem_of_singleton). split; [done|]. by exists st.
  - exfalso. destruct Hff as [->| ->]; [by apply elem_of_nil in Hc|by apply list_elem_of_singleton in Hc].
  - by apply elem_of_nil in Hc.
Qed.

(** Success is reported for two reasons only.  The process ends with status 0
    only when its options ask for help, or in the parent of a daemon that read a
    byte (or failed to read one) from its child; the loop's end is a failure. *)
Theorem exit_success_means `{Posix O} `{OtherServices (traced startcall O)} fuel path ps args (w : O) t :
  0 ∉ path →
  main fuel path ps args (Traced [] w) = Ret (Exits EXIT_SUCCESS, t) →
  read_options (options args) ps false = Exits EXIT_SUCCESS ∨
  ∃ pid n, pid ≠ 0 ∧ pid ≠ -1 ∧ n ≠ 0 ∧
    forks (trace (p_os (t_proc t))) = [pid] ∧ reads (trace (p_os (t_proc t))) = [n].
Proof.
  intros Hz. unfold main.
  destruct (start_does path ps args Hz (Traced [] w)) as (r & t' & new & E & Ht & He).
  rewrite E. simpl in Ht. rewrite app_nil_r in Ht. subst. destruct r as [status|st].
  - intros [= -> <-]. simpl. inversion He as [pid n ? ? (Hf & Hr & _) Es| | |f s Hff Hs Hst|].
    + right. exists pid, n. unfold parent_status in Es. case_decide; done.
    + destruct Hst as [Hst|[Hst|Hst]]; [done|by left|].
      exfalso. revert Hst. by destruct (operands args) as [|? [|? ?]].
  - intros Hrun. exfalso. apply bind_inv in Hrun as ([|] & t1 & _ & Hrun); [|done].
    by apply bind_inv in Hrun as (? & ? & _ & [=]).
Qed.
End properties.
