(* ===== verification/BootExamples.v ===== *)
(** * The supplicant starts: the properties at work

A small operating system on which everything succeeds, and one that also serves
requests as that of [Loopback] does; the theorems of [SuppStart] are applied to
the supplicant started on them. *)
From Stdlib Require Import Ascii.
From S2P Require Import Prelude CMem Protocol SuppShm SuppVfs SuppLoop Loopback TaPath Calls SuppStart.
#[local] Open Scope Z_scope.
#[local] Open Scope c_scope.

(** ** Start-up

Everything succeeds and the first device is OP-TEE's; the state says what [fork]
and the parent's [read] give.  The device has no requests. *)
Module Booting.

Record boot : Type := Boot { fork_gives : Z; read_gives : Z }.

#[export] Instance boot_os : StartOs boot :=
  λ A c o, (match c in startcall A return A with
            | StMutexInit => 0
            | StStrdup => true
            | StMalloc => true
            | StPluginLoadAll => 0
            | StPipe => Some (3, 4)
            | StFork => fork_gives o
            | StRead1 _ => read_gives o
            | StWrite1 _ => 1
            | StSetsid => 7
            | StChdir _ => 0
            | StOpen _ _ => 5
            | StDup2 _ fd2 => fd2
            | StClose _ => 0
            | StVersion _ => Some (TEE_IMPL_ID_OPTEE, 5)
            end, o).

Definition ex_args : cmdline := Cmdline [("d"%char, [])] [].
Definition ex_params : tee_supplicant_params := supplicant_params None (chars "/data/tee").

Definition child : boot := Boot 0 0.
Definition parent : boot := Boot 42 1.

(** A descriptor is found and the path is cut. *)
Example ex_start :
  match start ex_path ex_params ex_args (Traced [] child) with
  | Ret (Goes st, _) => s_config st = ThreadConfig 5 5 ∧ length (s_ta_path st) = 5%nat
  | _ => False
  end.
Proof. by vm_compute. Qed.

Lemma daemon_reports_child_witness :
  ∃ tc tp st,
    start ex_path ex_params ex_args (Traced [] child) = Ret (Goes st, tc) ∧
    start ex_path ex_params ex_args (Traced [] parent) = Ret (Exits EXIT_SUCCESS, tp) ∧
    has_device st (trace tc).
Proof.
  destruct (start ex_path ex_params ex_args (Traced [] child)) as [[rc tc]|] eqn:Ec; [|by vm_compute in Ec].
  destruct (start ex_path ex_params ex_args (Traced [] parent)) as [[rp tp]|] eqn:Ep; [|by vm_compute in Ep].
  vm_compute in Ec. vm_compute in Ep.
  destruct (daemon_reports_child ex_path ex_params ex_args child parent rc tc rp tp 42) as [(-> & st & -> & Hd)|(-> & _)].
  - by apply (bool_decide_unpack _).
  - rewrite <- Ec. by vm_compute.
  - injection Ec as _ <-. by apply (bool_decide_unpack _).
  - rewrite <- Ep. by vm_compute.
  - injection Ep as _ <-. by apply (bool_decide_unpack _).
  - done.
  - injection Ep as _ <-. injection Ec as _ <-. by intros n ->%list_elem_of_singleton.
  - exists tc, tp, st. rewrite <- Ec, <- Ep. split; [by vm_compute|]. split; [by vm_compute|done].
  - by injection Ep.
Defined.

(** With the files of [Loopback] beside it, on which no request ever arrives. *)
#[export] Instance booted_os : StartOs (boot * host) :=
  λ A c o, let '(a, b) := sys_run c o.1 in (a, (b, o.2)).
#[export] Instance booted_posix : Posix (boot * host) :=
  λ A c o, let '(a, h) := os_run c o.2 in (a, (o.1, h)).
#[export] Instance no_services : OtherServices (traced startcall (boot * host)) := {
  other_service _ _ := ret TEEC_ERROR_NOT_SUPPORTED;
  rpmb_process_request _ _ _ _ := ret TEEC_ERROR_NOT_SUPPORTED
}.

(** In the foreground: the device is found, waiting for a request fails, and the
    supplicant ends with a failure. *)
Example ex_main_foreground :
  match main 3 ex_path ex_params (Cmdline [] []) (Traced [] (child, Host ∅ 0)) with
  | Ret (Exits status, t) => status = EXIT_FAILURE ∧ num_waiters t = 1
  | _ => False
  end.
Proof. by vm_compute. Qed.

Lemma exit_success_means_witness :
  ∃ t pid n, main 3 ex_path ex_params ex_args (Traced [] (parent, Host ∅ 0)) = Ret (Exits EXIT_SUCCESS, t) ∧
    pid ≠ 0 ∧ n ≠ 0 ∧ reads (trace (p_os (t_proc t))) = [n].
Proof.
  destruct (main 3 ex_path ex_params ex_args (Traced [] (parent, Host ∅ 0))) as [[r t]|] eqn:E; [|by vm_compute in E].
  assert (r = Exits EXIT_SUCCESS) as -> by (vm_compute in E; by injection E as <- _).
  destruct (exit_success_means 3 ex_path ex_params ex_args (parent, Host ∅ 0) t) as [Hh|(pid & n & ? & _ & ? & _ & Hr)].
  - by apply (bool_decide_unpack _).
  - exact E.
  - by vm_compute in Hh.
  - by exists t, pid, n.
Defined.
End Booting.
