(* ===== verification/TaEntry.v ===== *)
(** * The trusted application: entry points

Models optee_examples/tee_sqilte/ta/tee_sqlite.c: the entry points that OP-TEE
calls, and the one command, [exec], which runs a fixed script on an encrypted
database and another ([testWithotKey]) on one that is not.

SQLite's interface is the parameter [Sys sqlcall]: its answers are arbitrary.  A
[sqlite3 *] and a [char *] that SQLite allocated are numbers, NULL being 0.

[sqlite3_key] is not SQLite's but the application's own (ta/codecext.c, the file
[CodecExt]), on a state of its own.  Here it is a variable, on any state that
answers the calls; [TaKey] puts the function of [CodecExt] in its place. *)
From S2P Require Import Prelude Calls.
#[local] Open Scope Z_scope.
#[local] Open Scope c_scope.

(** ** SQLite's interface *)

(** A row: the names of the columns and their values, which may be NULL. *)
Definition row : Type := list (bytes * option bytes).

Inductive sqlcall : Type → Type :=
| SqOpen (filename : bytes) : sqlcall (Z * Z)              (** code, [*ppDb] *)
| SqExec (db : Z) (sql : string) (cb arg : option (row → Z)) : sqlcall (Z * Z)  (** code, [*errmsg] *)
| SqErrmsg (db : Z) : sqlcall unit
| SqFree (p : Z) : sqlcall unit
| SqClose (db : Z) : sqlcall Z
(** the clock *)
| SqTime : sqlcall Z.

Definition SQLITE_OK : Z := 0.
Definition NULL : Z := 0.

(** ** The application *)

Definition TEE_SUCCESS : Z := 0.
Definition TEE_ERROR_BAD_PARAMETERS : Z := 0xffff0006.
Definition TEE_PARAM_TYPE_NONE : Z := 0.
Definition TEE_PARAM_TYPE_VALUE_INOUT : Z := 3.
Definition TEE_PARAM_TYPES (t0 t1 t2 t3 : Z) : Z :=
  Z.lor t0 (Z.lor (Z.shiftl t1 4) (Z.lor (Z.shiftl t2 8) (Z.shiftl t3 12))).
Definition TA_TEE_SQLITE_EXEC : Z := 0.

(** [TEE_Param params[4]], as values: their members [a] and [b]. *)
Record tee_params : Type := Params { par0 : Z * Z; par1 : Z * Z; par2 : Z * Z; par3 : Z * Z }.

(** It logs the row. *)
Definition callback (r : row) : Z := 0.

(** What [exec] expects. *)
Definition TEE_EXEC_TYPES : Z :=
  TEE_PARAM_TYPES TEE_PARAM_TYPE_VALUE_INOUT TEE_PARAM_TYPE_NONE TEE_PARAM_TYPE_NONE TEE_PARAM_TYPE_NONE.

Section ta.
Context {O : Type} `{Sys sqlcall O}.
(** the connection, the object the key is in and its length *)
Variable sqlite3_key : Z → bytes → Z → C O Z.

Definition TA_CreateEntryPoint : C O Z := ret TEE_SUCCESS.
Definition TA_DestroyEntryPoint : C O unit := ret tt.

Definition TA_OpenSessionEntryPoint (param_types : Z) : C O Z :=
  let exp_param_types := TEE_PARAM_TYPES TEE_PARAM_TYPE_NONE TEE_PARAM_TYPE_NONE
                                         TEE_PARAM_TYPE_NONE TEE_PARAM_TYPE_NONE in
  if decide (param_types ≠ exp_param_types) then ret TEE_ERROR_BAD_PARAMETERS
  else ret TEE_SUCCESS.

Definition TA_CloseSessionEntryPoint : C O unit := ret tt.

Definition cars_script : string :=
  "DROP TABLE IF EXISTS Cars;" +:+
  "CREATE TABLE Cars(Id INT, Name TEXT, Price INT);" +:+
  "INSERT INTO Cars VALUES(2, 'Mercedes', 57127);" +:+
  "INSERT INTO Cars VALUES(3, 'Skoda', 9000);" +:+
  "INSERT INTO Cars VALUES(4, 'Volvo', 29000);" +:+
  "INSERT INTO Cars VALUES(5, 'Bentley', 350000);".

(** A [void] function; the code of the second [sqlite3_open] is overwritten. *)
Definition testWithotKey : C O unit :=
  let! '(rc, db) := sys (SqOpen (chars "/tmp/test1.db")) in
  if decide (rc ≠ SQLITE_OK) then
    do! sys (SqErrmsg db) in
    do! sys (SqClose db) in ret tt
  else
    let! '(rc, err_msg) := sys (SqExec db cars_script None None) in
    if decide (rc ≠ SQLITE_OK) then
      do! sys (SqFree err_msg) in
      do! sys (SqClose db) in ret tt
    else
      do! sys (SqClose db) in
      let! '(rc, db) := sys (SqOpen (chars "/tmp/test1.db")) in
      let! '(rc, err_msg) := sys (SqExec db "SELECT * FROM Cars;" (Some callback) None) in
      if decide (rc ≠ SQLITE_OK) then
        do! sys (SqFree err_msg) in
        do! sys (SqClose db) in ret tt
      else
        do! sys (SqClose db) in ret tt.

(** The parameters are given back as the caller finds them. *)
Definition exec (param_types : Z) (params : tee_params) : C O (Z * tee_params) :=
  let exp_param_types := TEE_EXEC_TYPES in
  let! t1 := sys SqTime in
  let! '(rc, db) := sys (SqOpen (chars "/tmp/test.db")) in
  let! r := sqlite3_key db (chars "123456" ++ [0]) 6 in
  if decide (rc ≠ SQLITE_OK) then
    do! sys (SqErrmsg db) in
    do! sys (SqClose db) in ret (1, params)
  else
    let! '(rc, err_msg) := sys (SqExec db cars_script None None) in
    if decide (rc ≠ SQLITE_OK) then
      do! sys (SqFree err_msg) in
      do! sys (SqClose db) in ret (1, params)
    else
      let! '(rc, err_msg) := sys (SqExec db "SELECT * FROM Cars;" (Some callback) None) in
      if decide (rc ≠ SQLITE_OK) then
        do! sys (SqFree err_msg) in
        do! sys (SqClose db) in ret (1, params)
      else
        do! sys (SqClose db) in
        let! t2 := sys SqTime in
        do! testWithotKey in
        if decide (param_types ≠ exp_param_types) then ret (TEE_ERROR_BAD_PARAMETERS, params)
        else ret (TEE_SUCCESS, params).

Definition TA_InvokeCommandEntryPoint (cmd_id param_types : Z) (params : tee_params)
    : C O (Z * tee_params) :=
  if decide (cmd_id = TA_TEE_SQLITE_EXEC) then exec param_types params
  else ret (TEE_ERROR_BAD_PARAMETERS, params).
End ta.

(** ** What is held from SQLite

The connections that were opened and not closed and the messages that have been
allocated: what a call does to them, when it may be made.  Whatever [sqlite3_open]
gave is a connection to be closed, even when opening failed, and even when it is
NULL (SQLite had no memory); a NULL that no opening gave is not.  A message that is
NULL may be freed. *)
Record held : Type := Held { connections : list Z; messages : list Z }.

Fixpoint remove_first (x : Z) (l : list Z) : option (list Z) :=
  match l with
  | [] => None
  | y :: l => if decide (y = x) then Some l else (y ::.) <$> remove_first x l
  end.

Definition gain (x : Z) (l : list Z) : list Z := if decide (x = NULL) then l else x :: l.
Definition lose (x : Z) (l : list Z) : option (list Z) :=
  if decide (x = NULL) then Some l else remove_first x l.

Definition held_after {A} (c : sqlcall A) : A → held → option held :=
  match c in sqlcall A return A → held → option held with
  | SqOpen _ => λ r h, Some (Held (r.2 :: connections h) (messages h))
  | SqExec db _ _ _ => λ r h,
      if decide (db ∈ connections h) then
        Some (Held (connections h) (if decide (r.1 = SQLITE_OK) then messages h else gain r.2 (messages h)))
      else None
  | SqErrmsg db => λ _ h, if decide (db ∈ connections h) then Some h else None
  | SqFree p => λ _ h, ms ← lose p (messages h); Some (Held (connections h) ms)
  | SqClose db => λ _ h, cs ← remove_first db (connections h); Some (Held cs (messages h))
  | SqTime => λ _ h, Some h
  end.

Definition hold (e : event sqlcall) (h : option held) : option held :=
  let (A, c, a) := e in h ≫= held_after c a.

(** The run [new] is made correctly from [h] and leads to [h']. *)
Definition leads (new : list (event sqlcall)) (h h' : held) : Prop := foldr hold (Some h) new = Some h'.

Lemma leads_app n1 n2 h1 h2 h3 : leads n1 h1 h2 → leads n2 h2 h3 → leads (n2 ++ n1) h1 h3.
Proof. unfold leads. intros H1 H2. by rewrite foldr_app, H1. Qed.

Lemma leads_cons {A} (c : sqlcall A) a new h1 h2 h3 :
  leads new h1 h2 → held_after c a h2 = Some h3 → leads (Event c a :: new) h1 h3.
Proof. unfold leads. intros H1 H2. simpl. by rewrite H1. Qed.

Lemma lose_gain x l : lose x (gain x l) = Some l.
Proof. unfold lose, gain. case_decide; [done|]. simpl. by rewrite decide_True. Qed.

Lemma remove_opened x l : remove_first x (x :: l) = Some l.
Proof. simpl. by rewrite decide_True. Qed.

(** Follow a run from what was held before it. *)
Ltac leads_run :=
  cbn [app];
  repeat match goal with Hn : ¬ (_ ≠ _) |- _ => apply dec_stable in Hn end;
  lazymatch goal with
  | |- leads [] _ _ => reflexivity
  | |- leads (Event _ _ :: _) _ _ =>
      eapply leads_cons; [leads_run|];
      cbn [held_after connections messages fst snd mbind option_bind];
      rewrite ?decide_True by (done || apply list_elem_of_here);
      rewrite ?decide_False by done; rewrite ?lose_gain, ?remove_opened; reflexivity
  end.

(** One more answer of the world. *)
Ltac answer :=
  match goal with
  | |- context [@sys_run _ _ _ ?A ?c ?o] =>
      destruct (@sys_run _ _ _ A c o) as [[] ?] || destruct (@sys_run _ _ _ A c o) as [? ?]
  end.

(** A [sqlite3_key] that returns and leaves the handles and messages of SQLite
    alone. *)
Definition quiet_key {O} (sqlite3_key : Z → bytes → Z → C (traced sqlcall O) Z) : Prop :=
  ∀ db key n, does (sqlite3_key db key n) (λ _ new, new = []).

Section runs.
Context {O : Type} `{Sys sqlcall O}.

Lemma testWithotKey_does : does (O:=O) testWithotKey (λ _ new, ∀ h, leads new h h).
Proof. unfold testWithotKey. walk; intros [cs ms]; leads_run. Qed.

Lemma exec_does key pt params :
  quiet_key (O:=O) key → does (O:=O) (exec key pt params) (λ _ new, ∀ h, leads new h h).
Proof.
  intros Hkey. unfold exec. walk. eapply does_bind; [apply Hkey|]. intros r new0 ->. walk.
  all: try by intros [cs ms]; leads_run.
  all: eapply does_bind; [apply testWithotKey_does|]; intros [] new Hnew; walk; intros [cs ms].
  all: cbn [app]; rewrite <- ?(assoc_L (++)); apply leads_app with (Held cs ms); [leads_run|apply Hnew].
Qed.

Lemma testWithotKey_returns (o : O) : ∃ o', testWithotKey o = Ret (tt, o').
Proof.
  unfold testWithotKey, bind, sys, run, ret.
  repeat first [by eexists | case_decide | answer].
Qed.

Context (sqlite3_key : Z → bytes → Z → C O Z).

(** What [exec] returns, when its [sqlite3_key] does. *)
Lemma exec_result (o : O) :
  (∀ pt params, exec sqlite3_key pt params o = Undef) ∧
    (∃ db o1, sqlite3_key db (chars "123456" ++ [0]) 6 o1 = Undef) ∨
  ∃ r o', (r = TEE_SUCCESS ∨ r = 1) ∧ ∀ pt params,
    exec sqlite3_key pt params o =
      Ret ((if decide (r = TEE_SUCCESS ∧ pt ≠ TEE_EXEC_TYPES) then TEE_ERROR_BAD_PARAMETERS else r, params), o').
Proof.
  unfold exec, bind, sys, run, ret. destruct (sys_run SqTime o) as [t o1].
  destruct (sys_run (SqOpen _) o1) as [[rc db] o2].
  destruct (sqlite3_key _ _ _) as [[rk ok]|] eqn:Ek; [right|left; split; [done|by eexists _, _]].
  repeat first
    [ by exists 1; eexists; split; [by right|]; intros pt params; rewrite decide_False by (by intros [? _])
    | case_decide | answer
    | match goal with |- context [testWithotKey ?s] => destruct (testWithotKey_returns s) as [o' ->] end ].
  all: exists TEE_SUCCESS, o'; split; [by left|]; intros pt params; repeat case_decide; tauto.
Qed.
End runs.

(** ** Properties *)
Section properties.
Context {O : Type} `{Sys sqlcall O}.

(** C30: the scripts leave nothing behind in SQLite.  Whatever SQLite answers, the
    script on the database without a key returns; on each of its paths it passes only
    what an opening gave it and it has not closed, closes that once, even when the
    opening failed, and frees once every message of a failed statement.  The same
    holds of every command, and so of the script on the database with a key, were
    [sqlite3_key] a function that returns and leaves SQLite's connections and
    messages alone; the application's own, with the key it is given, is not one
    ([exec_is_undefined]). *)
Theorem commands_leave_nothing :
  does (O:=O) testWithotKey (λ _ new, ∀ h, leads new h h) ∧
  ∀ sqlite3_key cmd_id param_types params,
    (cmd_id = TA_TEE_SQLITE_EXEC → quiet_key (O:=O) sqlite3_key) →
    does (O:=O) (TA_InvokeCommandEntryPoint sqlite3_key cmd_id param_types params) (λ _ new, ∀ h, leads new h h).
Proof.
  split; [apply testWithotKey_does|]. intros key cmd_id pt params Hkey.
  unfold TA_InvokeCommandEntryPoint. case_decide; [by apply exec_does, Hkey|]. by apply does_ret.
Qed.

(** C31: the parameter types are checked last.  Whatever types the caller gives,
    and whatever [sqlite3_key] does, [exec] makes the same calls and leaves the same
    state as with the types it expects, or is undefined behaviour with both; only
    its result differs, and only if everything succeeded: then it is
    [TEE_ERROR_BAD_PARAMETERS].  The parameters themselves are never changed.  It
    returns if [sqlite3_key] does. *)
Theorem exec_checks_types_last (sqlite3_key : Z → bytes → Z → C O Z) param_types params (o : O) :
  (exec sqlite3_key TEE_EXEC_TYPES params o = Undef ∧ exec sqlite3_key param_types params o = Undef ∧
     (∃ db o1, sqlite3_key db (chars "123456" ++ [0]) 6 o1 = Undef)) ∨
  ∃ r o', (r = TEE_SUCCESS ∨ r = 1) ∧
    exec sqlite3_key TEE_EXEC_TYPES params o = Ret ((r, params), o') ∧
    exec sqlite3_key param_types params o =
      Ret ((if decide (r = TEE_SUCCESS ∧ param_types ≠ TEE_EXEC_TYPES) then TEE_ERROR_BAD_PARAMETERS else r, params), o').
Proof.
  destruct (exec_result sqlite3_key o) as [[E Hu]|(r & o' & Hr & E)]; [left; by rewrite !E|right].
  exists r, o'. split; [done|]. rewrite !E. split; [|done]. by rewrite decide_False by tauto.
Qed.
End properties.

