(* ===== verification/HostMain.v ===== *)
(** * The command line host application

Models optee_examples/tee_sqilte/host/main.c: it times SQLite in the normal world
and then asks the trusted application to do the same.

Its surroundings are the parameter [Sys hostcall]: SQLite again, the clock, the
TEE client library and what is printed about the parameter. *)
From S2P Require Import Prelude Calls TaEntry.
#[local] Open Scope Z_scope.
#[local] Open Scope c_scope.

Record TEEC_Operation : Type := Operation { paramTypes : Z; op_params : tee_params }.

Inductive hostcall : Type → Type :=
| HSql {A} (c : sqlcall A) : hostcall A
| HTime : hostcall Z
| TEEC_InitializeContext : hostcall Z
| TEEC_OpenSession (login : Z) : hostcall Z
| TEEC_InvokeCommand (cmd : Z) (op : TEEC_Operation) : hostcall (Z * TEEC_Operation)
| TEEC_CloseSession : hostcall unit
| TEEC_FinalizeContext : hostcall unit
| HPrintValue (a : Z) : hostcall unit.

Definition TEEC_SUCCESS : Z := 0.
Definition TEEC_LOGIN_PUBLIC : Z := 0.
Definition TEEC_NONE : Z := 0.
Definition TEEC_VALUE_INOUT : Z := 3.
(** The client library's macro is laid out as the internal one. *)
Definition TEEC_PARAM_TYPES : Z → Z → Z → Z → Z := TEE_PARAM_TYPES.

Definition callback (r : row) : Z := 0.

Definition SELECTS : nat := Z.to_nat 1000.

Section host.
Context {O : Type} `{Sys hostcall O}.

Definition sql {A} (c : sqlcall A) : C O A := sys (HSql c).

(** [for (int i = 0; i < 1000; i++)].  The callback is passed as the argument of the
    callback, which is NULL. *)
Fixpoint select_loop (todo : nat) (db : Z) : C O (life unit) :=
  match todo with
  | 0%nat => ret (Goes tt)
  | S todo =>
      let! '(rc, err_msg) := sql (SqExec db "select * from Cars;" None (Some callback)) in
      if decide (rc ≠ SQLITE_OK) then
        do! sql (SqFree err_msg) in
        do! sql (SqClose db) in
        exit 1
      else select_loop todo db
  end.

(** [main] up to the TEE client library. *)
Definition time_sqlite : C O (life unit) :=
  let! t1 := sys HTime in
  let! '(rc, db) := sql (SqOpen (chars "/tmp/test2.db")) in
  if decide (rc ≠ SQLITE_OK) then
    do! sql (SqErrmsg db) in
    do! sql (SqClose db) in
    exit 1
  else
    let! '(rc, err_msg) := sql (SqExec db
      ("DROP TABLE IF EXISTS Cars;" +:+ "CREATE TABLE Cars(Id INT, Name TEXT, Price INT);") None None) in
    if decide (rc ≠ SQLITE_OK) then
      do! sql (SqFree err_msg) in
      do! sql (SqClose db) in
      exit 1
    else
      do! sql (SqClose db) in
      let! t2 := sys HTime in
      let! t1 := sys HTime in
      let! '(rc, db) := sql (SqOpen (chars "/tmp/test2.db")) in
      live! r := select_loop SELECTS db in
      do! sql (SqClose db) in
      let! t2 := sys HTime in
      ret (Goes tt).

(** The rest: [errx(1, ...)] ends the process. *)
Definition call_ta : C O (life unit) :=
  let! res := sys TEEC_InitializeContext in
  if decide (res ≠ TEEC_SUCCESS) then exit 1
  else
    let! res := sys (TEEC_OpenSession TEEC_LOGIN_PUBLIC) in
    if decide (res ≠ TEEC_SUCCESS) then exit 1
    else
      let op := Operation (TEEC_PARAM_TYPES TEEC_VALUE_INOUT TEEC_NONE TEEC_NONE TEEC_NONE)
                          (Params (42, 0) (0, 0) (0, 0) (0, 0)) in
      do! sys (HPrintValue (par0 (op_params op)).1) in
      let! '(res, op) := sys (TEEC_InvokeCommand TA_TEE_SQLITE_EXEC op) in
      if decide (res ≠ TEEC_SUCCESS) then exit 1
      else
        do! sys (HPrintValue (par0 (op_params op)).1) in
        do! sys TEEC_CloseSession in
        do! sys TEEC_FinalizeContext in
        exit 0.

Definition main : C O (life unit) := live! r := time_sqlite in call_ta.
End host.

(** ** What a run says *)

Definition sql_event (e : event hostcall) : option (event sqlcall) :=
  let (A, c, a) := e in
  match c in hostcall A return A → option (event sqlcall) with
  | HSql c => λ a, Some (Event c a)
  | _ => λ _, None
  end a.

Definition printed (e : event hostcall) : option Z :=
  let (A, c, a) := e in match c with HPrintValue v => Some v | _ => None end.

(** A command that was invoked, and its outcome. *)
Definition invoked (e : event hostcall) : option (Z * TEEC_Operation * (Z * TEEC_Operation)) :=
  let (A, c, a) := e in
  match c in hostcall A return A → option (Z * TEEC_Operation * (Z * TEEC_Operation)) with
  | TEEC_InvokeCommand cmd op => λ r, Some (cmd, op, r)
  | _ => λ _, None
  end a.

(** The TEE client library: what is open, and what may be called. *)
Inductive teec_state : Type := NoContext | NoSession | InSession.
#[export] Instance teec_state_eq_dec : EqDecision teec_state.
Proof. solve_decision. Defined.

Definition teec_after (e : event hostcall) (s : option teec_state) : option teec_state :=
  let (A, c, a) := e in
  match c in hostcall A return A → option teec_state with
  | TEEC_InitializeContext => λ r,
      if decide (s = Some NoContext) then Some (if decide (r = TEEC_SUCCESS) then NoSession else NoContext) else None
  | TEEC_OpenSession _ => λ r,
      if decide (s = Some NoSession) then Some (if decide (r = TEEC_SUCCESS) then InSession else NoSession) else None
  | TEEC_InvokeCommand _ _ => λ _, if decide (s = Some InSession) then s else None
  | TEEC_CloseSession => λ _, if decide (s = Some InSession) then Some NoSession else None
  | TEEC_FinalizeContext => λ _, if decide (s = Some NoSession) then Some NoContext else None
  | _ => λ _, s
  end a.

Definition teec_run (new : list (event hostcall)) (s s' : teec_state) : Prop :=
  foldr teec_after (Some s) new = Some s'.

Lemma teec_run_app n1 n2 s1 s2 s3 : teec_run n1 s1 s2 → teec_run n2 s2 s3 → teec_run (n2 ++ n1) s1 s3.
Proof. unfold teec_run. intros H1 H2. by rewrite foldr_app, H1. Qed.

(** A run of SQL calls only: it leaves nothing in SQLite, prints nothing and does
    not touch the TEE. *)
Definition sql_only (new : list (event hostcall)) : Prop :=
  (∀ h, leads (omap sql_event new) h h) ∧ omap printed new = [] ∧ ∀ s, teec_run new s s.

Ltac teec_go :=
  unfold teec_run; cbn [foldr teec_after];
  repeat first [rewrite decide_True by done | rewrite decide_False by done
    | match goal with Hn : ¬ (_ ≠ _) |- _ => apply dec_stable in Hn; rewrite Hn end];
  reflexivity.

Section runs.
Context {O : Type} `{Sys hostcall O}.

(** The loop leaves its connection open unless it ends the process. *)
Lemma select_loop_does todo db :
  does (O:=O) (select_loop todo db) (λ r new,
    (∀ h, leads (omap sql_event new) (Held (db :: connections h) (messages h))
            (match r with Exits _ => h | Goes _ => Held (db :: connections h) (messages h) end)) ∧
    (∀ s, r = Exits s → s = 1) ∧ omap printed new = [] ∧ ∀ s, teec_run new s s).
Proof.
  induction todo as [|todo IH]; cbn [select_loop].
  { apply does_ret. split_and!; try done. }
  unfold sql. walk.
  - split_and!; try done.
    + intros [cs ms]. cbn [omap list_omap sql_event app connections messages]. leads_run.
    + by intros s [= <-].
  - eapply does_weaken; [exact IH|]. intros r n2 (Hl & Hs & Hp & Ht). split_and!; [|done| |].
    + intros h. rewrite omap_app. eapply leads_app; [|apply Hl]. destruct h as [cs ms].
      cbn [omap list_omap sql_event app connections messages]. leads_run.
    + by rewrite omap_app, Hp.
    + intros s. by apply teec_run_app with s.
Qed.
(** Timing SQLite leaves nothing behind, whether it ends the process or not. *)
Lemma time_sqlite_does :
  does (O:=O) time_sqlite (λ r new, sql_only new ∧ ∀ s, r = Exits s → s = 1).
Proof.
  unfold time_sqlite, sql. walk.
  1,2: split; [split_and!; try done; intros [cs ms]; cbn [omap list_omap sql_event app]; leads_run|by intros s [= <-]].
  rename z4 into db. eapply does_bind; [apply (select_loop_does SELECTS db)|].
  intros [s|[]] n2 (Hl & Hs & Hp & Ht); walk; cbn [app].
  all: rewrite <- ?(assoc_L (++)); cbn [app].
  all: match goal with |- context [_ ++ ?l] => set (pre := l) end.
  all: assert (∀ cs ms, leads (omap sql_event pre) (Held cs ms) (Held (db :: cs) ms)) as Hpre
    by (intros cs ms; unfold pre; cbn [omap list_omap sql_event]; leads_run).
  - split; [|by intros ? [= <-]; apply Hs]. split_and!.
    + intros [cs ms]. rewrite omap_app. eapply leads_app; [apply Hpre|apply (Hl (Held cs ms))].
    + by rewrite omap_app, Hp.
    + intros t. by apply teec_run_app with t.
  - split; [|done]. split_and!.
    + intros [cs ms]. cbn [omap list_omap sql_event]. rewrite omap_app. eapply leads_cons.
      * eapply leads_app; [apply Hpre|apply (Hl (Held cs ms))].
      * cbn [held_after connections messages mbind option_bind]. by rewrite remove_opened.
    + cbn [omap list_omap printed]. by rewrite omap_app, Hp.
    + intros t. unfold teec_run. cbn [foldr teec_after]. by apply (teec_run_app pre n2 t t t).
Qed.

(** What [call_ta] does. *)
Lemma call_ta_does :
  does (O:=O) call_ta (λ r new, omap sql_event new = [] ∧
    (r = Exits 1 ∧ (∃ s, teec_run new NoContext s) ∨
     ∃ op', r = Exits 0 ∧ teec_run new NoContext NoContext ∧
       (TA_TEE_SQLITE_EXEC, Operation TEE_EXEC_TYPES (Params (42, 0) (0, 0) (0, 0) (0, 0)),
        (TEEC_SUCCESS, op')) ∈ omap invoked new ∧
       omap printed new = [(par0 (op_params op')).1; 42])).
Proof.
  unfold call_ta. walk; cbn [app omap list_omap sql_event printed]; (split; [done|]).
  1,2: by left; split; [done|]; eexists; teec_go.
  - left. split; [done|]. exists InSession. teec_go.
  - right. eexists. split; [done|]. split; [teec_go|]. split; [|done].
    repeat match goal with Hn : ¬ (_ ≠ _) |- _ => apply dec_stable in Hn end. subst.
    apply list_elem_of_here.
Qed.

(** All of [main]. *)
Lemma main_does :
  does (O:=O) main (λ r new, (∀ h, leads (omap sql_event new) h h) ∧
    (r = Exits 1 ∧ (∃ s, teec_run new NoContext s) ∨
     ∃ op', r = Exits 0 ∧ teec_run new NoContext NoContext ∧
       (TA_TEE_SQLITE_EXEC, Operation TEE_EXEC_TYPES (Params (42, 0) (0, 0) (0, 0) (0, 0)),
        (TEEC_SUCCESS, op')) ∈ omap invoked new ∧
       omap printed new = [(par0 (op_params op')).1; 42])).
Proof.
  unfold main. eapply does_and_then; [apply time_sqlite_does| |].
  - intros s n ((Hl & Hp & Ht) & Hs). split; [done|]. left. rewrite (Hs s eq_refl). split; [done|]. by eexists.
  - intros [] n1 ((Hl & Hp & Ht) & _). eapply does_weaken; [apply call_ta_does|].
    intros r n2 (Hs & Hr). rewrite omap_app, Hs. split; [done|].
    destruct Hr as [(-> & s & Hr)|(op' & -> & Hr & Hin & Hpr)]; [left|right].
    + split; [done|]. exists s. by apply teec_run_app with NoContext.
    + exists op'. split; [done|]. split; [by apply teec_run_app with NoContext|].
      split; [rewrite omap_app; apply elem_of_app; by left|]. by rewrite omap_app, Hpr, Hp.
Qed.
End runs.

(** ** Properties *)
Section properties.
Context {O : Type} `{Sys hostcall O} {T : Type} `{Sys sqlcall T}.

(** The host application leaves nothing behind.  Whatever SQLite and the TEE
    answer, [main] ends; every connection it opened has been closed once, every
    message freed once, and none is used when it is not open; the functions of the
    TEE client library are called in an order it allows; and when the status is 0,
    the session is closed and the context finalized. *)
Theorem host_leaves_nothing :
  does (O:=O) main (λ r new, (∀ h, leads (omap sql_event new) h h) ∧
    (r = Exits 0 ∧ teec_run new NoContext NoContext ∨ r = Exits 1 ∧ ∃ s, teec_run new NoContext s)).
Proof.
  eapply does_weaken; [apply main_does|]. intros r new (Hl & [?|(op' & ? & ? & _)]); split; [done|by right|done|by left].
Qed.

(** The host prints the number it sent.  When [TEEC_InvokeCommand] succeeds only
    if the application's entry point did, whatever [sqlite3_key] it has, with the
    parameters it left, then a run of the host that ends with status 0 prints 42 as
    the number to increment and 42 as the number incremented: [exec] does not change
    it. *)
Theorem host_prints_what_it_sent (sqlite3_key : Z → bytes → Z → C T Z) (w : O) t :
  (∀ cmd op op', (cmd, op, (TEEC_SUCCESS, op')) ∈ omap invoked (trace t) →
     ∃ o o' : T, TA_InvokeCommandEntryPoint sqlite3_key cmd (paramTypes op) (op_params op) o = Ret ((TEE_SUCCESS, op_params op'), o')) →
  main (Traced [] w) = Ret (Exits 0, t) →
  omap printed (trace t) = [42; 42].
Proof.
  intros Hta E. destruct (does_run _ _ _ _ _ main_does E) as (new & Ht & _ & [[[=] _]|(op' & _ & _ & Hin & Hp)]).
  simpl in Ht. rewrite app_nil_r in Ht. rewrite Ht in *. rewrite Hp.
  destruct (Hta _ _ _ Hin) as (o & o' & Ei). unfold TA_InvokeCommandEntryPoint in Ei.
  rewrite decide_True in Ei by done. destruct (exec_result sqlite3_key o) as [[Eu _]|(r & o2 & _ & Ee)]; [by rewrite Eu in Ei|].
  rewrite Ee in Ei. injection Ei as _ <- _. done.
Qed.
End properties.

(** ** A run

SQLite succeeds at everything; the client library calls the application. *)
Module Running.

#[export] Instance ok_sqlite : Sys sqlcall unit :=
  λ A c o, (match c in sqlcall A return A with
            | SqOpen _ => (SQLITE_OK, 7)
            | SqExec _ _ _ _ => (SQLITE_OK, NULL)
            | SqErrmsg _ => tt
            | SqFree _ => tt
            | SqClose _ => SQLITE_OK
            | SqTime => 100
            end, o).

#[export] Instance ok_host : Sys hostcall unit :=
  λ A c o, (match c in hostcall A return A with
            | HSql c => (sys_run c o).1
            | HTime => 100
            | TEEC_InitializeContext => TEEC_SUCCESS
            | TEEC_OpenSession _ => TEEC_SUCCESS
            | TEEC_InvokeCommand cmd op =>
                match TA_InvokeCommandEntryPoint (λ _ _ _, ret SQLITE_OK) cmd (paramTypes op) (op_params op) o with
                | Ret ((r, ps), _) => (r, Operation (paramTypes op) ps)
                | Undef => (1, op)
                end
            | TEEC_CloseSession => tt
            | TEEC_FinalizeContext => tt
            | HPrintValue _ => tt
            end, o).

Lemma host_prints_what_it_sent_witness :
  ∃ t, main (Traced [] tt) = Ret (Exits 0, t) ∧ omap printed (trace t) = [42; 42].
Proof.
  destruct (main (Traced [] tt)) as [[r t]|] eqn:E; [|by vm_compute in E].
  assert (r = Exits 0) as -> by (vm_compute in E; by injection E as <- _).
  exists t. split; [done|]. apply (host_prints_what_it_sent (T:=unit) (λ _ _ _, ret SQLITE_OK) tt t); [|exact E].
  assert (omap invoked (trace t) =
    [(0, Operation 3 (Params (42, 0) (0, 0) (0, 0) (0, 0)), (0, Operation 3 (Params (42, 0) (0, 0) (0, 0) (0, 0))))])
    as -> by (vm_compute in E; injection E as <-; reflexivity).
  intros cmd op op' [= -> -> ->]%list_elem_of_singleton. by exists tt, tt.
Defined.
End Running.
