(* ===== verification/HashMap.v ===== *)
(** * The hash map of authentication tags

Models optee_examples/tee_sqilte/ta/hashmap.c over the memory of [CMem].  A
bucket is the list of the nodes its pointer leads to; a node keeps the address
it was allocated at, the pointer to its key and the pointer to its value, which
are the caller's.  Keys are read and written in memory, because every lookup
assigns to the caller's key: the tests are [if ( *key = *(list->key))].

[TeeMalloc] decides when [TEE_Malloc] and [TEE_Realloc] fail.  The array of
buckets has [size] entries here; an index beyond them reads memory the map never
initialised, or outside the array, and is undefined behaviour. *)
From S2P Require Import Prelude CMem Heap TaLog UteeVfs.
From Stdlib Require Import SpecFloat.
#[local] Open Scope Z_scope.
#[local] Open Scope c_scope.

(** ** Memory of the trusted application *)

(** Whether an allocation of so many bytes fails. *)
Class TeeMalloc : Type := tee_oom : mem → Z → bool.

Section malloc.
Context `{TeeMalloc}.

Definition TEE_Malloc (n : Z) : C mem ptr :=
  λ m, if tee_oom m n then Ret (NULL, m) else alloc Heap (replicate (Z.to_nat n) 0) m.

Definition TEE_Free (p : ptr) : C mem unit := free p.

(** The block moves; [NULL] leaves it where it is. *)
Definition TEE_Realloc (p : ptr) (n : Z) : C mem ptr :=
  λ m, if tee_oom m n then Ret (NULL, m)
       else (let! q := alloc Heap (replicate (Z.to_nat n) 0) in do! free p in ret q) m.
End malloc.

(** ** Data *)

Record item : Type := Item { i_ptr : ptr; i_key : ptr; i_value : ptr }.

Record hashmap : Type := HashMap {
  h_ptr : ptr;
  h_items_ptr : ptr;
  h_items : list (list item);
  h_count : Z;
  h_size : Z;
  h_load_factor : spec_float;
  h_hash_step : Z
}.

Definition set_items (h : hashmap) (l : list (list item)) : hashmap :=
  HashMap (h_ptr h) (h_items_ptr h) l (h_count h) (h_size h) (h_load_factor h) (h_hash_step h).
Definition set_count (h : hashmap) (c : Z) : hashmap :=
  HashMap (h_ptr h) (h_items_ptr h) (h_items h) c (h_size h) (h_load_factor h) (h_hash_step h).

Definition sizeof_item : Z := 24.
Definition sizeof_int : Z := 4.
Definition sizeof_void_ptr : Z := 8.
Definition sizeof_hashmap : Z := 24.

Definition SUCCESS : Z := 1.
Definition FAIL : Z := 0.

Definition sizes : list Z :=
  [5; 13; 23; 47; 97; 193; 383; 769; 1531; 3067; 6143; 12289; 24571; 49157; 98299; 196613;
   393241; 786547; 1573111; 1668053; 1805579; 1868527; 1999993].

(** [float] arithmetic, rounded to nearest even. *)
Definition float_of (z : Z) : spec_float := binary_normalize 24 128 z 0 false.
Definition overloaded (count size : Z) (load_factor : spec_float) : bool :=
  SFltb load_factor (SFdiv 24 128 (float_of count) (float_of size)).

(** ** Operations *)

(** The hash of a key is the key, as an [unsigned int]. *)
Definition hash (key : ptr) : C mem Z := let! k := load_int key in ret (u32 k).

Fixpoint next_size_in (l : list Z) (size : Z) : Z :=
  match l with
  | [] => u32 (size * 2)
  | s :: l => if decide (s > size) then s else next_size_in l size
  end.
Definition next_size (size : Z) : Z := next_size_in sizes size.

(** [*key = *(list->key)]: the value assigned, which is also the condition. *)
Definition assign_key (key from : ptr) : C mem Z :=
  let! k := load_int from in
  do! store_int key k in
  ret k.

Section operations.
Context `{TeeMalloc}.

(** The bucket after the call, and what is added to [*count]. *)
Fixpoint set_item (l : list item) (key value : ptr) : C mem (list item * Z) :=
  if decide (key = NULL) then ret ([], 0)
  else
    match l with
    | [] =>
        let! temp := TEE_Malloc sizeof_item in
        if decide (temp = NULL) then ret ([], 0)
        else
          let! temp_key := TEE_Malloc sizeof_int in
          if decide (temp_key = NULL) then ret ([], 0)
          else ret ([Item temp key value], 1)
    | it :: l =>
        let! k := assign_key key (i_key it) in
        if decide (k ≠ 0) then
          if decide (i_value it ≠ value) then
            do! TEE_Free (i_value it) in
            ret (Item (i_ptr it) (i_key it) value :: l, 0)
          else ret (it :: l, 0)
        else
          let! '(l, count) := set_item l key value in
          ret (it :: l, count)
    end.

Fixpoint get_item (l : list item) (key : ptr) : C mem (option item) :=
  match l with
  | [] => ret None
  | it :: l =>
      let! k := assign_key key (i_key it) in
      if decide (k ≠ 0) then ret (Some it) else get_item l key
  end.

Fixpoint remove_item (l : list item) (key : ptr) : C mem (list item * Z) :=
  match l with
  | [] => ret ([], 0)
  | it :: l =>
      let! k := assign_key key (i_key it) in
      if decide (k ≠ 0) then
        do! TEE_Free (i_key it) in
        do! TEE_Free (i_value it) in
        do! TEE_Free (i_ptr it) in
        ret (l, -1)
      else
        let! '(l, count) := remove_item l key in
        ret (it :: l, count)
  end.

(** From the last node to the first. *)
Fixpoint remove_items (l : list item) (free_value : option (ptr → C mem unit)) (count : Z)
    : C mem Z :=
  match l with
  | [] => ret count
  | it :: l =>
      let! count := (match l with [] => ret count | _ => remove_items l free_value count end) in
      do! TEE_Free (i_key it) in
      do! (match free_value with Some f => f (i_value it) | None => TEE_Free (i_value it) end) in
      do! TEE_Free (i_ptr it) in
      ret (count - 1)
  end.

Fixpoint key_exists (l : list item) (key : ptr) : C mem Z :=
  match l with
  | [] => ret 0
  | it :: l =>
      let! k := assign_key key (i_key it) in
      if decide (k ≠ 0) then ret 1 else key_exists l key
  end.

Fixpoint update_item_list (l : list item) (mtch : item) : C mem (list item) :=
  match l with
  | [] => ret [mtch]
  | it :: l =>
      let! k := assign_key (i_key mtch) (i_key it) in
      if decide (k ≠ 0) then ret (it :: l)
      else match l with
           | [] => ret [it; mtch]
           | _ => let! l := update_item_list l mtch in ret (it :: l)
           end
  end.

(** The map, or [NULL].  The loop that clears the buckets counts in an [int]. *)
Definition hm_create (size : Z) (load_factor : spec_float) (hash_step : Z)
    : C mem (option hashmap) :=
  let new_size := next_size size in
  let! map := TEE_Malloc sizeof_hashmap in
  if decide (map = NULL) then ret None
  else
    let! items := TEE_Malloc (sizeof_void_ptr * new_size) in
    if decide (items = NULL) then ret None
    else
      do! c_assert (bool_decide (new_size < 2 ^ 31)) in
      ret (Some (HashMap map items (replicate (Z.to_nat new_size) []) 0 new_size
                   load_factor hash_step)).

(** [while (temp != NULL)] over the nodes a bucket had. *)
Fixpoint rehash_list (temp : list item) (items : list (list item)) : C mem (list (list item)) :=
  match temp with
  | [] => ret items
  | it :: temp =>
      let! index := hash (i_key it) in
      let! l := lift (items !! Z.to_nat index) in
      let! l := update_item_list l it in
      rehash_list temp (<[Z.to_nat index := l]> items)
  end.

(** [for (i = 0; i < map->size; i++)] with [todo] buckets left. *)
Fixpoint rehash_buckets (todo i : nat) (items : list (list item)) : C mem (list (list item)) :=
  match todo with
  | O => ret items
  | S todo =>
      let! temp := lift (items !! i) in
      let! items := rehash_list temp (<[i := []]> items) in
      rehash_buckets todo (S i) items
  end.

Definition hm_rehash (map : hashmap) (new_size : Z) : C mem hashmap :=
  if decide (new_size < h_size map) then ret map
  else
    let! p := TEE_Realloc (h_items_ptr map) (sizeof_item * new_size) in
    if decide (p = NULL) then
      ret (HashMap (h_ptr map) NULL [] (h_count map) (h_size map) (h_load_factor map)
             (h_hash_step map))
    else
      let items := h_items map ++ replicate (Z.to_nat (new_size - h_size map)) [] in
      let! items := rehash_buckets (Z.to_nat (h_size map)) 0 items in
      ret (HashMap (h_ptr map) p items (h_count map) new_size (h_load_factor map)
             (h_hash_step map)).

Fixpoint clear_buckets (todo i : nat) (map : hashmap) (free_value : option (ptr → C mem unit))
    (counter : Z) : C mem (hashmap * Z) :=
  match todo with
  | O => ret (map, counter)
  | S todo =>
      let! l := lift (h_items map !! i) in
      let! counter := remove_items l free_value counter in
      clear_buckets todo (S i) (set_items map (<[i := []]> (h_items map))) free_value counter
  end.

Definition hm_clear (map : hashmap) (free_value : option (ptr → C mem unit)) : C mem (Z * hashmap) :=
  let! '(map, counter) := clear_buckets (Z.to_nat (h_size map)) 0 map free_value 0 in
  ret (SUCCESS, set_count map (u32 (h_count map + counter))).

Definition hm_delete (map : hashmap) (free_value : option (ptr → C mem unit)) : C mem Z :=
  let! '(_, map) := hm_clear map free_value in
  do! TEE_Free (h_items_ptr map) in
  do! TEE_Free (h_ptr map) in
  ret SUCCESS.

Definition hm_get (map : hashmap) (key : ptr) : C mem ptr :=
  if decide (key = NULL) then ret NULL
  else
    let! index := hash key in
    let! l := lift (h_items map !! Z.to_nat index) in
    let! temp := get_item l key in
    ret (match temp with None => NULL | Some it => i_value it end).

Definition hm_set (map : hashmap) (key value : ptr) : C mem (Z * hashmap) :=
  if decide (key = NULL) then ret (FAIL, map)
  else
    let! index := hash key in
    let! l := lift (h_items map !! Z.to_nat index) in
    let! '(l, counter) := set_item l key value in
    let map := set_items map (<[Z.to_nat index := l]> (h_items map)) in
    let map := set_count map (u32 (h_count map + counter)) in
    if overloaded (h_count map) (h_size map) (h_load_factor map) then
      let! map := hm_rehash map (next_size (h_size map)) in
      ret (SUCCESS, map)
    else ret (SUCCESS, map).

Definition hm_unset (map : hashmap) (key : ptr) : C mem (Z * hashmap) :=
  let! index := hash key in
  let! l := lift (h_items map !! Z.to_nat index) in
  let! '(l, counter) := remove_item l key in
  let map := set_items map (<[Z.to_nat index := l]> (h_items map)) in
  ret (SUCCESS, set_count map (u32 (h_count map + counter))).

Definition hm_isset (map : hashmap) (key : ptr) : C mem Z :=
  let! index := hash key in
  let! l := lift (h_items map !! Z.to_nat index) in
  key_exists l key.
End operations.

(** *** Writing the map to a file *)
Section dump.
Context {W : Type} `{UteeVfs W, TaLog}.

(** [utee_vfs_write(fd, p, n)] *)
Definition write_from (fd : Z) (p : ptr) (n : Z) : C (mem * W) Z :=
  let! bs := in_heap (load p n) in
  in_world (utee_vfs_write fd bs).

(** A callback, [NULL] or a function of the node. *)
Definition callback : Type := option (Z → ptr → ptr → C (mem * W) unit).

Fixpoint dump_list (l : list item) (output : Z) (to_string : callback) : C (mem * W) unit :=
  match l with
  | [] => ret tt
  | temp :: l =>
      do! in_heap (IMSG_string (i_value temp)) in
      do! write_from output (i_key temp) sizeof_int in
      do! write_from output (i_value temp) 16 in
      do! (match to_string with Some f => f output (i_key temp) (i_value temp) | None => ret tt end) in
      dump_list l output to_string
  end.

(** [for (i = 0; i < map->size; i++)] with [todo] buckets left. *)
Fixpoint dump_buckets (todo i : nat) (map : hashmap) (output : Z) (to_string : callback)
    : C (mem * W) unit :=
  match todo with
  | O => ret tt
  | S todo =>
      let! l := lift (h_items map !! i) in
      do! dump_list l output to_string in
      dump_buckets todo (S i) map output to_string
  end.

Definition hm_dump (map : hashmap) (output : Z) (to_string : callback) : C (mem * W) unit :=
  if decide (h_count map = 0) then ret tt
  else dump_buckets (Z.to_nat (h_size map)) 0 map output to_string.

Fixpoint print_list (l : list item) (output : Z) (f : Z → ptr → ptr → C (mem * W) unit)
    : C (mem * W) unit :=
  match l with
  | [] => ret tt
  | temp :: l => do! f output (i_key temp) (i_value temp) in print_list l output f
  end.

Fixpoint print_buckets (todo i : nat) (map : hashmap) (output : Z)
    (f : Z → ptr → ptr → C (mem * W) unit) : C (mem * W) unit :=
  match todo with
  | O => ret tt
  | S todo =>
      let! l := lift (h_items map !! i) in
      do! print_list l output f in
      print_buckets todo (S i) map output f
  end.

Definition hm_print (map : hashmap) (output : Z) (to_string : callback) : C (mem * W) unit :=
  match to_string with
  | None => ret tt
  | Some f => print_buckets (Z.to_nat (h_size map)) 0 map output f
  end.
End dump.

(** * The map as a finite map

[holds_int m p k]: the four bytes at [p] are those of the [int] [k].
[hm_repr h m M]: the map stores exactly the entries of [M].  The key is the
index, so a bucket holds one node or none; bucket 0 is the exception, since a
key 0 never matches: it holds any number of nodes that nothing finds.  The array
of buckets is a block of its own. *)
Definition holds_int (m : mem) (p : ptr) (k : Z) : Prop :=
  peek m p 4 = Some (le_bytes 4 (u32 k)) ∧ in_signed 32 k.

Definition bucket_ok (m : mem) (M : gmap Z ptr) (k : Z) (l : list item) : Prop :=
  match l with
  | [] => M !! k = None
  | [it] => holds_int m (i_key it) k ∧ M !! k = Some (i_value it)
  | _ => False
  end.

Record hm_repr (h : hashmap) (m : mem) (M : gmap Z ptr) : Prop := {
  repr_size : 0 < h_size h < 2 ^ 32 ∧ length (h_items h) = Z.to_nat (h_size h);
  repr_zero : ∃ l, h_items h !! 0%nat = Some l ∧ Forall (λ it, holds_int m (i_key it) 0) l;
  repr_bucket k l : (0 < k)%nat → h_items h !! k = Some l → bucket_ok m M (Z.of_nat k) l;
  repr_dom k v : M !! k = Some v → 0 < k < h_size h;
  repr_array : ∃ b d, h_items_ptr h = Ptr b 0 ∧ m_blocks m !! b = Some (Block Heap d) ∧
    ∀ i l it, h_items h !! i = Some l → it ∈ l → ∀ o, i_key it ≠ Ptr b o
}.

(** ** Lemmas *)

(** Any operation of the map that reaches memory through [m] leaves the [int]s
    of [m] in place. *)
Definition keeps_ints (m m' : mem) : Prop := ∀ p k, holds_int m p k → holds_int m' p k.

#[export] Instance keeps_ints_preorder : PreOrder keeps_ints.
Proof. split; [by intros m p k|]. intros m1 m2 m3 H1 H2 p k Hp. by apply H2, H1. Qed.

Lemma load_int_run m p k : holds_int m p k → load_int p m = Ret (k, m).
Proof.
  intros [Hp Hk]. unfold load_int, lift, peek_int. rewrite Hp. cbn [fmap option_fmap option_map].
  rewrite le_val_4. change (_ `mod` 2 ^ 32) with (u32 (u32 k)).
  by rewrite signed_unsigned, signed_unsigned_id by (done || lia).
Qed.

Lemma hash_run m p k : holds_int m p k → hash p m = Ret (u32 k, m).
Proof. intros Hp. unfold hash. by rewrite (bind_run _ _ _ _ _ (load_int_run _ _ _ Hp)). Qed.

(** Assigning a key its own value changes nothing. *)
Lemma assign_key_run m key from k :
  holds_int m key k → holds_int m from k → assign_key key from m = Ret (k, m).
Proof.
  intros [Hk ?] Hf. unfold assign_key. rewrite (bind_run _ _ _ _ _ (load_int_run _ _ _ Hf)).
  unfold bind, store_int, store, update. rewrite (poke_same key); [done|].
  by rewrite length_le_bytes.
Qed.

Lemma u32_index k : 0 ≤ k < 2 ^ 31 → u32 k = k.
Proof. intros. apply unsigned_id. unfold in_unsigned. lia. Qed.

Section lookups.
Implicit Types (h : hashmap) (m : mem) (M : gmap Z ptr) (l : list item).

(** The bucket a key selects. *)
Lemma repr_lookup h m M k :
  hm_repr h m M → 0 ≤ k < h_size h → ∃ l, h_items h !! Z.to_nat k = Some l.
Proof.
  intros Hr Hk. destruct (repr_size _ _ _ Hr) as [_ Hl].
  destruct (h_items h !! Z.to_nat k) eqn:E; [eauto|]. apply lookup_ge_None in E. lia.
Qed.

Lemma get_item_zero m l key :
  holds_int m key 0 → Forall (λ it, holds_int m (i_key it) 0) l → get_item l key m = Ret (None, m).
Proof.
  intros Hk Hl. induction Hl as [|it l Hit _ IH]; [done|]. simpl.
  rewrite (bind_run _ _ _ _ _ (assign_key_run _ _ _ _ Hk Hit)). by rewrite decide_False by naive_solver.
Qed.

Lemma hm_get_run h m M key k :
  hm_repr h m M → holds_int m key k → 0 ≤ k < h_size h →
  hm_get h key m = Ret (default NULL (M !! k), m).
Proof.
  intros Hr Hk Hrange. unfold hm_get. destruct (repr_size _ _ _ Hr) as [[_ Hs] _].
  rewrite decide_False by by intros ->; destruct Hk.
  rewrite (bind_run _ _ _ _ _ (hash_run _ _ _ Hk)), u32_index by (destruct Hk as [_ Hk]; unfold in_signed in Hk; lia).
  destruct (repr_lookup _ _ _ _ Hr Hrange) as [l Hl]. unfold bind at 1, lift. rewrite Hl.
  destruct (decide (k = 0)) as [->|Hk0].
  - destruct (repr_zero _ _ _ Hr) as (l0 & Hl0 & Hz).
    change (Z.to_nat 0) with 0%nat in Hl. rewrite Hl0 in Hl. injection Hl as <-. simpl.
    rewrite (bind_run _ _ _ _ _ (get_item_zero _ _ _ Hk Hz)).
    destruct (M !! 0) as [v|] eqn:E; [|done]. apply (repr_dom _ _ _ Hr) in E. lia.
  - pose proof (repr_bucket _ _ _ Hr (Z.to_nat k) l ltac:(lia) Hl) as Hb.
    rewrite Z2Nat.id in Hb by lia. destruct l as [|it [|? ?]]; simpl in Hb; [by rewrite Hb| |done].
    destruct Hb as [Hit Hv]. simpl. unfold bind at 1.
    rewrite (bind_run _ _ _ _ _ (assign_key_run _ _ _ _ Hk Hit)).
    rewrite decide_True by done. by rewrite Hv.
Qed.
End lookups.

(** *** Memory the map's operations leave alone *)

(** [extends a m m']: what could be read in [m] reads the same in [m'], outside
    block [a]. *)
Definition extends (a : Z) (m m' : mem) : Prop :=
  ∀ b o n bs, b ≠ a → peek m (Ptr b o) n = Some bs → peek m' (Ptr b o) n = Some bs.

#[export] Instance extends_preorder a : PreOrder (extends a).
Proof. split; [by intros m b o n bs|]. intros m1 m2 m3 H1 H2 b o n bs Hb Hp. eauto. Qed.

Lemma extends_holds a m m' p k :
  extends a m m' → (∀ o, p ≠ Ptr a o) → holds_int m p k → holds_int m' p k.
Proof.
  intros He Hp [Hk ?]. split; [|done]. destruct p as [|b o]; [done|].
  apply He; [|done]. intros ->. by apply (Hp o).
Qed.

Section no_oom.
Context `{TeeMalloc}.
Hypothesis memory : ∀ m n, tee_oom m n = false.

Lemma malloc_run n m :
  mem_wf m →
  ∃ m', TEE_Malloc n m = Ret (Ptr (m_next m) 0, m') ∧ mem_wf m' ∧ (∀ a, extends a m m') ∧
    m_next m' = m_next m + 1 ∧
    m_blocks m' = <[m_next m := Block Heap (replicate (Z.to_nat n) 0)]> (m_blocks m).
Proof.
  intros Hwf. exists (Mem (m_next m + 1) (<[m_next m := Block Heap (replicate (Z.to_nat n) 0)]> (m_blocks m))).
  unfold TEE_Malloc. rewrite memory. split; [reflexivity|].
  split; [by apply mem_wf_alloc|]. split; [|done].
  intros a b o k bs _ Hp. exact (peek_alloc_old m Heap _ _ _ _ Hwf Hp).
Qed.

Lemma realloc_run b d n m :
  mem_wf m → m_blocks m !! b = Some (Block Heap d) →
  ∃ m' d', TEE_Realloc (Ptr b 0) n m = Ret (Ptr (m_next m) 0, m') ∧ mem_wf m' ∧ extends b m m' ∧
    m_blocks m' !! m_next m = Some (Block Heap d').
Proof.
  intros Hwf Hb. unfold TEE_Realloc. rewrite memory. set (d' := replicate (Z.to_nat n) 0).
  assert (b ≠ m_next m) as Hne by by intros ->; rewrite (mem_wf_fresh m Hwf) in Hb.
  set (m1 := Mem (m_next m + 1) (<[m_next m := Block Heap d']> (m_blocks m))).
  assert (release (Ptr b 0) m1 = Some (Mem (m_next m1) (delete b (m_blocks m1)))) as Hrel.
  { unfold release, m1. cbn [m_blocks]. rewrite lookup_insert_ne by done. by rewrite Hb. }
  exists (Mem (m_next m1) (delete b (m_blocks m1))), d'. split_and!.
  - erewrite bind_run by reflexivity. erewrite bind_run; [reflexivity|].
    unfold free, update. fold m1. by rewrite Hrel.
  - eapply mem_wf_release; [|exact Hrel]. by apply mem_wf_alloc.
  - intros c o k bs Hc Hp. eapply (peek_alloc_old m Heap d' _ _ _ Hwf) in Hp. fold m1 in Hp.
    unfold peek. cbn [m_blocks]. by rewrite lookup_delete_ne.
  - cbn [m_blocks m1]. rewrite lookup_delete_ne, lookup_insert_eq by done. done.
Qed.

(** *** Rehashing *)

Definition keys_hold (m : mem) (k : Z) (l : list item) : Prop :=
  Forall (λ it, holds_int m (i_key it) k) l.

Lemma update_item_list_zero l it m :
  keys_hold m 0 (it :: l) → update_item_list l it m = Ret (l ++ [it], m).
Proof.
  intros [Hit Hl]%Forall_cons. induction Hl as [|x l Hx _ IH]; [done|]. simpl.
  rewrite (bind_run _ _ _ _ _ (assign_key_run _ _ _ _ Hit Hx)).
  rewrite decide_False by naive_solver. destruct l as [|y l]; [done|].
  by rewrite (bind_run _ _ _ _ _ IH).
Qed.

(** The nodes of one bucket go back to it, in order. *)
Lemma rehash_list_same i l acc items m :
  keys_hold m (Z.of_nat i) (acc ++ l) → (i < length items)%nat →
  (i = 0%nat ∨ (length (acc ++ l) ≤ 1)%nat) →
  rehash_list l (<[i := acc]> items) m = Ret (<[i := acc ++ l]> items, m).
Proof.
  revert acc. induction l as [|it l IH]; intros acc Hk Hi Hone; [by rewrite app_nil_r|].
  assert (holds_int m (i_key it) (Z.of_nat i)) as Hit.
  { unfold keys_hold in Hk. rewrite Forall_app, Forall_cons in Hk. tauto. }
  cbn [rehash_list]. rewrite (bind_run _ _ _ _ _ (hash_run _ _ _ Hit)).
  rewrite u32_index by (destruct Hit as [_ Hit]; unfold in_signed in Hit; lia).
  rewrite Nat2Z.id, list_lookup_insert_eq by done.
  change (lift (Some acc)) with (ret (S:=mem) acc). rewrite bind_ret_l.
  assert (update_item_list acc it m = Ret (acc ++ [it], m)) as Hu.
  { destruct Hone as [->|Hone].
    - apply update_item_list_zero. unfold keys_hold in *.
      rewrite Forall_app, Forall_cons in Hk. apply Forall_cons. tauto.
    - destruct acc; [done|]. rewrite length_app in Hone. simpl in Hone. lia. }
  rewrite (bind_run _ _ _ _ _ Hu), list_insert_insert_eq, IH; [by rewrite <- app_assoc| |done|].
  - by rewrite <- app_assoc.
  - by rewrite <- app_assoc.
Qed.

Definition buckets_fit (m : mem) (items : list (list item)) : Prop :=
  ∀ i l, items !! i = Some l →
    keys_hold m (Z.of_nat i) l ∧ (i = 0%nat ∨ (length l ≤ 1)%nat).

Lemma rehash_buckets_same todo i items m :
  buckets_fit m items → (i + todo ≤ length items)%nat →
  rehash_buckets todo i items m = Ret (items, m).
Proof.
  intros Hf. revert i. induction todo as [|todo IH]; intros i Hi; [done|]. simpl.
  destruct (items !! i) as [l|] eqn:Hl; [|apply lookup_ge_None in Hl; lia].
  change (lift (Some l)) with (ret (S:=mem) l). rewrite bind_ret_l.
  destruct (Hf i l Hl) as [Hk Hone].
  rewrite (bind_run _ _ _ _ _ (rehash_list_same i l [] items m Hk ltac:(lia) Hone)).
  simpl. rewrite list_insert_id by done. apply IH. lia.
Qed.

Lemma repr_buckets_fit h m M : hm_repr h m M → buckets_fit m (h_items h).
Proof.
  intros Hr i l Hl. destruct i as [|i].
  - destruct (repr_zero _ _ _ Hr) as (l0 & Hl0 & Hz). rewrite Hl0 in Hl. injection Hl as <-.
    split; [done|by left].
  - pose proof (repr_bucket _ _ _ Hr (S i) l ltac:(lia) Hl) as Hb.
    destruct l as [|it [|? ?]]; simpl in Hb; [| |done].
    + split; [by apply Forall_nil|right; simpl; lia].
    + split; [|right; simpl; lia]. apply Forall_singleton. by destruct Hb.
Qed.

(** A map whose memory changed elsewhere, or whose array moved. *)
Lemma repr_extends h m M a d m' h' b' d' extra :
  hm_repr h m M → h_items_ptr h = Ptr a 0 → extends a m m' →
  m_blocks m !! a = Some (Block Heap d) →
  h_items h' = h_items h ++ replicate extra [] → h_size h' = h_size h + Z.of_nat extra →
  h_size h' < 2 ^ 32 → h_items_ptr h' = Ptr b' 0 → m_blocks m' !! b' = Some (Block Heap d') →
  (∀ i l it, h_items h !! i = Some l → it ∈ l → ∀ o, i_key it ≠ Ptr b' o) →
  hm_repr h' m' M.
Proof.
  intros Hr Ha He Hd Hitems Hsize Hlt Hb Hd' Hsep.
  destruct (repr_array _ _ _ Hr) as (a' & da & Ha' & _ & Hkeys). rewrite Ha in Ha'. injection Ha' as <-.
  destruct (repr_size _ _ _ Hr) as [Hs Hl].
  assert (∀ i l, h_items h' !! i = Some l →
            h_items h !! i = Some l ∨ (l = [] ∧ h_size h ≤ Z.of_nat i)) as Hold.
  { intros i l Hi. rewrite Hitems in Hi. apply lookup_app_Some in Hi as [?|[? Hi]]; [by left|].
    apply lookup_replicate in Hi as [-> _]. right. split; [done|lia]. }
  split.
  - rewrite Hitems, length_app, length_replicate. lia.
  - destruct (repr_zero _ _ _ Hr) as (l0 & Hl0 & Hz). exists l0. split.
    + rewrite Hitems. by apply lookup_app_l_Some.
    + apply Forall_forall. intros it Hit. apply (extends_holds a m); [done|by eapply Hkeys|].
      by eapply Forall_forall in Hz.
  - intros k l Hk [Hi|[-> Hik]]%Hold.
    + pose proof (repr_bucket _ _ _ Hr k l Hk Hi) as Hbk.
      destruct l as [|it [|? ?]]; simpl in *; [done| |done].
      destruct Hbk as [Hh ?]. split; [|done].
      eapply extends_holds; [done|eapply Hkeys; [done|by left]|done].
    + simpl. destruct (M !! Z.of_nat k) as [v|] eqn:E; [|done].
      apply (repr_dom _ _ _ Hr) in E. lia.
  - intros k v E. apply (repr_dom _ _ _ Hr) in E. lia.
  - exists b', d'. split_and!; try done. intros i l it [Hi|[-> _]]%Hold Hit; [by eapply Hsep|].
    by apply elem_of_nil in Hit.
Qed.

(** The block of a stored key is live. *)
Lemma holds_int_live m b o k : holds_int m (Ptr b o) k → live m b.
Proof.
  intros [Hp _]. apply peek_Some in Hp as (b' & o' & kd & d & [= <- <-] & E & _). by eexists.
Qed.

Lemma repr_keys_hold h m M i l it :
  hm_repr h m M → h_items h !! i = Some l → it ∈ l → holds_int m (i_key it) (Z.of_nat i).
Proof.
  intros Hr Hl Hit. destruct (repr_buckets_fit _ _ _ Hr i l Hl) as [Hk _].
  unfold keys_hold in Hk. rewrite Forall_forall in Hk. by apply Hk.
Qed.

Lemma hm_rehash_run h m M n :
  hm_repr h m M → mem_wf m → n < 2 ^ 32 →
  ∃ h' m', hm_rehash h n m = Ret (h', m') ∧ hm_repr h' m' M ∧ mem_wf m' ∧
    ∀ a, h_items_ptr h = Ptr a 0 → extends a m m'.
Proof.
  intros Hr Hwf Hn. unfold hm_rehash. case_decide.
  { exists h, m. split_and!; try done. }
  destruct (repr_array _ _ _ Hr) as (a & d & Ha & Hd & Hsep). rewrite Ha.
  destruct (realloc_run a d (sizeof_item * n) m Hwf Hd) as (m' & d' & E & Hwf' & He & Hd').
  rewrite (bind_run _ _ _ _ _ E), decide_False by done. clear E.
  set (h1 := HashMap (h_ptr h) (Ptr (m_next m) 0) (h_items h ++ replicate (Z.to_nat (n - h_size h)) [])
               (h_count h) n (h_load_factor h) (h_hash_step h)).
  destruct (repr_size _ _ _ Hr) as [Hs Hl].
  assert (hm_repr h1 m' M) as Hr'.
  { apply (repr_extends h m M a d m' h1 (m_next m) d' (Z.to_nat (n - h_size h))); try done.
    - simpl. lia.
    - intros i l it Hi Hit o Hk. pose proof (repr_keys_hold _ _ _ _ _ _ Hr Hi Hit) as Hh.
      rewrite Hk in Hh. apply holds_int_live in Hh. apply mem_wf_live_lt in Hh; [lia|done]. }
  erewrite bind_run.
  2:{ apply (rehash_buckets_same (Z.to_nat (h_size h)) 0 (h_items h1) m');
        [by apply (repr_buckets_fit h1 m' M)|simpl; rewrite length_app; lia]. }
  exists h1, m'. split_and!; try done. by intros ? [= <-].
Qed.

(** Replacing one bucket. *)
Lemma repr_insert h m M k l' m' M' c :
  hm_repr h m M → 0 ≤ k < h_size h →
  (∀ i li it, i ≠ Z.to_nat k → h_items h !! i = Some li → it ∈ li →
     holds_int m (i_key it) (Z.of_nat i) → holds_int m' (i_key it) (Z.of_nat i)) →
  (∃ a d, h_items_ptr h = Ptr a 0 ∧ m_blocks m' !! a = Some (Block Heap d) ∧
     ∀ it, it ∈ l' → ∀ o, i_key it ≠ Ptr a o) →
  ((k = 0 ∧ keys_hold m' 0 l' ∧ M' = M) ∨
   (0 < k ∧ ∃ it, l' = [it] ∧ holds_int m' (i_key it) k ∧ M' = <[k := i_value it]> M) ∨
   (0 < k ∧ l' = [] ∧ M' = delete k M)) →
  hm_repr (set_count (set_items h (<[Z.to_nat k := l']> (h_items h))) c) m' M'.
Proof.
  intros Hr Hk Hkeep (a & d & Ha & Hd & Hsep) Hnew.
  destruct (repr_size _ _ _ Hr) as [Hs Hl].
  destruct (repr_array _ _ _ Hr) as (a' & d0 & Ha' & _ & Hkeys). rewrite Ha in Ha'. injection Ha' as <-.
  split; simpl.
  - by rewrite length_insert.
  - destruct (decide (k = 0)) as [->|Hk0].
    + destruct Hnew as [(_ & Hz & ->)|[[? _]|[? _]]]; [|lia..].
      exists l'. split; [|done]. apply list_lookup_insert_eq. lia.
    + destruct (repr_zero _ _ _ Hr) as (l0 & Hl0 & Hz). exists l0.
      rewrite list_lookup_insert_ne by lia. split; [done|].
      apply Forall_forall. intros it Hit. apply (Hkeep 0%nat l0 it ltac:(lia) Hl0 Hit).
      by eapply Forall_forall in Hz.
  - intros i l Hi Hil. destruct (decide (i = Z.to_nat k)) as [->|Hne].
    + rewrite list_lookup_insert_eq in Hil by lia. injection Hil as <-.
      rewrite Z2Nat.id by lia.
      destruct Hnew as [(-> & _)|[(_ & it & -> & Hh & ->)|(_ & -> & ->)]]; simpl in *; [lia| |].
      * split; [done|]. apply lookup_insert_eq.
      * apply lookup_delete_eq.
    + rewrite list_lookup_insert_ne in Hil by done.
      pose proof (repr_bucket _ _ _ Hr i l Hi Hil) as Hb.
      assert (M' !! Z.of_nat i = M !! Z.of_nat i) as HM.
      { destruct Hnew as [(_ & _ & ->)|[(_ & it & _ & _ & ->)|(_ & _ & ->)]]; [done| |].
        - apply lookup_insert_ne. lia.
        - apply lookup_delete_ne. lia. }
      destruct l as [|it [|? ?]]; simpl in *; [by rewrite HM| |done].
      rewrite HM. destruct Hb as [Hh ?]. split; [|done].
      eapply Hkeep; [exact Hne|exact Hil|by left|done].
  - intros j v Hj. destruct Hnew as [(_ & _ & ->)|[(? & it & _ & _ & ->)|(_ & _ & ->)]].
    + by eapply repr_dom.
    + apply lookup_insert_Some in Hj as [[<- _]|[_ Hj]]; [lia|by eapply repr_dom].
    + apply lookup_delete_Some in Hj as [_ Hj]. by eapply repr_dom.
  - exists a, d. split_and!; try done. intros i l it Hil Hit.
    destruct (decide (i = Z.to_nat k)) as [->|Hne].
    + rewrite list_lookup_insert_eq in Hil by lia. injection Hil as <-. by apply Hsep.
    + rewrite list_lookup_insert_ne in Hil by done. by eapply Hkeys.
Qed.

(** Memory that only gained blocks. *)
Definition grows (m m' : mem) : Prop :=
  ∀ b x, m_blocks m !! b = Some x → m_blocks m' !! b = Some x.

Lemma grows_extends a m m' : grows m m' → extends a m m'.
Proof.
  intros Hg b o n bs _ (b' & o' & k & d & [= <- <-] & E & Hp)%peek_Some. apply peek_Some.
  exists b, o, k, d. split; [done|]. split; [by apply Hg|done].
Qed.

Lemma grows_holds m m' p k : grows m m' → holds_int m p k → holds_int m' p k.
Proof.
  intros Hg [Hp ?]. split; [|done]. destruct p as [|b o]; [done|].
  by apply (grows_extends (b + 1) m m' Hg); [lia|].
Qed.

Lemma malloc_grows n m :
  mem_wf m →
  ∃ m', TEE_Malloc n m = Ret (Ptr (m_next m) 0, m') ∧ mem_wf m' ∧ grows m m' ∧
        heap_start m' (Ptr (m_next m) 0).
Proof.
  intros Hwf. destruct (malloc_run n m Hwf) as (m' & E & Hwf' & _ & _ & Hb).
  exists m'. split; [done|]. split; [done|].
  split; [|eexists _, _; split; [done|rewrite Hb; apply lookup_insert_eq]]. intros b x Hx. rewrite Hb, lookup_insert_ne; [done|].
  intros <-. by rewrite mem_wf_fresh in Hx.
Qed.

(** Adding a node behind nodes that do not match. *)
Lemma set_item_append l key value k m :
  mem_wf m → key ≠ NULL → holds_int m key k → keys_hold m k l → (k = 0 ∨ l = []) →
  ∃ m', set_item l key value m = Ret ((l ++ [Item (Ptr (m_next m) 0) key value], 1), m') ∧
        mem_wf m' ∧ grows m m' ∧ heap_start m' (Ptr (m_next m) 0).
Proof.
  intros Hwf Hnn Hk Hl Hor. induction Hl as [|it l Hit _ IH]; simpl; rewrite decide_False by done.
  - destruct (malloc_grows sizeof_item m Hwf) as (m1 & E1 & Hwf1 & Hg1 & b & d & Hb & Hd).
    rewrite (bind_run _ _ _ _ _ E1), decide_False by done.
    destruct (malloc_grows sizeof_int m1 Hwf1) as (m2 & E2 & Hwf2 & Hg2 & _).
    rewrite (bind_run _ _ _ _ _ E2), decide_False by done.
    exists m2. split; [done|]. split; [done|]. split; [intros c x Hx; by apply Hg2, Hg1|].
    exists b, d. split; [done|by apply Hg2].
  - destruct Hor as [->|]; [|done].
    rewrite (bind_run _ _ _ _ _ (assign_key_run _ _ _ _ Hk Hit)).
    rewrite decide_False by naive_solver.
    destruct IH as (m' & E & Hwf' & Hg & Ht); [by left|].
    rewrite (bind_run _ _ _ _ _ E). by exists m'.
Qed.

(** The end of [hm_set], which may rehash. *)
Definition hm_set_end (map : hashmap) : C mem (Z * hashmap) :=
  if overloaded (h_count map) (h_size map) (h_load_factor map) then
    let! map := hm_rehash map (next_size (h_size map)) in
    ret (SUCCESS, map)
  else ret (SUCCESS, map).

Lemma next_size_lt n : next_size n < 2 ^ 32.
Proof.
  unfold next_size. assert (∀ l, Forall (λ s, s < 2 ^ 32) l → next_size_in l n < 2 ^ 32) as Hl.
  { induction 1 as [|s l Hs _ IH]; simpl; [|by case_decide].
    apply (unsigned_range 32); lia. }
  apply Hl. unfold sizes. repeat (apply Forall_cons; split; [lia|]). by apply Forall_nil.
Qed.

Lemma hm_set_end_run h m M :
  hm_repr h m M → mem_wf m →
  ∃ h' m', hm_set_end h m = Ret ((SUCCESS, h'), m') ∧ hm_repr h' m' M ∧ mem_wf m' ∧
    ∀ a, h_items_ptr h = Ptr a 0 → extends a m m'.
Proof.
  intros Hr Hwf. unfold hm_set_end. destruct (overloaded _ _ _).
  - destruct (hm_rehash_run h m M (next_size (h_size h)) Hr Hwf (next_size_lt _))
      as (h' & m' & E & Hr' & Hwf' & He).
    rewrite (bind_run _ _ _ _ _ E). exists h', m'. by split_and!.
  - exists h, m. by split_and!.
Qed.

Lemma hm_set_run h key value k m :
  holds_int m key k → 0 ≤ k →
  hm_set h key value m =
  (let! l := lift (h_items h !! Z.to_nat k) in
   let! '(l, counter) := set_item l key value in
   hm_set_end (set_count (set_items h (<[Z.to_nat k := l]> (h_items h)))
                 (u32 (h_count h + counter)))) m.
Proof.
  intros Hk Hpos. unfold hm_set. rewrite decide_False by by intros ->; destruct Hk.
  rewrite (bind_run _ _ _ _ _ (hash_run _ _ _ Hk)).
  by rewrite u32_index by (destruct Hk as [_ Hk]; unfold in_signed in Hk; lia).
Qed.

(** A key that is not in the map, or the key 0: the map before it may be
    rehashed. *)
Lemma hm_set_new_mid h m M key value k l :
  hm_repr h m M → mem_wf m → holds_int m key k → 0 ≤ k < h_size h → M !! k = None →
  (∀ a o, h_items_ptr h = Ptr a 0 → key ≠ Ptr a o) →
  h_items h !! Z.to_nat k = Some l →
  let h1 := set_count (set_items h (<[Z.to_nat k := l ++ [Item (Ptr (m_next m) 0) key value]]> (h_items h)))
              (u32 (h_count h + 1)) in
  ∃ m1, hm_set h key value m = hm_set_end h1 m1 ∧
    hm_repr h1 m1 (if decide (k = 0) then M else <[k := value]> M) ∧ mem_wf m1 ∧ grows m m1 ∧
    heap_start m1 (Ptr (m_next m) 0).
Proof.
  intros Hr Hwf Hk Hrange HM Hsep Hl. cbv zeta. rewrite (hm_set_run h key value k m) by (done || lia).
  rewrite Hl. change (lift (Some l)) with (ret (S:=mem) l). rewrite bind_ret_l.
  destruct (repr_buckets_fit _ _ _ Hr _ _ Hl) as [Hkeys _]. rewrite Z2Nat.id in Hkeys by lia.
  assert (k = 0 ∨ l = []) as Hor.
  { destruct (decide (k = 0)) as [|Hk0]; [by left|right].
    pose proof (repr_bucket _ _ _ Hr (Z.to_nat k) l ltac:(lia) Hl) as Hb.
    rewrite Z2Nat.id in Hb by lia. destruct l as [|it [|? ?]]; simpl in Hb; [done| |done].
    destruct Hb as [_ Hb]. by rewrite HM in Hb. }
  assert (key ≠ NULL) as Hnn by (intros ->; by destruct Hk).
  destruct (set_item_append l key value k m Hwf Hnn Hk Hkeys Hor) as (m1 & E & Hwf1 & Hg & Ht).
  rewrite (bind_run _ _ _ _ _ E). clear E. exists m1. split; [done|]. split; [|done].
  destruct (repr_array _ _ _ Hr) as (a & d & Ha & Hd & Hka).
  apply (repr_insert h m M k (l ++ [Item (Ptr (m_next m) 0) key value]) m1); [done|done| | |].
  - intros i li it _ _ _. by apply grows_holds.
  - exists a, d. split_and!; [done|by apply Hg|]. intros it [Hit|Hit%list_elem_of_singleton]%elem_of_app o.
    + by eapply Hka.
    + subst it. by apply Hsep.
  - destruct (decide (k = 0)) as [->|Hk0].
    + left. split_and!; try done. unfold keys_hold in *. apply Forall_app. split.
      * eapply Forall_impl; [exact Hkeys|]. intros it. by apply grows_holds.
      * apply Forall_singleton. by eapply grows_holds.
    + right. left. split; [lia|]. destruct Hor as [Hor|Hor]; [done|subst l]. eexists.
      split_and!; try done. by eapply grows_holds.
Qed.

Lemma hm_set_new_run h m M key value k a :
  hm_repr h m M → mem_wf m → holds_int m key k → 0 ≤ k < h_size h → M !! k = None →
  h_items_ptr h = Ptr a 0 → (∀ o, key ≠ Ptr a o) →
  ∃ h' m', hm_set h key value m = Ret ((SUCCESS, h'), m') ∧
    hm_repr h' m' (if decide (k = 0) then M else <[k := value]> M) ∧ mem_wf m' ∧ extends a m m'.
Proof.
  intros Hr Hwf Hk Hrange HM Ha Hsep. destruct (repr_lookup _ _ _ _ Hr Hrange) as [l Hl].
  destruct (hm_set_new_mid h m M key value k l Hr Hwf Hk Hrange HM) as (m1 & -> & Hr1 & Hwf1 & Hg & _);
    [|done|].
  { intros a' o. rewrite Ha. intros [= <-]. apply Hsep. }
  destruct (hm_set_end_run _ m1 _ Hr1 Hwf1) as (h' & m' & E & Hr' & Hwf' & He).
  exists h', m'. split_and!; try done. transitivity m1; [by apply grows_extends|by apply He].
Qed.

(** A key that is in the map, with another value: the old one is freed. *)
Lemma hm_set_update_mid h m M key value k v0 m1 :
  hm_repr h m M → mem_wf m → holds_int m key k → 0 < k < h_size h → M !! k = Some v0 →
  v0 ≠ value → TEE_Free v0 m = Ret (tt, m1) →
  (∀ a o, h_items_ptr h = Ptr a 0 → v0 ≠ Ptr a o) →
  (∀ i l it, h_items h !! i = Some l → it ∈ l → holds_int m1 (i_key it) (Z.of_nat i)) →
  ∃ it, h_items h !! Z.to_nat k = Some [it] ∧ i_value it = v0 ∧ mem_wf m1 ∧
    let h1 := set_count (set_items h (<[Z.to_nat k := [Item (i_ptr it) (i_key it) value]]> (h_items h)))
                (u32 (h_count h + 0)) in
    hm_set h key value m = hm_set_end h1 m1 ∧ hm_repr h1 m1 (<[k := value]> M).
Proof.
  intros Hr Hwf Hk Hrange HM Hne Hfree Hva Hkeep.
  destruct (repr_lookup h m M k Hr ltac:(lia)) as [l Hl].
  pose proof (repr_bucket _ _ _ Hr (Z.to_nat k) l ltac:(lia) Hl) as Hb.
  rewrite Z2Nat.id in Hb by lia. destruct l as [|it [|? ?]]; simpl in Hb; [congruence| |done].
  destruct Hb as [Hit Hv]. rewrite HM in Hv. injection Hv as ->.
  assert (release (i_value it) m = Some m1) as Hrel.
  { unfold TEE_Free, free, update in Hfree. destruct (release _ m); [by injection Hfree as <-|done]. }
  exists it. split; [done|]. split; [done|]. split; [by eapply mem_wf_release|]. cbv zeta.
  assert (key ≠ NULL) as Hnn by (intros ->; by destruct Hk).
  assert (set_item [it] key value m = Ret (([Item (i_ptr it) (i_key it) value], 0), m1)) as E.
  { simpl. rewrite decide_False by done.
    rewrite (bind_run _ _ _ _ _ (assign_key_run _ _ _ _ Hk Hit)).
    rewrite decide_True, decide_True by (done || lia).
    by rewrite (bind_run _ _ _ _ _ Hfree). }
  rewrite (hm_set_run h key value k m) by (done || lia).
  rewrite Hl. change (lift (Some [it])) with (ret (S:=mem) [it]). rewrite bind_ret_l.
  rewrite (bind_run _ _ _ _ _ E). split; [done|].
  destruct (repr_array _ _ _ Hr) as (a & d & Ha & Hd & Hka).
  assert (m_blocks m1 !! a = Some (Block Heap d)) as Hd1.
  { destruct (i_value it) as [|b o]; simpl in Hrel; [by injection Hrel as <-|].
    destruct (m_blocks m !! b) as [[[] db]|]; try done. case_decide; [|done].
    injection Hrel as <-. simpl. rewrite lookup_delete_ne; [done|]. intros ->. by apply (Hva a o). }
  apply (repr_insert h m M k [Item (i_ptr it) (i_key it) value] m1); [done|lia| | |].
  - intros i li x _ Hi Hx _. by eapply Hkeep.
  - exists a, d. split_and!; [done|done|]. intros x Hx%list_elem_of_singleton o. subst x. simpl.
    eapply Hka; [exact Hl|by left].
  - right. left. split; [lia|]. eexists. split_and!; [done| |done]. simpl.
    pose proof (Hkeep (Z.to_nat k) _ it Hl ltac:(by left)) as Hh. by rewrite Z2Nat.id in Hh by lia.
Qed.

Lemma hm_set_update_run h m M key value k a v0 m1 :
  hm_repr h m M → mem_wf m → holds_int m key k → 0 < k < h_size h → M !! k = Some v0 →
  v0 ≠ value → TEE_Free v0 m = Ret (tt, m1) →
  h_items_ptr h = Ptr a 0 → (∀ o, v0 ≠ Ptr a o) →
  (∀ i l it, h_items h !! i = Some l → it ∈ l → holds_int m1 (i_key it) (Z.of_nat i)) →
  ∃ h' m', hm_set h key value m = Ret ((SUCCESS, h'), m') ∧
    hm_repr h' m' (<[k := value]> M) ∧ mem_wf m' ∧ extends a m1 m'.
Proof.
  intros Hr Hwf Hk Hrange HM Hne Hfree Ha Hva Hkeep.
  destruct (hm_set_update_mid h m M key value k v0 m1 Hr Hwf Hk Hrange HM Hne Hfree) as (it & _ & _ & Hwf1 & -> & Hr1);
    [|done|].
  { intros a' o. rewrite Ha. intros [= <-]. apply Hva. }
  destruct (hm_set_end_run _ m1 _ Hr1 Hwf1) as (h' & m' & E & Hr' & Hwf' & He).
  exists h', m'. split_and!; try done. by apply He.
Qed.
End no_oom.

(** ** Creating a map *)
Lemma next_size_gt n : 0 < n < 2 ^ 31 → n < next_size n.
Proof.
  intros Hn. unfold next_size. generalize sizes. intros l.
  induction l as [|s l IH]; simpl; [|case_decide; lia].
  rewrite unsigned_id; [lia|unfold in_unsigned; lia].
Qed.

Lemma next_size_small n : n < 1999993 → next_size n < 2 ^ 31.
Proof. intros Hn. unfold next_size, sizes, next_size_in. repeat (case_decide; [lia|]). lia. Qed.

Lemma hm_isset_run h m M key k :
  hm_repr h m M → holds_int m key k → 0 ≤ k < h_size h →
  hm_isset h key m = Ret (if decide (is_Some (M !! k)) then 1 else 0, m).
Proof.
  intros Hr Hk Hrange. unfold hm_isset.
  rewrite (bind_run _ _ _ _ _ (hash_run _ _ _ Hk)), u32_index
    by (destruct (repr_size _ _ _ Hr), Hk as [_ Hk]; unfold in_signed in Hk; lia).
  destruct (repr_lookup _ _ _ _ Hr Hrange) as [l Hl]. unfold bind at 1, lift. rewrite Hl.
  destruct (decide (k = 0)) as [->|Hk0].
  - destruct (repr_zero _ _ _ Hr) as (l0 & Hl0 & Hz).
    change (Z.to_nat 0) with 0%nat in Hl. rewrite Hl0 in Hl. injection Hl as <-.
    rewrite decide_False.
    + clear Hl0. induction Hz as [|it l0 Hit _ IH]; [done|]. simpl.
      rewrite (bind_run _ _ _ _ _ (assign_key_run _ _ _ _ Hk Hit)). by rewrite decide_False by naive_solver.
    + intros [v Hv]. apply (repr_dom _ _ _ Hr) in Hv. lia.
  - pose proof (repr_bucket _ _ _ Hr (Z.to_nat k) l ltac:(lia) Hl) as Hb.
    rewrite Z2Nat.id in Hb by lia. destruct l as [|it [|? ?]]; simpl in Hb; [|destruct Hb as [Hit Hv]|done].
    + rewrite decide_False; [done|]. rewrite Hb. by intros [].
    + rewrite decide_True by (rewrite Hv; eauto). simpl.
      rewrite (bind_run _ _ _ _ _ (assign_key_run _ _ _ _ Hk Hit)). by rewrite decide_True.
Qed.

Section creation.
Context `{TeeMalloc}.
Hypothesis memory : ∀ m n, tee_oom m n = false.

Lemma hm_create_run size lf step m :
  mem_wf m → 0 < size < 2 ^ 31 → next_size size < 2 ^ 31 →
  ∃ h m', hm_create size lf step m = Ret (Some h, m') ∧ hm_repr h m' ∅ ∧ mem_wf m' ∧ grows m m' ∧
    h_size h = next_size size ∧ size < h_size h ∧ h_count h = 0 ∧ h_load_factor h = lf ∧ h_hash_step h = step ∧
    h_items_ptr h = Ptr (m_next m + 1) 0 ∧ h_ptr h = Ptr (m_next m) 0 ∧ h_items h = replicate (Z.to_nat (h_size h)) [] ∧
    ∃ d, m_blocks m' !! m_next m = Some (Block Heap d).
Proof.
  intros Hwf Hs Hn. unfold hm_create. pose proof (next_size_gt _ Hs) as Hgt.
  destruct (malloc_run memory sizeof_hashmap m Hwf) as (m1 & E1 & Hwf1 & _ & Hn1 & Hb1).
  rewrite (bind_run _ _ _ _ _ E1), decide_False by done.
  destruct (malloc_run memory (sizeof_void_ptr * next_size size) m1 Hwf1) as (m2 & E2 & Hwf2 & _ & _ & Hb2).
  rewrite (bind_run _ _ _ _ _ E2), decide_False by done.
  rewrite bool_decide_true by done. eexists _, m2. split; [reflexivity|].
  split; [|split_and!; simpl; try done; try lia].
  - split; simpl.
    + split; [lia|]. by rewrite length_replicate.
    + exists []. split; [|done]. apply lookup_replicate. split; [done|lia].
    + intros k l _ [-> _]%lookup_replicate. done.
    + done.
    + rewrite Hb2. eexists _, _. split_and!; [done|by rewrite lookup_insert_eq|].
      intros i l it [-> _]%lookup_replicate Hit. by apply not_elem_of_nil in Hit.
  - intros b x Hx. rewrite Hb2, Hb1.
    assert (b < m_next m) by (apply mem_wf_live_lt; [done|by eexists]).
    by rewrite !lookup_insert_ne by lia.
  - by rewrite Hn1.
  - eexists. rewrite Hb2, lookup_insert_ne, Hb1, lookup_insert_eq by lia. done.
Qed.
End creation.

(** * Properties *)
Section properties.
Context `{TeeMalloc}.
Hypothesis memory : ∀ m n, tee_oom m n = false.
Implicit Types (h : hashmap) (m : mem) (M : gmap Z ptr).

(** Looking a key up.  On a map that stores the entries [M], [hm_get] of a
    key within the array returns the value [M] gives it, or [NULL], and
    [hm_isset] says whether there is one; neither changes memory, although each
    assigns to the caller's key.  The key 0 is in no [M]: it is never found. *)
Theorem lookups_agree h m M key k :
  hm_repr h m M → holds_int m key k → 0 ≤ k < h_size h →
  hm_get h key m = Ret (default NULL (M !! k), m) ∧
  hm_isset h key m = Ret (if decide (is_Some (M !! k)) then 1 else 0, m) ∧
  M !! 0 = None.
Proof.
  intros Hr Hk Hrange. split; [by apply hm_get_run|].
  assert (M !! 0 = None) as H0.
  { destruct (M !! 0) eqn:E; [|done]. apply (repr_dom _ _ _ Hr) in E. lia. }
  split; [|done]. by apply hm_isset_run.
Qed.

(** Storing under a new key.  On a map that stores [M], [hm_set] of a key
    that [M] lacks succeeds, whether or not it rehashes, and the map then
    stores [M] with the entry added; every key still held in memory is found
    accordingly.  An entry under the key 0 is the exception: it is stored and
    never found. *)
Theorem hm_set_inserts h m M key value k a :
  hm_repr h m M → mem_wf m → holds_int m key k → 0 ≤ k < h_size h → M !! k = None →
  h_items_ptr h = Ptr a 0 → (∀ o, key ≠ Ptr a o) →
  ∃ h' m', hm_set h key value m = Ret ((SUCCESS, h'), m') ∧ mem_wf m' ∧
    hm_repr h' m' (if decide (k = 0) then M else <[k := value]> M) ∧
    ∀ key2 k2, holds_int m key2 k2 → (∀ o, key2 ≠ Ptr a o) → 0 ≤ k2 < h_size h' →
      hm_get h' key2 m' =
        Ret (default NULL ((if decide (k = 0) then M else <[k := value]> M) !! k2), m').
Proof.
  intros Hr Hwf Hk Hrange HM Ha Hsep.
  destruct (hm_set_new_run memory h m M key value k a Hr Hwf Hk Hrange HM Ha Hsep)
    as (h' & m' & E & Hr' & Hwf' & He).
  exists h', m'. split_and!; try done. intros key2 k2 Hk2 Hs2 Hr2.
  apply hm_get_run; [done| |done]. by eapply extends_holds.
Qed.

(** Storing under a key that is there.  The old value, when it is another
    block, is freed, and the map then stores the new one; the keys the map
    holds must not lie in the block that is freed. *)
Theorem hm_set_replaces h m M key value k a v0 m1 :
  hm_repr h m M → mem_wf m → holds_int m key k → 0 < k < h_size h → M !! k = Some v0 →
  v0 ≠ value → TEE_Free v0 m = Ret (tt, m1) →
  h_items_ptr h = Ptr a 0 → (∀ o, v0 ≠ Ptr a o) →
  (∀ i l it, h_items h !! i = Some l → it ∈ l → holds_int m1 (i_key it) (Z.of_nat i)) →
  ∃ h' m', hm_set h key value m = Ret ((SUCCESS, h'), m') ∧ mem_wf m' ∧
    hm_repr h' m' (<[k := value]> M) ∧
    ∀ key2 k2, holds_int m1 key2 k2 → (∀ o, key2 ≠ Ptr a o) → 0 ≤ k2 < h_size h' →
      hm_get h' key2 m' = Ret (default NULL (<[k := value]> M !! k2), m').
Proof.
  intros Hr Hwf Hk Hrange HM Hne Hfree Ha Hva Hkeep.
  destruct (hm_set_update_run memory h m M key value k a v0 m1 Hr Hwf Hk Hrange HM Hne Hfree Ha Hva Hkeep)
    as (h' & m' & E & Hr' & Hwf' & He).
  exists h', m'. split_and!; try done. intros key2 k2 Hk2 Hs2 Hr2.
  apply hm_get_run; [done| |done]. by eapply extends_holds.
Qed.

(** C39: the key is the index.  [hash] does not reduce the key to the size of
    the array, so every operation on a key beyond it reads outside the array. *)
Theorem large_keys_are_out_of_bounds h m M key value k :
  hm_repr h m M → holds_int m key k → h_size h ≤ u32 k →
  hm_get h key m = Undef ∧ hm_set h key value m = Undef ∧
  hm_unset h key m = Undef ∧ hm_isset h key m = Undef.
Proof.
  intros Hr Hk Hlarge. destruct (repr_size _ _ _ Hr) as [Hs Hl].
  assert (h_items h !! Z.to_nat (u32 k) = None) as Hnone by (apply lookup_ge_None; lia).
  assert (key ≠ NULL) as Hnn by by intros ->; destruct Hk.
  unfold hm_get, hm_set, hm_unset, hm_isset. rewrite !(decide_False (P:=key = NULL)) by done.
  unfold bind. rewrite !(hash_run _ _ _ Hk). unfold lift. by rewrite Hnone.
Qed.

(** A new map is empty, has more buckets than it was asked for, and leaves
    the rest of memory alone. *)
Theorem hm_create_empty size lf step m :
  mem_wf m → 0 < size < 1999993 →
  ∃ h m', hm_create size lf step m = Ret (Some h, m') ∧ hm_repr h m' ∅ ∧ mem_wf m' ∧
    grows m m' ∧ size < h_size h ∧ h_count h = 0.
Proof.
  intros Hwf Hs. destruct (hm_create_run memory size lf step m Hwf) as (h & m' & E & Hr & Hw & Hg & _ & Hsz & Hc & _).
  - lia.
  - apply next_size_small. lia.
  - by exists h, m'.
Qed.
End properties.

(** * Witnesses

A map of five buckets with one entry: the key 3, in block 2, gives the value in
block 3.  Blocks 4 and 5 are local variables that hold the keys 3 and 2, block 6
one that holds 7, block 7 a new value. *)
Module Small.
Definition always : TeeMalloc := λ _ _, false.
#[local] Existing Instance always.

Definition int_block (kd : bkind) (z : Z) : block := Block kd (le_bytes 4 (u32 z)).
Definition memory : mem := Mem 8 (<[1 := Block Heap (replicate 40 0)]>
  (<[2 := int_block Heap 3]> (<[3 := Block Heap (replicate 16 5)]>
  (<[4 := int_block Stack 3]> (<[5 := int_block Stack 2]>
  (<[6 := int_block Stack 7]> {[7 := Block Heap (replicate 16 9)]})))))).
Definition node : item := Item (Ptr 20 0) (Ptr 2 0) (Ptr 3 0).
Definition map : hashmap := HashMap (Ptr 21 0) (Ptr 1 0) [[]; []; []; [node]; []] 1 5 (float_of 1) 13.
Definition entries : gmap Z ptr := {[3 := Ptr 3 0]}.

Lemma memory_wf : mem_wf memory.
Proof.
  split; [done|]. intros b Hb. simpl in *. by rewrite !lookup_insert_ne, lookup_singleton_ne by lia.
Qed.

Lemma map_repr : hm_repr map memory entries.
Proof.
  split.
  - done.
  - exists []. by split.
  - intros k l Hk Hl. unfold bucket_ok. do 5 (destruct k as [|k]; [try lia; simplify_eq/=; by repeat split|]).
    done.
  - intros k v. unfold entries. destruct (decide (k = 3)) as [->|]; [by simpl|].
    by rewrite lookup_singleton_ne by done.
  - exists 1, (replicate 40 0). split_and!; [done|done|].
    intros i l it Hl Hit o. do 5 (destruct i as [|i]; [simplify_eq/=; first [by apply not_elem_of_nil in Hit|apply list_elem_of_singleton in Hit; by subst it]|]).
    done.
Qed.

Lemma lookups_agree_witness :
  hm_get map (Ptr 4 0) memory = Ret (Ptr 3 0, memory) ∧
  hm_isset map (Ptr 4 0) memory = Ret (1, memory) ∧ entries !! 0 = None.
Proof. apply (lookups_agree map memory entries (Ptr 4 0) 3); [apply map_repr|done|done]. Defined.

Lemma hm_set_inserts_witness :
  ∃ h' m', hm_set map (Ptr 5 0) (Ptr 7 0) memory = Ret ((SUCCESS, h'), m') ∧ mem_wf m' ∧
    hm_repr h' m' (<[2 := Ptr 7 0]> entries) ∧
    ∀ key2 k2, holds_int memory key2 k2 → (∀ o, key2 ≠ Ptr 1 o) → 0 ≤ k2 < h_size h' →
      hm_get h' key2 m' = Ret (default NULL (<[2 := Ptr 7 0]> entries !! k2), m').
Proof.
  apply (hm_set_inserts (λ _ _, eq_refl) map memory entries (Ptr 5 0) (Ptr 7 0) 2 1);
    [apply map_repr|apply memory_wf|done..].
Defined.

Lemma hm_set_replaces_witness :
  ∃ h' m', hm_set map (Ptr 4 0) (Ptr 7 0) memory = Ret ((SUCCESS, h'), m') ∧ mem_wf m' ∧
    hm_repr h' m' (<[3 := Ptr 7 0]> entries) ∧
    ∀ key2 k2, holds_int (Mem 8 (delete 3 (m_blocks memory))) key2 k2 → (∀ o, key2 ≠ Ptr 1 o) →
      0 ≤ k2 < h_size h' →
      hm_get h' key2 m' = Ret (default NULL (<[3 := Ptr 7 0]> entries !! k2), m').
Proof.
  apply (hm_set_replaces (λ _ _, eq_refl) map memory entries (Ptr 4 0) (Ptr 7 0) 3 1 (Ptr 3 0));
    [apply map_repr|apply memory_wf|done..|].
  intros i l it Hl Hit. do 5 (destruct i as [|i]; [simplify_eq/=; first [by apply not_elem_of_nil in Hit|apply list_elem_of_singleton in Hit; by subst it]|]).
  done.
Defined.

Lemma large_keys_are_out_of_bounds_witness :
  hm_get map (Ptr 6 0) memory = Undef ∧ hm_set map (Ptr 6 0) (Ptr 7 0) memory = Undef ∧
  hm_unset map (Ptr 6 0) memory = Undef ∧ hm_isset map (Ptr 6 0) memory = Undef.
Proof. apply (large_keys_are_out_of_bounds map memory entries (Ptr 6 0) (Ptr 7 0) 7); [apply map_repr|done|done]. Defined.

Lemma hm_create_empty_witness :
  ∃ h m', hm_create 500 (float_of 1) 13 mem_empty = Ret (Some h, m') ∧ hm_repr h m' ∅ ∧
    mem_wf m' ∧ grows mem_empty m' ∧ 500 < h_size h ∧ h_count h = 0.
Proof.
  apply (hm_create_empty (λ _ _, eq_refl)); [|done]. split; [done|]. intros b _. apply lookup_empty.
Defined.
End Small.
