(* ===== verification/HashOwn.v ===== *)
(** * The hash map: what it owns, and its end

A map owns the blocks of its nodes, of their keys and values, of the array and of
the structure itself; what can be freed, and what has been, is stated with
[freeable] and [freed] of [Heap].

[hm_delete] frees what the map owns; [hm_dump] writes every node to a file. *)
From S2P Require Import Prelude CMem Heap TaLog UteeVfs HashMap.
#[local] Open Scope Z_scope.
#[local] Open Scope c_scope.

Definition node_ptrs (it : item) : list ptr := [i_key it; i_value it; i_ptr it].
Definition list_ptrs (l : list item) : list ptr := l ≫= node_ptrs.
Definition buckets_ptrs (items : list (list item)) : list ptr := items ≫= list_ptrs.
Definition map_ptrs (h : hashmap) : list ptr := buckets_ptrs (h_items h) ++ [h_items_ptr h; h_ptr h].

Section freeing.
Implicit Types (m : mem) (ps : list ptr).

(** A program that frees [ps], and goes on. *)
Lemma free_step {A} p ps m (k : C mem A) (Q : A → Prop) :
  freeable (p :: ps) m →
  (∀ m1, freeable ps m1 → ∃ a m', k m1 = Ret (a, m') ∧ freed ps m1 m' ∧ Q a) →
  ∃ a m', (do! TEE_Free p in k) m = Ret (a, m') ∧ freed (p :: ps) m m' ∧ Q a.
Proof.
  intros Hf Hk. destruct (free_one p m) as (m1 & E & H1); [by apply (freeable_app [p] ps)|].
  destruct (Hk m1) as (a & m' & E' & H2 & HQ); [by apply (freed_freeable [p] ps m)|].
  exists a, m'. rewrite (bind_run _ _ _ _ _ E). split; [done|]. split; [|done]. by apply (freed_app [p] ps m m1).
Qed.
End freeing.

(** Filling an empty bucket. *)
Lemma buckets_ptrs_insert k it items :
  items !! k = Some [] → buckets_ptrs (<[k := [it]]> items) ≡ₚ node_ptrs it ++ buckets_ptrs items.
Proof.
  intros Hk. rewrite <- (take_drop_middle items k []) at 2 by done.
  rewrite insert_take_drop by by apply lookup_lt_Some in Hk.
  unfold buckets_ptrs. rewrite !bind_app. cbn [mbind list_bind]. rewrite !app_nil_l.
  change (list_ptrs [it]) with (node_ptrs it ++ []). rewrite app_nil_r.
  rewrite !(assoc_L (++)). by rewrite (Permutation_app_comm (node_ptrs it)).
Qed.

(** ** Deleting *)
Section delete.
Implicit Types (h : hashmap) (m : mem) (l : list item).

(** A callback that frees the value. *)
Definition frees (free_value : option (ptr → C mem unit)) : Prop :=
  match free_value with Some f => ∀ p, f p = TEE_Free p | None => True end.

Lemma remove_items_cons it l fv count :
  frees fv →
  ∀ m, remove_items (it :: l) fv count m =
    (let! count := remove_items l fv count in
     do! TEE_Free (i_key it) in do! TEE_Free (i_value it) in do! TEE_Free (i_ptr it) in ret (count - 1)) m.
Proof. intros Hfv m. destruct fv as [f|], l; simpl; try done; by rewrite ?Hfv. Qed.

Lemma remove_items_run l fv count m :
  frees fv → freeable (list_ptrs l) m →
  ∃ m', remove_items l fv count m = Ret (count - Z.of_nat (length l), m') ∧ freed (list_ptrs l) m m'.
Proof.
  intros Hfv. induction l as [|it l IH]; intros Hf.
  { exists m. simpl. rewrite Z.sub_0_r. split; [done|apply freed_nil]. }
  assert (node_ptrs it ++ list_ptrs l ≡ₚ list_ptrs l ++ node_ptrs it) as Hp by apply Permutation_app_comm.
  change (freeable (node_ptrs it ++ list_ptrs l) m) in Hf. rewrite Hp in Hf.
  destruct IH as (m1 & E1 & H1); [by eapply freeable_app|].
  rewrite (remove_items_cons it l fv count Hfv), (bind_run _ _ _ _ _ E1).
  apply (freed_freeable _ _ _ _ Hf) in H1 as Hf1.
  destruct (free_step (i_key it) [i_value it; i_ptr it] m1 (do! TEE_Free (i_value it) in do! TEE_Free (i_ptr it) in
    ret (count - Z.of_nat (length l) - 1)) (λ a, a = count - Z.of_nat (S (length l)))) as (a & m' & E & H2 & ->); [done| |].
  { intros m2 Hf2. apply free_step; [done|]. intros m3 Hf3. apply free_step; [done|]. intros m4 _.
    eexists _, m4. split; [done|]. split; [apply freed_nil|lia]. }
  exists m'. split; [exact E|]. change (freed (node_ptrs it ++ list_ptrs l) m m'). rewrite Hp.
  by apply freed_app with m1.
Qed.

(** The loop of [hm_clear], from bucket [i] on. *)
Lemma clear_buckets_run todo i h fv counter m :
  frees fv → (i + todo = length (h_items h))%nat → freeable (buckets_ptrs (drop i (h_items h))) m →
  ∃ h' c m', clear_buckets todo i h fv counter m = Ret ((h', c), m') ∧
    freed (buckets_ptrs (drop i (h_items h))) m m' ∧ h_items_ptr h' = h_items_ptr h ∧ h_ptr h' = h_ptr h.
Proof.
  intros Hfv. revert i h counter m. induction todo as [|todo IH]; intros i h counter m Hi Hf.
  { exists h, counter, m. rewrite drop_ge by lia. split; [done|]. by split; [apply freed_nil|]. }
  cbn [clear_buckets]. destruct (h_items h !! i) as [l|] eqn:Hl; [|apply lookup_ge_None in Hl; lia].
  change (lift (Some l)) with (ret (S:=mem) l). rewrite bind_ret_l. rewrite (drop_S _ l i Hl) in *.
  change (freeable (list_ptrs l ++ buckets_ptrs (drop (S i) (h_items h))) m) in Hf.
  destruct (remove_items_run l fv counter m Hfv) as (m1 & E1 & H1); [by eapply freeable_app|].
  rewrite (bind_run _ _ _ _ _ E1).
  assert (drop (S i) (<[i := []]> (h_items h)) = drop (S i) (h_items h)) as Hd
    by (apply list_eq; intros j; rewrite !lookup_drop; apply list_lookup_insert_ne; lia).
  destruct (IH (S i) (set_items h (<[i := []]> (h_items h))) (counter - Z.of_nat (length l)) m1)
    as (h' & c & m' & E & H2 & Hi' & Hp'); simpl h_items in *.
  - rewrite length_insert. lia.
  - rewrite Hd. by apply (freed_freeable _ _ _ _ Hf).
  - exists h', c, m'. split; [exact E|]. split; [|by split]. rewrite Hd in H2. by apply freed_app with m1.
Qed.

Lemma hm_delete_run h fv m :
  frees fv → length (h_items h) = Z.to_nat (h_size h) → freeable (map_ptrs h) m →
  ∃ m', hm_delete h fv m = Ret (SUCCESS, m') ∧ freed (map_ptrs h) m m'.
Proof.
  intros Hfv Hl Hf. unfold hm_delete, hm_clear.
  destruct (clear_buckets_run (Z.to_nat (h_size h)) 0 h fv 0 m) as (h1 & c & m1 & E & H1 & Hi & Hp);
    [done|lia|by eapply freeable_app|]. rewrite drop_0 in H1.
  rewrite bind_bind, (bind_run _ _ _ _ _ E), bind_ret_l. cbn [h_items_ptr h_ptr set_count]. rewrite Hi, Hp.
  destruct (free_step (h_items_ptr h) [h_ptr h] m1 (do! TEE_Free (h_ptr h) in ret SUCCESS) (λ a, a = SUCCESS))
    as (a & m' & E' & H2 & ->).
  - by apply (freed_freeable _ _ _ _ Hf).
  - intros m2 Hf2. apply free_step; [done|]. intros m3 _. exists SUCCESS, m3. by split; [|split; [apply freed_nil|]].
  - exists m'. split; [exact E'|]. by apply freed_app with m1.
Qed.
End delete.

(** ** Dumping

A file to which everything that is written arrives. *)
Class WriteAll (W : Type) `{FileLaws W} : Prop :=
  write_exact w f bs l pos :
    fd_file w f = Some (l, pos) → Z.of_nat (length bs) < 2 ^ 31 →
    ∃ w', utee_vfs_write f bs w = Ret (Z.of_nat (length bs), w') ∧
      fd_file w' f = Some (write_at l pos bs, (pos + length bs)%nat).

(** [f] holds [l], and writing goes on at its end. *)
Definition at_end {W} `{FileLaws W} (w : W) (f : Z) (l : bytes) : Prop := fd_file w f = Some (l, length l).

Lemma write_at_end l bs : write_at l (length l) bs = l ++ bs.
Proof.
  unfold write_at. destruct bs as [|b bs]; [by rewrite app_nil_r|].
  rewrite take_ge, Nat.sub_diag, drop_ge by lia. simpl. by rewrite app_nil_r.
Qed.

Section dump.
Context {W : Type} `{WriteAll W, TaLog}.
Implicit Types (h : hashmap) (m : mem) (w : W).

Lemma write_from_run m w f p n bs l :
  peek m p n = Some bs → n < 2 ^ 31 → at_end w f l →
  ∃ r w', write_from f p n (m, w) = Ret (r, (m, w')) ∧ at_end w' f (l ++ bs).
Proof.
  intros Hp Hn Hf. unfold write_from. rewrite (bind_run _ _ _ _ _ (load_run m w p n bs Hp)).
  destruct (write_exact w f bs _ _ Hf) as (w' & E & Hf'); [by rewrite (peek_length _ _ _ _ Hp)|].
  eexists _, w'. split; [by apply world_run|]. unfold at_end. by rewrite Hf', write_at_end, length_app.
Qed.

(** What a node is written as; its value is logged first. *)
Definition dumped (m : mem) (it : item) (bs : bytes) : Prop :=
  ∃ k v, peek m (i_key it) sizeof_int = Some k ∧ peek m (i_value it) 16 = Some v ∧ prints v ∧ bs = k ++ v.

Lemma dump_list_run m f its bss w l :
  Forall2 (dumped m) its bss → at_end w f l →
  ∃ w', dump_list its f None (m, w) = Ret (tt, (m, w')) ∧ at_end w' f (l ++ concat bss).
Proof.
  intros Hd. revert w l. induction Hd as [|it bs its bss (k & v & Hk & Hv & Hpr & ->) _ IH]; intros w l Hf.
  { exists w. by rewrite app_nil_r. }
  cbn [dump_list concat]. rewrite (bind_run _ _ _ _ _ (heap_IMSG_run m w _ _ _ Hv Hpr)).
  destruct (write_from_run m w f _ _ _ l Hk) as (r1 & w1 & E1 & Hf1); [done..|].
  rewrite (bind_run _ _ _ _ _ E1).
  destruct (write_from_run m w1 f _ _ _ (l ++ k) Hv) as (r2 & w2 & E2 & Hf2); [done..|].
  rewrite (bind_run _ _ _ _ _ E2), bind_ret_l. destruct (IH w2 _ Hf2) as (w' & E & Hf').
  exists w'. split; [done|]. rewrite <- !(assoc_L (++)) in Hf'. rewrite <- (assoc_L (++)). exact Hf'.
Qed.

Definition bucket_dumped (m : mem) (its : list item) (bs : bytes) : Prop :=
  ∃ bss, Forall2 (dumped m) its bss ∧ bs = concat bss.

Lemma dump_buckets_run h m f todo i bss w l :
  (i + todo = length (h_items h))%nat → Forall2 (bucket_dumped m) (drop i (h_items h)) bss → at_end w f l →
  ∃ w', dump_buckets todo i h f None (m, w) = Ret (tt, (m, w')) ∧ at_end w' f (l ++ concat bss).
Proof.
  revert i bss w l. induction todo as [|todo IH]; intros i bss w l Hi Hd Hf.
  { rewrite drop_ge in Hd by lia. apply Forall2_nil_inv_l in Hd as ->. exists w. by rewrite app_nil_r. }
  cbn [dump_buckets]. destruct (h_items h !! i) as [its|] eqn:Hl; [|apply lookup_ge_None in Hl; lia].
  change (lift (Some its)) with (ret (S:=mem * W) its). rewrite bind_ret_l. rewrite (drop_S _ its i Hl) in Hd.
  apply Forall2_cons_inv_l in Hd as (bs & bss' & (bs0 & Hb & ->) & Hd & ->).
  destruct (dump_list_run m f its bs0 w l Hb Hf) as (w1 & E1 & Hf1). rewrite (bind_run _ _ _ _ _ E1).
  destruct (IH (S i) bss' w1 _ ltac:(lia) Hd Hf1) as (w' & E & Hf'). exists w'. split; [done|].
  cbn [concat]. by rewrite (assoc_L (++)).
Qed.

(** An empty map is not looked at. *)
Lemma hm_dump_run h m f bss w l :
  length (h_items h) = Z.to_nat (h_size h) → Forall2 (bucket_dumped m) (h_items h) bss →
  (h_count h = 0 → concat bss = []) → at_end w f l →
  ∃ w', hm_dump h f None (m, w) = Ret (tt, (m, w')) ∧ at_end w' f (l ++ concat bss).
Proof.
  intros Hl Hd Hc Hf. unfold hm_dump. case_decide as Hz.
  - exists w. by rewrite (Hc Hz), app_nil_r.
  - apply dump_buckets_run; [lia|by rewrite drop_0|done].
Qed.
End dump.
