(* ===== verification/MapLife.v ===== *)
(** * The life of a map

[owned h m M]: the map stores the entries of [M], and the blocks of its nodes,
keys and values, of the array and of the structure can all be freed, each once.
Every operation keeps that, and says whose the blocks are afterwards; so a map
can be used through any sequence of operations, answers as the finite map, and is
freed whole at the end. *)
From S2P Require Import Prelude CMem Heap UteeVfs HashMap HashOwn.
#[local] Open Scope Z_scope.
#[local] Open Scope c_scope.

(** ** Which pointers, bucket by bucket *)

Lemma buckets_ptrs_split k l items :
  items !! k = Some l →
  ∃ rest, buckets_ptrs items ≡ₚ list_ptrs l ++ rest ∧
    ∀ l', buckets_ptrs (<[k := l']> items) ≡ₚ list_ptrs l' ++ rest.
Proof.
  intros Hk. exists (buckets_ptrs (take k items) ++ buckets_ptrs (drop (S k) items)).
  assert (∀ l', buckets_ptrs (take k items ++ l' :: drop (S k) items) ≡ₚ
    list_ptrs l' ++ buckets_ptrs (take k items) ++ buckets_ptrs (drop (S k) items)) as Hp.
  { intros l'. unfold buckets_ptrs. rewrite bind_app. cbn [mbind list_bind].
    rewrite !(assoc_L (++)). by rewrite (Permutation_app_comm (list_ptrs l')). }
  split.
  - rewrite <- (take_drop_middle items k l Hk) at 1. apply Hp.
  - intros l'. rewrite insert_take_drop by by apply lookup_lt_Some in Hk. apply Hp.
Qed.

Lemma buckets_ptrs_empty items n : buckets_ptrs (items ++ replicate n []) = buckets_ptrs items.
Proof.
  unfold buckets_ptrs. rewrite bind_app.
  assert (replicate n [] ≫= list_ptrs = []) as -> by (induction n; done). apply app_nil_r.
Qed.

Lemma list_ptrs_app l1 l2 : list_ptrs (l1 ++ l2) = list_ptrs l1 ++ list_ptrs l2.
Proof. apply bind_app. Qed.

Lemma node_in_map h i l it p :
  h_items h !! i = Some l → it ∈ l → p ∈ node_ptrs it → p ∈ map_ptrs h.
Proof.
  intros Hl Hit Hp. apply elem_of_app. left. apply list_elem_of_bind. exists l.
  split; [|by eapply list_elem_of_lookup_2]. apply list_elem_of_bind. by exists it.
Qed.

(** ** What a map owns *)
Record owned (h : hashmap) (m : mem) (M : gmap Z ptr) : Prop := {
  own_repr : hm_repr h m M;
  own_wf : mem_wf m;
  own_ptrs : freeable (map_ptrs h) m
}.

Section owned_lemmas.
Implicit Types (h : hashmap) (m : mem) (M : gmap Z ptr) (ps : list ptr).

Lemma freeable_grows ps m m' : grows m m' → freeable ps m → freeable ps m'.
Proof.
  intros Hg [Hnd Hh]. split; [done|]. eapply Forall_impl; [exact Hh|].
  intros p (b & d & -> & Hb). exists b, d. split; [done|by apply Hg].
Qed.

(** An [int] in a block that is not among those freed. *)
Lemma freed_holds ps m m' p k :
  freed ps m m' → (∀ b o, p = Ptr b o → Ptr b 0 ∉ ps) → holds_int m p k → holds_int m' p k.
Proof.
  intros [_ Hf] Hp [Hk ?]. split; [|done]. apply peek_Some in Hk as (b & o & kd & d & -> & Hb & Hr).
  apply peek_Some. exists b, o, kd, d. split; [done|]. split; [|done].
  rewrite Hf, decide_False; [done|by eapply Hp].
Qed.

(** The array is owned. *)
Lemma owned_array h m M :
  owned h m M → ∃ a, h_items_ptr h = Ptr a 0 ∧ ∀ ps, freeable (ps ++ map_ptrs h) m → Ptr a 0 ∉ ps.
Proof.
  intros [Hr _ _]. destruct (repr_array _ _ _ Hr) as (a & d & Ha & _). exists a. split; [done|].
  intros ps [Hnd _] Hin. apply NoDup_app in Hnd as (_ & Hd & _). apply (Hd _ Hin).
  unfold map_ptrs. rewrite Ha. apply elem_of_app. right. by left.
Qed.

(** A heap block that something else starts is not the array. *)
Lemma not_in_array h m M p ps :
  owned h m M → freeable (p :: ps ++ map_ptrs h) m → ∀ a o, h_items_ptr h = Ptr a 0 → p ≠ Ptr a o.
Proof.
  intros Ho Hf a o Ha ->. destruct (owned_array _ _ _ Ho) as (a' & Ha' & Hn). rewrite Ha in Ha'. injection Ha' as <-.
  pose proof Hf as [_ [(b & d & [= <- ->] & _) _]%Forall_cons].
  apply (Hn (Ptr a 0 :: ps) Hf). by left.
Qed.
End owned_lemmas.

(** ** Time passes

A block that was freed stays freed: the addresses of new blocks are new. *)
Definition later (m m' : mem) : Prop :=
  m_next m ≤ m_next m' ∧ ∀ b, b < m_next m → m_blocks m !! b = None → m_blocks m' !! b = None.

Definition dead (m : mem) (p : ptr) : Prop :=
  ∃ b, p = Ptr b 0 ∧ b < m_next m ∧ m_blocks m !! b = None.

#[export] Instance later_preorder : PreOrder later.
Proof.
  split; [by intros m|]. intros m1 m2 m3 [H1 H1'] [H2 H2']. split; [lia|].
  intros b Hb Hn. apply H2'; [lia|by apply H1'].
Qed.

Lemma dead_later m m' p : later m m' → dead m p → dead m' p.
Proof. intros [Hn Hl] (b & -> & Hb & Hd). exists b. split_and!; [done|lia|by apply Hl]. Qed.

Lemma freed_dead ps m m' b : freed ps m m' → mem_wf m → live m b → Ptr b 0 ∈ ps → dead m' (Ptr b 0).
Proof.
  intros [Hn Hf] Hwf Hl Hin. exists b. split; [done|]. rewrite Hn. split; [by apply mem_wf_live_lt|].
  by rewrite Hf, decide_True.
Qed.

Lemma freed_later ps m m' : freed ps m m' → later m m'.
Proof. intros [Hn Hf]. split; [lia|]. intros b _ Hb. rewrite Hf. by case_decide. Qed.

(** Pointers that the map has taken over: it still has them, or they are dead. *)
Definition kept (ps : list ptr) (h : hashmap) (m : mem) : Prop :=
  ∀ p, p ∈ ps → p ∈ map_ptrs h ∨ dead m p.

Lemma kept_app ps qs h m : kept (ps ++ qs) h m ↔ kept ps h m ∧ kept qs h m.
Proof.
  split.
  - intros Hk. split; intros p Hp; apply Hk, elem_of_app; tauto.
  - intros [Hp Hq] p [?|?]%elem_of_app; [by apply Hp|by apply Hq].
Qed.

Lemma kept_later ps h m h' m' : kept ps h m → later m m' → kept (map_ptrs h) h' m' → kept ps h' m'.
Proof. intros Hk Hl Hh p [Hp|Hp]%Hk; [by apply Hh|right; by eapply dead_later]. Qed.

Lemma kept_self h m : kept (map_ptrs h) h m.
Proof. intros p Hp. by left. Qed.

(** Whatever an operation does, time passes. *)
Definition ages {A} (c : C mem A) : Prop := ∀ m r m', c m = Ret (r, m') → later m m'.

Section ages.
Context `{TeeMalloc}.

Lemma ages_ret {A} (a : A) : ages (ret a).
Proof. by intros m r m' [= _ <-]. Qed.
Lemma ages_lift {A} (o : option A) : ages (lift o).
Proof. intros m r m'. unfold lift. destruct o; [by intros [= _ <-]|done]. Qed.
Lemma ages_bind {A B} (c : C mem A) (k : A → C mem B) : ages c → (∀ a, ages (k a)) → ages (bind c k).
Proof.
  intros Hc Hk m r m' (a & m1 & E1 & E2)%bind_inv. transitivity m1; [by eapply Hc|by eapply Hk].
Qed.
Lemma ages_load_int p : ages (load_int p).
Proof. intros m r m'. apply ages_lift. Qed.
Lemma ages_store p bs : ages (store p bs).
Proof.
  intros m r m'. unfold store, update. destruct (poke p bs m) as [m1|] eqn:E; [|done].
  intros [= _ <-]. apply poke_Some in E as (b & o & k & d & _ & Hb & _ & _ & ->).
  split; [simpl; lia|]. intros c _ Hc. simpl. rewrite lookup_insert_ne; [done|]. intros ->. congruence.
Qed.
Lemma ages_free p : ages (TEE_Free p).
Proof.
  intros m r m'. unfold TEE_Free, free, update. destruct p as [|b o]; simpl; [by intros [= _ <-]|].
  destruct (m_blocks m !! b) as [[[] d]|]; try done. case_decide; [|done]. intros [= _ <-].
  split; [simpl; lia|]. intros c _ Hc. simpl. apply lookup_delete_None. by right.
Qed.
Lemma ages_alloc kd d : ages (alloc kd d).
Proof.
  intros m r m' [= _ <-]. split; [simpl; lia|]. intros b Hb Hn. simpl. by rewrite lookup_insert_ne by lia.
Qed.
Lemma ages_malloc n : ages (TEE_Malloc n).
Proof.
  intros m r m'. unfold TEE_Malloc. destruct (tee_oom m n); [by intros [= _ <-]|]. apply ages_alloc.
Qed.
Lemma ages_realloc p n : ages (TEE_Realloc p n).
Proof.
  intros m r m'. unfold TEE_Realloc. destruct (tee_oom m n); [by intros [= _ <-]|].
  apply ages_bind; [apply ages_alloc|]. intros q. apply ages_bind; [apply ages_free|]. intros _. apply ages_ret.
Qed.
Lemma ages_assign_key key from : ages (assign_key key from).
Proof.
  apply ages_bind; [apply ages_load_int|]. intros k. apply ages_bind; [apply ages_store|]. intros _. apply ages_ret.
Qed.
End ages.
#[export] Hint Resolve ages_ret ages_lift ages_load_int ages_store ages_free ages_malloc ages_realloc
  ages_assign_key : triple.

Ltac ages_step :=
  first
    [ solve [eauto with triple]
    | apply ages_bind; [|intros ?]
    | match goal with
      | |- ages (match ?x with _ => _ end) => destruct x
      | |- ages (if ?x then _ else _) => destruct x
      end ].

Section operations_age.
Context `{TeeMalloc}.

Lemma ages_set_item l key value : ages (set_item l key value).
Proof. induction l; simpl; repeat ages_step. Qed.
Lemma ages_update_item_list l it : ages (update_item_list l it).
Proof. induction l; simpl; repeat ages_step. Qed.
Lemma ages_hash key : ages (hash key).
Proof. unfold hash. repeat ages_step. Qed.
#[local] Hint Resolve ages_set_item ages_update_item_list ages_hash : triple.
Lemma ages_rehash_list l items : ages (rehash_list l items).
Proof. revert items. induction l; intros items; simpl; repeat ages_step. Qed.
#[local] Hint Resolve ages_rehash_list : triple.
Lemma ages_rehash_buckets todo i items : ages (rehash_buckets todo i items).
Proof. revert i items. induction todo; intros i items; simpl; repeat ages_step. Qed.
#[local] Hint Resolve ages_rehash_buckets : triple.
Lemma ages_hm_rehash h n : ages (hm_rehash h n).
Proof. unfold hm_rehash. repeat ages_step. Qed.
#[local] Hint Resolve ages_hm_rehash : triple.
Lemma ages_hm_set h key value : ages (hm_set h key value).
Proof. unfold hm_set. cbv zeta. repeat ages_step. Qed.
Lemma ages_hm_set_end h : ages (hm_set_end h).
Proof. unfold hm_set_end. repeat ages_step. Qed.
End operations_age.
#[export] Hint Resolve ages_hm_set ages_hm_set_end : triple.

(** ** Growing *)
Section growing.
Context `{TeeMalloc}.
Hypothesis memory : ∀ m n, tee_oom m n = false.
Implicit Types (h : hashmap) (m : mem) (M : gmap Z ptr) (ps : list ptr).

Lemma realloc_exact b d n m :
  mem_wf m → m_blocks m !! b = Some (Block Heap d) →
  TEE_Realloc (Ptr b 0) n m =
    Ret (Ptr (m_next m) 0,
         Mem (m_next m + 1)
             (delete b (<[m_next m := Block Heap (replicate (Z.to_nat n) 0)]> (m_blocks m)))).
Proof.
  intros Hwf Hb. unfold TEE_Realloc. rewrite memory.
  assert (b ≠ m_next m) as Hne by by intros ->; rewrite (mem_wf_fresh m Hwf) in Hb.
  erewrite bind_run by reflexivity. unfold bind, free, update, release. cbn [m_blocks].
  by rewrite lookup_insert_ne, Hb by done.
Qed.

(** The array moves; everything else stays, what others own included. *)
Lemma hm_rehash_owned ps h m M n h' m' :
  hm_repr h m M → mem_wf m → freeable (ps ++ map_ptrs h) m →
  hm_rehash h n m = Ret (h', m') →
  freeable (ps ++ map_ptrs h') m' ∧ kept (map_ptrs h) h' m'.
Proof.
  intros Hr Hwf Hf. unfold hm_rehash. case_decide; [intros [= <- <-]; split; [done|apply kept_self]|].
  destruct (repr_array _ _ _ Hr) as (a & d & Ha & Hd & Hsep). rewrite Ha.
  rewrite (bind_run _ _ _ _ _ (realloc_exact a d (sizeof_item * n) m Hwf Hd)), decide_False by done.
  set (m1 := Mem _ _). intros E. apply bind_inv in E as (items & m2 & E1 & E2). injection E2 as <- <-.
  assert (buckets_fit m1 (h_items h ++ replicate (Z.to_nat (n - h_size h)) [])) as Hfit.
  { intros i l [Hl|[_ Hl]]%lookup_app_Some.
    - destruct (repr_buckets_fit _ _ _ Hr i l Hl) as [Hk Hone]. split; [|done].
      apply Forall_forall. intros it Hit. pose proof (repr_keys_hold _ _ _ _ _ _ Hr Hl Hit) as Hh.
      assert (∀ o, i_key it ≠ Ptr a o) as Hka by by eapply Hsep.
      destruct (i_key it) as [|b o]; [by destruct Hh|]. destruct Hh as [Hh ?]. split; [|done].
      apply (peek_alloc_old m Heap (replicate (Z.to_nat (sizeof_item * n)) 0) _ _ _ Hwf) in Hh.
      unfold peek in *. unfold m1. cbn [m_blocks] in *. rewrite lookup_delete_ne; [done|].
      intros ->. by apply (Hka o).
    - apply lookup_replicate in Hl as [-> _]. split; [by apply Forall_nil|right; simpl; lia]. }
  destruct (repr_size _ _ _ Hr) as [Hs Hl].
  rewrite (rehash_buckets_same (Z.to_nat (h_size h)) 0 _ m1 Hfit) in E1
    by (rewrite length_app; lia). injection E1 as <- <-. split.
  2:{ intros p. unfold map_ptrs. cbn [h_items h_items_ptr h_ptr]. rewrite buckets_ptrs_empty, Ha.
      intros [Hp|[->|Hp]%elem_of_cons]%elem_of_app.
      - left. apply elem_of_app. by left.
      - right. exists a. split; [done|]. split; [|apply lookup_delete_eq].
        pose proof (mem_wf_live_lt _ _ Hwf (mk_is_Some _ _ Hd)). simpl. lia.
      - left. apply elem_of_app. right. by right. }
  unfold map_ptrs in *. cbn [h_items h_items_ptr h_ptr]. rewrite buckets_ptrs_empty.
  set (others := ps ++ buckets_ptrs (h_items h)).
  assert (ps ++ buckets_ptrs (h_items h) ++ [h_items_ptr h; h_ptr h] ≡ₚ Ptr a 0 :: others ++ [h_ptr h]) as Hp.
  { rewrite Ha. unfold others. rewrite (assoc_L (++)). by rewrite <- Permutation_middle. }
  rewrite Hp in Hf.
  assert (ps ++ buckets_ptrs (h_items h) ++ [Ptr (m_next m) 0; h_ptr h] ≡ₚ
          Ptr (m_next m) 0 :: others ++ [h_ptr h]) as ->.
  { unfold others. rewrite (assoc_L (++)). by rewrite <- Permutation_middle. }
  destruct Hf as [[Hna Hnd]%NoDup_cons [_ Hh]%Forall_cons]. split.
  - apply NoDup_cons. split; [|done]. by eapply freeable_lt; [split|..|reflexivity].
  - apply Forall_cons. split.
    + eexists _, _. split; [done|]. simpl. rewrite lookup_delete_ne; [apply lookup_insert_eq|].
      intros Heq. by rewrite Heq, mem_wf_fresh in Hd.
    + apply Forall_forall. intros p Hin. rewrite Forall_forall in Hh.
      destruct (Hh p Hin) as (b & db & -> & Hb). exists b, db. split; [done|]. simpl.
      rewrite lookup_delete_ne by (by intros <-).
      rewrite lookup_insert_ne; [done|]. intros Heq. by rewrite <- Heq, mem_wf_fresh in Hb.
Qed.

Lemma hm_set_end_owned ps h m M :
  hm_repr h m M → mem_wf m → freeable (ps ++ map_ptrs h) m →
  ∃ h' m', hm_set_end h m = Ret ((SUCCESS, h'), m') ∧ owned h' m' M ∧
    freeable (ps ++ map_ptrs h') m' ∧ kept (map_ptrs h) h' m'.
Proof.
  intros Hr Hwf Hf.
  destruct (hm_set_end_run memory h m M Hr Hwf) as (h' & m' & E & Hr' & Hwf' & _).
  assert (freeable (ps ++ map_ptrs h') m' ∧ kept (map_ptrs h) h' m') as [Hf' Hc].
  { unfold hm_set_end in E.
    destruct (overloaded _ _ _); [|injection E as <- <-; split; [done|apply kept_self]].
    apply bind_inv in E as (h1 & m1 & E1 & E2). injection E2 as <- <-.
    by eapply hm_rehash_owned. }
  exists h', m'. split; [done|]. split; [|done]. split; [done|done|]. by eapply freeable_tail.
Qed.
End growing.

(** ** Each operation *)
Section owned_operations.
Context `{TeeMalloc}.
Hypothesis memory : ∀ m n, tee_oom m n = false.
Implicit Types (h : hashmap) (m : mem) (M : gmap Z ptr) (ps : list ptr).

(** One bucket, and what the map owns besides. *)
Lemma map_ptrs_split h k l :
  h_items h !! k = Some l →
  ∃ rest, map_ptrs h ≡ₚ list_ptrs l ++ rest ∧
    (∀ l' c, map_ptrs (set_count (set_items h (<[k := l']> (h_items h))) c) ≡ₚ list_ptrs l' ++ rest) ∧
    (∀ i l' it p, i ≠ k → h_items h !! i = Some l' → it ∈ l' → p ∈ node_ptrs it → p ∈ rest) ∧
    h_items_ptr h ∈ rest.
Proof.
  intros Hk. destruct (buckets_ptrs_split k l _ Hk) as (rest & Hp & Hp').
  exists (rest ++ [h_items_ptr h; h_ptr h]). unfold map_ptrs. split_and!.
  - by rewrite Hp, <- (assoc_L (++)).
  - intros l' c. simpl. by rewrite Hp', <- (assoc_L (++)).
  - intros i l' it p Hne Hi Hit Hin. apply elem_of_app. left.
    assert (rest ≡ₚ buckets_ptrs (<[k := []]> (h_items h))) as -> by by rewrite (Hp' []).
    apply list_elem_of_bind. exists l'. split; [apply list_elem_of_bind; by exists it|].
    apply (list_elem_of_lookup_2 _ i). by rewrite list_lookup_insert_ne.
  - apply elem_of_app. right. by left.
Qed.

(** The keys of the map survive the freeing of anything but them. *)
Lemma keys_survive fs rest h m M m' k :
  owned h m M → map_ptrs h ≡ₚ fs ++ rest → freed fs m m' →
  (∀ i l it, h_items h !! i = Some l → it ∈ l → i ≠ k → i_key it ∈ rest) →
  ∀ i l it, h_items h !! i = Some l → it ∈ l → i ≠ k ∨ i_key it ∈ rest →
    holds_int m' (i_key it) (Z.of_nat i).
Proof.
  intros [Hr _ Hf] Hp Hfr Hrest i l it Hl Hit Hor.
  assert (i_key it ∈ rest) as Hin by (destruct Hor; [by eapply Hrest|done]).
  apply (freed_holds fs m); [done| |by eapply repr_keys_hold].
  rewrite Hp in Hf. destruct Hf as [Hnd Hh]. apply NoDup_app in Hnd as (_ & Hd & _).
  apply Forall_app in Hh as [_ Hh]. rewrite Forall_forall in Hh.
  intros b o Hbo Hfs. destruct (Hh _ Hin) as (b' & d & Hb' & _). rewrite Hb' in Hbo.
  injection Hbo as <- <-. rewrite Hb' in Hin. by apply (Hd _ Hfs).
Qed.

Lemma set_new_owned ps h m M key value k :
  owned h m M → holds_int m key k → 0 ≤ k < h_size h → M !! k = None →
  freeable (key :: value :: ps ++ map_ptrs h) m →
  ∃ h' m', hm_set h key value m = Ret ((SUCCESS, h'), m') ∧
    owned h' m' (if decide (k = 0) then M else <[k := value]> M) ∧ freeable (ps ++ map_ptrs h') m' ∧
    kept (key :: value :: map_ptrs h) h' m'.
Proof.
  intros Ho Hk Hrange HM Hf. pose proof Ho as [Hr Hwf _].
  destruct (repr_lookup _ _ _ _ Hr Hrange) as [l Hl].
  destruct (hm_set_new_mid memory h m M key value k l Hr Hwf Hk Hrange HM)
    as (m1 & -> & Hr1 & Hwf1 & Hg & Ht); [by apply (not_in_array h m M key (value :: ps))|done|].
  destruct (map_ptrs_split h _ _ Hl) as (rest & Hp & Hp' & _ & _).
  set (it := Item (Ptr (m_next m) 0) key value) in *.
  destruct (hm_set_end_owned memory ps _ m1 _ Hr1 Hwf1) as (h' & m' & E & Ho' & Hf' & Hkept).
  - rewrite Hp', list_ptrs_app.
    assert (ps ++ (list_ptrs l ++ list_ptrs [it]) ++ rest ≡ₚ
            Ptr (m_next m) 0 :: key :: value :: ps ++ list_ptrs l ++ rest) as ->.
    { change (list_ptrs [it]) with [key; value; Ptr (m_next m) 0].
      rewrite <- (assoc_L (++)). simpl. solve_Permutation. }
    apply freeable_cons; [|done|].
    + apply (freeable_grows _ m); [done|]. by rewrite <- Hp.
    + rewrite <- Hp. by eapply freeable_lt.
  - exists h', m'. do 3 (split; [done|]). intros p Hin. apply Hkept.
    rewrite Hp', list_ptrs_app. rewrite Hp in Hin. change (list_ptrs [it]) with [key; value; Ptr (m_next m) 0].
    rewrite !elem_of_cons, !elem_of_app in Hin. rewrite !elem_of_app, !elem_of_cons. tauto.
Qed.

(** The bucket of a key that is in the map. *)
Lemma owned_bucket h m M k v :
  owned h m M → M !! k = Some v → ∃ it, h_items h !! Z.to_nat k = Some [it] ∧ i_value it = v.
Proof.
  intros [Hr _ _] HM. pose proof (repr_dom _ _ _ Hr _ _ HM) as Hk.
  destruct (repr_lookup h m M k Hr ltac:(lia)) as [l Hl].
  pose proof (repr_bucket _ _ _ Hr (Z.to_nat k) l ltac:(lia) Hl) as Hb.
  rewrite Z2Nat.id in Hb by lia. destruct l as [|it [|? ?]]; simpl in Hb; [congruence| |done].
  exists it. split; [done|]. destruct Hb. congruence.
Qed.

(** Freeing part of what can be freed. *)
Lemma free_part p qs m :
  freeable (p :: qs) m →
  ∃ m', TEE_Free p m = Ret (tt, m') ∧ freed [p] m m' ∧ freeable qs m'.
Proof.
  intros Hf. destruct (free_one p m) as (m' & E & Hfr); [by apply (freeable_app [p] qs)|].
  exists m'. split; [done|]. split; [done|]. by apply (freed_freeable [p] qs m).
Qed.

Lemma set_replace_owned ps h m M key value k v0 :
  owned h m M → holds_int m key k → M !! k = Some v0 → freeable (value :: ps ++ map_ptrs h) m →
  ∃ h' m', hm_set h key value m = Ret ((SUCCESS, h'), m') ∧
    owned h' m' (<[k := value]> M) ∧ freeable (ps ++ map_ptrs h') m' ∧ kept (value :: map_ptrs h) h' m'.
Proof.
  intros Ho Hk HM Hf. pose proof Ho as [Hr Hwf _].
  pose proof (repr_dom _ _ _ Hr _ _ HM) as Hrange.
  destruct (owned_bucket _ _ _ _ _ Ho HM) as (it & Hl & Hv).
  destruct (map_ptrs_split h _ _ Hl) as (rest & Hp & Hp' & Hrest & Harr).
  change (list_ptrs [it]) with [i_key it; i_value it; i_ptr it] in Hp. rewrite Hv in Hp.
  assert (value :: ps ++ map_ptrs h ≡ₚ v0 :: value :: ps ++ i_key it :: i_ptr it :: rest) as Hq
    by (rewrite Hp; simpl; solve_Permutation).
  rewrite Hq in Hf.
  destruct (free_part _ _ _ Hf) as (m1 & E1 & Hfr & Hf1).
  assert (v0 ∉ i_key it :: i_ptr it :: rest) as Hv0.
  { destruct Hf as [[Hn _]%NoDup_cons _]. intros Hin. apply Hn. right. apply elem_of_app. by right. }
  destruct (hm_set_update_mid h m M key value k v0 m1 Hr Hwf Hk Hrange HM) as (it' & Hl' & _ & Hwf1 & E & Hr1).
  - destruct Hf as [[Hn _]%NoDup_cons _]. intros ->. apply Hn. by left.
  - done.
  - intros a o Ha ->. destruct Hf as [_ [(b & d & [= <- ->] & _) _]%Forall_cons].
    apply Hv0. do 2 right. by rewrite <- Ha.
  - intros i l x Hli Hx.
    assert (i_key x ∈ i_key it :: i_ptr it :: rest) as Hin.
    { destruct (decide (i = Z.to_nat k)) as [->|Hne].
      - rewrite Hl in Hli. injection Hli as <-. apply list_elem_of_singleton in Hx as ->. by left.
      - do 2 right. eapply Hrest; [exact Hne|exact Hli|exact Hx|by left]. }
    eapply (keys_survive [v0] (i_key it :: i_ptr it :: rest) h m M m1 0%nat); try done.
    + rewrite Hp. solve_Permutation.
    + intros i' l' x' Hl2 Hx' _. destruct (decide (i' = Z.to_nat k)) as [->|Hne].
      * rewrite Hl in Hl2. injection Hl2 as <-. apply list_elem_of_singleton in Hx' as ->. by left.
      * do 2 right. eapply Hrest; [exact Hne|exact Hl2|exact Hx'|by left].
    + by right.
  - rewrite Hl in Hl'. injection Hl' as <-. cbv zeta in E, Hr1. rewrite E.
    destruct (hm_set_end_owned memory ps _ m1 _ Hr1 Hwf1) as (h' & m' & E' & Ho' & Hf' & Hkept).
    + rewrite Hp'. assert (ps ++ list_ptrs [Item (i_ptr it) (i_key it) value] ++ rest ≡ₚ
        value :: ps ++ i_key it :: i_ptr it :: rest) as -> by (simpl; solve_Permutation). done.
    + exists h', m'. do 3 (split; [done|]). intros p Hin. rewrite Hp in Hin.
      destruct (decide (p = v0)) as [->|Hne].
      * right. eapply dead_later; [by eapply ages_hm_set_end|].
        pose proof Hf as [_ [(b & d & -> & Hb) _]%Forall_cons].
        eapply (freed_dead _ m); [exact Hfr|done|by eexists|by left].
      * apply Hkept. rewrite Hp'. simpl in *. rewrite !elem_of_cons in Hin. rewrite !elem_of_cons. tauto.
Qed.

(** Nothing under the key 0 is found. *)
Lemma remove_item_zero m l key :
  holds_int m key 0 → keys_hold m 0 l → remove_item l key m = Ret ((l, 0), m).
Proof.
  intros Hk Hl. induction Hl as [|it l Hit _ IH]; [done|]. simpl.
  rewrite (bind_run _ _ _ _ _ (assign_key_run _ _ _ _ Hk Hit)), decide_False by naive_solver.
  by rewrite (bind_run _ _ _ _ _ IH).
Qed.

Lemma hm_unset_run h key k m l :
  holds_int m key k → 0 ≤ k → h_items h !! Z.to_nat k = Some l →
  hm_unset h key m =
  (let! '(l, counter) := remove_item l key in
   ret (SUCCESS, set_count (set_items h (<[Z.to_nat k := l]> (h_items h)))
                   (u32 (h_count h + counter)))) m.
Proof.
  intros Hk Hpos Hl. unfold hm_unset. rewrite (bind_run _ _ _ _ _ (hash_run _ _ _ Hk)).
  rewrite u32_index by (destruct Hk as [_ Hk]; unfold in_signed in Hk; lia). by rewrite Hl.
Qed.

(** Removing an entry frees its key, its value and its node. *)
Lemma unset_owned ps h m M key k v :
  owned h m M → holds_int m key k → M !! k = Some v → freeable (ps ++ map_ptrs h) m →
  ∃ h' m' it, hm_unset h key m = Ret ((SUCCESS, h'), m') ∧ owned h' m' (delete k M) ∧
    freeable (ps ++ map_ptrs h') m' ∧ h_items h !! Z.to_nat k = Some [it] ∧
    freed (node_ptrs it) m m' ∧ map_ptrs h ≡ₚ node_ptrs it ++ map_ptrs h' ∧ kept (map_ptrs h) h' m'.
Proof.
  intros Ho Hk HM Hf. pose proof Ho as [Hr Hwf _].
  pose proof (repr_dom _ _ _ Hr _ _ HM) as Hrange.
  destruct (owned_bucket _ _ _ _ _ Ho HM) as (it & Hl & Hv).
  destruct (map_ptrs_split h _ _ Hl) as (rest & Hp & Hp' & Hrest & Harr).
  change (list_ptrs [it]) with (node_ptrs it) in Hp.
  pose proof (repr_keys_hold _ _ _ _ _ it Hr Hl ltac:(by left)) as Hit. rewrite Z2Nat.id in Hit by lia.
  rewrite (hm_unset_run h key k m [it] Hk ltac:(lia) Hl).
  set (h' := set_count (set_items h (<[Z.to_nat k := []]> (h_items h))) (u32 (h_count h + -1))).
  assert (map_ptrs h' ≡ₚ rest) as Hp0 by exact (Hp' [] _).
  assert (freeable (node_ptrs it ++ ps ++ rest) m) as Hf'.
  { assert (node_ptrs it ++ ps ++ rest ≡ₚ ps ++ map_ptrs h) as -> by (rewrite Hp; solve_Permutation). done. }
  destruct (free_part _ _ _ Hf') as (m1 & E1 & F1 & Hf1).
  destruct (free_part _ _ _ Hf1) as (m2 & E2 & F2 & Hf2).
  destruct (free_part _ _ _ Hf2) as (m3 & E3 & F3 & Hf3).
  assert (freed (node_ptrs it) m m3) as F
    by exact (freed_app [_] [_; _] m m1 m3 F1 (freed_app [_] [_] m1 m2 m3 F2 F3)).
  exists h', m3, it. split; [|split; [|split; [|split; [done|split; [exact F|]]]]].
  - assert (remove_item [it] key m = Ret (([], -1), m3)) as E; [|by rewrite (bind_run _ _ _ _ _ E)].
    simpl. rewrite (bind_run _ _ _ _ _ (assign_key_run _ _ _ _ Hk Hit)), decide_True by lia.
    by rewrite (bind_run _ _ _ _ _ E1), (bind_run _ _ _ _ _ E2), (bind_run _ _ _ _ _ E3).
  - split; [|by eapply freed_wf|].
    + apply (repr_insert h m M k [] m3); [done|lia| | |].
      * intros i li x Hne Hi Hx Hh.
        eapply (keys_survive (node_ptrs it) rest h m M m3 (Z.to_nat k)); try done; [|by left].
        intros i' l' x' Hl' Hx' Hne'. eapply Hrest; [exact Hne'|exact Hl'|exact Hx'|by left].
      * pose proof (freeable_tail ps rest m3 Hf3) as [_ Hh]. rewrite Forall_forall in Hh.
        destruct (Hh _ Harr) as (a & d & Ha & Hd). exists a, d. split_and!; [done|done|].
        by intros x Hx%not_elem_of_nil.
      * right. right. split_and!; [lia|done|done].
    + rewrite Hp0. by eapply freeable_tail.
  - rewrite Hp0. exact Hf3.
  - split; [by rewrite Hp0|]. intros p Hin. rewrite Hp in Hin. apply elem_of_app in Hin as [Hin|Hin].
    + right. destruct Hf' as [_ Hh]. apply Forall_app in Hh as [Hh _]. rewrite Forall_forall in Hh.
      destruct (Hh p Hin) as (b & d & -> & Hb). eapply (freed_dead _ m); [exact F|done|by eexists|done].
    + left. by rewrite Hp0.
Qed.
End owned_operations.

(** ** Sequences of operations

An operation names the addresses that are passed and the [int] behind the key. *)
Inductive map_op : Type :=
| OpSet (k : Z) (key value : ptr)
| OpGet (k : Z) (key : ptr)
| OpIsset (k : Z) (key : ptr)
| OpUnset (k : Z) (key : ptr).

Inductive map_answer : Type :=
| Status (z : Z)
| Value (p : ptr).

Section sequences.
Context `{TeeMalloc}.
Implicit Types (h : hashmap) (m : mem) (M : gmap Z ptr).

Definition do_op (h : hashmap) (op : map_op) : C mem (map_answer * hashmap) :=
  match op with
  | OpSet _ key value => let! '(r, h) := hm_set h key value in ret (Status r, h)
  | OpGet _ key => let! p := hm_get h key in ret (Value p, h)
  | OpIsset _ key => let! r := hm_isset h key in ret (Status r, h)
  | OpUnset _ key => let! '(r, h) := hm_unset h key in ret (Status r, h)
  end.

Fixpoint run_ops (h : hashmap) (ops : list map_op) : C mem (list map_answer * hashmap) :=
  match ops with
  | [] => ret ([], h)
  | op :: ops =>
      let! '(a, h) := do_op h op in
      let! '(l, h) := run_ops h ops in
      ret (a :: l, h)
  end.

(** The same on a finite map: the key 0 is never found. *)
Definition spec_op (M : gmap Z ptr) (op : map_op) : map_answer * gmap Z ptr :=
  match op with
  | OpSet k _ value => (Status SUCCESS, if decide (k = 0) then M else <[k := value]> M)
  | OpGet k _ => (Value (default NULL (M !! k)), M)
  | OpIsset k _ => (Status (if decide (is_Some (M !! k)) then 1 else 0), M)
  | OpUnset k _ => (Status SUCCESS, delete k M)
  end.

Fixpoint spec_ops (M : gmap Z ptr) (ops : list map_op) : list map_answer * gmap Z ptr :=
  match ops with
  | [] => ([], M)
  | op :: ops =>
      let '(a, M) := spec_op M op in
      let '(l, M) := spec_ops M ops in
      (a :: l, M)
  end.

(** The blocks the map takes over: the value, and the key of a new entry. *)
Definition given (M : gmap Z ptr) (op : map_op) : list ptr :=
  match op with
  | OpSet k key value => match M !! k with Some _ => [value] | None => [key; value] end
  | _ => []
  end.

Fixpoint all_given (M : gmap Z ptr) (ops : list map_op) : list ptr :=
  match ops with
  | [] => []
  | op :: ops => given M op ++ all_given (spec_op M op).2 ops
  end.

(** What the caller owes: the key is an [int] within the array; what is stored is
    the caller's to give, the key too when it is new. *)
Definition allowed (M : gmap Z ptr) (h : hashmap) (m : mem) (op : map_op) : Prop :=
  match op with
  | OpSet k key value =>
      holds_int m key k ∧ 0 ≤ k < h_size h ∧
      freeable (given M op ++ map_ptrs h) m
  | OpGet k key | OpIsset k key | OpUnset k key => holds_int m key k ∧ 0 ≤ k < h_size h
  end.

Fixpoint legal (M : gmap Z ptr) (h : hashmap) (m : mem) (ops : list map_op) : Prop :=
  match ops with
  | [] => True
  | op :: ops =>
      allowed M h m op ∧
      ∀ a h' m', do_op h op m = Ret ((a, h'), m') → legal (spec_op M op).2 h' m' ops
  end.
End sequences.

Section life.
Context `{TeeMalloc}.
Hypothesis memory : ∀ m n, tee_oom m n = false.
Implicit Types (h : hashmap) (m : mem) (M : gmap Z ptr).

Lemma owned_count h m M c : owned h m M → owned (set_count h c) m M.
Proof. intros [[] ? ?]. by split. Qed.

Lemma hm_unset_absent h m M key k :
  owned h m M → holds_int m key k → 0 ≤ k < h_size h → M !! k = None →
  ∃ c, hm_unset h key m = Ret ((SUCCESS, set_count h c), m).
Proof.
  intros [Hr _ _] Hk Hrange HM. destruct (repr_lookup _ _ _ _ Hr Hrange) as [l Hl].
  rewrite (hm_unset_run h key k m l Hk ltac:(lia) Hl). eexists.
  assert (remove_item l key m = Ret ((l, 0), m)) as E.
  { destruct (decide (k = 0)) as [->|Hk0].
    - destruct (repr_zero _ _ _ Hr) as (l0 & Hl0 & Hz). change (Z.to_nat 0) with 0%nat in Hl.
      rewrite Hl0 in Hl. injection Hl as <-. by apply remove_item_zero.
    - pose proof (repr_bucket _ _ _ Hr (Z.to_nat k) l ltac:(lia) Hl) as Hb.
      rewrite Z2Nat.id in Hb by lia. destruct l as [|it [|? ?]]; simpl in Hb; [done| |done].
      destruct Hb. congruence. }
  rewrite (bind_run _ _ _ _ _ E), list_insert_id by done. by destruct h.
Qed.

Lemma do_op_run h m M op :
  owned h m M → allowed M h m op →
  ∃ h' m', do_op h op m = Ret (((spec_op M op).1, h'), m') ∧ owned h' m' (spec_op M op).2 ∧
    kept (given M op ++ map_ptrs h) h' m' ∧ later m m'.
Proof.
  intros Ho. pose proof Ho as [Hr _ Hf].
  destruct op as [k key value|k key|k key|k key]; intros Ha; cbn [allowed do_op spec_op given] in *.
  - destruct Ha as (Hk & Hrange & Hfr). destruct (M !! k) as [v0|] eqn:HM; simpl in Hfr.
    + destruct (set_replace_owned memory [] h m M key value k v0) as (h' & m' & E & Ho' & _ & Hkept); try done.
      rewrite (bind_run _ _ _ _ _ E). exists h', m'. split; [done|]. simpl.
      split; [|split; [exact Hkept|by eapply ages_hm_set]].
      rewrite decide_False; [done|]. intros ->. apply (repr_dom _ _ _ Hr) in HM. lia.
    + destruct (set_new_owned memory [] h m M key value k) as (h' & m' & E & Ho' & _ & Hkept); try done.
      rewrite (bind_run _ _ _ _ _ E). exists h', m'. do 3 (split; [done|]). by eapply ages_hm_set.
  - destruct Ha as [Hk Hrange]. rewrite (bind_run _ _ _ _ _ (hm_get_run _ _ _ _ _ Hr Hk Hrange)).
    exists h, m. do 2 (split; [done|]). split; [apply kept_self|done].
  - destruct Ha as [Hk Hrange]. rewrite (bind_run _ _ _ _ _ (hm_isset_run _ _ _ _ _ Hr Hk Hrange)).
    exists h, m. do 2 (split; [done|]). split; [apply kept_self|done].
  - destruct Ha as [Hk Hrange]. destruct (M !! k) as [v|] eqn:HM.
    + destruct (unset_owned [] h m M key k v) as (h' & m' & it & E & Ho' & _ & _ & Hfr & _ & Hkept); try done.
      rewrite (bind_run _ _ _ _ _ E). exists h', m'. do 3 (split; [done|]). by eapply freed_later.
    + destruct (hm_unset_absent h m M key k) as [c E]; try done.
      rewrite (bind_run _ _ _ _ _ E). exists (set_count h c), m. split; [done|]. simpl.
      rewrite delete_id by done. split; [by apply owned_count|]. split; [exact (kept_self h m)|done].
Qed.

Lemma run_ops_run ops h m M G :
  owned h m M → kept G h m → legal M h m ops →
  ∃ h' m', run_ops h ops m = Ret (((spec_ops M ops).1, h'), m') ∧ owned h' m' (spec_ops M ops).2 ∧
    kept (G ++ all_given M ops) h' m'.
Proof.
  revert h m M G. induction ops as [|op ops IH]; intros h m M G Ho HG Hl.
  { exists h, m. simpl. by rewrite app_nil_r. }
  destruct Hl as [Ha Hl]. destruct (do_op_run h m M op Ho Ha) as (h1 & m1 & E1 & Ho1 & Hkept & Hlater).
  apply kept_app in Hkept as [Hgiven Hmap].
  destruct (IH h1 m1 (spec_op M op).2 (G ++ given M op) Ho1) as (h' & m' & E2 & Ho2 & Hk2).
  - apply kept_app. split; [by eapply kept_later|done].
  - by eapply Hl.
  - cbn [run_ops spec_ops all_given]. rewrite (bind_run _ _ _ _ _ E1), (bind_run _ _ _ _ _ E2).
    exists h', m'. rewrite (assoc_L (++)). destruct (spec_op M op) as [a M1]. simpl in *.
    by destruct (spec_ops M1 ops).
Qed.

Lemma create_owned size lf step m :
  mem_wf m → 0 < size < 1999993 →
  ∃ h m', hm_create size lf step m = Ret (Some h, m') ∧ owned h m' ∅ ∧ size < h_size h ∧ grows m m'.
Proof.
  intros Hwf Hs. destruct (hm_create_run memory size lf step m Hwf)
    as (h & m' & E & Hr & Hwf' & Hg & _ & Hsz & _ & _ & _ & Hip & Hhp & Hitems & d & Hd);
    [lia|apply next_size_small; lia|].
  exists h, m'. split; [done|]. split; [|done]. split; [done|done|].
  unfold map_ptrs. rewrite Hitems, Hip, Hhp.
  rewrite <- (app_nil_l (replicate _ [])), buckets_ptrs_empty. simpl. split.
  - apply NoDup_cons. split; [|apply NoDup_singleton]. intros [= Heq]%list_elem_of_singleton. lia.
  - destruct (repr_array _ _ _ Hr) as (a & da & Ha & Hda & _). rewrite Hip in Ha. injection Ha as <-.
    repeat constructor; by eexists _, _.
Qed.

(** C12: as long as no allocation fails, a map from its creation to its end is a
    finite map that leaks nothing of what it was given.  (Out of memory it is not:
    [hm_set] answers [SUCCESS] without storing, and a [TEE_Realloc] that fails loses
    the array.)  In an application whose every allocation succeeds, a map that
    [hm_create] made, used through any sequence of
    [hm_set], [hm_get], [hm_isset] and [hm_unset], answers each of them as the
    finite map of its entries would, whether an entry is new, replaced or removed
    and however often the array is enlarged; the key 0 is the one that is never
    found.  What the caller owes is that keys lie within the array and that what
    it stores is its own to give.  At the end [hm_delete] frees every block the map
    still has, each once, and no other; and every key and value that was given to
    the map at any time, stored, replaced or removed, has then been freed. *)
Theorem map_life size lf step m ops :
  mem_wf m → 0 < size < 1999993 →
  ∃ h m0, hm_create size lf step m = Ret (Some h, m0) ∧ size < h_size h ∧ grows m m0 ∧
    (legal ∅ h m0 ops →
     ∃ h' m' m'', run_ops h ops m0 = Ret (((spec_ops ∅ ops).1, h'), m') ∧
       hm_repr h' m' (spec_ops ∅ ops).2 ∧
       hm_delete h' None m' = Ret (SUCCESS, m'') ∧ freed (map_ptrs h') m' m'' ∧
       ∀ p, p ∈ all_given ∅ ops → dead m'' p).
Proof.
  intros Hwf Hs. destruct (create_owned size lf step m Hwf Hs) as (h & m0 & E & Ho & Hsz & Hg).
  exists h, m0. do 3 (split; [done|]). intros Hl.
  destruct (run_ops_run ops h m0 ∅ [] Ho) as (h' & m' & E' & [Hr' Hwf' Hf'] & Hkept);
    [by intros p ?%not_elem_of_nil|done|].
  destruct (hm_delete_run h' None m') as (m'' & E'' & Hfr); [done|apply (repr_size _ _ _ Hr')|done|].
  exists h', m', m''. do 4 (split; [done|]). intros p [Hin|Hd]%Hkept; [|by eapply dead_later; [eapply freed_later|]].
  destruct Hf' as [_ Hh]. rewrite Forall_forall in Hh. destruct (Hh p Hin) as (b & d & -> & Hb).
  eapply (freed_dead _ m'); [exact Hfr|done|by eexists|done].
Qed.

(** Removing an entry.  [hm_unset] of a key that is there takes exactly that entry
    out, and frees its key, its value and its node and nothing else; of a key that
    is not there, or of the key 0, it changes nothing but succeeds. *)
Theorem hm_unset_removes h m M key k :
  owned h m M → holds_int m key k → 0 ≤ k < h_size h →
  match M !! k with
  | Some v => ∃ h' m' it, hm_unset h key m = Ret ((SUCCESS, h'), m') ∧ owned h' m' (delete k M) ∧
      i_value it = v ∧ freed (node_ptrs it) m m' ∧ map_ptrs h ≡ₚ node_ptrs it ++ map_ptrs h'
  | None => ∃ c, hm_unset h key m = Ret ((SUCCESS, set_count h c), m)
  end.
Proof.
  intros Ho Hk Hrange. destruct (M !! k) as [v|] eqn:HM; [|by eapply hm_unset_absent].
  destruct (unset_owned [] h m M key k v) as (h' & m' & it & E & Ho' & _ & Hl & Hfr & Hp & _); try done;
    [exact (own_ptrs _ _ _ Ho)|].
  destruct (owned_bucket _ _ _ _ _ Ho HM) as (it' & Hl' & Hv). rewrite Hl in Hl'. injection Hl' as <-.
  by exists h', m', it.
Qed.
End life.

(** ** At work

A map of thirteen buckets, in which an entry is stored, replaced, looked up and
removed.  Blocks 1 and 2 hold the key 3, blocks 3 and 4 are values, block 5 is a
local variable that holds 3. *)
Module LifeExample.
#[local] Existing Instance Small.always.

Definition int_block (kd : bkind) (z : Z) : block := Block kd (le_bytes 4 (u32 z)).
Definition memory : mem := Mem 6 (<[1 := int_block Heap 3]> (<[2 := Block Heap (replicate 16 1)]>
  (<[3 := Block Heap (replicate 16 2)]> (<[4 := Block Heap (replicate 16 3)]>
  {[5 := int_block Stack 3]})))).

Definition ops : list map_op :=
  [OpSet 3 (Ptr 1 0) (Ptr 2 0); OpGet 3 (Ptr 5 0); OpSet 3 (Ptr 5 0) (Ptr 3 0);
   OpIsset 3 (Ptr 5 0); OpUnset 3 (Ptr 5 0); OpGet 3 (Ptr 5 0)].

Lemma life_memory_wf : mem_wf memory.
Proof.
  split; [done|]. intros b Hb. simpl in *. by rewrite !lookup_insert_ne, lookup_singleton_ne by lia.
Qed.

Definition created : hashmap * mem :=
  match hm_create 5 (float_of 1) 13 memory with
  | Ret (Some h, m) => (h, m) | _ => (Small.map, memory) end.

Lemma legal_cons M h m op ops a h' m' :
  allowed M h m op → do_op h op m = Ret ((a, h'), m') → legal (spec_op M op).2 h' m' ops →
  legal M h m (op :: ops).
Proof. intros Ha E Hl. split; [done|]. intros a2 h2 m2. rewrite E. by intros [= <- <- <-]. Qed.

Ltac holds_key := split; [split; [vm_compute; reflexivity|vm_compute; split; [discriminate|reflexivity]]|].
Ltac can_free :=
  split; [apply (bool_decide_unpack _); vm_compute; exact I|];
  vm_compute; repeat constructor; eexists _, _; split; reflexivity.
Ltac legal_step :=
  eapply legal_cons;
  [ holds_key; first [split; [vm_compute; split; [discriminate|reflexivity]|can_free]
                     |vm_compute; split; [discriminate|reflexivity]]
  | vm_compute; reflexivity | ].

Lemma ops_legal : legal ∅ created.1 created.2 ops.
Proof. do 6 legal_step. exact I. Qed.

Lemma map_life_witness :
  legal ∅ created.1 created.2 ops ∧
  ∃ h m0, hm_create 5 (float_of 1) 13 memory = Ret (Some h, m0) ∧ 5 < h_size h ∧ grows memory m0 ∧
    (legal ∅ h m0 ops →
     ∃ h' m' m'', run_ops h ops m0 =
         Ret (([Status 1; Value (Ptr 2 0); Status 1; Status 1; Status 1; Value NULL], h'), m') ∧
       hm_repr h' m' (spec_ops ∅ ops).2 ∧ hm_delete h' None m' = Ret (SUCCESS, m'') ∧
       freed (map_ptrs h') m' m'' ∧
       ∀ p, p ∈ [Ptr 1 0; Ptr 2 0; Ptr 3 0] → dead m'' p).
Proof.
  split; [exact ops_legal|].
  apply (map_life (λ _ _, eq_refl) 5 (float_of 1) 13 memory ops life_memory_wf). lia.
Defined.
End LifeExample.
