(* ===== verification/Gp.v ===== *)
(** * The cryptographic operations of the trusted application's API

[TeeCrypto K] is the part of the GlobalPlatform internal API that the codec
calls; [K] is the state behind it.  A handle is an integer, with [0] for
[TEE_HANDLE_NULL]; buffers are passed and returned by value.

[GpLaws] states what the specification of the API promises when its resources
suffice: an operation is allocated for one mode, is given a key held by a
transient object, is started with a nonce, and then encrypts or decrypts one
message.  The cipher itself is any pair of functions with the laws of
authenticated encryption.  [Toy] is a concrete implementation. *)
From S2P Require Import Prelude.
#[local] Open Scope Z_scope.
#[local] Open Scope c_scope.

Definition TEE_HANDLE_NULL : Z := 0.
Definition TEE_ALG_AES_GCM : Z := 0x40000810.
Definition TEE_MODE_ENCRYPT : Z := 0.
Definition TEE_MODE_DECRYPT : Z := 1.
Definition TEE_TYPE_AES : Z := 0xA0000010.
Definition TEE_ATTR_SECRET_VALUE : Z := 0xC0000000.
Definition TEE_OK : Z := 0.
Definition TEE_ERROR_MAC_INVALID : Z := 0xFFFF3071.

Class TeeCrypto (K : Type) : Type := {
  (** algorithm, mode and key size; the result, and the handle stored *)
  TEE_AllocateOperation : Z → Z → Z → C K (Z * option Z);
  TEE_FreeOperation : Z → C K unit;
  (** type and key size; the result, and the handle stored *)
  TEE_AllocateTransientObject : Z → Z → C K (Z * option Z);
  TEE_FreeTransientObject : Z → C K unit;
  (** the object, and the identifier and buffer of its only attribute *)
  TEE_PopulateTransientObject : Z → Z → bytes → C K Z;
  TEE_SetOperationKey : Z → Z → C K Z;
  (** nonce, tag length in bits, lengths of the associated data and payload *)
  TEE_AEInit : Z → bytes → Z → Z → Z → C K Z;
  (** source, and the room for destination and tag; what is written to both *)
  TEE_AEEncryptFinal : Z → bytes → Z → Z → C K (Z * bytes * bytes);
  (** source, room for the destination, and tag; what is written *)
  TEE_AEDecryptFinal : Z → bytes → Z → bytes → C K (Z * bytes)
}.

(** ** What the specification promises *)

(** The state of an operation: its mode, its key and the nonce it was started
    with. *)
Record operation : Type := Operation {
  op_mode : Z; op_key : option bytes; op_nonce : option bytes }.

Class GpLaws (K : Type) `{TeeCrypto K} : Type := {
  aead_enc : bytes → bytes → bytes → bytes;   (** key, nonce, message *)
  aead_tag : bytes → bytes → bytes → bytes;
  aead_dec : bytes → bytes → bytes → bytes;
  gp_ops : K → gmap Z operation;
  gp_objects : K → gmap Z (option bytes);
  aead_enc_length k n d : length (aead_enc k n d) = length d;
  aead_tag_length k n d : length (aead_tag k n d) = 16%nat;
  aead_dec_enc k n d : aead_dec k n (aead_enc k n d) = d;
  allocate_operation_law w mode size :
    mode = TEE_MODE_ENCRYPT ∨ mode = TEE_MODE_DECRYPT →
    ∃ o w', TEE_AllocateOperation TEE_ALG_AES_GCM mode size w = Ret ((TEE_OK, Some o), w') ∧
      o ≠ TEE_HANDLE_NULL ∧ gp_ops w !! o = None ∧
      gp_ops w' = <[o := Operation mode None None]> (gp_ops w) ∧ gp_objects w' = gp_objects w;
  free_operation_law w o op :
    gp_ops w !! o = Some op →
    ∃ w', TEE_FreeOperation o w = Ret (tt, w') ∧
      gp_ops w' = delete o (gp_ops w) ∧ gp_objects w' = gp_objects w;
  allocate_object_law w size :
    ∃ o w', TEE_AllocateTransientObject TEE_TYPE_AES size w = Ret ((TEE_OK, Some o), w') ∧
      o ≠ TEE_HANDLE_NULL ∧ gp_objects w !! o = None ∧
      gp_objects w' = <[o := None]> (gp_objects w) ∧ gp_ops w' = gp_ops w;
  free_object_law w o k :
    gp_objects w !! o = Some k →
    ∃ w', TEE_FreeTransientObject o w = Ret (tt, w') ∧
      gp_objects w' = delete o (gp_objects w) ∧ gp_ops w' = gp_ops w;
  populate_law w o key :
    gp_objects w !! o = Some None → length key = 16%nat →
    ∃ w', TEE_PopulateTransientObject o TEE_ATTR_SECRET_VALUE key w = Ret (TEE_OK, w') ∧
      gp_objects w' = <[o := Some key]> (gp_objects w) ∧ gp_ops w' = gp_ops w;
  set_key_law w o op obj key :
    gp_ops w !! o = Some op → gp_objects w !! obj = Some (Some key) →
    ∃ w', TEE_SetOperationKey o obj w = Ret (TEE_OK, w') ∧
      gp_ops w' = <[o := Operation (op_mode op) (Some key) None]> (gp_ops w) ∧
      gp_objects w' = gp_objects w;
  ae_init_law w o op key nonce :
    gp_ops w !! o = Some op → op_key op = Some key →
    ∃ w', TEE_AEInit o nonce 128 0 0 w = Ret (TEE_OK, w') ∧
      gp_ops w' = <[o := Operation (op_mode op) (Some key) (Some nonce)]> (gp_ops w) ∧
      gp_objects w' = gp_objects w;
  ae_encrypt_law w o key nonce src :
    gp_ops w !! o = Some (Operation TEE_MODE_ENCRYPT (Some key) (Some nonce)) →
    ∃ w', TEE_AEEncryptFinal o src (Z.of_nat (length src)) 16 w =
        Ret ((TEE_OK, aead_enc key nonce src, aead_tag key nonce src), w') ∧
      gp_ops w' = <[o := Operation TEE_MODE_ENCRYPT (Some key) None]> (gp_ops w) ∧
      gp_objects w' = gp_objects w;
  ae_decrypt_law w o key nonce src :
    gp_ops w !! o = Some (Operation TEE_MODE_DECRYPT (Some key) (Some nonce)) →
    ∃ w', TEE_AEDecryptFinal o src (Z.of_nat (length src))
            (aead_tag key nonce (aead_dec key nonce src)) w =
        Ret ((TEE_OK, aead_dec key nonce src), w') ∧
      gp_ops w' = <[o := Operation TEE_MODE_DECRYPT (Some key) None]> (gp_ops w) ∧
      gp_objects w' = gp_objects w
}.

(** ** A concrete implementation

The cipher adds the first byte of the key to every byte; the tag repeats the sum
of the message, and ends in its parity: a NUL when the sum is even. *)
Module Toy.
Record crypto : Type := Crypto {
  c_ops : gmap Z operation; c_objects : gmap Z (option bytes) }.

Definition key_byte (key : bytes) : Z := hd 0 key.
Definition enc (key nonce d : bytes) : bytes := (λ x, x + key_byte key) <$> d.
Definition dec (key nonce d : bytes) : bytes := (λ x, x - key_byte key) <$> d.
Definition tag (key nonce d : bytes) : bytes :=
  let sum := foldr Z.add 0 d in replicate 15 (sum `mod` 256) ++ [sum `mod` 2].

(** A handle that neither map uses. *)
Definition fresh_handle (c : crypto) : Z :=
  1 + foldr Z.max 0 ((map_to_list (c_ops c)).*1 ++ (map_to_list (c_objects c)).*1).

Definition final (mode : Z) (o : Z) (f : bytes → bytes → Z * bytes) : C crypto (Z * bytes) :=
  λ c, match c_ops c !! o with
       | Some (Operation md (Some key) (Some nonce)) =>
           if decide (md = mode)
           then Ret (f key nonce, Crypto (<[o := Operation md (Some key) None]> (c_ops c)) (c_objects c))
           else Undef
       | _ => Undef
       end.

#[export] Instance toy_crypto : TeeCrypto crypto := {
  TEE_AllocateOperation _ mode _ := λ c,
    let o := fresh_handle c in
    Ret ((TEE_OK, Some o), Crypto (<[o := Operation mode None None]> (c_ops c)) (c_objects c));
  TEE_FreeOperation o := λ c, Ret (tt, Crypto (delete o (c_ops c)) (c_objects c));
  TEE_AllocateTransientObject _ _ := λ c,
    let o := fresh_handle c in
    Ret ((TEE_OK, Some o), Crypto (c_ops c) (<[o := None]> (c_objects c)));
  TEE_FreeTransientObject o := λ c, Ret (tt, Crypto (c_ops c) (delete o (c_objects c)));
  TEE_PopulateTransientObject o _ key := λ c,
    Ret (TEE_OK, Crypto (c_ops c) (<[o := Some key]> (c_objects c)));
  TEE_SetOperationKey o obj := λ c,
    match c_ops c !! o, c_objects c !! obj with
    | Some op, Some (Some key) =>
        Ret (TEE_OK, Crypto (<[o := Operation (op_mode op) (Some key) None]> (c_ops c)) (c_objects c))
    | _, _ => Undef
    end;
  TEE_AEInit o nonce _ _ _ := λ c,
    match c_ops c !! o with
    | Some (Operation md (Some key) _) =>
        Ret (TEE_OK, Crypto (<[o := Operation md (Some key) (Some nonce)]> (c_ops c)) (c_objects c))
    | _ => Undef
    end;
  TEE_AEEncryptFinal o src _ _ :=
    let! '(r, d) := final TEE_MODE_ENCRYPT o (λ key nonce, (TEE_OK, enc key nonce src ++ tag key nonce src)) in
    ret (r, take (length src) d, drop (length src) d);
  TEE_AEDecryptFinal o src _ t :=
    final TEE_MODE_DECRYPT o (λ key nonce,
      let d := dec key nonce src in
      (if decide (tag key nonce d = t) then TEE_OK else TEE_ERROR_MAC_INVALID, d))
}.

Lemma foldr_max_ge (l : list Z) x : x ∈ l → x ≤ foldr Z.max 0 l.
Proof. induction 1; simpl; lia. Qed.

Lemma foldr_max_nonneg (l : list Z) : 0 ≤ foldr Z.max 0 l.
Proof. induction l; simpl; lia. Qed.

Lemma fresh_op c : c_ops c !! fresh_handle c = None.
Proof.
  apply eq_None_not_Some. intros [x Hx]. apply elem_of_map_to_list in Hx.
  apply (list_elem_of_fmap_2 fst) in Hx. simpl in Hx.
  assert (fresh_handle c ∈ (map_to_list (c_ops c)).*1 ++ (map_to_list (c_objects c)).*1) as Hin
    by by apply elem_of_app; left.
  apply foldr_max_ge in Hin. unfold fresh_handle in Hin at 1. lia.
Qed.

Lemma fresh_object c : c_objects c !! fresh_handle c = None.
Proof.
  apply eq_None_not_Some. intros [x Hx]. apply elem_of_map_to_list in Hx.
  apply (list_elem_of_fmap_2 fst) in Hx. simpl in Hx.
  assert (fresh_handle c ∈ (map_to_list (c_ops c)).*1 ++ (map_to_list (c_objects c)).*1) as Hin
    by by apply elem_of_app; right.
  apply foldr_max_ge in Hin. unfold fresh_handle in Hin at 1. lia.
Qed.

Lemma fresh_not_null c : fresh_handle c ≠ TEE_HANDLE_NULL.
Proof.
  unfold fresh_handle, TEE_HANDLE_NULL. pose proof (foldr_max_nonneg
    ((map_to_list (c_ops c)).*1 ++ (map_to_list (c_objects c)).*1)). lia.
Qed.

Lemma length_enc key nonce d : length (enc key nonce d) = length d.
Proof. apply length_fmap. Qed.

#[export] Program Instance toy_laws : GpLaws crypto := {
  aead_enc := enc; aead_tag := tag; aead_dec := dec; gp_ops := c_ops; gp_objects := c_objects }.
Next Obligation. intros. apply length_fmap. Qed.
Next Obligation. done. Qed.
Next Obligation.
  intros k n d. unfold enc, dec. rewrite <- list_fmap_compose.
  rewrite <- (list_fmap_id d) at 2. apply list_fmap_ext. intros i x _. simpl. lia.
Qed.
Next Obligation. intros w mode size _. eexists _, _. split; [done|]. split_and!; [apply fresh_not_null|apply fresh_op|done|done]. Qed.
Next Obligation. intros w o op _. by eexists. Qed.
Next Obligation. intros w size. eexists _, _. split; [done|]. split_and!; [apply fresh_not_null|apply fresh_object|done|done]. Qed.
Next Obligation. intros w o k _. by eexists. Qed.
Next Obligation. intros w o key _ _. by eexists. Qed.
Next Obligation. intros w o op obj key Ho Hk. simpl. rewrite Ho, Hk. by eexists. Qed.
Next Obligation. intros w o [md k n] key nonce Ho Hk. simpl in *. subst k. rewrite Ho. by eexists. Qed.
Next Obligation.
  intros w o key nonce src Ho. simpl. unfold final, bind. rewrite Ho, decide_True by done.
  eexists. unfold ret. rewrite <- (length_enc key nonce src), take_app_length, drop_app_length.
  by split.
Qed.
Next Obligation.
  intros w o key nonce src Ho. simpl. unfold final. rewrite Ho, decide_True by done.
  rewrite decide_True by done. by eexists.
Qed.
End Toy.
