(* ===== verification/Pair.v ===== *)
(** * A file system and a cryptographic library side by side

The codec needs both below it.  A pair of two states offers the operations of
each half and keeps the laws of each half. *)
From S2P Require Import Prelude UteeVfs Gp.
#[local] Open Scope Z_scope.
#[local] Open Scope c_scope.

Definition on_fst {A K B} (c : C A B) : C (A * K) B := zoom fst (λ a s, (a, s.2)) c.
Definition on_snd {A K B} (c : C K B) : C (A * K) B := zoom snd (λ k s, (s.1, k)) c.

Lemma on_fst_run {A K B} (c : C A B) (s : A * K) b a' :
  c s.1 = Ret (b, a') → on_fst c s = Ret (b, (a', s.2)).
Proof. intros E. unfold on_fst, zoom. by rewrite E. Qed.

Lemma on_snd_run {A K B} (c : C K B) (s : A * K) b k' :
  c s.2 = Ret (b, k') → on_snd c s = Ret (b, (s.1, k')).
Proof. intros E. unfold on_snd, zoom. by rewrite E. Qed.

#[export] Instance pair_vfs {A K} `{UteeVfs A} : UteeVfs (A * K) := {
  utee_vfs_open p o m := on_fst (utee_vfs_open p o m);
  utee_vfs_close f := on_fst (utee_vfs_close f);
  utee_vfs_access p t := on_fst (utee_vfs_access p t);
  utee_vfs_getcwd b := on_fst (utee_vfs_getcwd b);
  utee_vfs_write f b := on_fst (utee_vfs_write f b);
  utee_vfs_read f b := on_fst (utee_vfs_read f b);
  utee_vfs_lseek f o w := on_fst (utee_vfs_lseek f o w);
  utee_vfs_fsync f := on_fst (utee_vfs_fsync f);
  utee_vfs_filesize f := on_fst (utee_vfs_filesize f);
  utee_vfs_unlink p e := on_fst (utee_vfs_unlink p e);
  utee_vfs_sleep n := on_fst (utee_vfs_sleep n);
  utee_vfs_usleep n := on_fst (utee_vfs_usleep n);
  utee_vfs_time := on_fst utee_vfs_time
}.

#[export] Instance pair_crypto {A K} `{TeeCrypto K} : TeeCrypto (A * K) := {
  TEE_AllocateOperation a m s := on_snd (TEE_AllocateOperation a m s);
  TEE_FreeOperation o := on_snd (TEE_FreeOperation o);
  TEE_AllocateTransientObject t s := on_snd (TEE_AllocateTransientObject t s);
  TEE_FreeTransientObject o := on_snd (TEE_FreeTransientObject o);
  TEE_PopulateTransientObject o i b := on_snd (TEE_PopulateTransientObject o i b);
  TEE_SetOperationKey o k := on_snd (TEE_SetOperationKey o k);
  TEE_AEInit o n t a p := on_snd (TEE_AEInit o n t a p);
  TEE_AEEncryptFinal o s d t := on_snd (TEE_AEEncryptFinal o s d t);
  TEE_AEDecryptFinal o s d t := on_snd (TEE_AEDecryptFinal o s d t)
}.

#[export] Program Instance pair_file_laws {A K} `{FileLaws A} : FileLaws (A * K) := {
  fd_file w f := fd_file w.1 f
}.
Next Obligation.
  intros A K ?? w f off l pos Hf Ho. destruct (lseek_law w.1 f off l pos Hf Ho) as (r & w' & E & Hr).
  eexists _, _. split; [by apply on_fst_run|done].
Qed.
Next Obligation.
  intros A K ?? w f bs l pos Hf Hb. destruct (write_law w.1 f bs l pos Hf Hb) as (r & w' & l' & pos' & E & Hr & Hf').
  eexists _, _, _, _. split; [by apply on_fst_run|done].
Qed.
Next Obligation.
  intros A K ?? w f buf l pos Hf Hb. destruct (read_law w.1 f buf l pos Hf Hb) as (r & buf' & w' & pos' & E & Hr & Hf').
  eexists _, _, _, _. split; [by apply on_fst_run|done].
Qed.
Next Obligation.
  intros A K ?? w f l pos Hf. destruct (fsync_law w.1 f l pos Hf) as (r & w' & E & Hr).
  eexists _, _. split; [by apply on_fst_run|done].
Qed.
Next Obligation.
  intros A K ?? w f l pos Hf. destruct (filesize_law w.1 f l pos Hf) as (r & w' & E & Hr).
  eexists _, _. split; [by apply on_fst_run|done].
Qed.
Next Obligation.
  intros A K ?? w f l pos Hf. destruct (close_law w.1 f l pos Hf) as (r & w' & E).
  eexists _, _. by apply on_fst_run.
Qed.

#[export] Program Instance pair_gp_laws {A K} `{GpLaws K} : GpLaws (A * K) := {
  aead_enc := aead_enc; aead_tag := aead_tag; aead_dec := aead_dec;
  gp_ops w := gp_ops w.2; gp_objects w := gp_objects w.2
}.
Next Obligation. intros. apply aead_enc_length. Qed.
Next Obligation. intros. apply aead_tag_length. Qed.
Next Obligation. intros. apply aead_dec_enc. Qed.
Next Obligation.
  intros A K ?? w mode size Hm. destruct (allocate_operation_law w.2 mode size Hm) as (o & w' & E & Hr).
  exists o, (w.1, w'). split; [by apply on_snd_run|done].
Qed.
Next Obligation.
  intros A K ?? w o op Ho. destruct (free_operation_law w.2 o op Ho) as (w' & E & Hr).
  exists (w.1, w'). split; [by apply on_snd_run|done].
Qed.
Next Obligation.
  intros A K ?? w size. destruct (allocate_object_law w.2 size) as (o & w' & E & Hr).
  exists o, (w.1, w'). split; [by apply on_snd_run|done].
Qed.
Next Obligation.
  intros A K ?? w o k Ho. destruct (free_object_law w.2 o k Ho) as (w' & E & Hr).
  exists (w.1, w'). split; [by apply on_snd_run|done].
Qed.
Next Obligation.
  intros A K ?? w o key Ho Hk. destruct (populate_law w.2 o key Ho Hk) as (w' & E & Hr).
  exists (w.1, w'). split; [by apply on_snd_run|done].
Qed.
Next Obligation.
  intros A K ?? w o op obj key Ho Hk. destruct (set_key_law w.2 o op obj key Ho Hk) as (w' & E & Hr).
  exists (w.1, w'). split; [by apply on_snd_run|done].
Qed.
Next Obligation.
  intros A K ?? w o op key nonce Ho Hk. destruct (ae_init_law w.2 o op key nonce Ho Hk) as (w' & E & Hr).
  exists (w.1, w'). split; [by apply on_snd_run|done].
Qed.
Next Obligation.
  intros A K ?? w o key nonce src Ho. destruct (ae_encrypt_law w.2 o key nonce src Ho) as (w' & E & Hr).
  exists (w.1, w'). split; [by apply on_snd_run|done].
Qed.
Next Obligation.
  intros A K ?? w o key nonce src Ho. destruct (ae_decrypt_law w.2 o key nonce src Ho) as (w' & E & Hr).
  exists (w.1, w'). split; [by apply on_snd_run|done].
Qed.
