(* ===== verification/Codec.v ===== *)
(** * The page codec

Models optee_examples/tee_sqilte/ta/codec.c, built for GCM
([CODEC_TYPE = CODEC_TYPE_GCM128]).  The state is the memory of the trusted
application and the world [W] below it, which answers the file system calls and
the cryptographic operations.  Local variables whose address is taken are
[Stack] blocks that disappear when the function returns: the codec stores such
addresses in the map of tags.

The [Codec] structure is passed and returned, except for its last member, the
page buffer, which is the block [m_page] points to; the handles that no function
uses are left out.  Of the logging, [IMSG]'s reading of the tags is
modelled ([TaLog]). *)
From S2P Require Import Prelude CMem Heap TaLog UteeVfs Gp HashMap.
From Stdlib Require Import SpecFloat.
#[local] Open Scope Z_scope.
#[local] Open Scope c_scope.

(** ** Data *)

Definition CODEC_TYPE_CTR128 : Z := 1.
Definition CODEC_TYPE_GCM128 : Z := 2.
Definition CODEC_TYPE : Z := CODEC_TYPE_GCM128.
Definition KEYLENGTH : Z := 16.
Definition AES_BLOCK_SIZE : Z := 16.
Definition AES128_KEY_BYTE_SIZE : Z := 16.
Definition aes_gcm_tag_size : Z := 16.

(** The global [iv]: nothing writes it. *)
Definition iv : bytes := replicate 16 0.

(** ["SQLite format 3"] with its NUL. *)
Definition SQLITE_FILE_HEADER : bytes :=
  [83; 81; 76; 105; 116; 101; 32; 102; 111; 114; 109; 97; 116; 32; 51; 0].

Record Codec : Type := MkCodec {
  m_isEncrypted : Z;
  m_hasReadKey : Z;
  m_readKey : bytes;
  m_hasWriteKey : Z;
  m_writeKey : bytes;
  m_tag : bytes;
  test_op_handle : Z;
  test_key_handle : Z;
  m_bt : ptr;
  m_page : ptr
}.

(** The array after [for (j = 0; j < n; j++) dst[j] = src[j]]. *)
Definition copy_array (n : Z) (dst src : bytes) : bytes :=
  take (Z.to_nat n) src ++ drop (Z.to_nat n) dst.

Definition set_flags (c : Codec) (e r w : Z) : Codec :=
  MkCodec e r (m_readKey c) w (m_writeKey c) (m_tag c) (test_op_handle c)
    (test_key_handle c) (m_bt c) (m_page c).
Definition set_keys (c : Codec) (r w : bytes) : Codec :=
  MkCodec (m_isEncrypted c) (m_hasReadKey c) r (m_hasWriteKey c) w (m_tag c)
    (test_op_handle c) (test_key_handle c) (m_bt c) (m_page c).
Definition set_handles (c : Codec) (o k : Z) : Codec :=
  MkCodec (m_isEncrypted c) (m_hasReadKey c) (m_readKey c) (m_hasWriteKey c) (m_writeKey c)
    (m_tag c) o k (m_bt c) (m_page c).
Definition set_tag (c : Codec) (t : bytes) : Codec :=
  MkCodec (m_isEncrypted c) (m_hasReadKey c) (m_readKey c) (m_hasWriteKey c) (m_writeKey c)
    t (test_op_handle c) (test_key_handle c) (m_bt c) (m_page c).
Definition set_bt (c : Codec) (b : ptr) : Codec :=
  MkCodec (m_isEncrypted c) (m_hasReadKey c) (m_readKey c) (m_hasWriteKey c) (m_writeKey c)
    (m_tag c) (test_op_handle c) (test_key_handle c) b (m_page c).

(** ** Flags and keys *)

Definition CodecInit (codec : Codec) : Codec := set_flags codec 0 0 0.
Definition CodecSetIsEncrypted (codec : Codec) (isEncrypted : Z) : Codec :=
  set_flags codec isEncrypted (m_hasReadKey codec) (m_hasWriteKey codec).
Definition CodecSetHasReadKey (codec : Codec) (hasReadKey : Z) : Codec :=
  set_flags codec (m_isEncrypted codec) hasReadKey (m_hasWriteKey codec).
Definition CodecSetHasWriteKey (codec : Codec) (hasWriteKey : Z) : Codec :=
  set_flags codec (m_isEncrypted codec) (m_hasReadKey codec) hasWriteKey.
Definition CodecSetBtree (codec : Codec) (bt : ptr) : Codec := set_bt codec bt.
Definition CodecIsEncrypted (codec : Codec) : Z := m_isEncrypted codec.
Definition CodecHasReadKey (codec : Codec) : Z := m_hasReadKey codec.
Definition CodecHasWriteKey (codec : Codec) : Z := m_hasWriteKey codec.
Definition CodecGetBtree (codec : Codec) : ptr := m_bt codec.

(** A length that does not fit [m_tag] reaches the members behind it. *)
Definition CodecWriteTag (codec : Codec) (inTag : ptr) (nTaglen : Z) : C mem Codec :=
  let! bs := load inTag (u64 nTaglen) in
  do! c_assert (bool_decide (length bs ≤ length (m_tag codec))%nat) in
  ret (set_tag codec (splice (m_tag codec) 0 bs)).
Definition CodecGetTag (codec : Codec) (outTag : ptr) (nTaglen : Z) : C mem unit :=
  do! c_assert (bool_decide (u64 nTaglen ≤ Z.of_nat (length (m_tag codec)))) in
  store outTag (take (Z.to_nat (u64 nTaglen)) (m_tag codec)).

Definition CodecGetPageBuffer (codec : Codec) : ptr := padd (m_page codec) 4.

Definition CodecCopy (codec other : Codec) : Codec :=
  let codec := set_flags codec (m_isEncrypted other) (m_hasReadKey other) (m_hasWriteKey other) in
  let codec := set_keys codec (copy_array KEYLENGTH (m_readKey codec) (m_readKey other))
                 (copy_array KEYLENGTH (m_writeKey codec) (m_writeKey other)) in
  let codec := set_tag codec (copy_array 16 (m_tag codec) (m_tag other)) in
  set_bt codec (m_bt other).

Definition CodecCopyKey (codec : Codec) (read2write : Z) : Codec :=
  if decide (read2write ≠ 0) then
    set_keys codec (m_readKey codec) (copy_array KEYLENGTH (m_writeKey codec) (m_readKey codec))
  else
    set_keys codec (copy_array KEYLENGTH (m_readKey codec) (m_writeKey codec)) (m_writeKey codec).

(** What is stored in the key: [passwordLength] is not looked at. *)
Definition CodecGenerateEncryptionKey (userPassword : ptr) (passwordLength : Z) : C mem bytes :=
  load userPassword KEYLENGTH.
Definition CodecGenerateReadKey (codec : Codec) (userPassword : ptr) (passwordLength : Z)
    : C mem Codec :=
  let! key := CodecGenerateEncryptionKey userPassword passwordLength in
  ret (set_keys codec key (m_writeKey codec)).
Definition CodecGenerateWriteKey (codec : Codec) (userPassword : ptr) (passwordLength : Z)
    : C mem Codec :=
  let! key := CodecGenerateEncryptionKey userPassword passwordLength in
  ret (set_keys codec (m_readKey codec) key).

(** ** Encryption *)
Section crypto.
Context {W : Type} `{UteeVfs W, TeeCrypto W, TeeMalloc, TaLog}.
Context (SQLITE_MAX_PAGE_SIZE : Z).

(** A handle that is not stored leaves the old one, which was freed. *)
Definition reset (codec : Codec) (isenc : Z) (key : bytes) (ket_size : Z) : C W Codec :=
  do! (if decide (test_op_handle codec ≠ TEE_HANDLE_NULL)
       then TEE_FreeOperation (test_op_handle codec) else ret tt) in
  let mode := if decide (isenc = 1) then TEE_MODE_ENCRYPT else TEE_MODE_DECRYPT in
  let! '(_, o) := TEE_AllocateOperation TEE_ALG_AES_GCM mode (AES128_KEY_BYTE_SIZE * 8) in
  let o := default (test_op_handle codec) o in
  do! (if decide (test_key_handle codec ≠ TEE_HANDLE_NULL)
       then TEE_FreeTransientObject (test_key_handle codec) else ret tt) in
  let! '(_, k) := TEE_AllocateTransientObject TEE_TYPE_AES (AES128_KEY_BYTE_SIZE * 8) in
  let k := default (test_key_handle codec) k in
  let! _ := TEE_PopulateTransientObject k TEE_ATTR_SECRET_VALUE (take (Z.to_nat ket_size) key) in
  let! _ := TEE_SetOperationKey o k in
  let! _ := TEE_AEInit o (take (Z.to_nat AES_BLOCK_SIZE) iv) 128 0 0 in
  ret (set_handles codec o k).

(** The two cases of [CodecAES]. *)
Definition seal_data (codec : Codec) (encrypt : Z) (key : bytes) (datain : ptr) (src_len : Z)
    (dataout p_mac p_out_mac : ptr) : C (mem * W) Codec :=
  let! codec := in_world (reset codec encrypt key KEYLENGTH) in
  let! src := in_heap (load datain src_len) in
  let! '(rc, dst, tag) := in_world
    (TEE_AEEncryptFinal (test_op_handle codec) src src_len aes_gcm_tag_size) in
  do! in_heap (store dataout dst) in
  do! in_heap (store p_out_mac tag) in
  do! in_heap (memcpy p_mac p_out_mac aes_gcm_tag_size) in
  ret codec.

Definition open_data (codec : Codec) (encrypt : Z) (key : bytes) (datain : ptr) (src_len : Z)
    (dataout p_mac p_in_mac : ptr) : C (mem * W) Codec :=
  let! codec := in_world (reset codec encrypt key KEYLENGTH) in
  do! in_heap (memcpy p_in_mac p_mac aes_gcm_tag_size) in
  let! src := in_heap (load datain src_len) in
  let! tag := in_heap (load p_in_mac aes_gcm_tag_size) in
  let! '(rc, dst) := in_world (TEE_AEDecryptFinal (test_op_handle codec) src src_len tag) in
  do! in_heap (store dataout dst) in
  ret codec.

(** [page] and the copy of the key in [sgx_keys] are not used. *)
Definition CodecAES (codec : Codec) (page encrypt_type encrypt : Z) (encryptionKey : bytes)
    (datain : ptr) (datalen : Z) (dataout p_mac : ptr) (useWriteKey : Z) : C (mem * W) Codec :=
  let src_len := u32 datalen in
  let! sgx_keys := in_heap (TEE_Malloc KEYLENGTH) in
  do! in_heap (store sgx_keys (take 16 encryptionKey)) in
  let! p_out_mac := in_heap (TEE_Malloc aes_gcm_tag_size) in
  do! in_heap (store p_out_mac (replicate (Z.to_nat aes_gcm_tag_size) 0)) in
  let! p_in_mac := in_heap (TEE_Malloc aes_gcm_tag_size) in
  do! in_heap (store p_in_mac (replicate 4 0)) in
  let key := if decide (useWriteKey ≠ 0) then m_writeKey codec else m_readKey codec in
  let! codec :=
    (if decide (encrypt_type = 1) then ret codec
     else if decide (encrypt ≠ 0) then seal_data codec encrypt key datain src_len dataout p_mac p_out_mac
     else open_data codec encrypt key datain src_len dataout p_mac p_in_mac) in
  do! in_heap (TEE_Free sgx_keys) in
  do! in_heap (TEE_Free p_out_mac) in
  do! in_heap (TEE_Free p_in_mac) in
  ret codec.

(** The map is reached through its pointer, which may be [NULL]. *)
Definition tag_set (tag : option hashmap) (key value : ptr) : C (mem * W) (option hashmap) :=
  let! t := lift tag in
  let! '(_, t) := in_heap (hm_set t key value) in
  ret (Some t).
Definition tag_get (tag : option hashmap) (key : ptr) : C (mem * W) ptr :=
  let! t := lift tag in in_heap (hm_get t key).

Definition CodecEncrypt (codec : Codec) (page : Z) (data : ptr) (len useWriteKey : Z)
    (tag : option hashmap) : C (mem * W) (Codec * option hashmap) :=
  let! a_page := in_heap (alloc Stack (le_bytes 4 (u32 page))) in
  let key := if decide (useWriteKey ≠ 0) then m_writeKey codec else m_readKey codec in
  let! p_mac := in_heap (alloc Stack (replicate 16 0)) in
  let! '(codec, tag, offset, dbHeader) :=
    (if decide (page = 1) then
       let! dbHeader := in_heap (load (padd data 16) 8) in
       let! codec := CodecAES codec page CODEC_TYPE 1 key data 16 data p_mac useWriteKey in
       let! pageHeader := in_heap (alloc Stack (le_bytes 4 (u32 (page - 1)))) in
       do! in_heap (IMSG_string p_mac) in
       let! tag := tag_set tag pageHeader p_mac in
       do! in_heap (leave_scope pageHeader) in
       ret (codec, tag, 16, Some dbHeader)
     else ret (codec, tag, 0, None)) in
  let! codec := CodecAES codec page CODEC_TYPE 1 key (padd data offset) (len - offset)
                  (padd data offset) p_mac useWriteKey in
  let! tag := tag_set tag a_page p_mac in
  do! in_heap (IMSG_string p_mac) in
  let! page := in_heap (load_int a_page) in
  do! (if decide (page = 1) then
         do! in_heap (memcpy (padd data 8) (padd data 16) 8) in
         let! dbHeader := lift dbHeader in
         in_heap (store (padd data 16) dbHeader)
       else ret tt) in
  do! in_heap (leave_scope p_mac) in
  do! in_heap (leave_scope a_page) in
  ret (codec, tag).

(** The tests on the clear part of the first page. *)
Definition plain_header (dbHeader : bytes) : bool :=
  let dbPageSize := Z.lor (Z.shiftl (dbHeader !!! 0%nat) 8) (Z.shiftl (dbHeader !!! 1%nat) 16) in
  bool_decide (512 ≤ dbPageSize) && bool_decide (dbPageSize ≤ SQLITE_MAX_PAGE_SIZE)
  && bool_decide (Z.land (dbPageSize - 1) dbPageSize = 0)
  && bool_decide (dbHeader !!! 5%nat = 0x40) && bool_decide (dbHeader !!! 6%nat = 0x20)
  && bool_decide (dbHeader !!! 7%nat = 0x20).

Definition CodecDecrypt (codec : Codec) (page : Z) (data : ptr) (len : Z)
    (tag : option hashmap) : C (mem * W) Codec :=
  let! a_page := in_heap (alloc Stack (le_bytes 4 (u32 page))) in
  let! p_in_mac := in_heap (alloc Stack (replicate 16 0)) in
  let! '(offset, dbHeader) :=
    (if decide (page = 1) then
       let! dbHeader := in_heap (load (padd data 16) 8) in
       if plain_header dbHeader then
         do! in_heap (memcpy (padd data 16) (padd data 8) 8) in
         ret (16, Some dbHeader)
       else ret (0, Some dbHeader)
     else ret (0, None)) in
  let! tmp := tag_get tag a_page in
  do! in_heap (IMSG_string tmp) in
  do! (if decide (tmp = NULL) then ret tt else in_heap (memcpy p_in_mac tmp 16)) in
  let! page := in_heap (load_int a_page) in
  let! codec := CodecAES codec page CODEC_TYPE 0 (m_readKey codec) (padd data offset)
                  (len - offset) (padd data offset) p_in_mac 0 in
  do! (if decide (page = 1 ∧ offset ≠ 0) then
         let! dbHeader := lift dbHeader in
         let! now := in_heap (load (padd data 16) 8) in
         if decide (now = dbHeader) then in_heap (store data SQLITE_FILE_HEADER) else ret tt
       else ret tt) in
  do! in_heap (leave_scope p_in_mac) in
  do! in_heap (leave_scope a_page) in
  ret codec.

(** ** The tags of a database *)

(** ["/tmp/mac.log"] *)
Definition mac_log : bytes := [47; 116; 109; 112; 47; 109; 97; 99; 46; 108; 111; 103].

(** [utee_vfs_read(fd, p, n)] *)
Definition read_into (fd : Z) (p : ptr) (n : Z) : C (mem * W) Z :=
  let! buf := in_heap (load p n) in
  let! '(r, buf) := in_world (utee_vfs_read fd buf) in
  do! in_heap (store p buf) in
  ret r.

(** [tmp_pageno] and [tmp_tag] have a hundred elements. *)
Definition in_tmp (i : Z) : C (mem * W) unit := c_assert (bool_decide (0 ≤ i < 100)).

(** [while (...)], where [tmp_pageno[i]] is [pageno]. *)
Fixpoint createMap_loop (fuel : nat) (fdr : Z) (tag : option hashmap) (i : Z) (pageno : ptr)
    : C (mem * W) (option hashmap) :=
  match fuel with
  | O => undef
  | S fuel =>
      let! r := read_into fdr pageno sizeof_int in
      if decide (r ≠ 0 ∧ i < 20000) then
        let! _ := in_world (utee_vfs_lseek fdr ((i + 1) * sizeof_int + i * 16) 0) in
        let! tmp_tag := in_heap (TEE_Malloc 16) in
        do! in_tmp i in
        let! _ := read_into fdr tmp_tag 16 in
        let! _ := in_world (utee_vfs_lseek fdr ((i + 1) * sizeof_int + (i + 1) * 16) 0) in
        let! tag := tag_set tag pageno tmp_tag in
        let! pageno := in_heap (TEE_Malloc sizeof_void_ptr) in
        do! in_tmp (i + 1) in
        createMap_loop fuel fdr tag (i + 1) pageno
      else ret tag
  end.

(** What [tag] is set to.  An iteration past the hundredth is undefined
    behaviour, so the fuel never runs out. *)
Definition createMap : C (mem * W) (option hashmap) :=
  let! fdr := in_world (utee_vfs_open mac_log (Z.lor 2 64) 511) in
  let! tag := in_heap (hm_create 500 (float_of 1) 13) in
  let! pageno := in_heap (TEE_Malloc sizeof_int) in
  let! tag := createMap_loop 101 fdr tag 0 pageno in
  let! _ := in_world (utee_vfs_close fdr) in
  ret tag.

Definition free_int (value : ptr) : C mem unit := TEE_Free value.

(** [tag] keeps pointing to the map that was freed. *)
Definition closeMap (tag : option hashmap) : C (mem * W) unit :=
  let! fdw := in_world (utee_vfs_open mac_log (Z.lor 2 512) 511) in
  let! t := lift tag in
  do! hm_dump t fdw None in
  let! _ := in_heap (hm_delete t (Some free_int)) in
  let! _ := in_world (utee_vfs_close fdw) in
  ret tt.
End crypto.
