(* ===== verification/Frame.v ===== *)
(** * Reasoning about the memory of the trusted application

[Heap]'s frames for the values the hash map keeps, and how the allocator's
operations run in the combined state of the codec: the memory and the world
below it. *)

From S2P Require Import Prelude CMem Heap UteeVfs HashMap Codec.
#[local] Open Scope Z_scope.
#[local] Open Scope c_scope.

Section holds.
Implicit Types (m : mem) (b o k : Z) (P : Z → Prop).

Lemma frame_holds P m m' b o k :
  frame P m m' → mem_wf m → holds_int m (Ptr b o) k → ¬ P b → holds_int m' (Ptr b o) k.
Proof. intros Hf Hwf [Hp ?] HP. split; [by eapply frame_peek|done]. Qed.

End holds.

Section allocator.
Context {W : Type} `{TeeMalloc}.
Hypothesis memory : ∀ m n, tee_oom m n = false.
Implicit Types (m : mem) (w : W) (b o n : Z) (bs : bytes).

(** [TEE_Malloc] of a buffer that is filled at once. *)
Lemma scratch_run m w n bs :
  mem_wf m → Z.of_nat (length bs) ≤ n →
  ∃ m1 m', in_heap (TEE_Malloc n) (m, w) = Ret (Ptr (m_next m) 0, (m1, w)) ∧
    in_heap (store (Ptr (m_next m) 0) bs) (m1, w) = Ret (tt, (m', w)) ∧
    m_next m' = m_next m + 1 ∧ frame (λ _, False) m m' ∧
    ∃ d, m_blocks m' !! m_next m = Some (Block Heap d) ∧ Z.of_nat (length d) = n ∧
      take (length bs) d = bs.
Proof.
  intros Hwf Hn. destruct (malloc_run memory n m Hwf) as (m1 & E & Hwf1 & _ & Hn1 & Hb).
  set (d := splice (replicate (Z.to_nat n) 0) (Z.to_nat 0) bs).
  set (m' := Mem (m_next m1) (<[m_next m := Block Heap d]> (m_blocks m1))).
  assert (poke (Ptr (m_next m) 0) bs m1 = Some m') as Hp.
  { apply poke_Some. eexists _, 0, Heap, _. split; [done|]. split; [by rewrite Hb, lookup_insert_eq|].
    rewrite length_replicate. split_and!; [lia|lia|done]. }
  exists m1, m'. split; [by apply heap_run|]. split; [by apply store_run|]. split; [done|]. split.
  - split; [by eapply mem_wf_poke|]. split; [simpl; lia|]. intros b Hlt _. simpl.
    rewrite lookup_insert_ne, Hb, lookup_insert_ne by lia. done.
  - exists d. simpl. split; [by rewrite lookup_insert_eq|]. unfold d.
    rewrite length_splice by (rewrite length_replicate; lia). rewrite length_replicate.
    split; [lia|]. change (Z.to_nat 0) with 0%nat. unfold splice. by rewrite take_0, app_nil_l, take_app_length.
Qed.

Lemma free_run m w b d :
  mem_wf m → m_blocks m !! b = Some (Block Heap d) →
  ∃ m', in_heap (TEE_Free (Ptr b 0)) (m, w) = Ret (tt, (m', w)) ∧ m_next m' = m_next m ∧
    frame (λ x, x = b) m m' ∧ m_blocks m' !! b = None.
Proof.
  intros Hwf Hb. assert (release (Ptr b 0) m = Some (Mem (m_next m) (delete b (m_blocks m)))) as Hr.
  { simpl. by rewrite Hb. }
  eexists. split; [apply heap_run; unfold TEE_Free, free, update; by rewrite Hr|].
  split; [done|]. split; [|apply lookup_delete_eq]. split; [by eapply mem_wf_release|].
  split; simpl; [lia|]. intros x _ Hx. by rewrite lookup_delete_ne by done.
Qed.
End allocator.

(** Facts of one memory in a later one. *)
Ltac later :=
  match goal with
  | |- m_blocks ?m' !! _ = Some _ => eapply frame_block; [eassumption|eassumption| |simpl; lia]
  | |- peek ?m' (Ptr _ _) _ = Some _ => eapply frame_peek; [eassumption|eassumption| |simpl; lia]
  | |- holds_int ?m' (Ptr _ _) _ => eapply frame_holds; [eassumption|eassumption| |simpl; lia]
  end.
