(* ===== verification/CodecPage.v ===== *)
(** * Pages: what the codec computes

The encrypted form of a page, the proof that [CodecEncrypt] produces it and that
[CodecDecrypt] inverts it, through [CodecAES] and the laws of the
cryptographic operations. *)
From S2P Require Import Prelude CMem Heap TaLog UteeVfs Gp HashMap Codec Frame.
#[local] Open Scope Z_scope.
#[local] Open Scope c_scope.

(** * What the codec computes

[sealed_page k page key d]: the bytes [CodecEncrypt] leaves for the page [d].
The first page keeps its bytes 16 to 23 in the clear; what encryption put there
moves to bytes 8 to 15. *)
Section spec.
Context {W : Type} `{GpLaws W}.

Definition seal (key d : bytes) : bytes := aead_enc key iv d.

Definition sealed_page (page : Z) (key d : bytes) : bytes :=
  if decide (page = 1) then
    let e := seal key (drop 16 d) in
    take 8 (seal key (take 16 d)) ++ take 8 e ++ take 8 (drop 16 d) ++ drop 8 e
  else seal key d.

(** The tag the map is given for the page. *)
Definition sealed_tag (page : Z) (key d : bytes) : bytes :=
  aead_tag key iv (if decide (page = 1) then drop 16 d else d).

Lemma sealed_page_other page key d : page ≠ 1 → sealed_page page key d = seal key d.
Proof. intros Hp. unfold sealed_page. by rewrite decide_False. Qed.
Lemma sealed_tag_other page key d : page ≠ 1 → sealed_tag page key d = aead_tag key iv d.
Proof. intros Hp. unfold sealed_tag. by rewrite decide_False. Qed.

(** The tags that [CodecEncrypt] logs, that of the header of the first page
    included, can be printed. *)
Definition tags_print `{TaLog} (page : Z) (key d : bytes) : Prop :=
  prints (sealed_tag page key d) ∧ (page = 1 → prints (aead_tag key iv (take 16 d))).

(** The handles of the codec are [NULL] or valid. *)
Definition codec_ok (c : Codec) (w : W) : Prop :=
  (test_op_handle c = TEE_HANDLE_NULL ∨ is_Some (gp_ops w !! test_op_handle c)) ∧
  (test_key_handle c = TEE_HANDLE_NULL ∨ is_Some (gp_objects w !! test_key_handle c)) ∧
  length (m_readKey c) = 16%nat ∧ length (m_writeKey c) = 16%nat.
End spec.

(** A page of SQLite: the first one starts with the magic string and has a
    header that [CodecDecrypt] recognises. *)
Definition page_ok (max page : Z) (d : bytes) : Prop :=
  Z.of_nat (length d) < 2 ^ 31 ∧
  (page = 1 → (24 ≤ length d)%nat ∧ take 16 d = SQLITE_FILE_HEADER ∧
     plain_header max (take 8 (drop 16 d)) = true).

Section reset.
Context {W : Type} `{GpLaws W}.

(** [reset]: whatever the handles were, an operation of the mode asked for, with
    the key, started with the nonce. *)
Lemma reset_run c (w : W) isenc key :
  codec_ok c w → length key = 16%nat →
  ∃ o k w', reset c isenc key KEYLENGTH w = Ret (set_handles c o k, w') ∧
    codec_ok (set_handles c o k) w' ∧
    gp_ops w' !! o = Some (Operation (if decide (isenc = 1) then TEE_MODE_ENCRYPT else TEE_MODE_DECRYPT)
                             (Some key) (Some iv)).
Proof.
  intros (Ho & Hk & Hl1 & Hl2) Hkey. unfold reset.
  assert (∃ w1, (if decide (test_op_handle c ≠ TEE_HANDLE_NULL) then TEE_FreeOperation (test_op_handle c) else ret tt) w
            = Ret (tt, w1) ∧ gp_objects w1 = gp_objects w) as (w1 & E1 & Hob1).
  { case_decide; [|by exists w]. destruct Ho as [|[op Ho]]; [done|].
    destruct (free_operation_law _ _ _ Ho) as (w1 & E & _ & ?). by exists w1. }
  rewrite (bind_run _ _ _ _ _ E1). clear E1.
  set (mode := if decide (isenc = 1) then _ else _).
  destruct (allocate_operation_law w1 mode (AES128_KEY_BYTE_SIZE * 8))
    as (o & w2 & E2 & Hnn & _ & Hops2 & Hob2); [unfold mode; case_decide; tauto|].
  rewrite (bind_run _ _ _ _ _ E2). clear E2. simpl.
  assert (∃ w3, (if decide (test_key_handle c ≠ TEE_HANDLE_NULL) then TEE_FreeTransientObject (test_key_handle c) else ret tt) w2
            = Ret (tt, w3) ∧ gp_ops w3 = gp_ops w2) as (w3 & E3 & Hops3).
  { case_decide; [|by exists w2]. destruct Hk as [|[k Hk]]; [done|].
    destruct (free_object_law w2 (test_key_handle c) k) as (w3 & E & _ & ?); [by rewrite Hob2, Hob1|]. by exists w3. }
  rewrite (bind_run _ _ _ _ _ E3). clear E3.
  destruct (allocate_object_law w3 (AES128_KEY_BYTE_SIZE * 8)) as (k & w4 & E4 & Hkn & _ & Hob4 & Hops4).
  rewrite (bind_run _ _ _ _ _ E4). clear E4. simpl.
  rewrite (take_ge key) by (unfold KEYLENGTH; lia).
  destruct (populate_law w4 k key) as (w5 & E5 & Hob5 & Hops5);
    [by rewrite Hob4, lookup_insert_eq|done|].
  rewrite (bind_run _ _ _ _ _ E5). clear E5.
  destruct (set_key_law w5 o (Operation mode None None) k key) as (w6 & E6 & Hops6 & Hob6);
    [by rewrite Hops5, Hops4, Hops3, Hops2, lookup_insert_eq|by rewrite Hob5, lookup_insert_eq|].
  rewrite (bind_run _ _ _ _ _ E6). clear E6.
  destruct (ae_init_law w6 o (Operation mode (Some key) None) key iv) as (w7 & E7 & Hops7 & Hob7);
    [by rewrite Hops6, lookup_insert_eq|done|].
  change (take (Pos.to_nat 16) iv) with iv. rewrite (bind_run _ _ _ _ _ E7).
  exists o, k, w7. split; [done|]. rewrite Hops7, lookup_insert_eq. split; [|done].
  split_and!; simpl; try done; right.
  - rewrite Hops7, lookup_insert_eq. by eexists.
  - rewrite Hob7, Hob6, Hob5, lookup_insert_eq. by eexists.
Qed.
End reset.

(** ** One call of [CodecAES] *)
Section aes.
Context {W : Type} `{GpLaws W, TeeMalloc, TaLog}.
Hypothesis memory : ∀ m n, tee_oom m n = false.

(** The three buffers every call allocates. *)
Lemma aes_buffers m (w : W) ekey :
  mem_wf m →
  ∃ m1 m2 m3 m4 m5 m', let s := m_next m in
    in_heap (TEE_Malloc KEYLENGTH) (m, w) = Ret (Ptr s 0, (m1, w)) ∧
    in_heap (store (Ptr s 0) (take 16 ekey)) (m1, w) = Ret (tt, (m2, w)) ∧
    in_heap (TEE_Malloc aes_gcm_tag_size) (m2, w) = Ret (Ptr (s + 1) 0, (m3, w)) ∧
    in_heap (store (Ptr (s + 1) 0) (replicate (Z.to_nat aes_gcm_tag_size) 0)) (m3, w) = Ret (tt, (m4, w)) ∧
    in_heap (TEE_Malloc aes_gcm_tag_size) (m4, w) = Ret (Ptr (s + 2) 0, (m5, w)) ∧
    in_heap (store (Ptr (s + 2) 0) (replicate 4 0)) (m5, w) = Ret (tt, (m', w)) ∧
    frame (λ _, False) m m' ∧ m_next m' = s + 3 ∧
    ∃ d0 d1 d2, m_blocks m' !! s = Some (Block Heap d0) ∧
      m_blocks m' !! (s + 1) = Some (Block Heap d1) ∧ length d1 = 16%nat ∧
      m_blocks m' !! (s + 2) = Some (Block Heap d2) ∧ length d2 = 16%nat.
Proof.
  intros Hwf.
  destruct (scratch_run memory m w KEYLENGTH (take 16 ekey) Hwf) as (m1 & m2 & E1 & E2 & Hn2 & Hf2 & d0 & Hd0 & _);
    [rewrite length_take; unfold KEYLENGTH; lia|].
  pose proof (proj1 Hf2) as Hwf2.
  destruct (scratch_run memory m2 w aes_gcm_tag_size (replicate (Z.to_nat aes_gcm_tag_size) 0) Hwf2)
    as (m3 & m4 & E3 & E4 & Hn4 & Hf4 & d1 & Hd1 & Hl1 & _); [done|].
  pose proof (proj1 Hf4) as Hwf4.
  destruct (scratch_run memory m4 w aes_gcm_tag_size (replicate 4 0) Hwf4)
    as (m5 & m6 & E5 & E6 & Hn6 & Hf6 & d2 & Hd2 & Hl2 & _); [done|].
  rewrite Hn2 in E3, E4, Hd1. rewrite Hn4, Hn2 in E5, E6, Hd2.
  replace (m_next m + 1 + 1) with (m_next m + 2) in * by lia.
  exists m1, m2, m3, m4, m5, m6. split_and!; try done.
  - eapply frame_trans; [exact Hf2|eapply frame_trans; [exact Hf4|exact Hf6|done]|done].
  - lia.
  - unfold aes_gcm_tag_size in *. exists d0, d1, d2.
    split; [|split; [|split; [lia|split; [done|lia]]]].
    + later. later. done.
    + later. done.
Qed.

(** ... and frees. *)
Lemma aes_release m (w : W) s d0 d1 d2 (c : Codec) :
  mem_wf m → s + 3 ≤ m_next m → m_blocks m !! s = Some (Block Heap d0) →
  m_blocks m !! (s + 1) = Some (Block Heap d1) → m_blocks m !! (s + 2) = Some (Block Heap d2) →
  ∃ m', (do! in_heap (TEE_Free (Ptr s 0)) in do! in_heap (TEE_Free (Ptr (s + 1) 0)) in
         do! in_heap (TEE_Free (Ptr (s + 2) 0)) in ret c) (m, w) = Ret (c, (m', w)) ∧
    frame (λ x, s ≤ x) m m' ∧ m_next m' = m_next m.
Proof.
  intros Hwf Hn B0 B1 B2.
  destruct (free_run m w s d0 Hwf B0) as (m1 & E1 & Hn1 & Hf1 & _). pose proof (proj1 Hf1) as Hwf1.
  destruct (free_run m1 w (s + 1) d1 Hwf1) as (m2 & E2 & Hn2 & Hf2 & _); [by later|].
  pose proof (proj1 Hf2) as Hwf2.
  destruct (free_run m2 w (s + 2) d2 Hwf2) as (m3 & E3 & Hn3 & Hf3 & _); [by later; later|].
  exists m3. rewrite (bind_run _ _ _ _ _ E1), (bind_run _ _ _ _ _ E2), (bind_run _ _ _ _ _ E3).
  split; [done|]. split; [|lia].
  apply (frame_trans _ (λ x, x = s + 1 ∨ x = s + 2) m m1 m3);
    [eapply frame_weaken; [exact Hf1|simpl; lia]| |simpl; lia].
  apply (frame_trans _ (λ x, x = s + 2) m1 m2 m3);
    [eapply frame_weaken; [exact Hf2|simpl; lia]|exact Hf3|simpl; lia].
Qed.

(** A function that allocates the three buffers and frees them touches what [body]
    does outside them. *)
Lemma aes_scratch_run m (w : W) ekey (body : ptr → ptr → C (mem * W) Codec) P (Q : Codec → mem → W → Prop) :
  mem_wf m →
  (∀ m6 d1 d2, let s := m_next m in
     frame (λ _, False) m m6 → m_next m6 = s + 3 →
     m_blocks m6 !! (s + 1) = Some (Block Heap d1) → length d1 = 16%nat →
     m_blocks m6 !! (s + 2) = Some (Block Heap d2) → length d2 = 16%nat →
     ∃ c' m9 w' e1 e2, body (Ptr (s + 1) 0) (Ptr (s + 2) 0) (m6, w) = Ret (c', (m9, w')) ∧
       frame (λ x, P x ∧ x < s ∨ s < x) m6 m9 ∧ m_blocks m9 !! (s + 1) = Some (Block Heap e1) ∧
       m_blocks m9 !! (s + 2) = Some (Block Heap e2) ∧ Q c' m9 w') →
  ∃ c' m9 m' w',
    (let! sgx_keys := in_heap (TEE_Malloc KEYLENGTH) in
     do! in_heap (store sgx_keys (take 16 ekey)) in
     let! p_out_mac := in_heap (TEE_Malloc aes_gcm_tag_size) in
     do! in_heap (store p_out_mac (replicate (Z.to_nat aes_gcm_tag_size) 0)) in
     let! p_in_mac := in_heap (TEE_Malloc aes_gcm_tag_size) in
     do! in_heap (store p_in_mac (replicate 4 0)) in
     let! codec := body p_out_mac p_in_mac in
     do! in_heap (TEE_Free sgx_keys) in
     do! in_heap (TEE_Free p_out_mac) in
     do! in_heap (TEE_Free p_in_mac) in
     ret codec) (m, w) = Ret (c', (m', w')) ∧
    frame P m m' ∧ frame (λ x, m_next m ≤ x) m9 m' ∧ mem_wf m9 ∧ Q c' m9 w'.
Proof.
  intros Hwf Hbody.
  destruct (aes_buffers m w ekey Hwf) as (m1&m2&m3&m4&m5&m6&E1&E2&E3&E4&E5&E6&Hf6&Hn6&d0&d1&d2&B0&B1&Hl1&B2&Hl2).
  rewrite (bind_run _ _ _ _ _ E1), (bind_run _ _ _ _ _ E2), (bind_run _ _ _ _ _ E3), (bind_run _ _ _ _ _ E4),
    (bind_run _ _ _ _ _ E5), (bind_run _ _ _ _ _ E6). pose proof (proj1 Hf6) as Hwf6.
  destruct (Hbody m6 d1 d2 Hf6 Hn6 B1 Hl1 B2 Hl2) as (c' & m9 & w' & e1 & e2 & E & Hf9 & B1' & B2' & HQ).
  pose proof (proj1 Hf9) as Hwf9. pose proof (proj1 (proj2 Hf9)) as Hn9.
  destruct (aes_release m9 w' (m_next m) d0 e1 e2 c' Hwf9) as (m' & Er & Hf' & Hn'); [lia|by later|done|done|].
  exists c', m9, m', w'. rewrite (bind_run _ _ _ _ _ E). split; [exact Er|]. split; [|split; [done|split; [done|done]]].
  split; [exact (proj1 Hf')|]. split; [lia|]. intros x Hx HP.
  rewrite (frame_at Hf'), (frame_at Hf9), (frame_at Hf6); try done; simpl; try lia. intros [[? _]|?]; [done|lia].
Qed.
End aes.

Section aes_calls.
Context {W : Type} `{GpLaws W, TeeMalloc, TaLog}.
Hypothesis memory : ∀ m n, tee_oom m n = false.

(** The key a call uses. *)
Definition aes_key (c : Codec) (useWriteKey : Z) : bytes :=
  if decide (useWriteKey ≠ 0) then m_writeKey c else m_readKey c.

Lemma aes_key_length c (w : W) u : codec_ok c w → length (aes_key c u) = 16%nat.
Proof. intros (_ & _ & ? & ?). unfold aes_key. by case_decide. Qed.

(** Valid handles stay valid when the operation goes on. *)
Lemma codec_ok_op c (w w' : W) op :
  codec_ok c w → gp_ops w' = <[test_op_handle c := op]> (gp_ops w) → gp_objects w' = gp_objects w → codec_ok c w'.
Proof.
  intros (_ & ? & ? & ?) Hops Hobs. split; [|split; [by rewrite Hobs|done]].
  right. rewrite Hops, lookup_insert_eq. by eexists.
Qed.

(** A tag written whole. *)
Lemma tag_poke m b o old tag :
  mem_wf m → peek m (Ptr b o) 16 = Some old → length tag = 16%nat →
  ∃ m', poke (Ptr b o) tag m = Some m' ∧ frame (λ x, x = b) m m' ∧ m_next m' = m_next m ∧
    peek m' (Ptr b o) 16 = Some tag.
Proof.
  intros Hwf Hp Hl. destruct (page_poke m b o 16 old 0 tag Hwf Hp) as (m' & P & Hf & Hn & _); [done|lia|].
  rewrite Z.add_0_r in P. exists m'. split_and!; try done. apply peek_poke_same in P. by rewrite Hl in P.
Qed.

(** Encrypting [k] bytes of a page in place, from byte [i] on. *)
Lemma seal_data_run c key m (w : W) b o n d i k bm om t0 bo t1 :
  mem_wf m → codec_ok c w → length key = 16%nat → peek m (Ptr b o) n = Some d → 0 ≤ i → 0 ≤ k → i + k ≤ n →
  peek m (Ptr bm om) 16 = Some t0 → m_blocks m !! bo = Some (Block Heap t1) → length t1 = 16%nat →
  b ≠ bm → bo ≠ b → bo ≠ bm →
  let src := take (Z.to_nat k) (drop (Z.to_nat i) d) in
  ∃ h1 h2 m' w', seal_data c 1 key (Ptr b (o + i)) k (Ptr b (o + i)) (Ptr bm om) (Ptr bo 0) (m, w)
      = Ret (set_handles c h1 h2, (m', w')) ∧
    codec_ok (set_handles c h1 h2) w' ∧ frame (λ x, x = b ∨ x = bm ∨ x = bo) m m' ∧
    m_blocks m' !! bo = Some (Block Heap (aead_tag key iv src)) ∧
    peek m' (Ptr b o) n = Some (splice d (Z.to_nat i) (seal key src)) ∧
    peek m' (Ptr bm om) 16 = Some (aead_tag key iv src).
Proof.
  intros Hwf Hc Hkey Hd Hi Hk Hik Ht Hbo Hl1 Hbm Hob Hom src.
  pose proof (peek_lt _ _ _ _ _ Hwf Hd) as Hbl. pose proof (peek_lt _ _ _ _ _ Hwf Ht) as Hml.
  pose proof (mem_wf_live_lt _ _ Hwf (ex_intro _ _ Hbo)) as Hol.
  destruct (reset_run c w 1 key Hc Hkey) as (h1 & h2 & w1 & E & Hc1 & Hop).
  pose proof (peek_length _ _ _ _ Hd) as Hdl.
  assert (Z.of_nat (length src) = k) as Hsrc by (unfold src; rewrite length_take, length_drop; lia).
  destruct (ae_encrypt_law w1 h1 key iv src Hop) as (w2 & Ee & Hops & Hobs). rewrite Hsrc in Ee.
  destruct (page_poke m b o n d i (seal key src) Hwf Hd Hi) as (m1 & P1 & Hf1 & Hn1 & Hd1);
    [unfold seal; rewrite aead_enc_length; lia|]. pose proof (proj1 Hf1) as Hwf1.
  destruct (block_poke m1 bo Heap t1 (aead_tag key iv src) Hwf1) as (m2 & P2 & Hf2 & Hn2 & B2);
    [by later|by rewrite aead_tag_length|]. pose proof (proj1 Hf2) as Hwf2.
  assert (peek m2 (Ptr bo 0) 16 = Some (aead_tag key iv src)) as Htag
    by (rewrite <- (block_peek _ _ _ _ B2); by rewrite aead_tag_length).
  destruct (tag_poke m2 bm om t0 (aead_tag key iv src) Hwf2) as (m3 & P3 & Hf3 & Hn3 & Ht3);
    [later; by later|by rewrite aead_tag_length|].
  exists h1, h2, m3, w2. split.
  - unfold seal_data. rewrite (bind_run _ _ _ _ _ (world_run _ m _ _ _ E)).
    rewrite (bind_run _ _ _ _ _ (load_run m w1 _ k src (page_peek m b o n d i k Hd Hi Hk Hik))).
    simpl test_op_handle. rewrite (bind_run _ _ _ _ _ (world_run _ m _ _ _ Ee)).
    rewrite (bind_run _ _ _ _ _ (store_run m w2 _ _ _ P1)), (bind_run _ _ _ _ _ (store_run m1 w2 _ _ _ P2)).
    by rewrite (bind_run _ _ _ _ _ (memcpy_run m2 w2 _ _ 16 _ _ Htag P3)).
  - split; [by eapply codec_ok_op|]. split; [|split; [by later|split; [later; by later|done]]].
    split; [exact (proj1 Hf3)|]. split; [lia|]. intros x Hx HP.
    by rewrite (frame_at Hf3), (frame_at Hf2), (frame_at Hf1) by (simpl; lia).
Qed.

Lemma aes_encrypt_run c page ekey u m (w : W) b o n d i k bm om t0 :
  mem_wf m → codec_ok c w → peek m (Ptr b o) n = Some d → 0 ≤ i → 0 ≤ k < 2 ^ 31 → i + k ≤ n →
  peek m (Ptr bm om) 16 = Some t0 → b ≠ bm →
  let src := take (Z.to_nat k) (drop (Z.to_nat i) d) in
  ∃ h1 h2 m' w', CodecAES c page CODEC_TYPE 1 ekey (Ptr b (o + i)) k (Ptr b (o + i)) (Ptr bm om) u (m, w)
      = Ret (set_handles c h1 h2, (m', w')) ∧
    codec_ok (set_handles c h1 h2) w' ∧ frame (λ x, x = b ∨ x = bm) m m' ∧
    peek m' (Ptr b o) n = Some (splice d (Z.to_nat i) (seal (aes_key c u) src)) ∧
    peek m' (Ptr bm om) 16 = Some (aead_tag (aes_key c u) iv src).
Proof.
  intros Hwf Hc Hd Hi Hk Hik Ht Hne src. unfold CodecAES.
  pose proof (peek_lt _ _ _ _ _ Hwf Hd) as Hb. pose proof (peek_lt _ _ _ _ _ Hwf Ht) as Hbm.
  assert (u32 k = k) as Hu by (apply unsigned_id; unfold in_unsigned; lia). rewrite Hu. fold (aes_key c u).
  destruct (aes_scratch_run memory m w ekey (λ p_out_mac p_in_mac,
      seal_data c 1 (aes_key c u) (Ptr b (o + i)) k (Ptr b (o + i)) (Ptr bm om) p_out_mac) (λ x, x = b ∨ x = bm)
    (λ c' m9 w', ∃ h1 h2, c' = set_handles c h1 h2 ∧ codec_ok c' w' ∧
       peek m9 (Ptr b o) n = Some (splice d (Z.to_nat i) (seal (aes_key c u) src)) ∧
       peek m9 (Ptr bm om) 16 = Some (aead_tag (aes_key c u) iv src)) Hwf)
    as (c' & m9 & m' & w' & E & Hf & Hf9 & Hwf9 & h1 & h2 & -> & Hc' & Hp9 & Ht9).
  - intros m6 d1 d2 s Hf6 Hn6 B1 Hl1 B2 Hl2. pose proof (proj1 Hf6) as Hwf6.
    destruct (seal_data_run c (aes_key c u) m6 w b o n d i k bm om t0 (s + 1) d1)
      as (h1 & h2 & m9 & w' & E & Hc' & Hf9 & B1' & Hp & Ht9); try done; try lia;
      [by eapply aes_key_length|by later|by later|].
    eexists (set_handles c h1 h2), m9, w', _, d2. split; [exact E|]. split; [|split; [done|split; [by later|by exists h1, h2]]].
    eapply frame_weaken; [exact Hf9|]. simpl. lia.
  - exists h1, h2, m', w'. split; [exact E|]. split; [done|]. split; [done|].
    by split; later.
Qed.

(** Decrypting what was sealed, with its tag. *)
Lemma open_data_run c key m (w : W) b o n d i k bm om bo t1 plain :
  mem_wf m → codec_ok c w → length key = 16%nat → peek m (Ptr b o) n = Some d → 0 ≤ i → 0 ≤ k → i + k ≤ n →
  take (Z.to_nat k) (drop (Z.to_nat i) d) = seal key plain →
  peek m (Ptr bm om) 16 = Some (aead_tag key iv plain) →
  m_blocks m !! bo = Some (Block Heap t1) → length t1 = 16%nat → bo ≠ b →
  ∃ h1 h2 m' w', open_data c 0 key (Ptr b (o + i)) k (Ptr b (o + i)) (Ptr bm om) (Ptr bo 0) (m, w)
      = Ret (set_handles c h1 h2, (m', w')) ∧
    codec_ok (set_handles c h1 h2) w' ∧ frame (λ x, x = b ∨ x = bo) m m' ∧
    m_blocks m' !! bo = Some (Block Heap (aead_tag key iv plain)) ∧
    peek m' (Ptr b o) n = Some (splice d (Z.to_nat i) plain).
Proof.
  intros Hwf Hc Hkey Hd Hi Hk Hik Hsrc Ht Hbo Hl1 Hob.
  pose proof (peek_lt _ _ _ _ _ Hwf Hd) as Hbl.
  pose proof (mem_wf_live_lt _ _ Hwf (ex_intro _ _ Hbo)) as Hol.
  destruct (reset_run c w 0 key Hc Hkey) as (h1 & h2 & w1 & E & Hc1 & Hop).
  pose proof (peek_length _ _ _ _ Hd) as Hdl.
  assert (Z.of_nat (length (seal key plain)) = k) as Hl by (rewrite <- Hsrc, length_take, length_drop; lia).
  assert (Z.of_nat (length plain) = k) as Hpl by (unfold seal in Hl; by rewrite aead_enc_length in Hl).
  destruct (block_poke m bo Heap t1 (aead_tag key iv plain) Hwf Hbo) as (m1 & P1 & Hf1 & Hn1 & B1);
    [by rewrite aead_tag_length|]. pose proof (proj1 Hf1) as Hwf1.
  assert (peek m1 (Ptr bo 0) 16 = Some (aead_tag key iv plain)) as Htag
    by (rewrite <- (block_peek _ _ _ _ B1); by rewrite aead_tag_length).
  assert (peek m1 (Ptr b o) n = Some d) as Hd1 by (by later).
  destruct (ae_decrypt_law w1 h1 key iv (seal key plain) Hop) as (w2 & Ee & Hops & Hobs).
  unfold seal in Ee at 3 4. rewrite aead_dec_enc, Hl in Ee.
  destruct (page_poke m1 b o n d i plain Hwf1 Hd1 Hi) as (m2 & P2 & Hf2 & Hn2 & Hd2); [lia|].
  pose proof (page_peek m1 b o n d i k Hd1 Hi Hk Hik) as Hp1. rewrite Hsrc in Hp1.
  exists h1, h2, m2, w2. split.
  - unfold open_data. rewrite (bind_run _ _ _ _ _ (world_run _ m _ _ _ E)).
    rewrite (bind_run _ _ _ _ _ (memcpy_run m w1 _ _ 16 _ _ Ht P1)).
    rewrite (bind_run _ _ _ _ _ (load_run m1 w1 _ k _ Hp1)), (bind_run _ _ _ _ _ (load_run m1 w1 _ 16 _ Htag)).
    simpl test_op_handle. rewrite (bind_run _ _ _ _ _ (world_run _ m1 _ _ _ Ee)).
    by rewrite (bind_run _ _ _ _ _ (store_run m1 w2 _ _ _ P2)).
  - split; [by eapply codec_ok_op|]. split; [|split; [by later|done]].
    split; [exact (proj1 Hf2)|]. split; [lia|]. intros x Hx HP.
    by rewrite (frame_at Hf2), (frame_at Hf1) by (simpl; lia).
Qed.

Lemma aes_decrypt_run c page ekey u m (w : W) b o n d i k bm om plain :
  mem_wf m → codec_ok c w → peek m (Ptr b o) n = Some d → 0 ≤ i → 0 ≤ k < 2 ^ 31 → i + k ≤ n →
  take (Z.to_nat k) (drop (Z.to_nat i) d) = seal (aes_key c u) plain →
  peek m (Ptr bm om) 16 = Some (aead_tag (aes_key c u) iv plain) →
  ∃ h1 h2 m' w', CodecAES c page CODEC_TYPE 0 ekey (Ptr b (o + i)) k (Ptr b (o + i)) (Ptr bm om) u (m, w)
      = Ret (set_handles c h1 h2, (m', w')) ∧
    codec_ok (set_handles c h1 h2) w' ∧ frame (λ x, x = b) m m' ∧
    peek m' (Ptr b o) n = Some (splice d (Z.to_nat i) plain).
Proof.
  intros Hwf Hc Hd Hi Hk Hik Hsrc Ht. unfold CodecAES.
  pose proof (peek_lt _ _ _ _ _ Hwf Hd) as Hb. pose proof (peek_lt _ _ _ _ _ Hwf Ht) as Hbm.
  assert (u32 k = k) as Hu by (apply unsigned_id; unfold in_unsigned; lia). rewrite Hu. fold (aes_key c u).
  destruct (aes_scratch_run memory m w ekey (λ p_out_mac p_in_mac,
      open_data c 0 (aes_key c u) (Ptr b (o + i)) k (Ptr b (o + i)) (Ptr bm om) p_in_mac) (λ x, x = b)
    (λ c' m9 w', ∃ h1 h2, c' = set_handles c h1 h2 ∧ codec_ok c' w' ∧
       peek m9 (Ptr b o) n = Some (splice d (Z.to_nat i) plain)) Hwf)
    as (c' & m9 & m' & w' & E & Hf & Hf9 & Hwf9 & h1 & h2 & -> & Hc' & Hp9).
  - intros m6 d1 d2 s Hf6 Hn6 B1 Hl1 B2 Hl2. pose proof (proj1 Hf6) as Hwf6.
    destruct (open_data_run c (aes_key c u) m6 w b o n d i k bm om (s + 2) d2 plain)
      as (h1 & h2 & m9 & w' & E & Hc' & Hf9 & B2' & Hp); try done; try lia;
      [by eapply aes_key_length|by later|by later|].
    eexists (set_handles c h1 h2), m9, w', d1, _. split; [exact E|]. split; [|split; [by later|split; [done|by exists h1, h2]]].
    eapply frame_weaken; [exact Hf9|]. simpl. lia.
  - exists h1, h2, m', w'. split; [exact E|]. split; [done|]. split; [done|]. by later.
Qed.
End aes_calls.

(** ** The map of tags next to a page *)

(** Block [b] is neither the array of the map nor a block that holds a key. *)
Definition apart (h : hashmap) (b : Z) : Prop :=
  (∀ o, h_items_ptr h ≠ Ptr b o) ∧
  ∀ i l it o, h_items h !! i = Some l → it ∈ l → i_key it ≠ Ptr b o.

(** A block allocated later is. *)
Lemma apart_fresh h m M x : hm_repr h m M → mem_wf m → ¬ x < m_next m → apart h x.
Proof.
  intros Hr Hwf Hx. split.
  - intros o0 Ha. destruct (repr_array _ _ _ Hr) as (a & da & Ha' & Hda & _). rewrite Ha in Ha'. injection Ha' as -> ->.
    apply Hx, mem_wf_live_lt; [done|by eexists].
  - intros i l it o0 Hl Hit Hk. pose proof (repr_keys_hold _ _ _ _ _ _ Hr Hl Hit) as Hh. rewrite Hk in Hh.
    apply Hx, mem_wf_live_lt; [done|by eapply holds_int_live].
Qed.

Lemma repr_frame P h m m' M :
  hm_repr h m M → mem_wf m → frame P m m' → (∀ x, x < m_next m → P x → apart h x) → hm_repr h m' M.
Proof.
  intros Hr Hwf Hf HP.
  assert (∀ i l it, h_items h !! i = Some l → it ∈ l → holds_int m' (i_key it) (Z.of_nat i)) as Hkeys.
  { intros i l it Hl Hit. pose proof (repr_keys_hold _ _ _ _ _ _ Hr Hl Hit) as Hk.
    destruct (i_key it) as [|b o] eqn:E; [by destruct Hk|]. eapply frame_holds; [done|done|done|].
    intros Hb. eapply HP in Hb as [_ Hb]; [by eapply Hb|].
    apply mem_wf_live_lt; [done|by eapply holds_int_live]. }
  destruct Hr as [Hs Hz Hb Hd (a & d & Ha & Hda & Hka)]. split; [done| | |done|].
  - destruct Hz as (l & Hl & Hz). exists l. split; [done|]. apply Forall_forall. intros it Hit.
    exact (Hkeys 0%nat l it Hl Hit).
  - intros k l Hk Hl. specialize (Hb k l Hk Hl). destruct l as [|it [|? ?]]; [done| |done].
    split; [|by apply Hb]. eapply Hkeys; [done|by left].
  - exists a, d. split_and!; [done| |done]. eapply frame_block; [done|done|done|].
    intros HPa. apply HP in HPa as [HPa _]; [by apply (HPa 0)|].
    apply mem_wf_live_lt; [done|by eexists].
Qed.

Lemma int_block_holds m b o k :
  peek m (Ptr b o) 4 = Some (le_bytes 4 (u32 k)) → in_signed 32 k → holds_int m (Ptr b o) k.
Proof. done. Qed.

(** ** [CodecDecrypt] *)
Section decrypt.
Context {W : Type} `{GpLaws W, TeeMalloc, TaLog}.
Context (SQLITE_MAX_PAGE_SIZE : Z).
Hypothesis memory : ∀ m n, tee_oom m n = false.
Implicit Types (m : mem) (w : W) (d key : bytes).

(** Where the encrypted part of a page starts. *)
Definition start (page : Z) : Z := if decide (page = 1) then 16 else 0.
Definition body (page : Z) (d : bytes) : bytes := drop (Z.to_nat (start page)) d.

Lemma sealed_tag_body page key d : sealed_tag page key d = aead_tag key iv (body page d).
Proof. unfold sealed_tag, body, start. by case_decide. Qed.

Lemma sealed_page_length page key d :
  (page = 1 → (24 ≤ length d)%nat) → length (sealed_page page key d) = length d.
Proof.
  intros Hfirst. unfold sealed_page, seal. case_decide.
  - specialize (Hfirst ltac:(done)).
    rewrite !length_app, !length_take, !length_drop, !aead_enc_length, length_take, length_drop. lia.
  - apply aead_enc_length.
Qed.

(** The parts of a sealed first page. *)
Lemma sealed_page_1 key d :
  (24 ≤ length d)%nat → ∃ x y z t, sealed_page 1 key d = x ++ y ++ z ++ t ∧
    length x = 8%nat ∧ length y = 8%nat ∧ length z = 8%nat ∧
    z = take 8 (drop 16 d) ∧ y ++ t = seal key (drop 16 d).
Proof.
  intros Hl. unfold sealed_page. rewrite decide_True by done. eexists _, _, _, _. split; [reflexivity|].
  unfold seal. rewrite !length_take, !length_drop, !aead_enc_length, length_take, length_drop.
  split_and!; [lia|lia|lia|done|apply take_drop].
Qed.

Lemma decrypt_header_run page m w b o d key :
  mem_wf m → page_ok SQLITE_MAX_PAGE_SIZE page d →
  peek m (Ptr b o) (Z.of_nat (length d)) = Some (sealed_page page key d) →
  ∃ m' d' hd,
    (if decide (page = 1) then
       let! dbHeader := in_heap (load (padd (Ptr b o) 16) 8) in
       if plain_header SQLITE_MAX_PAGE_SIZE dbHeader then
         do! in_heap (memcpy (padd (Ptr b o) 16) (padd (Ptr b o) 8) 8) in
         ret (16, Some dbHeader)
       else ret (0, Some dbHeader)
     else ret (0, None)) (m, w) = Ret ((start page, hd), (m', w)) ∧
    frame (λ x, x = b) m m' ∧ peek m' (Ptr b o) (Z.of_nat (length d)) = Some d' ∧
    drop (Z.to_nat (start page)) d' = seal key (body page d) ∧
    (page = 1 → hd = Some (take 8 (drop 16 d))).
Proof.
  intros Hwf [Hl Hfirst] Hp. unfold body, start. case_decide as Hpage.
  - destruct (Hfirst Hpage) as (Hl24 & _ & Hplain). subst page.
    destruct (sealed_page_1 key d Hl24) as (x & y & z & t & E & Hx & Hy & Hz & Hzd & Hyt).
    rewrite E in Hp. pose proof (page_peek m b o _ _ 16 8 Hp ltac:(lia) ltac:(lia) ltac:(lia)) as Hp16.
    pose proof (page_peek m b o _ _ 8 8 Hp ltac:(lia) ltac:(lia) ltac:(lia)) as Hp8.
    assert (take (Z.to_nat 8) (drop (Z.to_nat 16) (x ++ y ++ z ++ t)) = z) as Hz16.
    { rewrite (app_assoc x y), drop_app_length' by (rewrite length_app; lia). by apply take_app_length'. }
    assert (take (Z.to_nat 8) (drop (Z.to_nat 8) (x ++ y ++ z ++ t)) = y) as Hy8.
    { rewrite drop_app_length' by lia. by apply take_app_length'. }
    rewrite Hz16 in Hp16. rewrite Hy8 in Hp8.
    destruct (page_poke m b o _ _ 16 y Hwf Hp) as (m' & P & Hf & _ & Hp'); [lia|lia|].
    exists m', (x ++ y ++ y ++ t), (Some z). split.
    { simpl padd. rewrite (bind_run _ _ _ _ _ (load_run m w _ 8 _ Hp16)).
      rewrite Hzd, Hplain, <- Hzd. by rewrite (bind_run _ _ _ _ _ (memcpy_run m w _ _ 8 _ _ Hp8 P)). }
    split; [done|]. split; [|split].
    + rewrite Hp'. f_equal. rewrite (app_assoc x y), (splice_app (x ++ y) z t y) by (rewrite ?length_app; lia).
      by rewrite <- app_assoc.
    + rewrite (app_assoc x y), drop_app_length' by (rewrite length_app; lia). exact Hyt.
    + intros _. by rewrite Hzd.
  - exists m, (sealed_page page key d), None. split; [done|]. split; [by apply frame_refl|]. split; [done|].
    split; [|done]. unfold sealed_page. rewrite decide_False by done. by rewrite !drop_0.
Qed.

Lemma decrypt_footer_run page m w b o d d' hd :
  mem_wf m → page_ok SQLITE_MAX_PAGE_SIZE page d →
  peek m (Ptr b o) (Z.of_nat (length d)) = Some d' → drop (Z.to_nat (start page)) d' = body page d →
  (page = 1 → hd = Some (take 8 (drop 16 d))) →
  ∃ m',
    (if decide (page = 1 ∧ start page ≠ 0) then
       let! dbHeader := lift hd in
       let! now := in_heap (load (padd (Ptr b o) 16) 8) in
       if decide (now = dbHeader) then in_heap (store (Ptr b o) SQLITE_FILE_HEADER) else ret tt
     else ret tt) (m, w) = Ret (tt, (m', w)) ∧
    frame (λ x, x = b) m m' ∧ m_next m' = m_next m ∧
    peek m' (Ptr b o) (Z.of_nat (length d)) = Some d.
Proof.
  intros Hwf [Hl Hfirst] Hp Hd' Hhd. unfold body, start in *.
  destruct (decide (page = 1)) as [->|Hpage].
  - destruct (Hfirst eq_refl) as (Hl24 & Hmagic & _). rewrite (Hhd eq_refl).
    rewrite decide_True by done. change (lift (Some ?x)) with (ret (S:=mem*W) x). rewrite bind_ret_l.
    pose proof (peek_length _ _ _ _ Hp) as Hlen.
    pose proof (page_peek m b o _ _ 16 8 Hp ltac:(lia) ltac:(lia) ltac:(lia)) as Hp16.
    rewrite Hd' in Hp16. simpl padd. rewrite (bind_run _ _ _ _ _ (load_run m w _ 8 _ Hp16)).
    rewrite decide_True by done.
    destruct (page_poke m b o _ _ 0 SQLITE_FILE_HEADER Hwf Hp) as (m' & P & Hf & Hn & Hp'); [done|simpl; lia|].
    rewrite Z.add_0_r in P. exists m'. split; [by apply store_run|]. split; [done|]. split; [done|].
    rewrite Hp'. f_equal. rewrite <- Hmagic. unfold splice.
    rewrite take_0, app_nil_l, length_take, Nat.min_l by lia.
    change (Z.to_nat 0 + 16)%nat with (Z.to_nat 16). rewrite Hd'. apply take_drop.
  - exists m. rewrite decide_False by naive_solver. split; [done|]. split; [by apply frame_refl|].
    split; [done|]. rewrite !drop_0 in Hd'. by subst d'.
Qed.
End decrypt.

Section decrypt_page.
Context {W : Type} `{GpLaws W, TeeMalloc, TaLog}.
Context (SQLITE_MAX_PAGE_SIZE : Z).
Hypothesis memory : ∀ m n, tee_oom m n = false.
Implicit Types (m : mem) (w : W) (d : bytes).

(** Looking up the tag of a page. *)
Lemma tag_get_run h m w M key k :
  hm_repr h m M → holds_int m key k → 0 ≤ k < h_size h →
  tag_get (Some h) key (m, w) = Ret (default NULL (M !! k), (m, w)).
Proof.
  intros Hr Hk Hs. unfold tag_get. change (lift (Some h)) with (ret (S:=mem*W) h). rewrite bind_ret_l.
  apply heap_run. by apply hm_get_run.
Qed.

(** The two local variables of both functions: the page number at [m_next m],
    sixteen bytes behind it. *)
Lemma locals_run m w page :
  mem_wf m → in_signed 32 page →
  ∃ m1 m2, let q := m_next m in
    in_heap (alloc Stack (le_bytes 4 (u32 page))) (m, w) = Ret (Ptr q 0, (m1, w)) ∧
    in_heap (alloc Stack (replicate 16 0)) (m1, w) = Ret (Ptr (q + 1) 0, (m2, w)) ∧
    frame (λ _, False) m m2 ∧ m_next m2 = q + 2 ∧ holds_int m2 (Ptr q 0) page ∧
    peek m2 (Ptr (q + 1) 0) 16 = Some (replicate 16 0).
Proof.
  intros Hwf Hpage.
  destruct (alloc_run m w Stack (le_bytes 4 (u32 page)) Hwf) as (m1 & E1 & Hn1 & Hf1 & Hp1 & _).
  pose proof (proj1 Hf1) as Hwf1.
  destruct (alloc_run m1 w Stack (replicate 16 0) Hwf1) as (m2 & E2 & Hn2 & Hf2 & Hp2 & _).
  rewrite Hn1 in E2, Hp2. rewrite length_le_bytes in Hp1.
  exists m1, m2. split_and!; try done; [|lia|].
  - eapply frame_trans; [exact Hf1|exact Hf2|done].
  - assert (holds_int m1 (Ptr (m_next m) 0) page) as Hh by done. by later.
Qed.

(** They go out of scope. *)
Lemma leave_locals_run {A} m w q (a : A) :
  mem_wf m →
  ∃ m', (do! in_heap (leave_scope (Ptr (q + 1) 0)) in do! in_heap (leave_scope (Ptr q 0)) in ret a) (m, w)
      = Ret (a, (m', w)) ∧
    m_next m' = m_next m ∧ frame (λ x, x = q ∨ x = q + 1) m m' ∧
    m_blocks m' !! q = None ∧ m_blocks m' !! (q + 1) = None.
Proof.
  intros Hwf. destruct (leave_run m w (q + 1) 0 Hwf) as (m1 & E1 & Hn1 & Hf1 & Hd1). pose proof (proj1 Hf1) as Hwf1.
  destruct (leave_run m1 w q 0 Hwf1) as (m2 & E2 & Hn2 & Hf2 & Hd2).
  exists m2. rewrite (bind_run _ _ _ _ _ E1), (bind_run _ _ _ _ _ E2). split; [done|]. split; [lia|].
  split; [eapply frame_trans; [eapply frame_weaken; [exact Hf1|]|exact Hf2|]; simpl; tauto|]. split; [done|].
  destruct (decide (q + 1 < m_next m1)) as [Hlt|Hge]; [by rewrite (frame_at Hf2) by (simpl; lia)|].
  destruct (proj1 Hf2) as [_ Hfree]. apply Hfree. lia.
Qed.

(** The tag of the page, from the map to the local variable. *)
Lemma tag_copy_run h m w M page q bt ot tag :
  mem_wf m → hm_repr h m M → holds_int m (Ptr q 0) page → 0 ≤ page < h_size h →
  M !! page = Some (Ptr bt ot) → peek m (Ptr bt ot) 16 = Some tag → prints tag →
  peek m (Ptr (q + 1) 0) 16 = Some (replicate 16 0) →
  ∃ m', (let! tmp := tag_get (Some h) (Ptr q 0) in
         do! in_heap (IMSG_string tmp) in
         if decide (tmp = NULL) then ret tt else in_heap (memcpy (Ptr (q + 1) 0) tmp 16)) (m, w) = Ret (tt, (m', w)) ∧
    frame (λ x, x = q + 1) m m' ∧ m_next m' = m_next m ∧ peek m' (Ptr (q + 1) 0) 16 = Some tag.
Proof.
  intros Hwf Hr Hpg Hps HM Ht Hpr Hmac. rewrite (bind_run _ _ _ _ _ (tag_get_run h m w M _ page Hr Hpg Hps)), HM.
  simpl default. rewrite (bind_run _ _ _ _ _ (heap_IMSG_run m w _ _ _ Ht Hpr)). rewrite decide_False by done. pose proof (peek_length _ _ _ _ Ht) as Hl.
  destruct (page_poke m (q + 1) 0 16 _ 0 tag Hwf Hmac) as (m' & P & Hf & Hn & _); [done|lia|].
  rewrite Z.add_0_r in P. exists m'. split; [by apply (memcpy_run m w _ _ 16 tag)|]. split; [done|]. split; [done|].
  apply peek_poke_same in P. by rewrite Hl in P.
Qed.

Lemma tag_copy_bind {A} tag key mac (k : C (mem * W) A) s s' :
  (let! tmp := tag_get tag key in
   do! in_heap (IMSG_string tmp) in
   if decide (tmp = NULL) then ret tt else in_heap (memcpy mac tmp 16)) s = Ret (tt, s') →
  (let! tmp := tag_get tag key in
   do! in_heap (IMSG_string tmp) in
   do! (if decide (tmp = NULL) then ret tt else in_heap (memcpy mac tmp 16)) in k) s = k s'.
Proof.
  intros E. unfold bind in *. destruct (tag_get tag key s) as [[tmp s1]|]; [|done].
  destruct (in_heap (IMSG_string tmp) s1) as [[[] s2]|]; [|done]. by rewrite E.
Qed.

Lemma CodecDecrypt_run c page m w b o d h M bt ot :
  mem_wf m → codec_ok c w → page_ok SQLITE_MAX_PAGE_SIZE page d →
  peek m (Ptr b o) (Z.of_nat (length d)) = Some (sealed_page page (m_readKey c) d) →
  hm_repr h m M → 0 < page < h_size h → page < 2 ^ 31 → M !! page = Some (Ptr bt ot) →
  peek m (Ptr bt ot) 16 = Some (sealed_tag page (m_readKey c) d) → prints (sealed_tag page (m_readKey c) d) →
  bt ≠ b → apart h b →
  ∃ h1 h2 m' w', CodecDecrypt SQLITE_MAX_PAGE_SIZE c page (Ptr b o) (Z.of_nat (length d)) (Some h) (m, w)
      = Ret (set_handles c h1 h2, (m', w')) ∧
    codec_ok (set_handles c h1 h2) w' ∧ frame (λ x, x = b) m m' ∧
    peek m' (Ptr b o) (Z.of_nat (length d)) = Some d.
Proof.
  intros Hwf Hc Hpok Hp Hr Hps Hpb HM Ht Hpr Hbt Hap. unfold CodecDecrypt.
  pose proof (peek_lt _ _ _ _ _ Hwf Hp) as Hb. pose proof (peek_lt _ _ _ _ _ Hwf Ht) as Hbtl.
  destruct (locals_run m w page Hwf) as (m1 & m2 & E1 & E2 & Hf2 & Hn2 & Hpg2 & Hmac2);
    [unfold in_signed; lia|].
  pose proof (proj1 Hf2) as Hwf2. set (q := m_next m) in *.
  rewrite (bind_run _ _ _ _ _ E1), (bind_run _ _ _ _ _ E2).
  destruct (decrypt_header_run _ page m2 w b o d (m_readKey c) Hwf2 Hpok) as (m3 & d3 & hd & E3 & Hf3 & Hp3 & Hd3 & Hhd);
    [by later|].
  pose proof (proj1 Hf3) as Hwf3. pose proof (proj1 (proj2 Hf3)) as Hn3.
  rewrite (bind_run _ _ _ _ _ E3). clear E1 E2 E3 m1.
  assert (hm_repr h m3 M) as Hr3.
  { eapply repr_frame; [|exact Hwf2|exact Hf3|by intros x _ ->]. eapply repr_frame; [exact Hr|exact Hwf|exact Hf2|done]. }
  destruct (tag_copy_run h m3 w M page q bt ot (sealed_tag page (m_readKey c) d) Hwf3 Hr3) as (m4 & E4 & Hf4 & Hn4 & P4);
    [by later|lia|done|later; by later|done|by later|].
  rewrite (tag_copy_bind _ _ _ _ _ _ E4). pose proof (proj1 Hf4) as Hwf4.
  rewrite sealed_tag_body in P4.
  assert (holds_int m4 (Ptr q 0) page) as Hpg4 by (later; by later).
  rewrite (bind_run _ _ _ _ _ (heap_run _ _ w _ _ (load_int_run _ _ _ Hpg4))).
  assert (peek m4 (Ptr b o) (Z.of_nat (length d)) = Some d3) as Hp4 by (by later).
  pose proof (peek_length _ _ _ _ Hp4) as Hl3.
  destruct Hpok as [Hlen Hfirst].
  assert (start page ≤ Z.of_nat (length d)) as Hstart.
  { unfold start. case_decide as Hpage; [|lia]. destruct (Hfirst Hpage). lia. }
  assert (0 ≤ start page) as Hstart0 by (unfold start; case_decide; lia).
  destruct (aes_decrypt_run memory c page (m_readKey c) 0 m4 w b o _ d3 (start page)
              (Z.of_nat (length d) - start page) (q + 1) 0 (body page d) Hwf4 Hc Hp4)
    as (h1 & h2 & m5 & w5 & E5 & Hc5 & Hf5 & Hp5); [lia|lia|lia| |exact P4|].
  { rewrite take_ge by (rewrite length_drop; lia). exact Hd3. }
  simpl padd. rewrite (bind_run _ _ _ _ _ E5). pose proof (proj1 Hf5) as Hwf5.
  pose proof (proj1 (proj2 Hf5)) as Hn5.
  destruct (decrypt_footer_run SQLITE_MAX_PAGE_SIZE page m5 w5 b o d (splice d3 (Z.to_nat (start page)) (body page d)) hd Hwf5) as (m6 & E6 & Hf6 & Hn6 & Hp6);
    [by split|exact Hp5| |exact Hhd|].
  { unfold splice. rewrite drop_app_length' by (rewrite length_take; lia).
    rewrite drop_ge, app_nil_r; [done|]. unfold body. rewrite length_drop. lia. }
  rewrite (bind_run _ _ _ _ _ E6). pose proof (proj1 Hf6) as Hwf6.
  destruct (leave_locals_run m6 w5 q (set_handles c h1 h2) Hwf6) as (m7 & E7 & Hn7 & Hf7 & _).
  exists h1, h2, m7, w5. split; [exact E7|]. split; [done|]. split.
  - split; [exact (proj1 Hf7)|]. split; [lia|]. intros x Hx HP.
    by rewrite (frame_at Hf7), (frame_at Hf6), (frame_at Hf5), (frame_at Hf4), (frame_at Hf3), (frame_at Hf2)
      by (simpl; lia).
  - later. done.
Qed.
End decrypt_page.

(** ** [CodecEncrypt] *)

(** The value the map has for a page, if any, is a heap block of its own, away
    from block [b]: [hm_set] will free it. *)
Definition old_tag_ok (m : mem) (M : gmap Z ptr) (page b : Z) : Prop :=
  ∀ v, M !! page = Some v → ∃ bv d, v = Ptr bv 0 ∧ bv ≠ b ∧ m_blocks m !! bv = Some (Block Heap d).

(** Two more entries do not make the map rehash. *)
Definition room (h : hashmap) : Prop :=
  ∀ c, 0 ≤ c ≤ 2 → overloaded (u32 (h_count h + c)) (h_size h) (h_load_factor h) = false.

Section set_tag_entries.
Context `{TeeMalloc}.
Hypothesis memory : ∀ m n, tee_oom m n = false.
Implicit Types (m : mem) (h : hashmap).

Lemma malloc_frame n m :
  mem_wf m → ∃ m', TEE_Malloc n m = Ret (Ptr (m_next m) 0, m') ∧ frame (λ _, False) m m'.
Proof.
  intros Hwf. destruct (malloc_run memory n m Hwf) as (m' & E & Hwf' & _ & Hn & Hb).
  exists m'. split; [done|]. split; [done|]. split; [lia|]. intros b Hlt _.
  by rewrite Hb, lookup_insert_ne by lia.
Qed.

Lemma set_item_nil key value m :
  mem_wf m → key ≠ NULL →
  ∃ m', set_item [] key value m = Ret (([Item (Ptr (m_next m) 0) key value], 1), m') ∧ frame (λ _, False) m m' ∧
    ∃ d, m_blocks m' !! m_next m = Some (Block Heap d).
Proof.
  intros Hwf Hnn. simpl. rewrite decide_False by done.
  destruct (malloc_run memory sizeof_item m Hwf) as (m1 & E1 & Hwf1 & _ & Hn1 & Hb1).
  assert (frame (λ _, False) m m1) as Hf1
    by (split; [done|]; split; [lia|]; intros b Hlt _; by rewrite Hb1, lookup_insert_ne by lia).
  rewrite (bind_run _ _ _ _ _ E1), decide_False by done.
  destruct (malloc_frame sizeof_int m1 (proj1 Hf1)) as (m2 & E2 & Hf2).
  rewrite (bind_run _ _ _ _ _ E2), decide_False by done.
  exists m2. split; [done|]. split; [eapply frame_trans; [exact Hf1|exact Hf2|done]|].
  eexists. rewrite (frame_at Hf2) by (done || lia). by rewrite Hb1, lookup_insert_eq.
Qed.

Lemma set_item_zero l key value m :
  mem_wf m → holds_int m key 0 → keys_hold m 0 l →
  ∃ l' m', set_item l key value m = Ret ((l', 1), m') ∧ frame (λ _, False) m m'.
Proof.
  intros Hwf Hk Hl. assert (key ≠ NULL) as Hnn by (intros ->; by destruct Hk).
  induction Hl as [|it l Hit _ IH].
  - destruct (set_item_nil key value m Hwf Hnn) as (m' & E & Hf & _). by eexists _, m'.
  - destruct IH as (l' & m' & E & Hf). simpl. rewrite decide_False by done.
    rewrite (bind_run _ _ _ _ _ (assign_key_run _ _ _ _ Hk Hit)). rewrite decide_False by naive_solver.
    rewrite (bind_run _ _ _ _ _ E). by eexists _, m'.
Qed.

(** Storing under the number of a page. *)
Lemma set_item_page l key value k m M b :
  mem_wf m → holds_int m key k → k ≠ 0 → bucket_ok m M k l → old_tag_ok m M k b →
  (∀ v, M !! k = Some v → v ≠ value) →
  ∃ it c m', set_item l key value m = Ret (([it], c), m') ∧ i_value it = value ∧ 0 ≤ c ≤ 1 ∧
    frame (λ x, M !! k = Some (Ptr x 0)) m m' ∧
    (M !! k = None ∧ i_key it = key ∨ is_Some (M !! k) ∧ ∃ it0, l = [it0] ∧ i_key it = i_key it0).
Proof.
  intros Hwf Hk Hk0 Hb Hold Hv. assert (key ≠ NULL) as Hnn by (intros ->; by destruct Hk).
  destruct l as [|it [|? ?]]; simpl in Hb; [| |done].
  - destruct (set_item_nil key value m Hwf Hnn) as (m' & E & Hf & _).
    eexists _, 1, m'. split; [exact E|]. split; [done|]. split; [lia|]. split; [|by left].
    by eapply frame_weaken.
  - destruct Hb as [Hit HM]. destruct (Hold _ HM) as (bv & d & Hbv & _ & Hd).
    simpl. rewrite decide_False by done.
    rewrite (bind_run _ _ _ _ _ (assign_key_run _ _ _ _ Hk Hit)).
    rewrite decide_True, decide_True by (try done; by apply Hv). rewrite Hbv.
    destruct (free_run (W:=unit) m tt bv d Hwf Hd) as (m' & E & _ & Hf & _).
    unfold in_heap, zoom in E. simpl in E.
    destruct (TEE_Free (Ptr bv 0) m) as [[[] m'']|] eqn:Ef; [|done]. injection E as ->.
    rewrite (bind_run _ _ _ _ _ Ef). eexists _, 0, m'. split; [reflexivity|].
    split; [done|]. split; [lia|]. split; [|right; split; [by eexists|by exists it]].
    eapply frame_weaken; [exact Hf|]. intros x _ ->. by rewrite HM, Hbv.
Qed.

Lemma tag_set_run {W : Type} h key value k m (w : W) l l' c m' :
  holds_int m key k → 0 ≤ k → h_items h !! Z.to_nat k = Some l →
  set_item l key value m = Ret ((l', c), m') →
  overloaded (u32 (h_count h + c)) (h_size h) (h_load_factor h) = false →
  tag_set (Some h) key value (m, w) =
    Ret (Some (set_count (set_items h (<[Z.to_nat k := l']> (h_items h))) (u32 (h_count h + c))), (m', w)).
Proof.
  intros Hk Hpos Hl E Ho. unfold tag_set. change (lift (Some h)) with (ret (S:=mem*W) h). rewrite bind_ret_l.
  erewrite bind_run; [|apply heap_run; rewrite (hm_set_run h key value k m) by done; rewrite Hl;
    change (lift (Some l)) with (ret (S:=mem) l); rewrite bind_ret_l, (bind_run _ _ _ _ _ E);
    unfold hm_set_end; simpl; rewrite Ho; reflexivity].
  done.
Qed.
End set_tag_entries.

Section encrypt.
Context {W : Type} `{GpLaws W, TeeMalloc, TaLog}.
Hypothesis memory : ∀ m n, tee_oom m n = false.
Implicit Types (m : mem) (w : W) (d : bytes).

Lemma set_handles_same c : set_handles c (test_op_handle c) (test_key_handle c) = c.
Proof. by destruct c. Qed.

(** The first sixteen bytes of the first page. *)
Lemma encrypt_first_run c page u m w b o d h M bm :
  mem_wf m → codec_ok c w → Z.of_nat (length d) < 2 ^ 31 → (page = 1 → (24 ≤ length d)%nat) →
  peek m (Ptr b o) (Z.of_nat (length d)) = Some d → hm_repr h m M → apart h b → room h →
  peek m (Ptr bm 0) 16 = Some (replicate 16 0) → b ≠ bm → apart h bm → 0 < page →
  (page = 1 → prints (aead_tag (aes_key c u) iv (take 16 d))) →
  ∃ h1 h2 l0 n hd m' w' d', let h' := set_count (set_items h (<[0%nat := l0]> (h_items h))) (u32 (h_count h + n)) in
    (if decide (page = 1) then
       let! dbHeader := in_heap (load (padd (Ptr b o) 16) 8) in
       let! codec := CodecAES c page CODEC_TYPE 1 (aes_key c u) (Ptr b o) 16 (Ptr b o) (Ptr bm 0) u in
       let! pageHeader := in_heap (alloc Stack (le_bytes 4 (u32 (page - 1)))) in
       do! in_heap (IMSG_string (Ptr bm 0)) in
       let! tag := tag_set (Some h) pageHeader (Ptr bm 0) in
       do! in_heap (leave_scope pageHeader) in
       ret (codec, tag, 16, Some dbHeader)
     else ret (c, Some h, 0, None)) (m, w)
      = Ret ((set_handles c h1 h2, Some (if decide (page = 1) then h' else h), start page, hd), (m', w')) ∧
    0 ≤ n ≤ 1 ∧ codec_ok (set_handles c h1 h2) w' ∧ frame (λ x, x = b ∨ x = bm) m m' ∧
    peek m' (Ptr b o) (Z.of_nat (length d)) = Some d' ∧
    (∃ t, peek m' (Ptr bm 0) 16 = Some t) ∧ drop (Z.to_nat (start page)) d' = body page d ∧
    (page = 1 → hd = Some (take 8 (drop 16 d)) ∧ take 16 d' = seal (aes_key c u) (take 16 d)).
Proof.
  intros Hwf Hc Hlen H24 Hp Hr Hap Hroom Hmac Hne Hapm Hpos Hpr. unfold body, start. case_decide as Hpage.
  - specialize (H24 Hpage). subst page.
    pose proof (page_peek m b o _ _ 16 8 Hp ltac:(lia) ltac:(lia) ltac:(lia)) as Hp16.
    simpl padd. rewrite (bind_run _ _ _ _ _ (load_run m w _ 8 _ Hp16)).
    destruct (aes_encrypt_run memory c 1 (aes_key c u) u m w b o _ d 0 16 bm 0 _ Hwf Hc Hp ltac:(lia) ltac:(lia) ltac:(lia) Hmac Hne)
      as (h1 & h2 & m1 & w1 & E1 & Hc1 & Hf1 & Hp1 & Hmac1).
    rewrite Z.add_0_r in E1. rewrite (bind_run _ _ _ _ _ E1). clear E1. pose proof (proj1 Hf1) as Hwf1.
    pose proof (proj1 (proj2 Hf1)) as Hn1.
    destruct (alloc_run m1 w1 Stack (le_bytes 4 (u32 0)) Hwf1) as (m2 & E2 & Hn2 & Hf2 & Hp2 & _).
    change (1 - 1) with 0. rewrite (bind_run _ _ _ _ _ E2). clear E2. pose proof (proj1 Hf2) as Hwf2.
    assert (holds_int m2 (Ptr (m_next m1) 0) 0) as Hk2 by done.
    erewrite (bind_run (in_heap (IMSG_string _))).
    2:{ apply (heap_IMSG_run m2 w1 _ 16 (aead_tag (aes_key c u) iv (take 16 d))); [later; exact Hmac1|by apply Hpr]. }
    assert (hm_repr h m2 M) as Hr2.
    { eapply repr_frame; [|exact Hwf1|exact Hf2|done]. eapply repr_frame; [exact Hr|exact Hwf|exact Hf1|].
      by intros x _ [-> | ->]. }
    destruct (repr_zero _ _ _ Hr2) as (l & Hl & Hz).
    destruct (set_item_zero memory l _ (Ptr bm 0) m2 Hwf2 Hk2 Hz) as (l0 & m3 & E3 & Hf3).
    pose proof (proj1 Hf3) as Hwf3. pose proof (proj1 (proj2 Hf3)) as Hn3.
    rewrite (bind_run _ _ _ _ _ (tag_set_run h _ _ 0 m2 w1 l l0 1 m3 Hk2 ltac:(lia) Hl E3 (Hroom 1 ltac:(lia)))).
    destruct (leave_run m3 w1 (m_next m1) 0 Hwf3) as (m4 & E4 & Hn4 & Hf4 & _).
    rewrite (bind_run _ _ _ _ _ E4).
    pose proof (peek_lt _ _ _ _ _ Hwf Hp) as Hb. pose proof (peek_lt _ _ _ _ _ Hwf Hmac) as Hbm.
    eexists h1, h2, l0, 1, _, m4, w1, _. split; [reflexivity|]. split; [lia|]. split; [done|]. split; [|split; [|split; [|split]]].
    + split; [exact (proj1 Hf4)|]. split; [lia|]. intros x Hx HP.
      by rewrite (frame_at Hf4), (frame_at Hf3), (frame_at Hf2), (frame_at Hf1) by (simpl; lia).
    + later. later. later. exact Hp1.
    + eexists. later. later. later. exact Hmac1.
    + change (Z.to_nat 0) with 0%nat. change (Z.to_nat 16) with 16%nat. unfold splice. rewrite take_0, app_nil_l, drop_0.
      assert (length (seal (aes_key c u) (take 16 d)) = 16%nat) as Hsl
        by (unfold seal; rewrite aead_enc_length, length_take; lia).
      rewrite drop_app_length' by lia. by rewrite Hsl.
    + intros _. split; [done|]. change (Z.to_nat 0) with 0%nat. change (Z.to_nat 16) with 16%nat.
      unfold splice. rewrite take_0, app_nil_l, drop_0. apply take_app_length'.
      unfold seal. rewrite aead_enc_length, length_take. lia.
  - exists (test_op_handle c), (test_key_handle c), [], 0, None, m, w, d. rewrite set_handles_same.
    split; [done|]. split; [lia|]. split; [done|]. split; [by apply frame_refl|]. split; [done|].
    split; [by eexists|]. by rewrite drop_0.
Qed.

(** The last step: the clear bytes of the first page. *)
Lemma encrypt_last_run page key m w b o d d' hd :
  mem_wf m → (page = 1 → (24 ≤ length d)%nat) → length d' = length d →
  peek m (Ptr b o) (Z.of_nat (length d)) = Some (splice d' (Z.to_nat (start page)) (seal key (body page d))) →
  (page = 1 → hd = Some (take 8 (drop 16 d)) ∧ take 16 d' = seal key (take 16 d)) →
  ∃ m',
    (if decide (page = 1) then
       do! in_heap (memcpy (padd (Ptr b o) 8) (padd (Ptr b o) 16) 8) in
       let! dbHeader := lift hd in
       in_heap (store (padd (Ptr b o) 16) dbHeader)
     else ret tt) (m, w) = Ret (tt, (m', w)) ∧
    frame (λ x, x = b) m m' ∧ m_next m' = m_next m ∧
    peek m' (Ptr b o) (Z.of_nat (length d)) = Some (sealed_page page key d).
Proof.
  intros Hwf H24 Hl Hp Hhd. unfold body, start, sealed_page in *. case_decide as Hpage.
  - specialize (H24 Hpage). destruct (Hhd Hpage) as [-> Ha]. clear Hhd.
    set (e := seal key (drop 16 d)) in *.
    assert (length e = length d - 16)%nat as He by (unfold e, seal; rewrite aead_enc_length, length_drop; lia).
    assert (splice d' (Z.to_nat 16) (seal key (drop (Z.to_nat 16) d))
      = take 8 (seal key (take 16 d)) ++ drop 8 (seal key (take 16 d)) ++ take 8 e ++ drop 8 e) as Hs.
    { change (Z.to_nat 16) with 16%nat. fold e. unfold splice. rewrite Ha, drop_ge, app_nil_r by lia.
      by rewrite (app_assoc (take 8 (seal _ _))), take_drop, take_drop. }
    rewrite Hs in Hp. clear Hs. set (s16 := seal key (take 16 d)) in *.
    assert (length s16 = 16%nat) as Hsl by (unfold s16, seal; rewrite aead_enc_length, length_take; lia).
    assert (length (take 8 s16) = 8%nat ∧ length (drop 8 s16) = 8%nat ∧ length (take 8 e) = 8%nat) as (L1 & L2 & L3)
      by (rewrite !length_take, length_drop; lia).
    assert (length (take 8 (drop 16 d)) = 8%nat) as L4 by (rewrite length_take, length_drop; lia).
    revert Hp L1 L2 L3. generalize (take 8 s16) as x, (drop 8 s16) as y, (take 8 e) as z, (drop 8 e) as t.
    intros x y z t Hp Lx Ly Lz. simpl padd.
    pose proof (peek_length _ _ _ _ Hp) as Hpl.
    pose proof (page_peek m b o _ _ 16 8 Hp ltac:(lia) ltac:(lia) ltac:(lia)) as Hp16.
    assert (take (Z.to_nat 8) (drop (Z.to_nat 16) (x ++ y ++ z ++ t)) = z) as Hz16.
    { rewrite (app_assoc x y), drop_app_length' by (rewrite length_app; lia). by apply take_app_length'. }
    rewrite Hz16 in Hp16.
    destruct (page_poke m b o _ _ 8 z Hwf Hp) as (m1 & P1 & Hf1 & Hn1 & Hp1); [lia|lia|].
    pose proof (proj1 Hf1) as Hwf1. rewrite (splice_app x y (z ++ t)) in Hp1 by lia.
    destruct (page_poke m1 b o _ _ 16 (take 8 (drop 16 d)) Hwf1 Hp1) as (m2 & P2 & Hf2 & Hn2 & Hp2); [lia|lia|].
    rewrite (bind_run _ _ _ _ _ (memcpy_run m w _ _ 8 _ _ Hp16 P1)).
    change (lift (Some ?x)) with (ret (S:=mem*W) x). rewrite bind_ret_l. exists m2.
    split; [by apply store_run|]. split; [eapply frame_trans; [exact Hf1|exact Hf2|done]|]. split; [lia|].
    rewrite Hp2. f_equal.
    rewrite (app_assoc x z), (splice_app (x ++ z) z t) by (rewrite ?length_app; lia). by rewrite <- app_assoc.
  - exists m. split; [done|]. split; [by apply frame_refl|]. split; [done|].
    rewrite Hp. f_equal. change (Z.to_nat 0) with 0%nat. unfold splice. rewrite take_0, drop_0, app_nil_l.
    rewrite drop_ge, app_nil_r; [done|]. unfold seal. rewrite aead_enc_length. lia.
Qed.
End encrypt.

Section encrypt_page.
Context {W : Type} `{GpLaws W, TeeMalloc, TaLog}.
Hypothesis memory : ∀ m n, tee_oom m n = false.
Implicit Types (m : mem) (w : W) (d : bytes).

(** What the map has for the page afterwards: one node whose value is the address
    of a variable that is gone, and so is its key when the page is new. *)
Definition left_dangling (h : hashmap) (m : mem) (M : gmap Z ptr) (page : Z) : Prop :=
  ∃ it s, h_items h !! Z.to_nat page = Some [it] ∧ i_value it = Ptr s 0 ∧
    s < m_next m ∧ m_blocks m !! s = None ∧
    (M !! page = None ∧ (∃ q, i_key it = Ptr q 0 ∧ q < m_next m ∧ m_blocks m !! q = None) ∨
     is_Some (M !! page) ∧ holds_int m (i_key it) page).

(** The map after the first sixteen bytes: for the first page, with the entry of key 0. *)
Definition with_first (h : hashmap) (page : Z) (l0 : list item) (n : Z) : hashmap :=
  if decide (page = 1) then set_count (set_items h (<[0%nat := l0]> (h_items h))) (u32 (h_count h + n)) else h.

Lemma with_first_facts h page l0 n c :
  room h → 0 < page → 0 ≤ n ≤ 1 → 0 ≤ c ≤ 1 → let hB := with_first h page l0 n in
  h_items hB !! Z.to_nat page = h_items h !! Z.to_nat page ∧ h_size hB = h_size h ∧
  length (h_items hB) = length (h_items h) ∧
  overloaded (u32 (h_count hB + c)) (h_size hB) (h_load_factor hB) = false ∧
  ∃ x, 0 ≤ x ≤ 2 ∧ u32 (h_count hB + c) = u32 (h_count h + x).
Proof.
  intros Hroom Hp Hn Hc. unfold with_first. simpl. case_decide; simpl.
  - assert (u32 (u32 (h_count h + n) + c) = u32 (h_count h + (n + c))) as ->
      by (unfold unsigned; by rewrite Zplus_mod_idemp_l, Z.add_assoc).
    rewrite list_lookup_insert_ne, length_insert by lia. split_and!; try done; [apply Hroom; lia|].
    exists (n + c). split; [lia|done].
  - split_and!; try done; [apply Hroom; lia|]. exists c. split; [lia|done].
Qed.

(** Storing the address of the tag. *)
Lemma page_entry_run h m w M page b l0 n kp vp :
  mem_wf m → hm_repr h m M → room h → 0 < page < h_size h → 0 ≤ n ≤ 1 →
  holds_int m kp page → old_tag_ok m M page b → (∀ v, M !! page = Some v → v ≠ vp) →
  ∃ h' it m', tag_set (Some (with_first h page l0 n)) kp vp (m, w) = Ret (Some h', (m', w)) ∧
    frame (λ x, M !! page = Some (Ptr x 0)) m m' ∧ h_size h' = h_size h ∧
    (∃ x, 0 ≤ x ≤ 2 ∧ h_count h' = u32 (h_count h + x)) ∧
    h_items h' !! Z.to_nat page = Some [it] ∧ i_value it = vp ∧
    (M !! page = None ∧ i_key it = kp ∨
     is_Some (M !! page) ∧ ∃ bk ok, i_key it = Ptr bk ok ∧ holds_int m (Ptr bk ok) page ∧ ∀ x, apart h x → bk ≠ x).
Proof.
  intros Hwf Hr Hroom Hps Hn Hkp Hold Hv.
  destruct (repr_lookup h m M page Hr ltac:(lia)) as [l Hl].
  pose proof (repr_bucket _ _ _ Hr (Z.to_nat page) l ltac:(lia) Hl) as Hbucket. rewrite Z2Nat.id in Hbucket by lia.
  destruct (set_item_page memory l kp vp page m M b Hwf Hkp ltac:(lia) Hbucket Hold Hv)
    as (it & cn & m' & E & Hval & Hcn & Hf & Hkey).
  destruct (with_first_facts h page l0 n cn Hroom ltac:(lia) Hn Hcn) as (HlB & HsB & HlenB & Hov & Hcount).
  eexists _, it, m'. split; [eapply tag_set_run; [exact Hkp|lia|by rewrite HlB|exact E|exact Hov]|].
  split; [done|]. split; [done|]. split; [done|]. split; [|split; [done|]].
  - simpl. apply list_lookup_insert_eq. rewrite HlenB. destruct (repr_size _ _ _ Hr). lia.
  - destruct Hkey as [?|[HM (it0 & -> & ->)]]; [by left|right]. split; [done|].
    assert (it0 ∈ [it0]) as Hin by by left.
    pose proof (repr_keys_hold _ _ _ _ _ _ Hr Hl Hin) as Hk. rewrite Z2Nat.id in Hk by lia.
    destruct (i_key it0) as [|bk ok] eqn:Ek; [by destruct Hk|].
    exists bk, ok. split; [done|]. split; [done|]. intros x [_ Hx] ->. by eapply Hx.
Qed.

(** Blocks that are new are not the old tag. *)
Lemma old_tag_fresh m M page b x :
  mem_wf m → old_tag_ok m M page b → x = b ∨ ¬ x < m_next m → ¬ M !! page = Some (Ptr x 0).
Proof.
  intros Hwf Hold Hx Hv. destruct (Hold _ Hv) as (bv & dv & [= <-] & Hne & Hd).
  destruct Hx as [->|Hx]; [done|]. apply Hx, mem_wf_live_lt; [done|by eexists].
Qed.

(** Everything that is encrypted. *)
Lemma encrypt_body_run {A} (K : Codec → option hashmap → option bytes → C (mem * W) A) c page u m w b o d h M q :
  mem_wf m → codec_ok c w → Z.of_nat (length d) < 2 ^ 31 → (page = 1 → (24 ≤ length d)%nat) →
  peek m (Ptr b o) (Z.of_nat (length d)) = Some d → hm_repr h m M → apart h b → room h →
  peek m (Ptr (q + 1) 0) 16 = Some (replicate 16 0) → b ≠ q + 1 → apart h (q + 1) → 0 < page →
  (page = 1 → prints (aead_tag (aes_key c u) iv (take 16 d))) →
  ∃ g1 g2 l0 n hd m' w' d',
    (let! '(codec, tag, offset, dbHeader) :=
       (if decide (page = 1) then
          let! dbHeader := in_heap (load (padd (Ptr b o) 16) 8) in
          let! codec := CodecAES c page CODEC_TYPE 1 (aes_key c u) (Ptr b o) 16 (Ptr b o) (Ptr (q + 1) 0) u in
          let! pageHeader := in_heap (alloc Stack (le_bytes 4 (u32 (page - 1)))) in
          do! in_heap (IMSG_string (Ptr (q + 1) 0)) in
          let! tag := tag_set (Some h) pageHeader (Ptr (q + 1) 0) in
          do! in_heap (leave_scope pageHeader) in
          ret (codec, tag, 16, Some dbHeader)
        else ret (c, Some h, 0, None)) in
     let! codec := CodecAES codec page CODEC_TYPE 1 (aes_key c u) (padd (Ptr b o) offset) (Z.of_nat (length d) - offset)
                     (padd (Ptr b o) offset) (Ptr (q + 1) 0) u in
     K codec tag dbHeader) (m, w) = K (set_handles c g1 g2) (Some (with_first h page l0 n)) hd (m', w') ∧
    0 ≤ n ≤ 1 ∧ codec_ok (set_handles c g1 g2) w' ∧ frame (λ x, x = b ∨ x = q + 1) m m' ∧ length d' = length d ∧
    peek m' (Ptr b o) (Z.of_nat (length d)) = Some (splice d' (Z.to_nat (start page)) (seal (aes_key c u) (body page d))) ∧
    peek m' (Ptr (q + 1) 0) 16 = Some (sealed_tag page (aes_key c u) d) ∧
    (page = 1 → hd = Some (take 8 (drop 16 d)) ∧ take 16 d' = seal (aes_key c u) (take 16 d)).
Proof.
  intros Hwf Hc Hlen H24 Hp Hr Hap Hroom Hmac Hne Hapm Hpos Hpr.
  destruct (encrypt_first_run memory c page u m w b o d h M (q + 1) Hwf Hc Hlen H24)
    as (h1 & h2 & l0 & n & hd & m3 & w3 & d3 & E3 & Hn & Hc3 & Hf3 & Hp3 & [t3 Hmac3] & Hd3 & Hhd); try done.
  rewrite (bind_run _ _ _ _ _ E3). pose proof (proj1 Hf3) as Hwf3. fold (with_first h page l0 n).
  assert (0 ≤ start page ≤ Z.of_nat (length d)) as Hstart.
  { unfold start. case_decide as Hpage; [specialize (H24 Hpage)|]; lia. }
  pose proof (peek_length _ _ _ _ Hp3) as Hl3.
  destruct (aes_encrypt_run memory (set_handles c h1 h2) page (aes_key c u) u m3 w3 b o _ d3 (start page)
              (Z.of_nat (length d) - start page) (q + 1) 0 t3 Hwf3 Hc3 Hp3)
    as (g1 & g2 & m4 & w4 & E4 & Hc4 & Hf4 & Hp4 & Hmac4); [lia|lia|lia|done|lia|].
  simpl padd. rewrite (bind_run _ _ _ _ _ E4).
  rewrite take_ge, Hd3 in Hp4, Hmac4 by (rewrite length_drop; lia).
  exists g1, g2, l0, n, hd, m4, w4, d3. split; [done|]. split; [done|]. split; [done|].
  split; [eapply frame_trans; [exact Hf3|exact Hf4|done]|]. split; [lia|]. split; [done|].
  by rewrite sealed_tag_body.
Qed.

(** Where the tag and the key of the page point afterwards. *)
Lemma left_dangling_after h h' it m m' M page q :
  h_items h' !! Z.to_nat page = Some [it] → i_value it = Ptr (q + 1) 0 → q + 1 < m_next m' →
  m_blocks m' !! q = None → m_blocks m' !! (q + 1) = None →
  (M !! page = None ∧ i_key it = Ptr q 0 ∨
   is_Some (M !! page) ∧ ∃ bk ok, i_key it = Ptr bk ok ∧ holds_int m (Ptr bk ok) page ∧ ∀ x, apart h x → bk ≠ x) →
  (∀ bk ok, holds_int m (Ptr bk ok) page → (∀ x, apart h x → bk ≠ x) → holds_int m' (Ptr bk ok) page) →
  left_dangling h' m' M page.
Proof.
  intros Hit Hval Hlt Hd Hd' Hkey Hkeep. exists it, (q + 1). do 4 (split; [done|]).
  destruct Hkey as [[HM Hk]|[HM (bk & ok & Hk & Hh & Hbk)]].
  - left. split; [done|]. exists q. split; [done|]. split; [lia|done].
  - right. split; [done|]. rewrite Hk. by apply Hkeep.
Qed.

Lemma CodecEncrypt_run c page u m w b o d h M :
  mem_wf m → codec_ok c w → Z.of_nat (length d) < 2 ^ 31 → (page = 1 → (24 ≤ length d)%nat) →
  peek m (Ptr b o) (Z.of_nat (length d)) = Some d → hm_repr h m M → apart h b → room h →
  0 < page < h_size h → page < 2 ^ 31 → old_tag_ok m M page b →
  (∀ bv, M !! page = Some (Ptr bv 0) → apart h bv) → tags_print page (aes_key c u) d →
  ∃ h1 h2 h' m' w', CodecEncrypt c page (Ptr b o) (Z.of_nat (length d)) u (Some h) (m, w)
      = Ret ((set_handles c h1 h2, Some h'), (m', w')) ∧
    codec_ok (set_handles c h1 h2) w' ∧
    peek m' (Ptr b o) (Z.of_nat (length d)) = Some (sealed_page page (aes_key c u) d) ∧
    frame (λ x, x = b ∨ M !! page = Some (Ptr x 0)) m m' ∧
    h_size h' = h_size h ∧ left_dangling h' m' M page ∧
    ∃ x, 0 ≤ x ≤ 2 ∧ h_count h' = u32 (h_count h + x).
Proof.
  intros Hwf Hc Hlen H24 Hp Hr Hap Hroom Hps Hpb Hold Hva [Hpr Hpr1]. unfold CodecEncrypt.
  pose proof (peek_lt _ _ _ _ _ Hwf Hp) as Hb.
  destruct (locals_run m w page Hwf) as (m1 & m2 & E1 & E2 & Hf2 & Hn2 & Hpg2 & Hmac2);
    [unfold in_signed; lia|].
  pose proof (proj1 Hf2) as Hwf2. set (q := m_next m) in *.
  rewrite (bind_run _ _ _ _ _ E1). fold (aes_key c u). rewrite (bind_run _ _ _ _ _ E2). clear E1 E2 m1.
  assert (hm_repr h m2 M) as Hr2 by (eapply repr_frame; [exact Hr|exact Hwf|exact Hf2|done]).
  assert (∀ x, ¬ x < q → apart h x) as Hfresh by (intros x Hx; exact (apart_fresh h m M x Hr Hwf Hx)).
  edestruct (encrypt_body_run (A:=Codec * option hashmap)) as (g1 & g2 & l0 & n & hd & m4 & w4 & d4 & E4 & Hn & Hc4 & Hf4 & Hl4 & Hp4 & Hmac4 & Hhd).
  1: exact Hwf2. 1: exact Hc. 1: exact Hlen. 1: exact H24. 1: by later. 1: exact Hr2. 1: done. 1: done. 1: exact Hmac2.
  1: lia. 1: apply Hfresh; lia. 1: lia. 1: exact Hpr1.
  rewrite E4. clear E4. pose proof (proj1 Hf4) as Hwf4. pose proof (proj1 (proj2 Hf4)) as Hn4.
  assert (holds_int m4 (Ptr q 0) page) as Hpg4 by (by later).
  assert (frame (λ x, x = b) m m4) as Hf04.
  { split; [done|]. split; [lia|]. intros x Hx HP. by rewrite (frame_at Hf4), (frame_at Hf2) by (simpl; lia). }
  assert (∀ x, x = b ∨ ¬ x < q → ¬ M !! page = Some (Ptr x 0)) as Hnew by (intros x; exact (old_tag_fresh m M page b x Hwf Hold)).
  destruct (page_entry_run h m4 w4 M page b l0 n (Ptr q 0) (Ptr (q + 1) 0) Hwf4)
    as (h' & it & m5 & E5 & Hf5 & Hsize & Hcount & Hit & Hval & Hkey);
    [eapply repr_frame; [exact Hr|exact Hwf|exact Hf04|by intros x _ ->]|done|done|done|done| |intros v Hv ->; apply (Hnew (q + 1)); [lia|done]|].
  { intros v Hv. destruct (Hold v Hv) as (bv & dv & -> & Hne & Hd). exists bv, dv. split_and!; try done.
    by eapply frame_block. }
  rewrite (bind_run _ _ _ _ _ E5). clear E5. pose proof (proj1 Hf5) as Hwf5. pose proof (proj1 (proj2 Hf5)) as Hn5.
  erewrite (bind_run (in_heap (IMSG_string _))).
  2:{ apply (heap_IMSG_run m5 w4 _ 16 (sealed_tag page (aes_key c u) d)); [|done].
      eapply frame_peek; [exact Hf5|done|exact Hmac4|apply Hnew; lia]. }
  assert (holds_int m5 (Ptr q 0) page) as Hpg5 by (eapply frame_holds; [exact Hf5|done|done|apply Hnew; lia]).
  rewrite (bind_run _ _ _ _ _ (heap_run _ _ w4 _ _ (load_int_run _ _ _ Hpg5))).
  destruct (encrypt_last_run page (aes_key c u) m5 w4 b o d d4 hd Hwf5 H24 ltac:(lia))
    as (m6 & E6 & Hf6 & Hn6 & Hp6); [eapply frame_peek; [exact Hf5|done|exact Hp4|apply Hnew; lia]|done|].
  rewrite (bind_run _ _ _ _ _ E6). clear E6. pose proof (proj1 Hf6) as Hwf6.
  destruct (leave_locals_run m6 w4 q (set_handles c g1 g2, Some h') Hwf6) as (m7 & E7 & Hn7 & Hf7 & Hd7 & Hd7').
  exists g1, g2, h', m7, w4. split; [exact E7|]. split; [done|]. split; [by later|]. split; [|split; [done|split; [|done]]].
  - split; [exact (proj1 Hf7)|]. split; [lia|]. intros x Hx HP.
    by rewrite (frame_at Hf7), (frame_at Hf6), (frame_at Hf5), (frame_at Hf4), (frame_at Hf2) by (simpl; try tauto; lia).
  - apply (left_dangling_after h h' it m4 m7 M page q); try done; [lia|].
    intros bk ok Hk Hbk.
    assert (bk ≠ q ∧ bk ≠ q + 1 ∧ bk ≠ b) as (? & ? & ?) by (split_and!; apply Hbk; [apply Hfresh; lia..|done]).
    assert (holds_int m5 (Ptr bk ok) page) as Hk5.
    { eapply frame_holds; [exact Hf5|exact Hwf4|exact Hk|]. intros Hv. by apply (Hbk bk); [apply Hva|]. }
    later. by later.
Qed.
End encrypt_page.

(** * Properties *)
Section properties.
Context {W : Type} `{UteeVfs W, GpLaws W, TeeMalloc, TaLog}.
Context (SQLITE_MAX_PAGE_SIZE : Z).
Hypothesis memory : ∀ m n, tee_oom m n = false.
Implicit Types (m : mem) (w : W) (d : bytes).

(** Encryption and decryption are inverse.  Encrypting [k] bytes of a page
    in place and then decrypting them, with the same key and the tag the first
    call wrote, gives the page back; the two calls touch nothing but the page
    and the tag, and free the buffers they allocate. *)
Theorem CodecAES_round_trip c page ekey u m w b o n d i k bm om t0 :
  mem_wf m → codec_ok c w → peek m (Ptr b o) n = Some d → 0 ≤ i → 0 ≤ k < 2 ^ 31 → i + k ≤ n →
  peek m (Ptr bm om) 16 = Some t0 → b ≠ bm →
  ∃ c1 m1 w1 c2 m2 w2,
    CodecAES c page CODEC_TYPE 1 ekey (Ptr b (o + i)) k (Ptr b (o + i)) (Ptr bm om) u (m, w) = Ret (c1, (m1, w1)) ∧
    CodecAES c1 page CODEC_TYPE 0 ekey (Ptr b (o + i)) k (Ptr b (o + i)) (Ptr bm om) u (m1, w1) = Ret (c2, (m2, w2)) ∧
    peek m2 (Ptr b o) n = Some d ∧ frame (λ x, x = b ∨ x = bm) m m2.
Proof.
  intros Hwf Hc Hp Hi Hk Hik Ht Hne.
  destruct (aes_encrypt_run memory c page ekey u m w b o n d i k bm om t0 Hwf Hc Hp Hi Hk Hik Ht Hne)
    as (h1 & h2 & m1 & w1 & E1 & Hc1 & Hf1 & Hp1 & Ht1).
  set (src := take (Z.to_nat k) (drop (Z.to_nat i) d)) in *. set (e := seal (aes_key c u) src) in *.
  pose proof (peek_length _ _ _ _ Hp) as Hl.
  assert (length src = Z.to_nat k) as Hsl by (unfold src; rewrite length_take, length_drop; lia).
  assert (length e = Z.to_nat k) as Hel by (unfold e, seal; by rewrite aead_enc_length).
  destruct (aes_decrypt_run memory (set_handles c h1 h2) page ekey u m1 w1 b o n _ i k bm om src (proj1 Hf1) Hc1 Hp1 Hi Hk Hik)
    as (g1 & g2 & m2 & w2 & E2 & _ & Hf2 & Hp2); [|exact Ht1|].
  { change (seal (aes_key (set_handles c h1 h2) u) src) with e. rewrite <- Hel. apply splice_read_same. lia. }
  eexists _, m1, w1, _, m2, w2. split; [exact E1|]. split; [exact E2|]. split.
  - rewrite Hp2. f_equal. rewrite (cut_at d (Z.to_nat i) (Z.to_nat k)) at 1. fold src.
    rewrite splice_app by (rewrite ?length_take; lia). rewrite splice_app by (rewrite ?length_take; lia).
    unfold src. by rewrite <- cut_at.
  - eapply frame_trans; [exact Hf1|exact Hf2|]. simpl. tauto.
Qed.

(** A page survives the database file.  [CodecEncrypt] replaces a page by
    its sealed form and touches nothing else but the tag it frees; whenever
    the sealed page and its tag are in memory again, in any later state of the
    application, [CodecDecrypt] restores the page, the clear header and the
    magic string of the first page included. *)
Theorem page_round_trip c page u m w b o d h M :
  mem_wf m → codec_ok c w → page_ok SQLITE_MAX_PAGE_SIZE page d →
  peek m (Ptr b o) (Z.of_nat (length d)) = Some d → hm_repr h m M → apart h b → room h →
  0 < page < h_size h → page < 2 ^ 31 → old_tag_ok m M page b →
  (∀ bv, M !! page = Some (Ptr bv 0) → apart h bv) → tags_print page (aes_key c u) d →
  ∃ c' h' m' w', CodecEncrypt c page (Ptr b o) (Z.of_nat (length d)) u (Some h) (m, w) = Ret ((c', Some h'), (m', w')) ∧
    frame (λ x, x = b ∨ M !! page = Some (Ptr x 0)) m m' ∧
    peek m' (Ptr b o) (Z.of_nat (length d)) = Some (sealed_page page (aes_key c u) d) ∧
    ∀ c2 m2 w2 b2 o2 h2 M2 bt ot,
      mem_wf m2 → codec_ok c2 w2 → m_readKey c2 = aes_key c u →
      peek m2 (Ptr b2 o2) (Z.of_nat (length d)) = Some (sealed_page page (aes_key c u) d) →
      hm_repr h2 m2 M2 → page < h_size h2 → M2 !! page = Some (Ptr bt ot) →
      peek m2 (Ptr bt ot) 16 = Some (sealed_tag page (aes_key c u) d) → bt ≠ b2 → apart h2 b2 →
      ∃ c3 m3 w3, CodecDecrypt SQLITE_MAX_PAGE_SIZE c2 page (Ptr b2 o2) (Z.of_nat (length d)) (Some h2) (m2, w2)
          = Ret (c3, (m3, w3)) ∧
        peek m3 (Ptr b2 o2) (Z.of_nat (length d)) = Some d ∧ frame (λ x, x = b2) m2 m3.
Proof.
  intros Hwf Hc Hpok Hp Hr Hap Hroom Hps Hpb Hold Hva Hpr.
  destruct (CodecEncrypt_run memory c page u m w b o d h M) as (h1 & h2 & h' & m' & w' & E & _ & Hp' & Hf & _);
    try done; [apply Hpok|intros Hpage; by apply Hpok|].
  eexists _, h', m', w'. split; [exact E|]. split; [done|]. split; [done|].
  intros c2 m2 w2 b2 o2 hh M2 bt ot Hwf2 Hc2 Hkey Hp2 Hr2 Hs2 HM2 Ht2 Hne Hap2. rewrite <- Hkey in Hp2, Ht2.
  destruct (CodecDecrypt_run SQLITE_MAX_PAGE_SIZE memory c2 page m2 w2 b2 o2 d hh M2 bt ot)
    as (g1 & g2 & m3 & w3 & E3 & _ & Hf3 & Hp3); try done; [lia|rewrite Hkey; apply Hpr|].
  by eexists _, m3, w3.
Qed.

End properties.
