(* ===== verification/CodecTags.v ===== *)
(** * Tags: loading them, and losing them

[createMap] reads the tags of a database from their file; what [CodecEncrypt]
stores in the map cannot be looked up or saved any more. *)
From S2P Require Import Prelude CMem Heap TaLog UteeVfs Gp HashMap HashOwn Codec Frame CodecPage.
From Stdlib Require Import SpecFloat.
#[local] Open Scope Z_scope.
#[local] Open Scope c_scope.

(** ** A tag that is left dangling *)
Section dangling.
Context {W : Type} `{UteeVfs W, TeeCrypto W, TeeMalloc, TaLog}.
Implicit Types (m : mem) (w : W).

Lemma peek_dead m b o n : m_blocks m !! b = None → peek m (Ptr b o) n = None.
Proof. intros Hb. simpl. by rewrite Hb. Qed.

Lemma heap_undef {A} (c : C mem A) m w : c m = Undef → in_heap c (m, w) = Undef.
Proof. intros E. unfold in_heap, zoom. simpl. by rewrite E. Qed.

Lemma load_dead m b o n : m_blocks m !! b = None → load (Ptr b o) n m = Undef.
Proof. intros Hb. unfold load, lift. by rewrite (peek_dead _ _ _ _ Hb). Qed.

Lemma memcpy_dead m b o dst n : m_blocks m !! b = None → memcpy dst (Ptr b o) n m = Undef.
Proof. intros Hb. apply bind_undef. by apply load_dead. Qed.

Lemma IMSG_inv {S} p (m : mem) (w : S) (r : unit) s :
  in_heap (IMSG_string p) (m, w) = Ret (r, s) → s = (m, w).
Proof.
  unfold in_heap, zoom. simpl. destruct (IMSG_pure m p) as [-> | ->]; [|done]. by intros [= _ <-].
Qed.

(** Writing the entry fails at its value at the latest. *)
Lemma dump_list_dead it l out s m w :
  i_value it = Ptr s 0 → m_blocks m !! s = None → dump_list (it :: l) out None (m, w) = Undef.
Proof.
  intros Hv Hs. cbn [dump_list].
  destruct (in_heap (IMSG_string (i_value it)) (m, w)) as [[[] s0]|] eqn:E0; [|by apply bind_undef].
  rewrite (bind_run _ _ _ _ _ E0). apply IMSG_inv in E0 as ->. unfold write_from at 1.
  destruct (in_heap (load (i_key it) sizeof_int) (m, w)) as [[bs s1]|] eqn:E; [|by rewrite !bind_bind, bind_undef].
  assert (s1 = (m, w)) as ->.
  { unfold in_heap, zoom, load, lift in E. simpl in E. destruct (peek _ _ _); [|done]. by injection E. }
  rewrite bind_bind, (bind_run _ _ _ _ _ E).
  destruct (in_world (utee_vfs_write out bs) (m, w)) as [[r s1]|] eqn:E1; [|by rewrite bind_undef].
  rewrite (bind_run _ _ _ _ _ E1). assert (s1.1 = m) as Hm.
  { unfold in_world, zoom in E1. simpl in E1. destruct (utee_vfs_write _ _ _) as [[? ?]|]; [|done]. by injection E1 as _ <-. }
  destruct s1 as [m1 w1]. simpl in Hm. subst m1. apply bind_undef. unfold write_from.
  apply bind_undef, heap_undef. rewrite Hv. by apply load_dead.
Qed.

(** Dumping a list leaves the heap alone. *)
Lemma dump_list_heap l out m w r m' w' :
  dump_list l out None (m, w) = Ret (r, (m', w')) → m' = m.
Proof.
  assert (∀ p n m w r m' w', write_from out p n (m, w) = Ret (r, (m', w')) → m' = m) as Hwf.
  { clear. intros p n m w r m' w' E. unfold write_from in E. apply bind_inv in E as (bs & s1 & E1 & E2).
    unfold in_heap, zoom, load, lift in E1. simpl in E1. destruct (peek _ _ _); [|done]. injection E1 as _ <-.
    unfold in_world, zoom in E2. simpl in E2. destruct (utee_vfs_write _ _ _) as [[? ?]|]; [|done]. by injection E2 as _ <- _. }
  revert m w. induction l as [|it l IH]; intros m w E; simpl in E; [by injection E as _ <- _|].
  apply bind_inv in E as (? & s0 & E0 & E). apply IMSG_inv in E0 as ->.
  apply bind_inv in E as (? & [m1 w1] & E1 & E). apply Hwf in E1 as ->.
  apply bind_inv in E as (? & [m2 w2] & E2 & E). apply Hwf in E2 as ->.
  by apply IH in E.
Qed.

(** A bucket that cannot be written. *)
Lemma dump_buckets_undef h out l k todo i m w :
  h_items h !! k = Some l → (∀ w, dump_list l out None (m, w) = Undef) →
  (i ≤ k < i + todo)%nat → dump_buckets todo i h out None (m, w) = Undef.
Proof.
  intros Hk Hundef. revert i w. induction todo as [|todo IH]; intros i w Hi; [lia|]. simpl.
  destruct (h_items h !! i) as [li|] eqn:Hli; [|done]. change (lift (Some li)) with (ret (S:=mem*W) li).
  rewrite bind_ret_l. destruct (decide (i = k)) as [->|].
  - rewrite Hk in Hli. injection Hli as <-. by apply bind_undef.
  - destruct (dump_list li out None (m, w)) as [[[] [m1 w1]]|] eqn:E; [|by apply bind_undef].
    rewrite (bind_run _ _ _ _ _ E). apply dump_list_heap in E as ->. apply IH. lia.
Qed.

(** Looking the page up, or fetching what was found. *)
Lemma closeMap_undef h m w k l :
  h_items h !! k = Some l → (∀ out w, dump_list l out None (m, w) = Undef) →
  (k < Z.to_nat (h_size h))%nat → h_count h ≠ 0 → closeMap (Some h) (m, w) = Undef.
Proof.
  intros Hk Hundef Hlt Hc. unfold closeMap.
  destruct (in_world (utee_vfs_open mac_log (Z.lor 2 512) 511) (m, w)) as [[fd s1]|] eqn:E; [|by apply bind_undef].
  rewrite (bind_run _ _ _ _ _ E). assert (s1.1 = m) as Hm.
  { unfold in_world, zoom in E. simpl in E. destruct (utee_vfs_open _ _ _ _) as [[? ?]|]; [|done]. by injection E as _ <-. }
  destruct s1 as [m1 w1]. simpl in Hm. subst m1. change (lift (Some h)) with (ret (S:=mem*W) h). rewrite bind_ret_l.
  apply bind_undef. unfold hm_dump. rewrite decide_False by done. apply (dump_buckets_undef h fd l k); [done..|lia].
Qed.

Lemma closeMap_dead h m w M page :
  left_dangling h m M page → 0 ≤ page < h_size h → h_count h ≠ 0 → closeMap (Some h) (m, w) = Undef.
Proof.
  intros (it & s & Hit & Hv & _ & Hs & _) Hp. apply (closeMap_undef _ _ _ _ _ Hit); [|lia].
  intros out w'. by eapply dump_list_dead.
Qed.

(** A tag without a NUL, in a block of its own, is read past its end. *)
Lemma dump_list_overread it l out b k t m w :
  ta_info = true → i_value it = Ptr b 0 → m_blocks m !! b = Some (Block k t) → 0 ∉ t →
  dump_list (it :: l) out None (m, w) = Undef.
Proof.
  intros Hi Hv Hb Ht. cbn [dump_list]. apply bind_undef, heap_undef. rewrite Hv. by eapply IMSG_overread.
Qed.

Context (SQLITE_MAX_PAGE_SIZE : Z).

Lemma lookup_dangling c h m w M page p len :
  mem_wf m → left_dangling h m M page → 1 < page → page < 2 ^ 31 →
  CodecDecrypt SQLITE_MAX_PAGE_SIZE c page p len (Some h) (m, w) = Undef.
Proof.
  intros Hwf (it & s & Hit & Hv & Hslt & Hs & Hkey) Hbig Hb. unfold CodecDecrypt.
  destruct (locals_run m w page Hwf) as (m1 & m2 & E1 & E2 & Hf & Hn & Hpg & _); [unfold in_signed; lia|].
  rewrite (bind_run _ _ _ _ _ E1), (bind_run _ _ _ _ _ E2). rewrite decide_False by lia.
  change (ret (0, @None bytes)) with (ret (S:=mem*W) (0, @None bytes)). rewrite bind_ret_l.
  assert (in_heap (hm_get h (Ptr (m_next m) 0)) (m2, w) = in_heap (
    let! temp := get_item [it] (Ptr (m_next m) 0) in
    ret (match temp with None => NULL | Some it => i_value it end)) (m2, w)) as Eget.
  { unfold in_heap, zoom. simpl fst. unfold hm_get. rewrite decide_False by done.
    rewrite (bind_run _ _ _ _ _ (hash_run _ _ _ Hpg)), u32_index by lia. rewrite Hit. reflexivity. }
  unfold tag_get. change (lift (Some h)) with (ret (S:=mem*W) h). unfold bind at 1. rewrite bind_ret_l, Eget.
  clear Eget. destruct Hkey as [[_ (q & Hq & Hqlt & Hqd)]|[_ Hk]].
  - rewrite heap_undef; [done|]. apply bind_undef. simpl. apply bind_undef. unfold assign_key. apply bind_undef.
    unfold load_int, lift, peek_int. rewrite Hq, peek_dead; [done|]. eapply frame_dead; [exact Hf|lia|done|by intros []].
  - assert (holds_int m2 (i_key it) page) as Hk2.
    { destruct (i_key it) as [|bk ok]; [by destruct Hk|]. eapply frame_holds; [exact Hf|done|done|by intros []]. }
    erewrite (heap_run _ m2 w); [|simpl; rewrite bind_bind, (bind_run _ _ _ _ _ (assign_key_run _ _ _ _ Hpg Hk2));
      rewrite decide_True by lia; reflexivity].
    rewrite Hv. destruct (in_heap (IMSG_string (Ptr s 0)) (m2, w)) as [[[] s0]|] eqn:E0; [|by apply bind_undef].
    rewrite (bind_run _ _ _ _ _ E0). apply IMSG_inv in E0 as ->.
    rewrite decide_False by done. apply bind_undef, heap_undef, memcpy_dead. eapply frame_dead; [exact Hf|lia|done|by intros []].
Qed.
End dangling.


(** ** Loading the tags

What read(2), lseek(2) and close(2) promise for a regular file that nobody else
changes: no short reads, no failing calls. *)
Class ExactFile (W : Type) `{FileLaws W} : Prop := {
  read_exact w f buf l pos :
    fd_file w f = Some (l, pos) →
    let got := read_at l pos (length buf) in
    ∃ w', utee_vfs_read f buf w = Ret ((Z.of_nat (length got), got ++ drop (length got) buf), w') ∧
      fd_file w' f = Some (l, (pos + length got)%nat);
  seek_exact w f l pos off :
    fd_file w f = Some (l, pos) → 0 ≤ off < 2 ^ 63 →
    ∃ w', utee_vfs_lseek f off 0 w = Ret (off, w') ∧ fd_file w' f = Some (l, Z.to_nat off);
  close_exact w f l pos :
    fd_file w f = Some (l, pos) → ∃ r w', utee_vfs_close f w = Ret (r, w')
}.

(** A record of the file: a page number and a tag. *)
Definition record_bytes (r : Z * bytes) : bytes := le_bytes 4 (u32 r.1) ++ r.2.
Definition file_bytes (rs : list (Z * bytes)) : bytes := flat_map record_bytes rs.
Definition record_ok (r : Z * bytes) : Prop := 0 < r.1 < 769 ∧ length r.2 = 16%nat.

(** The map holds the records, and nothing else. *)
Definition tags_loaded (m : mem) (M : gmap Z ptr) (rs : list (Z * bytes)) : Prop :=
  (∀ k t, (k, t) ∈ rs → ∃ b, M !! k = Some (Ptr b 0) ∧ m_blocks m !! b = Some (Block Heap t)) ∧
  ∀ k, k ∉ rs.*1 → M !! k = None.

Lemma few_records c : 0 ≤ c ≤ 100 → overloaded c 769 (float_of 1) = false.
Proof.
  intros Hc. assert (forallb (λ c, negb (overloaded (Z.of_nat c) 769 (float_of 1))) (seq 0 101) = true) as Hall
    by (vm_compute; reflexivity).
  rewrite forallb_forall in Hall. specialize (Hall (Z.to_nat c)). rewrite Z2Nat.id in Hall by lia.
  apply negb_true_iff, Hall, in_seq. lia.
Qed.

Lemma file_bytes_app rs r rs' : file_bytes (rs ++ r :: rs') = file_bytes rs ++ record_bytes r ++ file_bytes rs'.
Proof. unfold file_bytes. by rewrite flat_map_app. Qed.

Lemma file_bytes_length rs : Forall record_ok rs → length (file_bytes rs) = (20 * length rs)%nat.
Proof.
  induction 1 as [|r rs [_ Ht] _ IH]; [done|]. cbn [file_bytes flat_map].
  rewrite length_app. unfold record_bytes at 1. rewrite length_app, length_le_bytes, Ht.
  change (flat_map record_bytes rs) with (file_bytes rs). rewrite IH. simpl. lia.
Qed.

Section load.
Context {W : Type} `{ExactFile W, TeeMalloc, TaLog}.
Hypothesis memory : ∀ m n, tee_oom m n = false.
Implicit Types (m : mem) (w : W).

(** Filling the start of a heap block from the file. *)
Lemma read_into_run m w f b d n l pos :
  mem_wf m → m_blocks m !! b = Some (Block Heap d) → 0 ≤ n ≤ Z.of_nat (length d) →
  fd_file w f = Some (l, pos) →
  let got := read_at l pos (Z.to_nat n) in
  ∃ m' w', read_into f (Ptr b 0) n (m, w) = Ret (Z.of_nat (length got), (m', w')) ∧
    frame (λ x, x = b) m m' ∧ m_next m' = m_next m ∧
    m_blocks m' !! b = Some (Block Heap (got ++ drop (length got) d)) ∧
    fd_file w' f = Some (l, (pos + length got)%nat).
Proof.
  intros Hwf Hb Hn Hf got. unfold read_into.
  assert (peek m (Ptr b 0) n = Some (take (Z.to_nat n) d)) as Hp.
  { simpl. rewrite Hb, decide_True by lia. by rewrite drop_0. }
  rewrite (bind_run _ _ _ _ _ (load_run m w _ n _ Hp)).
  destruct (read_exact w f (take (Z.to_nat n) d) l pos Hf) as (w' & E & Hf').
  rewrite length_take, Nat.min_l in E, Hf' by lia. fold got in E, Hf'.
  rewrite (bind_run _ _ _ _ _ (world_run _ m _ _ _ E)).
  assert (length got ≤ Z.to_nat n)%nat as Hg by (unfold got, read_at; rewrite length_take; lia).
  set (buf := got ++ drop (length got) (take (Z.to_nat n) d)).
  assert (length buf = Z.to_nat n) as Hlb by (unfold buf; rewrite length_app, length_drop, length_take; lia).
  set (m' := Mem (m_next m) (<[b := Block Heap (splice d 0%nat buf)]> (m_blocks m))).
  assert (poke (Ptr b 0) buf m = Some m') as P.
  { apply poke_Some. exists b, 0, Heap, d. split_and!; try done; lia. }
  rewrite (bind_run _ _ _ _ _ (store_run m w' _ _ _ P)). exists m', w'. split; [done|].
  split; [by eapply poke_frame|]. split; [done|]. split; [|done]. simpl. rewrite lookup_insert_eq. do 2 f_equal.
  unfold splice. rewrite take_0, app_nil_l, Hlb. unfold buf. rewrite <- app_assoc. f_equal.
  change (0 + Z.to_nat n)%nat with (Z.to_nat n). rewrite skipn_firstn_comm.
  rewrite <- (take_drop (Z.to_nat n - length got) (drop (length got) d)) at 2. f_equal.
  rewrite drop_drop. f_equal. lia.
Qed.

(** Adding an entry for a new key, without rehashing. *)
Lemma tag_set_new_run h m w M b k value :
  hm_repr h m M → mem_wf m → holds_int m (Ptr b 0) k → 0 < k < h_size h → M !! k = None →
  (∀ o, h_items_ptr h ≠ Ptr b o) →
  overloaded (u32 (h_count h + 1)) (h_size h) (h_load_factor h) = false →
  ∃ h' m', tag_set (Some h) (Ptr b 0) value (m, w) = Ret (Some h', (m', w)) ∧
    hm_repr h' m' (<[k := value]> M) ∧ frame (λ _, False) m m' ∧
    h_count h' = u32 (h_count h + 1) ∧ h_size h' = h_size h ∧ h_load_factor h' = h_load_factor h ∧
    (∀ x, apart h x → x ≠ b → apart h' x) ∧
    h_items h !! Z.to_nat k = Some [] ∧
    h_items h' = <[Z.to_nat k := [Item (Ptr (m_next m) 0) (Ptr b 0) value]]> (h_items h) ∧
    map_ptrs h' ≡ₚ Ptr b 0 :: value :: Ptr (m_next m) 0 :: map_ptrs h ∧ heap_start m' (Ptr (m_next m) 0).
Proof.
  intros Hr Hwf Hk Hs HM Hab Ho.
  destruct (repr_lookup h m M k Hr ltac:(lia)) as [l Hl].
  pose proof (repr_bucket _ _ _ Hr (Z.to_nat k) l ltac:(lia) Hl) as Hb. rewrite Z2Nat.id in Hb by lia.
  destruct l as [|it [|? ?]]; simpl in Hb; [|destruct Hb as [_ Hb]; congruence|done].
  destruct (set_item_nil memory (Ptr b 0) value m Hwf ltac:(done)) as (m' & E & Hf & dt & Ht).
  pose proof (tag_set_run h (Ptr b 0) value k m w [] _ 1 m' Hk ltac:(lia) Hl E Ho) as Et.
  eexists _, m'. split; [exact Et|].
  assert (holds_int m' (Ptr b 0) k) as Hk' by (eapply frame_holds; [exact Hf|done|done|by intros []]).
  split; [|split; [done|split; [done|split; [done|split; [done|split;
    [|split; [done|split; [done|split; [|by eexists _, _]]]]]]]]].
  - apply (repr_insert h m M k [Item (Ptr (m_next m) 0) (Ptr b 0) value] m'); [done|lia| | |].
    + intros i li it _ _ _ Hit. destruct (i_key it) as [|bk ok]; [by destruct Hit|].
      eapply frame_holds; [exact Hf|done|done|by intros []].
    + destruct (repr_array _ _ _ Hr) as (a & d & Ha & Hd & _). exists a, d. split_and!; [done| |].
      * eapply frame_block; [exact Hf|done|done|by intros []].
      * intros it Hit%list_elem_of_singleton o. subst it. simpl. intros [= -> _]. by apply (Hab 0).
    + right. left. split; [lia|]. eexists. split; [done|]. by split.
  - intros x [Hx1 Hx2] Hxb. split; [done|]. simpl. intros i li it o Hli Hit.
    destruct (decide (i = Z.to_nat k)) as [->|Hne].
    + rewrite list_lookup_insert_eq in Hli by by apply lookup_lt_Some in Hl.
      injection Hli as <-. apply list_elem_of_singleton in Hit. subst it. simpl. by intros [= <- _].
    + rewrite list_lookup_insert_ne in Hli by done. by eapply Hx2.
  - unfold map_ptrs. simpl. by rewrite buckets_ptrs_insert.
Qed.

(** A zeroed heap block. *)
Lemma tee_malloc_run n m w :
  mem_wf m →
  ∃ m', in_heap (TEE_Malloc n) (m, w) = Ret (Ptr (m_next m) 0, (m', w)) ∧ frame (λ _, False) m m' ∧
    m_next m' = m_next m + 1 ∧ m_blocks m' !! m_next m = Some (Block Heap (replicate (Z.to_nat n) 0)).
Proof.
  intros Hwf. destruct (malloc_run memory n m Hwf) as (m' & E & Hwf' & _ & Hn & Hb).
  exists m'. split; [by apply heap_run|]. split; [|split; [done|by rewrite Hb, lookup_insert_eq]].
  split; [done|]. split; [lia|]. intros b Hlt _. by rewrite Hb, lookup_insert_ne by lia.
Qed.

(** A map of [n] nodes, none with the key 0, that owns its blocks. *)
Definition owned_map (h : hashmap) (m : mem) (n : nat) : Prop :=
  h_items h !! 0%nat = Some [] ∧ h_count h = Z.of_nat n ∧ freeable (map_ptrs h) m.

(** The state between two iterations. *)
Record loading (f : Z) (content : bytes) (rs : list (Z * bytes)) (h : hashmap) (M : gmap Z ptr)
    (bp : Z) (m : mem) (w : W) : Prop := {
  ld_wf : mem_wf m;
  ld_repr : hm_repr h m M;
  ld_tags : tags_loaded m M rs;
  ld_count : h_count h = Z.of_nat (length rs);
  ld_size : h_size h = 769;
  ld_factor : h_load_factor h = float_of 1;
  ld_next : ∃ d, m_blocks m !! bp = Some (Block Heap d) ∧ (4 ≤ length d)%nat;
  ld_apart : apart h bp;
  ld_values : ∀ k, M !! k ≠ Some (Ptr bp 0);
  ld_zero : h_items h !! 0%nat = Some [];
  ld_owned : freeable (Ptr bp 0 :: map_ptrs h) m;
  ld_file : fd_file w f = Some (content, (20 * length rs)%nat)
}.

Lemma tags_frame P m m' M rs :
  tags_loaded m M rs → mem_wf m → frame P m m' →
  (∀ k b, M !! k = Some (Ptr b 0) → ¬ P b) → tags_loaded m' M rs.
Proof.
  intros [Ht Hn] Hwf Hf HP. split; [|done]. intros k t Hk. destruct (Ht k t Hk) as (b & HM & Hb).
  exists b. split; [done|]. eapply frame_block; [exact Hf|done|done|]. by eapply HP.
Qed.

Lemma tags_value m M rs k v :
  tags_loaded m M rs → M !! k = Some v → ∃ b, v = Ptr b 0 ∧ live m b.
Proof.
  intros [Ht Hn] HM. destruct (decide (k ∈ rs.*1)) as [Hk|Hk]; [|by rewrite (Hn k Hk) in HM].
  apply list_elem_of_fmap in Hk as ([k' t] & -> & Hk). destruct (Ht _ _ Hk) as (b & HM' & Hb).
  simpl in HM. rewrite HM in HM'. injection HM' as ->. exists b. split; [done|]. by eexists.
Qed.

(** The last test of the loop: the end of the file. *)
Lemma loop_end_run f rs h M bp m w fuel i :
  loading f (file_bytes rs) rs h M bp m w → Forall record_ok rs →
  ∃ m' w', createMap_loop (S fuel) f (Some h) i (Ptr bp 0) (m, w) = Ret (Some h, (m', w')) ∧
    mem_wf m' ∧ hm_repr h m' M ∧ tags_loaded m' M rs ∧ owned_map h m' (length rs) ∧
    ∃ pos, fd_file w' f = Some (file_bytes rs, pos).
Proof.
  intros [Hwf Hr Ht Hc _ _ (d & Hd & Hl) Hap Hv Hz Ho Hf] Hok. cbn [createMap_loop].
  destruct (read_into_run m w f bp d sizeof_int _ _ Hwf Hd ltac:(unfold sizeof_int; lia) Hf)
    as (m' & w' & E & Hfr & _ & Hd' & Hf').
  assert (read_at (file_bytes rs) (20 * length rs) (Z.to_nat sizeof_int) = []) as Hnil.
  { unfold read_at. by rewrite drop_ge, take_nil by (rewrite file_bytes_length by done; lia). }
  rewrite Hnil in E, Hf'. rewrite (bind_run _ _ _ _ _ E), decide_False by naive_solver.
  exists m', w'. split; [done|]. split; [apply Hfr|]. split; [|split; [|split]].
  - eapply repr_frame; [exact Hr|exact Hwf|exact Hfr|by intros x _ ->].
  - eapply tags_frame; [exact Ht|exact Hwf|exact Hfr|]. intros k b HM ->. by eapply Hv.
  - split; [done|]. split; [done|]. apply (freeable_app _ [Ptr bp 0]).
    rewrite (Permutation_app_comm _ [Ptr bp 0]).
    eapply freeable_frame; [exact Ho|exact Hwf|exact Hfr| |intros x; by destruct (decide (x = bp)); [left|right]].
    intros b _ ->. by eexists _, _.
  - by eexists.
Qed.

(** The two parts of a record in the file. *)
Lemma file_bytes_split rs k t rs' :
  file_bytes (rs ++ (k, t) :: rs') = file_bytes rs ++ le_bytes 4 (u32 k) ++ t ++ file_bytes rs'.
Proof. rewrite file_bytes_app. unfold record_bytes. simpl. done. Qed.

(** The read of the next key, into the block the loop allocated for it. *)
Lemma key_read_run f rs k t rs' h M bp m w :
  let content := file_bytes (rs ++ (k, t) :: rs') in
  loading f content rs h M bp m w → Forall record_ok rs → in_signed 32 k →
  ∃ m' w', read_into f (Ptr bp 0) sizeof_int (m, w) = Ret (4, (m', w')) ∧
    frame (λ x, x = bp) m m' ∧ m_next m' = m_next m ∧ holds_int m' (Ptr bp 0) k ∧ heap_start m' (Ptr bp 0) ∧
    fd_file w' f = Some (content, (20 * length rs + 4)%nat).
Proof.
  intros content [Hwf _ _ _ _ _ (d & Hd & Hl) _ _ _ _ Hf] Hok Hk.
  destruct (read_into_run m w f bp d sizeof_int _ _ Hwf Hd ltac:(unfold sizeof_int; lia) Hf)
    as (m1 & w1 & E1 & Hf1 & Hn1 & Hd1 & Hw1).
  assert (read_at content (20 * length rs) (Z.to_nat sizeof_int) = le_bytes 4 (u32 k)) as Hgot.
  { unfold read_at, content. rewrite file_bytes_split, drop_app_length' by (by rewrite file_bytes_length).
    by apply take_app_length'. }
  rewrite Hgot in E1, Hd1, Hw1. rewrite length_le_bytes in E1, Hd1, Hw1.
  exists m1, w1. split; [done|]. split; [done|]. split; [done|]. split; [|split; [by eexists _, _|done]]. split; [|done].
  simpl. rewrite Hd1, decide_True by (rewrite length_app, length_le_bytes; lia).
  by rewrite drop_0, take_app_length' by by rewrite length_le_bytes.
Qed.

(** The read of its tag, between two seeks, into a block of its own. *)
Lemma tag_read_run f rs k t rs' pos m w :
  let content := file_bytes (rs ++ (k, t) :: rs') in
  let i := Z.of_nat (length rs) in
  mem_wf m → fd_file w f = Some (content, pos) → Forall record_ok rs → length t = 16%nat → i < 99 →
  ∃ m1 m2 w1 w2 w3,
    utee_vfs_lseek f ((i + 1) * sizeof_int + i * 16) 0 w = Ret ((i + 1) * sizeof_int + i * 16, w1) ∧
    in_heap (TEE_Malloc 16) (m, w1) = Ret (Ptr (m_next m) 0, (m1, w1)) ∧
    read_into f (Ptr (m_next m) 0) 16 (m1, w1) = Ret (16, (m2, w2)) ∧
    utee_vfs_lseek f ((i + 1) * sizeof_int + (i + 1) * 16) 0 w2 = Ret ((i + 1) * sizeof_int + (i + 1) * 16, w3) ∧
    frame (λ _, False) m m2 ∧ m_next m2 = m_next m + 1 ∧ m_blocks m2 !! m_next m = Some (Block Heap t) ∧
    fd_file w3 f = Some (content, (20 * length (rs ++ [(k, t)]))%nat).
Proof.
  intros content i Hwf Hf Hok Ht Hi. pose proof (file_bytes_length rs Hok) as Hfl. unfold sizeof_int.
  destruct (seek_exact w f _ _ ((i + 1) * 4 + i * 16) Hf) as (w1 & E1 & Hw1); [lia|].
  destruct (tee_malloc_run 16 m w1 Hwf) as (m1 & E2 & Hf1 & Hn1 & Hd1).
  destruct (read_into_run m1 w1 f (m_next m) _ 16 _ _ (proj1 Hf1) Hd1 ltac:(rewrite length_replicate; lia) Hw1)
    as (m2 & w2 & E3 & Hf2 & Hn2 & Hd2 & Hw2).
  assert (read_at content (Z.to_nat ((i + 1) * 4 + i * 16)) (Z.to_nat 16) = t) as Hgot.
  { unfold read_at, content. rewrite file_bytes_split, app_assoc,
      drop_app_length' by (rewrite length_app, length_le_bytes; lia). by apply take_app_length'. }
  rewrite Hgot in E3, Hd2, Hw2. rewrite Ht in E3. rewrite drop_ge, app_nil_r in Hd2 by (rewrite length_replicate; lia).
  destruct (seek_exact w2 f _ _ ((i + 1) * 4 + (i + 1) * 16) Hw2) as (w3 & E4 & Hw3); [lia|].
  exists m1, m2, w1, w2, w3. split_and!; try done; [|lia|].
  - split; [apply Hf2|]. split; [lia|]. intros x Hx _. by rewrite (frame_at Hf2), (frame_at Hf1) by (simpl; try tauto; lia).
  - rewrite Hw3. do 2 f_equal. rewrite length_app. simpl. lia.
Qed.

(** The tags loaded, with one more. *)
Lemma tags_snoc m M rs k t q :
  tags_loaded m M rs → k ∉ rs.*1 → m_blocks m !! q = Some (Block Heap t) →
  tags_loaded m (<[k := Ptr q 0]> M) (rs ++ [(k, t)]).
Proof.
  intros [Ht Hn] Hk Hq. split.
  - intros k' t' [Hin|Hin%list_elem_of_singleton]%elem_of_app.
    + destruct (Ht k' t' Hin) as (b & HM & Hb). exists b. split; [|done]. rewrite lookup_insert_ne; [done|].
      intros <-. apply Hk. apply list_elem_of_fmap. by exists (k, t').
    + injection Hin as -> ->. exists q. by rewrite lookup_insert_eq.
  - intros k' Hk'. rewrite fmap_app, not_elem_of_app in Hk'. destruct Hk' as [Hk1 Hk2].
    rewrite lookup_insert_ne by (intros <-; apply Hk2; by left). by apply Hn.
Qed.

(** The blocks of a node, and the one for the next key, are new. *)
Lemma owned_step p ps q m m3 m4 m5 :
  freeable (p :: ps) m3 → Ptr q 0 ∉ p :: ps → heap_start m3 (Ptr q 0) → mem_wf m3 → mem_wf m4 →
  frame (λ _, False) m3 m4 → heap_start m4 (Ptr (m_next m3) 0) →
  frame (λ _, False) m4 m5 → heap_start m5 (Ptr (m_next m4) 0) →
  freeable (Ptr (m_next m4) 0 :: p :: Ptr q 0 :: Ptr (m_next m3) 0 :: ps) m5.
Proof.
  intros Hown Hq Hhq Hwf3 Hwf4 Hf4 Ht Hf5 Hb.
  pose proof (freeable_cons q _ m3 Hown Hhq Hq) as Hq3.
  assert (∀ l m m', freeable l m → mem_wf m → frame (λ _, False) m m' → freeable l m') as Hstep
    by (intros l m1 m' Hl Hwf Hf; by eapply freeable_frame; [exact Hl|exact Hwf|exact Hf|intros ? _ []|right; intros []]).
  pose proof (freeable_cons _ _ m4 (Hstep _ _ _ Hq3 Hwf3 Hf4) Ht (freeable_lt _ _ _ Hq3 Hwf3 (Z.le_refl _))) as Hq4.
  pose proof (freeable_cons _ _ m5 (Hstep _ _ _ Hq4 Hwf4 Hf5) Hb (freeable_lt _ _ _ Hq4 Hwf4 (Z.le_refl _))) as H5.
  pose proof (Permutation_app_tail ps (reverse_Permutation [p; Ptr q 0; Ptr (m_next m3) 0])) as Hperm.
  change (Ptr (m_next m3) 0 :: Ptr q 0 :: p :: ps ≡ₚ p :: Ptr q 0 :: Ptr (m_next m3) 0 :: ps) in Hperm.
  by rewrite Hperm in H5.
Qed.

(** The rest of an iteration: the entry and the block for the next key. *)
Lemma entry_run f content rs k t h M bp m w m3 w4 q :
  loading f content rs h M bp m w → frame (λ x, x = bp) m m3 → (length rs < 99)%nat → 0 < k < 769 → k ∉ rs.*1 →
  holds_int m3 (Ptr bp 0) k → heap_start m3 (Ptr bp 0) →
  m_next m ≤ q < m_next m3 → m_blocks m3 !! q = Some (Block Heap t) →
  fd_file w4 f = Some (content, (20 * length (rs ++ [(k, t)]))%nat) →
  ∃ h' m4 bp' m5, tag_set (Some h) (Ptr bp 0) (Ptr q 0) (m3, w4) = Ret (Some h', (m4, w4)) ∧
    in_heap (TEE_Malloc sizeof_void_ptr) (m4, w4) = Ret (Ptr bp' 0, (m5, w4)) ∧
    loading f content (rs ++ [(k, t)]) h' (<[k := Ptr q 0]> M) bp' m5 w4.
Proof.
  intros [Hwf Hr Ht Hc Hs Hlf (d & Hd & Hl) Hap Hv Hz Hown _] Hf03 Hn Hkr Hk Hk3 Hb3 Hq Hq3 Hw4. pose proof (proj1 Hf03) as Hwf3.
  assert (hm_repr h m3 M) as Hr3 by (eapply repr_frame; [exact Hr|exact Hwf|exact Hf03|by intros x _ ->]).
  destruct (tag_set_new_run h m3 w4 M bp k (Ptr q 0) Hr3 Hwf3 Hk3 ltac:(lia) (proj2 Ht k Hk) (proj1 Hap))
    as (h' & m4 & E6 & Hr4 & Hf4 & Hc4 & Hs4 & Hlf4 & Hap4 & Hnil & Hit & Hptrs & Ht4).
  { rewrite Hc, Hs, Hlf, unsigned_id by (unfold in_unsigned; lia). apply few_records. lia. }
  pose proof (proj1 Hf4) as Hwf4. pose proof (proj1 (proj2 Hf4)) as Hn4.
  destruct (tee_malloc_run sizeof_void_ptr m4 w4 Hwf4) as (m5 & E7 & Hf5 & Hn5 & Hd5).
  exists h', m4, (m_next m4), m5. split; [done|]. split; [done|].
  assert (frame (λ x, x = bp) m m5) as Hf05.
  { split; [apply Hf5|]. split; [pose proof (proj1 (proj2 Hf03)); lia|]. intros x Hx HP.
    pose proof (proj1 (proj2 Hf03)).
    by rewrite (frame_at Hf5), (frame_at Hf4), (frame_at Hf03) by (simpl; try tauto; lia). }
  split; try done.
  - apply Hf5.
  - eapply repr_frame; [exact Hr4|exact Hwf4|exact Hf5|by intros x _ []].
  - apply tags_snoc; [|done|by rewrite (frame_at Hf5), (frame_at Hf4) by (simpl; try tauto; lia)].
    eapply tags_frame; [exact Ht|exact Hwf|exact Hf05|]. intros k' b HM ->. by eapply Hv.
  - rewrite Hc4, Hc, unsigned_id by (unfold in_unsigned; lia). rewrite length_app. simpl. lia.
  - by rewrite Hs4.
  - by rewrite Hlf4.
  - eexists. split; [exact Hd5|]. rewrite length_replicate. unfold sizeof_void_ptr. lia.
  - eapply apart_fresh; [exact Hr4|exact Hwf4|lia].
  - intros k' HM. apply lookup_insert_Some in HM as [[_ [= HM]]|[_ HM]]; [lia|].
    destruct (tags_value _ _ _ _ _ Ht HM) as (b & [= <-] & Hlive). apply mem_wf_live_lt in Hlive; [|done].
    pose proof (proj1 (proj2 Hf03)). lia.
  - rewrite Hit, list_lookup_insert_ne by lia. done.
  - rewrite Hptrs. apply (owned_step (Ptr bp 0) (map_ptrs h) q m m3 m4 m5); try done.
    + eapply freeable_frame; [exact Hown|exact Hwf|exact Hf03|by intros b _ ->|].
      intros x. by destruct (decide (x = bp)); [left|right].
    + eapply freeable_lt; [exact Hown|exact Hwf|lia].
    + by eexists _, _.
    + by eexists _, _.
Qed.

(** One iteration. *)
Lemma loop_step_run f rs k t rs' h M bp m w fuel :
  let content := file_bytes (rs ++ (k, t) :: rs') in
  loading f content rs h M bp m w → Forall record_ok (rs ++ [(k, t)]) →
  k ∉ rs.*1 → (length rs < 99)%nat →
  ∃ h' M' bp' m' w', createMap_loop (S fuel) f (Some h) (Z.of_nat (length rs)) (Ptr bp 0) (m, w) =
      createMap_loop fuel f (Some h') (Z.of_nat (length (rs ++ [(k, t)]))) (Ptr bp' 0) (m', w') ∧
    loading f content (rs ++ [(k, t)]) h' M' bp' m' w'.
Proof.
  intros content Hld Hok Hk Hn.
  apply Forall_app in Hok as [Hok0 Hok]. apply Forall_cons in Hok as [[Hkr Htl] _]. simpl in Hkr, Htl.
  destruct (key_read_run f rs k t rs' h M bp m w Hld Hok0) as (m1 & w1 & E1 & Hf1 & Hn1 & Hk1 & Hb1 & Hw1);
    [unfold in_signed; lia|].
  destruct (tag_read_run f rs k t rs' _ m1 w1 (proj1 Hf1) Hw1 Hok0 Htl ltac:(lia))
    as (m2 & m3 & w2 & w3 & w4 & E2 & E3 & E4 & E5 & Hf3 & Hn3 & Hq & Hw4).
  assert (frame (λ x, x = bp) m m3) as Hf03.
  { split; [apply Hf3|]. split; [lia|]. intros x Hx HP. by rewrite (frame_at Hf3), (frame_at Hf1) by (simpl; lia). }
  assert (holds_int m3 (Ptr bp 0) k) as Hk3 by (eapply frame_holds; [exact Hf3|apply Hf1|done|by intros []]).
  assert (heap_start m3 (Ptr bp 0)) as Hb3
    by (destruct Hb1 as (b & d & [= <-] & Hd); exists bp, d; split; [done|]; eapply frame_block; [exact Hf3|apply Hf1|exact Hd|by intros []]).
  destruct (entry_run f content rs k t h M bp m w m3 w4 (m_next m1) Hld Hf03 Hn Hkr Hk Hk3 Hb3 ltac:(lia) Hq Hw4)
    as (h' & m4 & bp' & m5 & E6 & E7 & Hld').
  exists h', (<[k := Ptr (m_next m1) 0]> M), bp', m5, w4. split; [|done]. cbn [createMap_loop].
  rewrite (bind_run _ _ _ _ _ E1), decide_True by lia.
  rewrite (bind_run _ _ _ _ _ (world_run _ m1 _ _ _ E2)), (bind_run _ _ _ _ _ E3).
  unfold in_tmp. rewrite bool_decide_true by lia. change (c_assert true) with (ret (S:=mem*W) tt). rewrite bind_ret_l.
  rewrite (bind_run _ _ _ _ _ E4), (bind_run _ _ _ _ _ (world_run _ m3 _ _ _ E5)), (bind_run _ _ _ _ _ E6),
    (bind_run _ _ _ _ _ E7), bool_decide_true by lia.
  change (c_assert true) with (ret (S:=mem*W) tt). rewrite bind_ret_l. rewrite length_app. f_equal. simpl. lia.
Qed.

(** The iterations for records that fit, whatever follows them in the file. *)
Lemma loop_steps_run f tail rs' rs h M bp m w fuel :
  loading f (file_bytes (rs ++ rs' ++ tail)) rs h M bp m w →
  Forall record_ok (rs ++ rs') → NoDup (rs ++ rs').*1 → (length (rs ++ rs') ≤ 99)%nat →
  ∃ h' M' bp' m' w', createMap_loop (length rs' + fuel) f (Some h) (Z.of_nat (length rs)) (Ptr bp 0) (m, w) =
      createMap_loop fuel f (Some h') (Z.of_nat (length (rs ++ rs'))) (Ptr bp' 0) (m', w') ∧
    loading f (file_bytes (rs ++ rs' ++ tail)) (rs ++ rs') h' M' bp' m' w'.
Proof.
  revert rs h M bp m w. induction rs' as [|[k t] rs' IH]; intros rs h M bp m w Hld Hok Hnd Hlen.
  { rewrite app_nil_r. by exists h, M, bp, m, w. }
  assert (k ∉ rs.*1) as Hk.
  { rewrite fmap_app, NoDup_app in Hnd. destruct Hnd as (_ & Hnd & _). intros Hin. apply (Hnd k Hin). by left. }
  rewrite length_app in Hlen. simpl in Hlen.
  assert (rs ++ (k, t) :: rs' = (rs ++ [(k, t)]) ++ rs') as Hrs by by rewrite <- app_assoc.
  assert (rs ++ ((k, t) :: rs') ++ tail = (rs ++ [(k, t)]) ++ rs' ++ tail) as Hall by by rewrite <- app_assoc.
  rewrite Hrs in *.
  destruct (loop_step_run f rs k t (rs' ++ tail) h M bp m w (length rs' + fuel) Hld)
    as (h1 & M1 & bp1 & m1 & w1 & E & Hld1); [by apply Forall_app in Hok as [? _]|done|lia|].
  cbn [length Nat.add]. rewrite E. rewrite Hall. change ((k, t) :: rs' ++ tail) with (((k, t) :: rs') ++ tail) in Hld1.
  rewrite Hall in Hld1. apply (IH _ _ _ _ _ _ Hld1); try done. rewrite !length_app. simpl. lia.
Qed.

(** [createMap] is its loop, from a new map, between opening the file and closing
    it. *)
Lemma createMap_start m w f w1 content :
  mem_wf m → utee_vfs_open mac_log (Z.lor 2 64) 511 w = Ret (f, w1) → fd_file w1 f = Some (content, 0%nat) →
  ∃ h bp m1, createMap (m, w) =
      (let! tag := createMap_loop 101 f (Some h) 0 (Ptr bp 0) in
       let! _ := in_world (utee_vfs_close f) in ret tag) (m1, w1) ∧
    loading f content [] h ∅ bp m1 w1.
Proof.
  intros Hwf Ho Hf. unfold createMap.
  rewrite (bind_run _ _ _ _ _ (world_run _ m _ _ _ Ho)).
  destruct (hm_create_run memory 500 (float_of 1) 13 m Hwf)
    as (h & m1 & E1 & Hr1 & Hwf1 & _ & Hs & _ & Hc & Hlf & _ & Hip & Hhp & Hitems & d & Hd); [done|done|].
  rewrite (bind_run _ _ _ _ _ (heap_run _ _ w1 _ _ E1)).
  destruct (tee_malloc_run sizeof_int m1 w1 Hwf1) as (m2 & E2 & Hf2 & Hn2 & Hd2).
  rewrite (bind_run _ _ _ _ _ E2).
  assert (hm_repr h m2 ∅) as Hr2 by (eapply repr_frame; [exact Hr1|exact Hwf1|exact Hf2|by intros x _ []]).
  assert (freeable (map_ptrs h) m1) as Hown1.
  { destruct (repr_array _ _ _ Hr1) as (a & da & Ha & Hda & _). rewrite Hip in Ha. injection Ha as <-.
    unfold map_ptrs. rewrite Hitems, Hip, Hhp.
    assert (buckets_ptrs (replicate (Z.to_nat (h_size h)) []) = []) as ->
      by (generalize (Z.to_nat (h_size h)); intros n; induction n as [|n IH]; [done|exact IH]).
    apply freeable_cons; [apply freeable_cons; [by split; [apply NoDup_nil|]|by eexists _, _|apply not_elem_of_nil]|
      by eexists _, _|]. intros [= ?]%list_elem_of_singleton. lia. }
  exists h, (m_next m1), m2. split; [done|].
  split; try done; [apply Hf2|split; [by intros k t Hin%not_elem_of_nil|done]| | |rewrite Hitems, Hs; done|].
  - eexists. split; [exact Hd2|]. by rewrite length_replicate.
  - eapply apart_fresh; [exact Hr1|exact Hwf1|lia].
  - apply freeable_cons; [|by eexists _, _|by eapply freeable_lt; [exact Hown1|exact Hwf1|]].
    eapply freeable_frame; [exact Hown1|exact Hwf1|exact Hf2|intros ? _ []|right; intros []].
Qed.

Lemma createMap_run m w f w1 rs :
  mem_wf m → utee_vfs_open mac_log (Z.lor 2 64) 511 w = Ret (f, w1) →
  fd_file w1 f = Some (file_bytes rs, 0%nat) → Forall record_ok rs → NoDup rs.*1 →
  (length rs ≤ 99)%nat →
  ∃ h M m' w', createMap (m, w) = Ret (Some h, (m', w')) ∧ mem_wf m' ∧
    hm_repr h m' M ∧ tags_loaded m' M rs ∧ owned_map h m' (length rs) ∧ h_size h = 769.
Proof.
  intros Hwf Ho Hf Hok Hnd Hlen.
  destruct (createMap_start m w f w1 _ Hwf Ho Hf) as (h0 & bp0 & m1 & -> & Hld0).
  destruct (loop_steps_run f [] rs [] h0 ∅ bp0 m1 w1 (101 - length rs)) as (h & M & bp & m2 & w2 & E & Hld);
    [by rewrite app_nil_r|exact Hok|exact Hnd|exact Hlen|].
  rewrite app_nil_r in Hld. simpl in Hld.
  replace (length rs + (101 - length rs))%nat with 101%nat in E by lia. change (Z.of_nat (length [])) with 0 in E.
  replace (101 - length rs)%nat with (S (100 - length rs)) in E by lia.
  destruct (loop_end_run f rs h M bp m2 w2 (100 - length rs) (Z.of_nat (length ([] ++ rs))) Hld Hok)
    as (m3 & w3 & E3 & Hwf3 & Hr3 & Ht3 & Hown & pos & Hf3).
  rewrite E3 in E. rewrite (bind_run _ _ _ _ _ E).
  destruct (close_exact w3 f _ _ Hf3) as (r & w4 & E4). rewrite (bind_run _ _ _ _ _ (world_run _ m3 _ _ _ E4)).
  pose proof (ld_size _ _ _ _ _ _ _ _ Hld). by exists h, M, m3, w4.
Qed.

(** The hundredth record: the next key's address goes past the array. *)
Lemma bind_never {S A B} (c : C S A) (k : A → C S B) s : (∀ a s', k a s' = Undef) → bind c k s = Undef.
Proof. intros Hk. unfold bind. by destruct (c s) as [[a s']|]. Qed.

Lemma hundredth_iteration fuel f tag p r s s' :
  read_into f p sizeof_int s = Ret (r, s') → r ≠ 0 →
  createMap_loop (S fuel) f tag 99 p s = Undef.
Proof.
  intros E Hr. cbn [createMap_loop]. rewrite (bind_run _ _ _ _ _ E), decide_True by done.
  repeat first [reflexivity | apply bind_never; intros].
Qed.
End load.

(** * Properties *)
Section properties.
Context {W : Type} `{UteeVfs W, GpLaws W, TeeMalloc, TaLog}.
Context (SQLITE_MAX_PAGE_SIZE : Z).
Hypothesis memory : ∀ m n, tee_oom m n = false.
Implicit Types (m : mem) (w : W) (d : bytes).

(** C16: the tag of a page does not survive the run that encrypted it.  Once
    [CodecEncrypt] has returned for a page above 1 of a map that is in order and not
    empty, the map has the addresses of its local variables: decrypting the page it
    encrypted is undefined behaviour, and so is saving the tags with [closeMap].
    ([CodecEncrypt] returns when allocation succeeds and, if tags are logged, the
    tag has a NUL.) *)
Theorem encrypted_page_is_lost c page u m w b o d h M b2 o2 len2 :
  mem_wf m → codec_ok c w → page_ok SQLITE_MAX_PAGE_SIZE page d →
  peek m (Ptr b o) (Z.of_nat (length d)) = Some d → hm_repr h m M → apart h b → room h →
  1 < page < h_size h → page < 2 ^ 31 → old_tag_ok m M page b →
  (∀ bv, M !! page = Some (Ptr bv 0) → apart h bv) → tags_print page (aes_key c u) d → 0 < h_count h < 2 ^ 31 →
  ∃ c' tag' m' w', CodecEncrypt c page (Ptr b o) (Z.of_nat (length d)) u (Some h) (m, w) = Ret ((c', tag'), (m', w')) ∧
    CodecDecrypt SQLITE_MAX_PAGE_SIZE c' page (Ptr b2 o2) len2 tag' (m', w') = Undef ∧
    closeMap tag' (m', w') = Undef.
Proof.
  intros Hwf Hc Hpok Hp Hr Hap Hroom Hps Hpb Hold Hva Hpr Hcount.
  destruct (CodecEncrypt_run memory c page u m w b o d h M)
    as (h1 & h2 & h' & m' & w' & E & _ & _ & Hf & Hsize & Hdang & x & Hx & Hcx);
    try done; [apply Hpok|intros Hpage; by apply Hpok|lia|].
  eexists _, (Some h'), m', w'. split; [exact E|]. split.
  - by apply lookup_dangling with (M := M); [apply Hf| |lia|lia].
  - eapply closeMap_dead; [done|lia|]. rewrite Hcx, unsigned_id; [lia|unfold in_unsigned; lia].
Qed.
End properties.
