(* ===== verification/CodecSave.v ===== *)
(** * Tags: saving them

[closeMap] writes the tags that [createMap] loaded to their file again, in the
order of their pages, and frees the map.  Together with [CodecTags]: what a run
that encrypts no page does to the tags of a database. *)
From S2P Require Import Prelude CMem Heap TaLog UteeVfs Gp HashMap HashOwn Codec Frame CodecPage CodecTags.
From Stdlib Require Import SpecFloat.
#[local] Open Scope Z_scope.
#[local] Open Scope c_scope.

(** The tag of page [k], and the records by page. *)
Definition tag_of (rs : list (Z * bytes)) (k : Z) : option bytes := (list_to_map rs : gmap Z bytes) !! k.
Definition in_order (rs : list (Z * bytes)) : list (Z * bytes) :=
  omap (λ k, (k,.) <$> tag_of rs k) (seqZ 0 769).

(** What bucket [k] is written as. *)
Definition bucket_bytes (rs : list (Z * bytes)) (k : Z) : bytes :=
  match tag_of rs k with Some t => record_bytes (k, t) | None => [] end.

Section records.
Implicit Types (rs : list (Z * bytes)).

Lemma tag_of_Some rs k t : NoDup rs.*1 → tag_of rs k = Some t ↔ (k, t) ∈ rs.
Proof. intros Hnd. unfold tag_of. symmetry. by apply elem_of_list_to_map. Qed.

Lemma tag_of_None rs k : tag_of rs k = None ↔ k ∉ rs.*1.
Proof. symmetry. apply not_elem_of_list_to_map. Qed.

Lemma NoDup_omap_pair {B} (f : Z → option B) (l : list Z) : NoDup l → NoDup (omap (λ k, (k,.) <$> f k) l).
Proof.
  induction 1 as [|k l Hk _ IH]; [constructor|]. cbn [omap list_omap].
  destruct (f k) as [b|]; [|done]. simpl. constructor; [|done].
  intros (k' & Hk' & E)%list_elem_of_omap. destruct (f k'); [|done]. by injection E as -> ->.
Qed.

(** It is the same records. *)
Lemma in_order_perm rs : Forall record_ok rs → NoDup rs.*1 → in_order rs ≡ₚ rs.
Proof.
  intros Hok Hnd. apply NoDup_Permutation; [apply NoDup_omap_pair, NoDup_seqZ|by eapply NoDup_fmap_1|].
  intros [k t]. unfold in_order. rewrite list_elem_of_omap. split.
  - intros (k' & _ & E). destruct (tag_of rs k') as [t'|] eqn:Et; [|done]. injection E as -> ->.
    by apply tag_of_Some.
  - intros Hin. exists k. pose proof (proj1 (Forall_forall _ _) Hok _ Hin) as [Hk _]. simpl in Hk.
    split; [apply elem_of_seqZ; lia|]. by rewrite (proj2 (tag_of_Some rs k t Hnd) Hin).
Qed.

Lemma concat_bucket_bytes rs l :
  concat (bucket_bytes rs <$> l) = file_bytes (omap (λ k, (k,.) <$> tag_of rs k) l).
Proof.
  induction l as [|k l IH]; [done|]. cbn [fmap list_fmap concat omap list_omap]. rewrite IH. unfold bucket_bytes.
  by destruct (tag_of rs k).
Qed.
End records.

Section save.
Context {W : Type} `{WriteAll W, TaLog}.
Implicit Types (m : mem) (w : W) (rs : list (Z * bytes)).

(** Every bucket of a map of loaded tags. *)
Lemma bucket_of_tags h m M rs i l :
  hm_repr h m M → tags_loaded m M rs → h_items h !! 0%nat = Some [] → Forall record_ok rs → NoDup rs.*1 →
  Forall prints rs.*2 → h_items h !! i = Some l → bucket_dumped m l (bucket_bytes rs (Z.of_nat i)).
Proof.
  intros Hr [Ht Hn] Hz Hok Hnd Hpr Hl. unfold bucket_bytes. destruct i as [|i].
  - rewrite Hz in Hl. injection Hl as <-. change (Z.of_nat 0) with 0. exists []. split; [constructor|].
    destruct (tag_of rs 0) as [t|] eqn:Et; [|done]. apply tag_of_Some in Et; [|done].
    pose proof (proj1 (Forall_forall _ _) Hok _ Et) as [Hk _]. simpl in Hk. lia.
  - pose proof (repr_bucket _ _ _ Hr (S i) l ltac:(lia) Hl) as Hb. set (k := Z.of_nat (S i)) in *.
    destruct (tag_of rs k) as [t|] eqn:Et.
    + apply tag_of_Some in Et; [|done]. destruct (Ht _ _ Et) as (b & HM & Hd).
      pose proof (proj1 (Forall_forall _ _) Hok _ Et) as [_ Hlen]. simpl in Hlen.
      destruct l as [|it [|? ?]]; simpl in Hb; [congruence| |done]. destruct Hb as [[Hk _] Hv].
      rewrite HM in Hv. injection Hv as Hv. exists [record_bytes (k, t)]. split; [|simpl; by rewrite app_nil_r].
      apply Forall2_cons. split; [|constructor]. exists (le_bytes 4 (u32 k)), t. split; [done|]. split; [|split; [|done]].
      2:{ apply (proj1 (Forall_forall _ _) Hpr). by apply (list_elem_of_fmap_2 snd) in Et. }
      rewrite <- Hv. pose proof (block_peek _ _ _ _ Hd) as Hp. by rewrite Hlen in Hp.
    + apply tag_of_None in Et. pose proof (Hn _ Et) as HM. exists [].
      destruct l as [|it [|? ?]]; simpl in Hb; [split; [constructor|done]| |done].
      destruct Hb as [_ Hb]. by rewrite HM in Hb.
Qed.

Lemma closeMap_run `{TeeMalloc} h m M rs w f w1 :
  hm_repr h m M → tags_loaded m M rs → owned_map h m (length rs) → h_size h = 769 →
  Forall record_ok rs → NoDup rs.*1 → Forall prints rs.*2 →
  utee_vfs_open mac_log (Z.lor 2 512) 511 w = Ret (f, w1) → fd_file w1 f = Some ([], 0%nat) →
  ∃ m' w2 r w', closeMap (Some h) (m, w) = Ret (tt, (m', w')) ∧ freed (map_ptrs h) m m' ∧
    at_end w2 f (file_bytes (in_order rs)) ∧ utee_vfs_close f w2 = Ret (r, w').
Proof.
  intros Hr Ht (Hz & Hc & Hown) Hs Hok Hnd Hpr Ho Hf. unfold closeMap.
  rewrite (bind_run _ _ _ _ _ (world_run _ m _ _ _ Ho)).
  change (lift (Some h)) with (ret (S:=mem * W) h). rewrite bind_ret_l.
  destruct (repr_size _ _ _ Hr) as [_ Hl].
  destruct (hm_dump_run h m f (bucket_bytes rs <$> seqZ 0 769) w1 []) as (w2 & E & Hf2); [done| | |done|].
  - apply Forall2_same_length_lookup_2; [rewrite length_fmap, length_seqZ; lia|].
    intros i l bs Hi (k & -> & [-> _]%lookup_seqZ)%list_lookup_fmap_Some. rewrite Z.add_0_l.
    by apply (bucket_of_tags h m M rs i l).
  - intros Hz0. rewrite Hc in Hz0. destruct rs; [|simpl in Hz0; lia]. rewrite concat_bucket_bytes.
    change (omap _ _) with (in_order []). by rewrite (proj1 (Permutation_nil_r _) (in_order_perm [] Hok Hnd)).
  - rewrite (bind_run _ _ _ _ _ E). rewrite concat_bucket_bytes, app_nil_l in Hf2.
    destruct (hm_delete_run h (Some free_int) m) as (m' & E' & Hfr); [done|done|done|].
    rewrite (bind_run _ _ _ _ _ (heap_run _ _ w2 _ _ E')).
    destruct (close_law w2 f _ _ Hf2) as (r & w' & Ec). rewrite (bind_run _ _ _ _ _ (world_run _ m' _ _ _ Ec)).
    by exists m', w2, r, w'.
Qed.

(** A tag that cannot be printed. *)
Lemma closeMap_overread h m M rs w k t :
  hm_repr h m M → tags_loaded m M rs → owned_map h m (length rs) → Forall record_ok rs → h_size h = 769 →
  (Z.of_nat (length rs) < 2 ^ 32) → (k, t) ∈ rs → ta_info = true → 0 ∉ t → closeMap (Some h) (m, w) = Undef.
Proof.
  intros Hr [Ht _] (_ & Hc & _) Hok Hs Hlen Hin Hi Hnul.
  pose proof (proj1 (Forall_forall _ _) Hok _ Hin) as [Hk _]. simpl in Hk.
  destruct (Ht _ _ Hin) as (b & HM & Hb). destruct (repr_lookup h m M k Hr ltac:(lia)) as [l Hl].
  pose proof (repr_bucket _ _ _ Hr (Z.to_nat k) l ltac:(lia) Hl) as Hbk. rewrite Z2Nat.id in Hbk by lia.
  destruct l as [|it [|? ?]]; simpl in Hbk; [congruence| |done]. destruct Hbk as [_ Hv].
  rewrite HM in Hv. injection Hv as Hv.
  apply (closeMap_undef _ _ _ _ _ Hl); [|lia|].
  - intros out w'. by eapply dump_list_overread.
  - rewrite Hc. destruct rs; [by apply not_elem_of_nil in Hin|simpl; lia].
Qed.
End save.

(** * Properties *)
Section properties.
Context {W : Type} `{WriteAll W, !ExactFile W, TeeMalloc, TaLog}.
Hypothesis memory : ∀ m n, tee_oom m n = false.
Implicit Types (m : mem) (w : W).

(** C24: the tags survive a run that encrypts no page, as long as they can be
    logged.  Let memory not run out, and let reads, seeks and writes of the file of
    tags be complete and succeed ([ExactFile], [WriteAll]).  When the file holds at
    most 99 records with distinct page numbers between 1 and 768, [createMap] makes a
    map that stores, for each record, a heap copy of its tag under its page
    number, and nothing else.  [closeMap] of that map, in whatever world in which
    its own [open] gives an emptied file, returns if the log prints no tags or every
    tag has a NUL; the file then holds the same records when it is closed, in the
    order of the page numbers, and the blocks of the map are freed, each once, and
    no others.  If the log prints tags and one has no NUL, [closeMap] reads past that
    tag. *)
Theorem tags_saved_as_loaded m w f w1 rs :
  mem_wf m → utee_vfs_open mac_log (Z.lor 2 64) 511 w = Ret (f, w1) →
  fd_file w1 f = Some (file_bytes rs, 0%nat) → Forall record_ok rs → NoDup rs.*1 →
  (length rs ≤ 99)%nat →
  in_order rs ≡ₚ rs ∧
  ∃ h M m' w', createMap (m, w) = Ret (Some h, (m', w')) ∧ mem_wf m' ∧
    hm_repr h m' M ∧ tags_loaded m' M rs ∧
    (Forall prints rs.*2 →
     ∀ w2 f2 w3, utee_vfs_open mac_log (Z.lor 2 512) 511 w2 = Ret (f2, w3) → fd_file w3 f2 = Some ([], 0%nat) →
       ∃ m'' w4 r w5, closeMap (Some h) (m', w2) = Ret (tt, (m'', w5)) ∧
         freeable (map_ptrs h) m' ∧ freed (map_ptrs h) m' m'' ∧
         at_end w4 f2 (file_bytes (in_order rs)) ∧ utee_vfs_close f2 w4 = Ret (r, w5)) ∧
    (∀ k t w2, (k, t) ∈ rs → ta_info = true → 0 ∉ t → closeMap (Some h) (m', w2) = Undef).
Proof.
  intros Hwf Ho Hf Hok Hnd Hlen. split; [by apply in_order_perm|].
  destruct (createMap_run memory m w f w1 rs) as (h & M & m' & w' & E & Hwf' & Hr & Ht & Hown & Hs); try done.
  exists h, M, m', w'. split_and!; try done.
  - intros Hpr w2 f2 w3 Ho2 Hf2.
    destruct (closeMap_run h m' M rs w2 f2 w3 Hr Ht Hown Hs Hok Hnd Hpr Ho2 Hf2) as (m'' & w4 & r & w5 & ? & ? & ? & ?).
    exists m'', w4, r, w5. split_and!; try done. apply Hown.
  - intros k t w2 Hin. apply (closeMap_overread h m' M rs w2 k t); try done. lia.
Qed.

(** C35: the hundredth tag.  As long as memory does not run out and the file can be
    read ([ExactFile]): ninety-nine records with distinct page numbers fill the
    local arrays of [createMap]; one more record in the file, whatever follows it,
    and the address of the next key is written past their end. *)
Theorem hundredth_tag_is_out_of_bounds m w f w1 rs k t rest :
  mem_wf m → utee_vfs_open mac_log (Z.lor 2 64) 511 w = Ret (f, w1) →
  fd_file w1 f = Some (file_bytes (rs ++ (k, t) :: rest), 0%nat) → Forall record_ok rs → NoDup rs.*1 →
  length rs = 99%nat → in_signed 32 k → createMap (m, w) = Undef.
Proof.
  intros Hwf Ho Hf Hok Hnd Hlen Hk.
  destruct (createMap_start memory m w f w1 _ Hwf Ho Hf) as (h0 & bp0 & m1 & -> & Hld0).
  destruct (loop_steps_run memory f ((k, t) :: rest) rs [] h0 ∅ bp0 m1 w1 2 Hld0 Hok Hnd) as (h & M & bp & m2 & w2 & E & Hld);
    [simpl; lia|].
  destruct (key_read_run f rs k t rest h M bp m2 w2 Hld Hok Hk) as (m3 & w3 & E3 & _).
  apply bind_undef. replace (length rs + 2)%nat with 101%nat in E by lia.
  change (Z.of_nat (length [])) with 0 in E. rewrite E. simpl app. rewrite Hlen.
  by eapply hundredth_iteration.
Qed.
End properties.
