(* ===== verification/CodecExamples.v ===== *)
(** * The codec on concrete data

[MemFile] and the toy cipher of [Gp] below the codec, and a heap with a map of
tags, a first page and an ordinary page: the theorems of [CodecPage],
[CodecTags] and [CodecSave] are applied to them. *)
From S2P Require Import Prelude CMem Heap TaLog UteeVfs MemFile Gp Pair HashMap HashOwn Codec Frame CodecPage CodecTags CodecSave.
#[local] Open Scope Z_scope.
#[local] Open Scope c_scope.

(** ** The world *)
Definition world : Type := memfs * Toy.crypto.
#[local] Existing Instances Small.always Toy.toy_crypto Toy.toy_laws log_level_4.

(** Bytes that can be printed. *)
Ltac printable := intros _; apply (bool_decide_unpack _); vm_compute; exact I.
Ltac tags_printable := split; [printable|intros _; printable || done].

#[export] Program Instance world_exact : ExactFile world.
Next Obligation.
  intros w f buf l pos Hf. simpl in *.
  assert (fill buf (read_at l pos (length buf))
    = read_at l pos (length buf) ++ drop (length (read_at l pos (length buf))) buf) as Hfill.
  { apply take_ge. rewrite length_app, length_drop, length_read_at. lia. }
  unfold on_fst, zoom, mf_read, run. simpl fst. rewrite Hf. cbv zeta. rewrite Hfill.
  eexists. split; [reflexivity|]. simpl. by rewrite lookup_insert_eq.
Qed.
Next Obligation.
  intros w f l pos off Hf Ho. simpl in *. unfold on_fst, zoom. simpl. unfold mf_lseek, run. rewrite Hf.
  rewrite decide_True by (split; [done|lia]). eexists. split; [done|]. simpl. by rewrite lookup_insert_eq.
Qed.
Next Obligation. intros w f l pos Hf. by eexists _, _. Qed.

Definition no_crypto : Toy.crypto := Toy.Crypto ∅ ∅.
Definition ex_world : world := (one_file [], no_crypto).

(** ** The heap

The memory and the map of [HashMap.Small], with a first page of 32 bytes in
block 8 and an ordinary one in block 7. *)
Definition first_page : bytes :=
  SQLITE_FILE_HEADER ++ [0x10; 0; 1; 1; 0; 0x40; 0x20; 0x20] ++ replicate 8 7.
Definition heap : mem := Mem 9 (<[8 := Block Heap first_page]> (m_blocks Small.memory)).
Definition codec : Codec :=
  MkCodec 1 1 (replicate 16 3) 1 (replicate 16 3) (replicate 16 0) TEE_HANDLE_NULL TEE_HANDLE_NULL NULL NULL.

Lemma heap_wf : mem_wf heap.
Proof.
  split; [done|]. intros b Hb. simpl in Hb. unfold heap. simpl.
  rewrite lookup_insert_ne by lia. apply Small.memory_wf. simpl. lia.
Qed.

Lemma heap_frame : frame (λ _, False) Small.memory heap.
Proof.
  split; [apply heap_wf|]. split; [done|]. intros b Hb _. simpl in *. by rewrite lookup_insert_ne by lia.
Qed.

Lemma heap_repr : hm_repr Small.map heap Small.entries.
Proof. eapply repr_frame; [apply Small.map_repr|apply Small.memory_wf|apply heap_frame|by intros x _ []]. Qed.

Lemma codec_is_ok : codec_ok codec ex_world.
Proof. split_and!; by try left. Qed.

Lemma map_apart b : 2 < b → apart Small.map b.
Proof.
  intros Hb. split; [intros o [= ]; lia|]. intros i l it o Hl Hit.
  do 5 (destruct i as [|i]; [simplify_eq/=; first [by apply not_elem_of_nil in Hit|apply list_elem_of_singleton in Hit; subst it; intros [= ]; lia]|]).
  done.
Qed.

Lemma map_room : room Small.map.
Proof.
  intros c Hc. assert (c = 0 ∨ c = 1 ∨ c = 2) as [-> |[-> | ->]] by lia; by vm_compute.
Qed.

Lemma entry_values v : Small.entries !! 3 = Some v → v = Ptr 3 0.
Proof. by intros [= <-]. Qed.

Lemma first_page_ok : page_ok 65536 1 first_page.
Proof. split; [done|]. intros _. split_and!; [simpl; lia|done|by vm_compute]. Qed.

(** ** Witnesses *)
Lemma CodecAES_round_trip_witness :
  ∃ c1 m1 w1 c2 m2 w2,
    CodecAES codec 1 CODEC_TYPE 1 (replicate 16 3) (Ptr 8 (0 + 16)) 16 (Ptr 8 (0 + 16)) (Ptr 3 0) 1 (heap, ex_world)
      = Ret (c1, (m1, w1)) ∧
    CodecAES c1 1 CODEC_TYPE 0 (replicate 16 3) (Ptr 8 (0 + 16)) 16 (Ptr 8 (0 + 16)) (Ptr 3 0) 1 (m1, w1)
      = Ret (c2, (m2, w2)) ∧
    peek m2 (Ptr 8 0) 32 = Some first_page ∧ frame (λ x, x = 8 ∨ x = 3) heap m2.
Proof.
  apply (CodecAES_round_trip (λ _ _, eq_refl) codec 1 (replicate 16 3) 1 heap ex_world 8 0 32 first_page 16 16 3 0 (replicate 16 5));
    [apply heap_wf|apply codec_is_ok|done..].
Defined.

Lemma page_round_trip_witness :
  ∃ c' h' m' w', CodecEncrypt codec 1 (Ptr 8 0) 32 1 (Some Small.map) (heap, ex_world) = Ret ((c', Some h'), (m', w')) ∧
    frame (λ x, x = 8 ∨ Small.entries !! 1 = Some (Ptr x 0)) heap m' ∧
    peek m' (Ptr 8 0) 32 = Some (sealed_page (W:=world) 1 (replicate 16 3) first_page) ∧
    ∀ c2 (m2 : mem) (w2 : world) b2 o2 h2 M2 bt ot,
      mem_wf m2 → codec_ok c2 w2 → m_readKey c2 = replicate 16 3 →
      peek m2 (Ptr b2 o2) 32 = Some (sealed_page (W:=world) 1 (replicate 16 3) first_page) →
      hm_repr h2 m2 M2 → 1 < h_size h2 → M2 !! 1 = Some (Ptr bt ot) →
      peek m2 (Ptr bt ot) 16 = Some (sealed_tag (W:=world) 1 (replicate 16 3) first_page) → bt ≠ b2 → apart h2 b2 →
      ∃ c3 m3 w3, CodecDecrypt 65536 c2 1 (Ptr b2 o2) 32 (Some h2) (m2, w2) = Ret (c3, (m3, w3)) ∧
        peek m3 (Ptr b2 o2) 32 = Some first_page ∧ frame (λ x, x = b2) m2 m3.
Proof.
  apply (page_round_trip 65536 (λ _ _, eq_refl) codec 1 1 heap ex_world 8 0 first_page Small.map Small.entries);
    [apply heap_wf|apply codec_is_ok|apply first_page_ok|done|apply heap_repr|by apply map_apart|apply map_room|done|done
    |by intros v Hv|by intros bv Hv|tags_printable].
Defined.

Lemma encrypted_page_is_lost_witness :
  ∃ c' tag' m' w', CodecEncrypt codec 3 (Ptr 7 0) 16 1 (Some Small.map) (heap, ex_world) = Ret ((c', tag'), (m', w')) ∧
    CodecDecrypt 65536 c' 3 (Ptr 7 0) 16 tag' (m', w') = Undef ∧ closeMap tag' (m', w') = Undef.
Proof.
  apply (encrypted_page_is_lost 65536 (λ _ _, eq_refl) codec 3 1 heap ex_world 7 0 (replicate 16 9) Small.map Small.entries);
    [apply heap_wf|apply codec_is_ok|by split|done|apply heap_repr|by apply map_apart|apply map_room|done|done| | |by split; [printable|]|done].
  - intros v Hv. apply entry_values in Hv as ->. by exists 3, (replicate 16 5).
  - intros bv Hv. apply entry_values in Hv as [= ->]. by apply map_apart.
Defined.

(** A file with two records, at descriptor 3 once it is open. *)
Definition two_tags : list (Z * bytes) := [(7, replicate 15 1 ++ [0]); (2, replicate 15 2 ++ [0])].
Definition tag_world : world :=
  (MemFs ∅ {[mac_log := file_bytes two_tags]} [], no_crypto).
Definition tag_world_open : world :=
  (MemFs {[3 := (file_bytes two_tags, 0%nat)]} {[mac_log := file_bytes two_tags]} [], no_crypto).

#[export] Program Instance world_writes : WriteAll world.
Next Obligation.
  intros w f bs l pos Hf _. simpl in *. unfold on_fst, zoom. simpl. unfold mf_write, run. rewrite Hf.
  eexists. split; [done|]. simpl. by rewrite lookup_insert_eq.
Qed.

Lemma two_tags_print : Forall prints two_tags.*2.
Proof. do 2 (apply Forall_cons; split; [printable|]). apply Forall_nil_2. Qed.

Lemma tags_saved_as_loaded_witness :
  in_order two_tags = [(2, replicate 15 2 ++ [0]); (7, replicate 15 1 ++ [0])] ∧
  ∃ h m' w' m'' w3 w4 r w5, createMap (mem_empty, tag_world) = Ret (Some h, (m', w')) ∧
    utee_vfs_open mac_log (Z.lor 2 512) 511 tag_world = Ret (3, w3) ∧
    closeMap (Some h) (m', tag_world) = Ret (tt, (m'', w5)) ∧
    freed (map_ptrs h) m' m'' ∧ at_end w4 3 (file_bytes (in_order two_tags)) ∧ utee_vfs_close 3 w4 = Ret (r, w5).
Proof.
  split; [by vm_compute|].
  destruct (tags_saved_as_loaded (λ _ _, eq_refl) mem_empty tag_world 3 tag_world_open two_tags)
    as (_ & h & M & m' & w' & E & _ & _ & _ & Hclose & _).
  - split; [done|]. intros b _. apply lookup_empty.
  - vm_compute. reflexivity.
  - done.
  - by repeat constructor.
  - apply (bool_decide_unpack _). by vm_compute.
  - simpl. lia.
  - edestruct (Hclose two_tags_print tag_world 3) as (m'' & w4 & r & w5 & E' & _ & Hf & Hw & Hc);
      [vm_compute; reflexivity|done|].
    eexists h, m', w', m'', _, w4, r, w5. split; [exact E|]. split; [vm_compute; reflexivity|by split_and!].
Defined.

(** A file with the tags of the pages 1 to 100. *)
Definition tags_from (a : Z) (n : nat) : list (Z * bytes) := (λ k, (k, replicate 16 (k mod 256))) <$> seqZ a (Z.of_nat n).
Definition full_world : world :=
  (MemFs ∅ {[mac_log := file_bytes (tags_from 1 99 ++ [(100, replicate 16 1)])]} [], no_crypto).

Lemma hundredth_tag_is_out_of_bounds_witness :
  length (tags_from 1 99) = 99%nat ∧ createMap (mem_empty, full_world) = Undef.
Proof.
  split; [done|].
  apply (hundredth_tag_is_out_of_bounds (λ _ _, eq_refl) mem_empty full_world 3
    (MemFs {[3 := (file_bytes (tags_from 1 99 ++ [(100, replicate 16 1)]), 0%nat)]}
       {[mac_log := file_bytes (tags_from 1 99 ++ [(100, replicate 16 1)])]} [], no_crypto)
    (tags_from 1 99) 100 (replicate 16 1) []).
  - split; [done|]. intros b _. apply lookup_empty.
  - vm_compute. reflexivity.
  - done.
  - apply Forall_forall. intros r (k & -> & Hk%elem_of_seqZ)%list_elem_of_fmap.
    split; [simpl in *; lia|apply length_replicate].
  - apply (bool_decide_unpack _). by vm_compute.
  - done.
  - unfold in_signed. lia.
Defined.
