(* ===== verification/CodecTrust.v ===== *)
(** * What the codec trusts

Encryption is authenticated, but the result of the authentication is logged and
nothing else; a page is not bound to its number; and a page that reaches the
file through the VFS is the sealed one.  The first two say what somebody who can
write the database file and the file of tags can do, the last what somebody who
can only read the database file sees of a page. *)
From S2P Require Import Prelude CMem Heap TaLog UteeVfs MemFile TeeVfs Gp Pair HashMap Codec Frame CodecPage CodecExamples.
#[local] Open Scope Z_scope.
#[local] Open Scope c_scope.

(** ** A cryptographic library that never objects *)

Definition lenient {W} `{TeeCrypto W} : TeeCrypto W := {|
  TEE_AllocateOperation := TEE_AllocateOperation;
  TEE_FreeOperation := TEE_FreeOperation;
  TEE_AllocateTransientObject := TEE_AllocateTransientObject;
  TEE_FreeTransientObject := TEE_FreeTransientObject;
  TEE_PopulateTransientObject := TEE_PopulateTransientObject;
  TEE_SetOperationKey := TEE_SetOperationKey;
  TEE_AEInit := TEE_AEInit;
  TEE_AEEncryptFinal := TEE_AEEncryptFinal;
  TEE_AEDecryptFinal o src n t :=
    let! '(_, d) := TEE_AEDecryptFinal o src n t in ret (TEE_OK, d)
|}.

(** Programs that agree on every state. *)
Lemma bind_same {S A B} (m m' : C S A) (k k' : A → C S B) s :
  (∀ s, m s = m' s) → (∀ a s, k a s = k' a s) → bind m k s = bind m' k' s.
Proof. intros Hm Hk. unfold bind. rewrite Hm. by destruct (m' s) as [[a s']|]. Qed.

Ltac same_bind := apply bind_same; [intros ?; try reflexivity|intros ? ?].

Section lenient.
Context {W : Type} `{K : TeeCrypto W, TeeMalloc, TaLog}.
Implicit Types (s : mem * W).

Lemma decrypt_final_lenient {A} o src n t (k : Z * bytes → C (mem * W) A) s :
  (∀ rc rc' d s, k (rc, d) s = k (rc', d) s) →
  bind (in_world (@TEE_AEDecryptFinal W lenient o src n t)) k s =
  bind (in_world (TEE_AEDecryptFinal o src n t)) k s.
Proof.
  intros Hk. unfold in_world, zoom, bind at 1 2. cbn [lenient TEE_AEDecryptFinal]. unfold bind.
  destruct (TEE_AEDecryptFinal o src n t s.2) as [[[rc d] w']|]; [|done]. simpl. apply Hk.
Qed.

Lemma CodecAES_lenient codec page ty enc key din len dout mac u s :
  @CodecAES W lenient _ codec page ty enc key din len dout mac u s = CodecAES codec page ty enc key din len dout mac u s.
Proof.
  unfold CodecAES. do 6 same_bind. same_bind; [|reflexivity].
  case_decide; [reflexivity|]. case_decide; [reflexivity|]. unfold open_data. do 4 same_bind. by apply decrypt_final_lenient.
Qed.
End lenient.

(** ** The cryptographic library keeps away from the files *)
Definition leaves_files {W A} `{FileLaws W} (c : C W A) : Prop :=
  ∀ w a w', c w = Ret (a, w') → ∀ f, fd_file w' f = fd_file w f.

Class CryptoApart (W : Type) `{FileLaws W, TeeCrypto W} : Prop := {
  allocate_operation_apart a m n : leaves_files (TEE_AllocateOperation a m n);
  free_operation_apart o : leaves_files (TEE_FreeOperation o);
  allocate_object_apart t n : leaves_files (TEE_AllocateTransientObject t n);
  free_object_apart o : leaves_files (TEE_FreeTransientObject o);
  populate_apart o i b : leaves_files (TEE_PopulateTransientObject o i b);
  set_key_apart o k : leaves_files (TEE_SetOperationKey o k);
  ae_init_apart o n t a p : leaves_files (TEE_AEInit o n t a p);
  ae_encrypt_apart o src n t : leaves_files (TEE_AEEncryptFinal o src n t);
  ae_decrypt_apart o src n t : leaves_files (TEE_AEDecryptFinal o src n t)
}.

Lemma on_snd_leaves {A K B} `{FileLaws A} (c : C K B) : leaves_files (on_snd c : C (A * K) B).
Proof. intros w b w' E f. unfold on_snd, zoom in E. destruct (c w.2) as [[b' k']|]; [|done]. by injection E as _ <-. Qed.

#[export] Instance pair_apart {A K} `{FileLaws A, TeeCrypto K} : CryptoApart (A * K).
Proof. split; intros; apply on_snd_leaves. Qed.

Create HintDb apart.
#[export] Hint Resolve allocate_operation_apart free_operation_apart allocate_object_apart free_object_apart
  populate_apart set_key_apart ae_init_apart ae_encrypt_apart ae_decrypt_apart : apart.

Section apart.
Context {W : Type} `{CryptoApart W}.

Lemma leaves_ret {A} (a : A) : leaves_files (ret a).
Proof. by intros w a' w' [= _ <-]. Qed.

Lemma leaves_bind {A B} (c : C W A) (k : A → C W B) :
  leaves_files c → (∀ a, leaves_files (k a)) → leaves_files (bind c k).
Proof. intros Hc Hk w b w' E f. apply bind_inv in E as (a & w1 & E1 & E). by rewrite (Hk _ _ _ _ E), (Hc _ _ _ E1). Qed.

(** The same with the memory beside. *)
Definition quiet {A} (c : C (mem * W) A) : Prop :=
  ∀ s a s', c s = Ret (a, s') → ∀ f, fd_file s'.2 f = fd_file s.2 f.

Lemma quiet_ret {A} (a : A) : quiet (ret a).
Proof. by intros s a' s' [= _ <-]. Qed.

Lemma quiet_lift {A} (o : option A) : quiet (lift o).
Proof. intros s a' s' E. unfold lift in E. destruct o; [|done]. by injection E as _ <-. Qed.

Lemma quiet_bind {A B} (c : C (mem * W) A) (k : A → C (mem * W) B) :
  quiet c → (∀ a, quiet (k a)) → quiet (bind c k).
Proof. intros Hc Hk s b s' E f. apply bind_inv in E as (a & s1 & E1 & E). by rewrite (Hk _ _ _ _ E), (Hc _ _ _ E1). Qed.

Lemma quiet_heap {A} (c : C mem A) : quiet (in_heap c).
Proof. intros s a s' E f. unfold in_heap, zoom in E. destruct (c s.1) as [[a' m']|]; [|done]. by injection E as _ <-. Qed.

Lemma quiet_world {A} (c : C W A) : leaves_files c → quiet (in_world c).
Proof.
  intros Hc s a s' E f. unfold in_world, zoom in E. destruct (c s.2) as [[a' w']|] eqn:Ew; [|done].
  injection E as _ <-. by apply (Hc _ _ _ Ew).
Qed.

End apart.
#[export] Hint Resolve leaves_ret quiet_ret quiet_lift quiet_heap quiet_world : apart.

Ltac apart_tac :=
  repeat match goal with
  | |- leaves_files (bind _ _) => apply leaves_bind; [|intros ?]
  | |- quiet (bind _ _) => apply quiet_bind; [|intros ?]
  | a : _ * _ |- _ => destruct a
  | |- context [if decide ?P then _ else _] => destruct (decide P)
  | _ => solve [eauto with apart]
  end.

Section codec_apart.
Context {W : Type} `{CryptoApart W, TeeMalloc, TaLog}.

Lemma reset_apart c e key n : leaves_files (reset c e key n).
Proof. unfold reset. apart_tac. Qed.
#[local] Hint Resolve reset_apart : apart.

Lemma CodecAES_quiet c page ty e key din n dout mac u : quiet (CodecAES c page ty e key din n dout mac u).
Proof. unfold CodecAES, seal_data, open_data. apart_tac. Qed.
#[local] Hint Resolve CodecAES_quiet : apart.

Lemma tag_set_quiet tag k v : quiet (tag_set tag k v).
Proof. unfold tag_set. apart_tac. Qed.
#[local] Hint Resolve tag_set_quiet : apart.

Lemma CodecEncrypt_quiet c page data n u tag : quiet (CodecEncrypt c page data n u tag).
Proof. unfold CodecEncrypt. apart_tac. Qed.
End codec_apart.

(** * Properties *)
Section properties.
Context {W : Type} `{GpLaws W, TeeMalloc, TaLog}.
Context (SQLITE_MAX_PAGE_SIZE : Z).
Hypothesis memory : ∀ m n, tee_oom m n = false.
Implicit Types (m : mem) (w : W) (d : bytes).

(** C14: nobody looks at the verdict.  Decryption is the same function of memory,
    keys and tags on the cryptographic library of the trusted application and on
    one that calls every message authentic: whatever [TEE_AEDecryptFinal] thinks
    of a page and its tag, [CodecDecrypt] leaves what it gave as the page, and no
    code, flag or byte tells SQLite. *)
Theorem verdict_is_ignored c page data len tag (s : mem * W) :
  @CodecDecrypt W lenient _ _ SQLITE_MAX_PAGE_SIZE c page data len tag s =
  CodecDecrypt SQLITE_MAX_PAGE_SIZE c page data len tag s.
Proof.
  unfold CodecDecrypt. do 3 same_bind. destruct a1 as [offset dbHeader]. do 4 same_bind.
  same_bind; [apply CodecAES_lenient|]. do 3 same_bind. reflexivity.
Qed.

(** C15: pages can be exchanged.  For a page above 1, neither the bytes nor the tag
    depend on its number: there is one sealed form and one tag such that, whatever
    the number, [CodecEncrypt] leaves that form in the page's place, and the call of
    [CodecAES] it makes leaves that tag in [p_mac]; and that form with that tag, in
    the place of any other page above 1, is decrypted as the content of that page.
    (For numbers within the array of the map, a map in order with room, and as long
    as neither memory nor the cryptographic library fails and the log, if it prints
    tags, finds a NUL in this one.) *)
Theorem pages_can_be_exchanged c u d :
  Z.of_nat (length d) < 2 ^ 31 → prints (aead_tag (aes_key c u) iv d) →
  let n := Z.of_nat (length d) in
  ∃ sealed tag,
    (∀ page m w b o h M, 1 < page < h_size h → page < 2 ^ 31 →
       mem_wf m → codec_ok c w → peek m (Ptr b o) n = Some d → hm_repr h m M → apart h b → room h →
       old_tag_ok m M page b → (∀ bv, M !! page = Some (Ptr bv 0) → apart h bv) →
       ∃ c' h' m' w', CodecEncrypt c page (Ptr b o) n u (Some h) (m, w) = Ret ((c', Some h'), (m', w')) ∧
         peek m' (Ptr b o) n = Some sealed) ∧
    (∀ page m w b o bm om t0,
       mem_wf m → codec_ok c w → peek m (Ptr b o) n = Some d → peek m (Ptr bm om) 16 = Some t0 → b ≠ bm →
       ∃ c' m' w', CodecAES c page CODEC_TYPE 1 (aes_key c u) (Ptr b o) n (Ptr b o) (Ptr bm om) u (m, w)
           = Ret (c', (m', w')) ∧
         peek m' (Ptr b o) n = Some sealed ∧ peek m' (Ptr bm om) 16 = Some tag) ∧
    (∀ other c2 m2 w2 b2 o2 h2 M2 bt ot, 1 < other < h_size h2 → other < 2 ^ 31 →
       mem_wf m2 → codec_ok c2 w2 → m_readKey c2 = aes_key c u → peek m2 (Ptr b2 o2) n = Some sealed →
       hm_repr h2 m2 M2 → M2 !! other = Some (Ptr bt ot) → peek m2 (Ptr bt ot) 16 = Some tag → bt ≠ b2 → apart h2 b2 →
       ∃ c3 m3 w3, CodecDecrypt SQLITE_MAX_PAGE_SIZE c2 other (Ptr b2 o2) n (Some h2) (m2, w2) = Ret (c3, (m3, w3)) ∧
         peek m3 (Ptr b2 o2) n = Some d).
Proof.
  intros Hl Hpr n. exists (seal (aes_key c u) d), (aead_tag (aes_key c u) iv d). split_and!.
  - intros page m w b o h M Hps Hpb Hwf Hc Hp Hr Hap Hroom Hold Hva.
    destruct (CodecEncrypt_run memory c page u m w b o d h M) as (h1 & h2 & h' & m' & w' & E & _ & Hp' & _);
      try done; [lia|lia|by split; [rewrite sealed_tag_other by lia|lia]|].
    exists (set_handles c h1 h2), h', m', w'. split; [done|]. by rewrite sealed_page_other in Hp' by lia.
  - intros page m w b o bm om t0 Hwf Hc Hp Ht Hne.
    destruct (aes_encrypt_run memory c page (aes_key c u) u m w b o n d 0 n bm om t0 Hwf Hc Hp)
      as (h1 & h2 & m' & w' & E & _ & _ & Hp' & Ht'); try done; [lia..|].
    rewrite Z.add_0_r in E. exists (set_handles c h1 h2), m', w'. split; [done|].
    rewrite drop_0, take_ge in Hp', Ht' by lia. split; [|done].
    rewrite Hp'. f_equal. unfold splice. rewrite take_0, app_nil_l, drop_ge, app_nil_r; [done|].
    unfold seal. rewrite aead_enc_length. lia.
  - intros other c2 m2 w2 b2 o2 hh M2 bt ot Hos Hob Hwf2 Hc2 Hkey Hp2 Hr2 HM2 Ht2 Hne Hap2. rewrite <- Hkey in Hp2, Ht2, Hpr.
    destruct (CodecDecrypt_run SQLITE_MAX_PAGE_SIZE memory c2 other m2 w2 b2 o2 d hh M2 bt ot)
      as (g1 & g2 & m3 & w3 & E3 & _ & _ & Hp3); try done;
      [by split; [|lia]|by rewrite sealed_page_other by lia|lia|by rewrite sealed_tag_other by lia..|].
    by eexists _, m3, w3.
Qed.
End properties.

Section through_the_file.
Context {W : Type} `{FileLaws W, GpLaws W, !CryptoApart W, TeeMalloc, TaLog}.
Context (SQLITE_MAX_PAGE_SIZE : Z).
Hypothesis memory : ∀ m n, tee_oom m n = false.
Implicit Types (m : mem) (w : W) (d v : bytes).

(** C13: an encrypted page goes through the database file.  A page whose number is
    below the size of the map's array (769 for a map of [createMap]) is in memory,
    and the map of tags is in order, with its keys and the old tag of the page in
    memory, and has room for two more entries; neither memory nor the cryptographic
    library fails, and its tags can be logged.  The page is encrypted,
    the bytes that are then in its place are written to the database file, which is
    synced: when the codes are [SQLITE_OK], the file holds the sealed page at that
    place and is otherwise as it was.  And whenever some later run of the application
    has open a file with those bytes at that place, and reads them, what
    [CodecDecrypt] makes of what was read, with the same key and with the tag of the
    page in a map that is in order, is the page. *)
Theorem page_goes_through_the_file c page u m w b o d h M p v i flags :
  mem_wf m → codec_ok c w → page_ok SQLITE_MAX_PAGE_SIZE page d →
  peek m (Ptr b o) (Z.of_nat (length d)) = Some d → hm_repr h m M → apart h b → room h →
  0 < page < h_size h → page < 2 ^ 31 → old_tag_ok m M page b →
  (∀ bv, M !! page = Some (Ptr bv 0) → apart h bv) → tags_print page (aes_key c u) d →
  demo_repr p w v → 0 ≤ i → i + Z.of_nat (length d) < 2 ^ 63 →
  let n := Z.of_nat (length d) in
  ∃ c' h' m' w' sealed rc p1 w1 rc' p2 w2,
    CodecEncrypt c page (Ptr b o) n u (Some h) (m, w) = Ret ((c', Some h'), (m', w')) ∧
    peek m' (Ptr b o) n = Some sealed ∧ sealed = sealed_page page (aes_key c u) d ∧
    demoWrite p sealed n i w' = Ret ((rc, p1), w1) ∧ demoSync p1 flags w1 = Ret ((rc', p2), w2) ∧
    (rc = SQLITE_OK → rc' = SQLITE_OK →
       ∃ pos, fd_file w2 (fd p) = Some (write_at v (Z.to_nat i) sealed, pos)) ∧
    ∀ q v3 w3 old, demo_repr q w3 v3 → read_at v3 (Z.to_nat i) (length d) = sealed → length old = length d →
      ∃ rc3 q' buf w4, demoRead q old n i w3 = Ret ((rc3, q', buf), w4) ∧
        (rc3 = SQLITE_OK → ∀ c4 m4 b4 o4 h4 M4 bt ot,
           mem_wf m4 → codec_ok c4 w4 → m_readKey c4 = aes_key c u → peek m4 (Ptr b4 o4) n = Some buf →
           hm_repr h4 m4 M4 → page < h_size h4 → M4 !! page = Some (Ptr bt ot) →
           peek m4 (Ptr bt ot) 16 = Some (sealed_tag page (aes_key c u) d) → bt ≠ b4 → apart h4 b4 →
           ∃ c5 m5 w5, CodecDecrypt SQLITE_MAX_PAGE_SIZE c4 page (Ptr b4 o4) n (Some h4) (m4, w4) = Ret (c5, (m5, w5)) ∧
             peek m5 (Ptr b4 o4) n = Some d).
Proof.
  intros Hwf Hc Hpok Hp Hr Hap Hroom Hps Hpb Hold Hva Hpr (l & pos & Hf & Hok & Hv)%demo_repr_open Hi Him n.
  pose proof (proj1 Hpok) as Hn31.
  destruct (CodecEncrypt_run memory c page u m w b o d h M) as (h1 & h2 & h' & m' & w' & E & _ & Hp' & _);
    try done; [intros Hpage; by apply Hpok|].
  assert (fd_file w' (fd p) = fd_file w (fd p)) as Hsame by exact (CodecEncrypt_quiet _ _ _ _ _ _ _ _ _ E (fd p)).
  assert (demo_view p w' = Some v) as Hv' by (unfold demo_view; rewrite Hsame; exact Hv).
  set (sealed := sealed_page page (aes_key c u) d) in *. pose proof (peek_length _ _ _ _ Hp') as Hls.
  destruct (demoWrite_spec p w' l pos sealed n i) as (rc & p1 & w1 & E1 & Hok1 & Hfd & [[l1 pos1] Hf1] & Hrc);
    [by rewrite Hsame|done|lia|lia|lia|lia|].
  rewrite <- Hfd in Hf1. destruct (demo_view_Some p1 w1 l1 pos1 Hf1) as [v1 Hv1].
  destruct (demoSync_spec p1 w1 v1 flags (conj Hok1 Hv1)) as (rc' & p2 & w2 & l2 & pos2 & E2 & Hf2 & _ & _ & Hrc').
  exists (set_handles c h1 h2), h', m', w', sealed, rc, p1, w1, rc', p2, w2. split_and!; try done.
  - intros -> ->. destruct Hrc as [[_ Hw]|?]; [|done]. rewrite Hv', Hv1 in Hw. injection Hw as ->.
    destruct Hrc' as [[_ ->]|[[? _]|?]]; try done. exists pos2. rewrite <- Hfd, Hf2. do 2 f_equal.
    f_equal. apply take_ge. lia.
  - intros q v3 w3 old (l3 & pos3 & Hf3 & Hok3 & Hv3)%demo_repr_open Hread Hlo.
    destruct (demoRead_spec q w3 l3 pos3 old n i Hf3 Hok3) as (rc3 & q' & buf & w4 & E3 & _ & Hlb & _ & Hrc3); [lia..|].
    exists rc3, q', buf, w4. split; [done|]. intros -> c4 m4 b4 o4 h4 M4 bt ot Hwf4 Hc4 Hkey Hp4 Hr4 Hs4 HM4 Ht4 Hne Hap4.
    destruct Hrc3 as [(_ & v' & Hv3' & _ & Ht & _)|[[? _]|[?|?]]]; try done. rewrite Hv3 in Hv3'. injection Hv3' as <-.
    unfold n in Ht. rewrite Nat2Z.id, Hread, take_ge in Ht by lia. subst buf. unfold sealed in Hp4. rewrite <- Hkey in Hp4, Ht4.
    destruct (CodecDecrypt_run SQLITE_MAX_PAGE_SIZE memory c4 page m4 w4 b4 o4 d h4 M4 bt ot)
      as (g1 & g2 & m5 & w5 & E5 & _ & _ & Hp5); try done; [lia|rewrite Hkey; apply Hpr|].
    by eexists _, m5, w5.
Qed.
End through_the_file.

(** * The properties at work *)
#[local] Existing Instances Small.always Toy.toy_crypto Toy.toy_laws log_level_4.

Lemma small_old_tag : old_tag_ok heap Small.entries 3 7.
Proof. intros v Hv. apply entry_values in Hv as ->. by exists 3, (replicate 16 5). Qed.

Lemma small_values_apart bv : Small.entries !! 3 = Some (Ptr bv 0) → apart Small.map bv.
Proof. intros Hv. apply entry_values in Hv as [= ->]. by apply map_apart. Qed.

Lemma pages_can_be_exchanged_witness :
  ∃ sealed tag : bytes,
    (∀ page m (w : world) b o h M, 1 < page < h_size h → page < 2 ^ 31 →
       mem_wf m → codec_ok codec w → peek m (Ptr b o) 16 = Some (replicate 16 9) → hm_repr h m M → apart h b → room h →
       old_tag_ok m M page b → (∀ bv, M !! page = Some (Ptr bv 0) → apart h bv) →
       ∃ c' h' m' w', CodecEncrypt codec page (Ptr b o) 16 1 (Some h) (m, w) = Ret ((c', Some h'), (m', w')) ∧
         peek m' (Ptr b o) 16 = Some sealed) ∧
    (∀ page m (w : world) b o bm om t0,
       mem_wf m → codec_ok codec w → peek m (Ptr b o) 16 = Some (replicate 16 9) →
       peek m (Ptr bm om) 16 = Some t0 → b ≠ bm →
       ∃ c' m' w', CodecAES codec page CODEC_TYPE 1 (replicate 16 3) (Ptr b o) 16 (Ptr b o) (Ptr bm om) 1 (m, w)
           = Ret (c', (m', w')) ∧
         peek m' (Ptr b o) 16 = Some sealed ∧ peek m' (Ptr bm om) 16 = Some tag) ∧
    (∀ other c2 m2 (w2 : world) b2 o2 h2 M2 bt ot, 1 < other < h_size h2 → other < 2 ^ 31 →
       mem_wf m2 → codec_ok c2 w2 → m_readKey c2 = replicate 16 3 → peek m2 (Ptr b2 o2) 16 = Some sealed →
       hm_repr h2 m2 M2 → M2 !! other = Some (Ptr bt ot) → peek m2 (Ptr bt ot) 16 = Some tag → bt ≠ b2 → apart h2 b2 →
       ∃ c3 m3 w3, CodecDecrypt 65536 c2 other (Ptr b2 o2) 16 (Some h2) (m2, w2) = Ret (c3, (m3, w3)) ∧
         peek m3 (Ptr b2 o2) 16 = Some (replicate 16 9)).
Proof. apply (pages_can_be_exchanged 65536 (λ _ _, eq_refl) codec 1 (replicate 16 9)); [done|printable]. Defined.

Definition ex_db : DemoFile := mkDemoFile true 3 None 0 0.

Lemma page_goes_through_the_file_witness :
  ∃ c' h' m' w' sealed rc p1 w1 rc' p2 w2,
    CodecEncrypt codec 3 (Ptr 7 0) 16 1 (Some Small.map) (heap, ex_world) = Ret ((c', Some h'), (m', w')) ∧
    peek m' (Ptr 7 0) 16 = Some sealed ∧ sealed = sealed_page (W:=world) 3 (replicate 16 3) (replicate 16 9) ∧
    demoWrite ex_db sealed 16 32 w' = Ret ((rc, p1), w1) ∧ demoSync p1 0 w1 = Ret ((rc', p2), w2) ∧
    (rc = SQLITE_OK → rc' = SQLITE_OK →
       ∃ pos, fd_file w2 3 = Some (write_at [] 32 sealed, pos)) ∧
    ∀ q v3 (w3 : world) old, demo_repr q w3 v3 → read_at v3 32 16 = sealed → length old = 16%nat →
      ∃ rc3 q' buf w4, demoRead q old 16 32 w3 = Ret ((rc3, q', buf), w4) ∧
        (rc3 = SQLITE_OK → ∀ c4 m4 b4 o4 h4 M4 bt ot,
           mem_wf m4 → codec_ok c4 w4 → m_readKey c4 = replicate 16 3 → peek m4 (Ptr b4 o4) 16 = Some buf →
           hm_repr h4 m4 M4 → 3 < h_size h4 → M4 !! 3 = Some (Ptr bt ot) →
           peek m4 (Ptr bt ot) 16 = Some (sealed_tag (W:=world) 3 (replicate 16 3) (replicate 16 9)) → bt ≠ b4 → apart h4 b4 →
           ∃ c5 m5 w5, CodecDecrypt 65536 c4 3 (Ptr b4 o4) 16 (Some h4) (m4, w4) = Ret (c5, (m5, w5)) ∧
             peek m5 (Ptr b4 o4) 16 = Some (replicate 16 9)).
Proof.
  apply (page_goes_through_the_file 65536 (λ _ _, eq_refl) codec 3 1 heap ex_world 7 0 (replicate 16 9) Small.map
    Small.entries ex_db [] 32 0);
    [apply heap_wf|apply codec_is_ok|by split|done|apply heap_repr|by apply map_apart|apply map_room|done|done
    |apply small_old_tag|apply small_values_apart|by split; [printable|]|done|done|done].
Defined.
