(* ===== verification/Scall.v ===== *)
(** * System calls: from the stub to the function

Models optee_os/core/kernel/scall.c: the two tables of system calls and the
handlers that look a number up and call its function, with the numbers of
tee_syscall_numbers.h and the stubs of utee_syscalls_asm.S, through which the
trusted application enters.  An entry of a table is the name of its function, as
in the traced build.  What the architecture does with the registers is the class
[Arch]; the numbers of the ELF loader's calls that are declared elsewhere are
parameters. *)
From S2P Require Import Prelude.
#[local] Open Scope string_scope.
#[local] Open Scope Z_scope.
#[local] Open Scope c_scope.

(** ** Numbers *)
Definition TEE_SCN_RETURN : Z := 0.
Definition TEE_SCN_LOG : Z := 1.
Definition TEE_SCN_PANIC : Z := 2.
Definition TEE_SCN_GET_PROPERTY : Z := 3.
Definition TEE_SCN_GET_PROPERTY_NAME_TO_INDEX : Z := 4.
Definition TEE_SCN_OPEN_TA_SESSION : Z := 5.
Definition TEE_SCN_CLOSE_TA_SESSION : Z := 6.
Definition TEE_SCN_INVOKE_TA_COMMAND : Z := 7.
Definition TEE_SCN_CHECK_ACCESS_RIGHTS : Z := 8.
Definition TEE_SCN_GET_CANCELLATION_FLAG : Z := 9.
Definition TEE_SCN_UNMASK_CANCELLATION : Z := 10.
Definition TEE_SCN_MASK_CANCELLATION : Z := 11.
Definition TEE_SCN_WAIT : Z := 12.
Definition TEE_SCN_GET_TIME : Z := 13.
Definition TEE_SCN_SET_TA_TIME : Z := 14.
Definition TEE_SCN_CRYP_STATE_ALLOC : Z := 15.
Definition TEE_SCN_CRYP_STATE_COPY : Z := 16.
Definition TEE_SCN_CRYP_STATE_FREE : Z := 17.
Definition TEE_SCN_HASH_INIT : Z := 18.
Definition TEE_SCN_HASH_UPDATE : Z := 19.
Definition TEE_SCN_HASH_FINAL : Z := 20.
Definition TEE_SCN_CIPHER_INIT : Z := 21.
Definition TEE_SCN_CIPHER_UPDATE : Z := 22.
Definition TEE_SCN_CIPHER_FINAL : Z := 23.
Definition TEE_SCN_CRYP_OBJ_GET_INFO : Z := 24.
Definition TEE_SCN_CRYP_OBJ_RESTRICT_USAGE : Z := 25.
Definition TEE_SCN_CRYP_OBJ_GET_ATTR : Z := 26.
Definition TEE_SCN_CRYP_OBJ_ALLOC : Z := 27.
Definition TEE_SCN_CRYP_OBJ_CLOSE : Z := 28.
Definition TEE_SCN_CRYP_OBJ_RESET : Z := 29.
Definition TEE_SCN_CRYP_OBJ_POPULATE : Z := 30.
Definition TEE_SCN_CRYP_OBJ_COPY : Z := 31.
Definition TEE_SCN_CRYP_DERIVE_KEY : Z := 32.
Definition TEE_SCN_CRYP_RANDOM_NUMBER_GENERATE : Z := 33.
Definition TEE_SCN_AUTHENC_INIT : Z := 34.
Definition TEE_SCN_AUTHENC_UPDATE_AAD : Z := 35.
Definition TEE_SCN_AUTHENC_UPDATE_PAYLOAD : Z := 36.
Definition TEE_SCN_AUTHENC_ENC_FINAL : Z := 37.
Definition TEE_SCN_AUTHENC_DEC_FINAL : Z := 38.
Definition TEE_SCN_ASYMM_OPERATE : Z := 39.
Definition TEE_SCN_ASYMM_VERIFY : Z := 40.
Definition TEE_SCN_STORAGE_OBJ_OPEN : Z := 41.
Definition TEE_SCN_STORAGE_OBJ_CREATE : Z := 42.
Definition TEE_SCN_STORAGE_OBJ_DEL : Z := 43.
Definition TEE_SCN_STORAGE_OBJ_RENAME : Z := 44.
Definition TEE_SCN_STORAGE_ENUM_ALLOC : Z := 45.
Definition TEE_SCN_STORAGE_ENUM_FREE : Z := 46.
Definition TEE_SCN_STORAGE_ENUM_RESET : Z := 47.
Definition TEE_SCN_STORAGE_ENUM_START : Z := 48.
Definition TEE_SCN_STORAGE_ENUM_NEXT : Z := 49.
Definition TEE_SCN_STORAGE_OBJ_READ : Z := 50.
Definition TEE_SCN_STORAGE_OBJ_WRITE : Z := 51.
Definition TEE_SCN_STORAGE_OBJ_TRUNC : Z := 52.
Definition TEE_SCN_STORAGE_OBJ_SEEK : Z := 53.
Definition TEE_SCN_CRYP_OBJ_GENERATE_KEY : Z := 54.
Definition TEE_SCN_CACHE_OPERATION : Z := 70.
Definition TEE_SCN_VFS_OPEN : Z := 71.
Definition TEE_SCN_VFS_CLOSE : Z := 72.
Definition TEE_SCN_VFS_ACCESS : Z := 73.
Definition TEE_SCN_VFS_GETCWD : Z := 74.
Definition TEE_SCN_VFS_STAT : Z := 75.
Definition TEE_SCN_VFS_WRITE : Z := 76.
Definition TEE_SCN_VFS_MKDIR : Z := 77.
Definition TEE_SCN_VFS_RMDIR : Z := 78.
Definition TEE_SCN_VFS_UNLINK : Z := 79.
Definition TEE_SCN_VFS_FTRUNCATE : Z := 80.
Definition TEE_SCN_VFS_READ : Z := 81.
Definition TEE_SCN_VFS_FCHMOD : Z := 82.
Definition TEE_SCN_VFS_FCHOWN : Z := 83.
Definition TEE_SCN_VFS_GETEUID : Z := 84.
Definition TEE_SCN_VFS_GETPID : Z := 85.
Definition TEE_SCN_VFS_GETENV : Z := 86.
Definition TEE_SCN_VFS_LSEEK : Z := 87.
Definition TEE_SCN_VFS_FSYNC : Z := 88.
Definition TEE_SCN_VFS_SLEEP : Z := 89.
Definition TEE_SCN_VFS_PREAD : Z := 90.
Definition TEE_SCN_VFS_PWRITE : Z := 91.
Definition TEE_SCN_VFS_TRUNCATE : Z := 92.
Definition TEE_SCN_VFS_GETTIMEOFDAY : Z := 93.
Definition TEE_SCN_VFS_FSTAT : Z := 94.
Definition TEE_SCN_VFS_FCNTL_VOID : Z := 95.
Definition TEE_SCN_VFS_FCNTL_INT : Z := 96.
Definition TEE_SCN_VFS_FCNTL_FLOCK : Z := 97.
Definition TEE_SCN_VFS_UTIMES : Z := 98.
Definition TEE_SCN_VFS_TIME : Z := 99.
Definition TEE_SCN_VFS_USLEEP : Z := 100.
Definition TEE_SCN_VFS_FILESIZE : Z := 101.
Definition TEE_SCN_MAX : Z := 101.
Definition TEE_SVC_MAX_ARGS : Z := 8.
Definition TEE_ERROR_GENERIC : Z := 0xFFFF0000.

(** ** Tables *)

Definition tee_syscall_table : list string :=
  ["syscall_sys_return"; "syscall_log"; "syscall_panic"; "syscall_get_property";
   "syscall_get_property_name_to_index"; "syscall_open_ta_session"; "syscall_close_ta_session";
   "syscall_invoke_ta_command"; "syscall_check_access_rights"; "syscall_get_cancellation_flag";
   "syscall_unmask_cancellation"; "syscall_mask_cancellation"; "syscall_wait";
   "syscall_get_time"; "syscall_set_ta_time"; "syscall_cryp_state_alloc";
   "syscall_cryp_state_copy"; "syscall_cryp_state_free"; "syscall_hash_init";
   "syscall_hash_update"; "syscall_hash_final"; "syscall_cipher_init"; "syscall_cipher_update";
   "syscall_cipher_final"; "syscall_cryp_obj_get_info"; "syscall_cryp_obj_restrict_usage";
   "syscall_cryp_obj_get_attr"; "syscall_cryp_obj_alloc"; "syscall_cryp_obj_close";
   "syscall_cryp_obj_reset"; "syscall_cryp_obj_populate"; "syscall_cryp_obj_copy";
   "syscall_cryp_derive_key"; "syscall_cryp_random_number_generate"; "syscall_authenc_init";
   "syscall_authenc_update_aad"; "syscall_authenc_update_payload"; "syscall_authenc_enc_final";
   "syscall_authenc_dec_final"; "syscall_asymm_operate"; "syscall_asymm_verify";
   "syscall_storage_obj_open"; "syscall_storage_obj_create"; "syscall_storage_obj_del";
   "syscall_storage_obj_rename"; "syscall_storage_alloc_enum"; "syscall_storage_free_enum";
   "syscall_storage_reset_enum"; "syscall_storage_start_enum"; "syscall_storage_next_enum";
   "syscall_storage_obj_read"; "syscall_storage_obj_write"; "syscall_storage_obj_trunc";
   "syscall_storage_obj_seek"; "syscall_obj_generate_key"; "syscall_not_supported";
   "syscall_not_supported"; "syscall_not_supported"; "syscall_not_supported";
   "syscall_not_supported"; "syscall_not_supported"; "syscall_not_supported";
   "syscall_not_supported"; "syscall_not_supported"; "syscall_not_supported";
   "syscall_not_supported"; "syscall_not_supported"; "syscall_not_supported";
   "syscall_not_supported"; "syscall_not_supported"; "syscall_cache_operation";
   "syscall_vfs_open"; "syscall_vfs_close"; "syscall_vfs_access"; "syscall_vfs_getcwd";
   "syscall_vfs_stat"; "syscall_vfs_write"; "syscall_vfs_mkdir"; "syscall_vfs_rmdir";
   "syscall_vfs_unlink"; "syscall_vfs_ftruncate"; "syscall_vfs_read"; "syscall_vfs_fchmod";
   "syscall_vfs_fchown"; "syscall_vfs_geteuid"; "syscall_vfs_getpid"; "syscall_vfs_getenv";
   "syscall_vfs_lseek"; "syscall_vfs_fsync"; "syscall_vfs_sleep"; "syscall_vfs_pread";
   "syscall_vfs_pwrite"; "syscall_vfs_truncate"; "syscall_vfs_gettimeofday"; "syscall_vfs_fstat";
   "syscall_vfs_fcntl_void"; "syscall_vfs_fcntl_int"; "syscall_vfs_fcntl_flock";
   "syscall_vfs_utimes"; "syscall_vfs_time"; "syscall_vfs_usleep"; "syscall_vfs_filesize"].

Definition ldelf_syscall_table : list string :=
  ["syscall_sys_return"; "syscall_log"; "syscall_panic"; "ldelf_syscall_map_zi";
   "ldelf_syscall_unmap"; "ldelf_syscall_open_bin"; "ldelf_syscall_close_bin";
   "ldelf_syscall_map_bin"; "ldelf_syscall_copy_from_bin"; "ldelf_syscall_set_prot";
   "ldelf_syscall_remap"; "ldelf_syscall_gen_rnd_num"].

(** A stub: its name, the number it passes and the number of its arguments. *)
Record stub : Type := Stub { stub_name : string; stub_scn : Z; stub_args : Z }.

Definition utee_stubs : list stub :=
  [Stub "_utee_return" TEE_SCN_RETURN 1; Stub "_utee_log" TEE_SCN_LOG 2;
   Stub "__utee_panic" TEE_SCN_PANIC 2; Stub "_utee_get_property" TEE_SCN_GET_PROPERTY 7;
   Stub "_utee_get_property_name_to_index" TEE_SCN_GET_PROPERTY_NAME_TO_INDEX 4;
   Stub "_utee_open_ta_session" TEE_SCN_OPEN_TA_SESSION 5;
   Stub "_utee_close_ta_session" TEE_SCN_CLOSE_TA_SESSION 1;
   Stub "_utee_invoke_ta_command" TEE_SCN_INVOKE_TA_COMMAND 5;
   Stub "_utee_get_cancellation_flag" TEE_SCN_GET_CANCELLATION_FLAG 1;
   Stub "_utee_check_access_rights" TEE_SCN_CHECK_ACCESS_RIGHTS 3;
   Stub "_utee_unmask_cancellation" TEE_SCN_UNMASK_CANCELLATION 1;
   Stub "_utee_mask_cancellation" TEE_SCN_MASK_CANCELLATION 1; Stub "_utee_wait" TEE_SCN_WAIT 1;
   Stub "_utee_get_time" TEE_SCN_GET_TIME 2; Stub "_utee_set_ta_time" TEE_SCN_SET_TA_TIME 1;
   Stub "_utee_cryp_state_alloc" TEE_SCN_CRYP_STATE_ALLOC 5;
   Stub "_utee_cryp_state_copy" TEE_SCN_CRYP_STATE_COPY 2;
   Stub "_utee_cryp_state_free" TEE_SCN_CRYP_STATE_FREE 1;
   Stub "_utee_hash_init" TEE_SCN_HASH_INIT 3; Stub "_utee_hash_update" TEE_SCN_HASH_UPDATE 3;
   Stub "_utee_hash_final" TEE_SCN_HASH_FINAL 5; Stub "_utee_cipher_init" TEE_SCN_CIPHER_INIT 3;
   Stub "_utee_cipher_update" TEE_SCN_CIPHER_UPDATE 5;
   Stub "_utee_cipher_final" TEE_SCN_CIPHER_FINAL 5;
   Stub "_utee_cryp_obj_get_info" TEE_SCN_CRYP_OBJ_GET_INFO 2;
   Stub "_utee_cryp_obj_restrict_usage" TEE_SCN_CRYP_OBJ_RESTRICT_USAGE 2;
   Stub "_utee_cryp_obj_get_attr" TEE_SCN_CRYP_OBJ_GET_ATTR 4;
   Stub "_utee_cryp_obj_alloc" TEE_SCN_CRYP_OBJ_ALLOC 3;
   Stub "_utee_cryp_obj_close" TEE_SCN_CRYP_OBJ_CLOSE 1;
   Stub "_utee_cryp_obj_reset" TEE_SCN_CRYP_OBJ_RESET 1;
   Stub "_utee_cryp_obj_populate" TEE_SCN_CRYP_OBJ_POPULATE 3;
   Stub "_utee_cryp_obj_copy" TEE_SCN_CRYP_OBJ_COPY 2;
   Stub "_utee_cryp_derive_key" TEE_SCN_CRYP_DERIVE_KEY 4;
   Stub "_utee_cryp_random_number_generate" TEE_SCN_CRYP_RANDOM_NUMBER_GENERATE 2;
   Stub "_utee_authenc_init" TEE_SCN_AUTHENC_INIT 6;
   Stub "_utee_authenc_update_aad" TEE_SCN_AUTHENC_UPDATE_AAD 3;
   Stub "_utee_authenc_update_payload" TEE_SCN_AUTHENC_UPDATE_PAYLOAD 5;
   Stub "_utee_authenc_enc_final" TEE_SCN_AUTHENC_ENC_FINAL 7;
   Stub "_utee_authenc_dec_final" TEE_SCN_AUTHENC_DEC_FINAL 7;
   Stub "_utee_asymm_operate" TEE_SCN_ASYMM_OPERATE 7;
   Stub "_utee_asymm_verify" TEE_SCN_ASYMM_VERIFY 7;
   Stub "_utee_storage_obj_open" TEE_SCN_STORAGE_OBJ_OPEN 5;
   Stub "_utee_storage_obj_create" TEE_SCN_STORAGE_OBJ_CREATE 8;
   Stub "_utee_storage_obj_del" TEE_SCN_STORAGE_OBJ_DEL 1;
   Stub "_utee_storage_obj_rename" TEE_SCN_STORAGE_OBJ_RENAME 3;
   Stub "_utee_storage_alloc_enum" TEE_SCN_STORAGE_ENUM_ALLOC 1;
   Stub "_utee_storage_free_enum" TEE_SCN_STORAGE_ENUM_FREE 1;
   Stub "_utee_storage_reset_enum" TEE_SCN_STORAGE_ENUM_RESET 1;
   Stub "_utee_storage_start_enum" TEE_SCN_STORAGE_ENUM_START 2;
   Stub "_utee_storage_next_enum" TEE_SCN_STORAGE_ENUM_NEXT 4;
   Stub "_utee_storage_obj_read" TEE_SCN_STORAGE_OBJ_READ 4;
   Stub "_utee_storage_obj_write" TEE_SCN_STORAGE_OBJ_WRITE 3;
   Stub "_utee_storage_obj_trunc" TEE_SCN_STORAGE_OBJ_TRUNC 2;
   Stub "_utee_storage_obj_seek" TEE_SCN_STORAGE_OBJ_SEEK 3;
   Stub "_utee_cryp_obj_generate_key" TEE_SCN_CRYP_OBJ_GENERATE_KEY 4;
   Stub "_utee_cache_operation" TEE_SCN_CACHE_OPERATION 3;
   Stub "utee_vfs_open" TEE_SCN_VFS_OPEN 3; Stub "utee_vfs_close" TEE_SCN_VFS_CLOSE 1;
   Stub "utee_vfs_access" TEE_SCN_VFS_ACCESS 2; Stub "utee_vfs_getcwd" TEE_SCN_VFS_GETCWD 2;
   Stub "utee_vfs_stat" TEE_SCN_VFS_STAT 2; Stub "utee_vfs_write" TEE_SCN_VFS_WRITE 3;
   Stub "utee_vfs_mkdir" TEE_SCN_VFS_MKDIR 2; Stub "utee_vfs_rmdir" TEE_SCN_VFS_RMDIR 1;
   Stub "utee_vfs_unlink" TEE_SCN_VFS_UNLINK 2;
   Stub "utee_vfs_ftruncate" TEE_SCN_VFS_FTRUNCATE 2; Stub "utee_vfs_read" TEE_SCN_VFS_READ 3;
   Stub "utee_vfs_fchmod" TEE_SCN_VFS_FCHMOD 2; Stub "utee_vfs_fchown" TEE_SCN_VFS_FCHOWN 3;
   Stub "utee_vfs_geteuid" TEE_SCN_VFS_GETEUID 0; Stub "utee_vfs_getpid" TEE_SCN_VFS_GETPID 0;
   Stub "utee_vfs_getenv" TEE_SCN_VFS_GETENV 1; Stub "utee_vfs_lseek" TEE_SCN_VFS_LSEEK 3;
   Stub "utee_vfs_fsync" TEE_SCN_VFS_FSYNC 1; Stub "utee_vfs_sleep" TEE_SCN_VFS_SLEEP 1;
   Stub "utee_vfs_pread" TEE_SCN_VFS_PREAD 1; Stub "utee_vfs_pwrite" TEE_SCN_VFS_PWRITE 1;
   Stub "utee_vfs_truncate" TEE_SCN_VFS_TRUNCATE 2;
   Stub "utee_vfs_gettimeofday" TEE_SCN_VFS_GETTIMEOFDAY 2;
   Stub "utee_vfs_fstat" TEE_SCN_VFS_FSTAT 2;
   Stub "utee_vfs_fcntl_void" TEE_SCN_VFS_FCNTL_VOID 2;
   Stub "utee_vfs_fcntl_int" TEE_SCN_VFS_FCNTL_INT 3;
   Stub "utee_vfs_fcntl_flock" TEE_SCN_VFS_FCNTL_FLOCK 3;
   Stub "utee_vfs_utimes" TEE_SCN_VFS_UTIMES 2; Stub "utee_vfs_time" TEE_SCN_VFS_TIME 1;
   Stub "utee_vfs_usleep" TEE_SCN_VFS_USLEEP 1; Stub "utee_vfs_filesize" TEE_SCN_VFS_FILESIZE 1].

(** ** Handlers *)

(** The registers of the caller, the call of a function with the arguments in
    them, and the trace buffer of the current session: [None] when there is no
    session or no buffer. *)
Class Arch (K : Type) : Type := {
  scall_get_max_args : C K (Z * Z);
  scall_set_retval : Z → C K unit;
  scall_do_call : string → C K Z;
  scall_save_panic_stack : C K unit;
  scall_set_sys_return_regs : bool → Z → C K unit;
  session_trace_buffer : C K (option unit);
  set_syscall_trace_enabled : bool → C K unit
}.

Section handlers.
Context {K : Type} `{Arch K}.
Context (CFG_SYSCALL_FTRACE : bool) (LDELF_SCN_MAX LDELF_RETURN LDELF_PANIC : Z).

Definition ftrace_syscall_enter (num : Z) : C K unit :=
  if CFG_SYSCALL_FTRACE then
    if decide (num = TEE_SCN_OPEN_TA_SESSION ∨ num = TEE_SCN_CLOSE_TA_SESSION ∨
               num = TEE_SCN_INVOKE_TA_COMMAND) then ret tt
    else
      let! s := session_trace_buffer in
      match s with Some _ => set_syscall_trace_enabled true | None => ret tt end
  else ret tt.

Definition ftrace_syscall_leave : C K unit :=
  if CFG_SYSCALL_FTRACE then
    let! s := session_trace_buffer in
    match s with Some _ => set_syscall_trace_enabled false | None => ret tt end
  else ret tt.

(** An index outside the table loads a null function, which is undefined. *)
Definition get_tee_syscall_func (num : Z) : C K string :=
  if decide (num > TEE_SCN_MAX) then ret "syscall_not_supported"
  else lift (tee_syscall_table !! Z.to_nat num).

Definition get_ldelf_syscall_func (num : Z) : C K string :=
  if decide (num > LDELF_SCN_MAX) then ret "syscall_not_supported"
  else lift (ldelf_syscall_table !! Z.to_nat num).

Definition scall_handle_user_ta : C K bool :=
  let! '(scn, max_args) := scall_get_max_args in
  if decide (max_args > TEE_SVC_MAX_ARGS) then
    do! scall_set_retval TEE_ERROR_GENERIC in
    ret true
  else
    let! scf := get_tee_syscall_func scn in
    do! ftrace_syscall_enter scn in
    let! r := scall_do_call scf in
    do! scall_set_retval r in
    do! ftrace_syscall_leave in
    ret (bool_decide (scn ≠ TEE_SCN_RETURN ∧ scn ≠ TEE_SCN_PANIC)).

Definition scall_handle_ldelf : C K bool :=
  let! '(scn, max_args) := scall_get_max_args in
  if decide (max_args > TEE_SVC_MAX_ARGS) then
    do! scall_set_retval TEE_ERROR_GENERIC in
    ret true
  else
    let! scf := get_ldelf_syscall_func scn in
    do! ftrace_syscall_enter scn in
    let! r := scall_do_call scf in
    do! scall_set_retval r in
    do! ftrace_syscall_leave in
    ret (bool_decide (scn ≠ LDELF_RETURN ∧ scn ≠ LDELF_PANIC)).

Definition scall_sys_return_helper (r : Z) (panic : bool) (panic_code : Z) : C K Z :=
  do! (if panic then scall_save_panic_stack else ret tt) in
  do! scall_set_sys_return_regs panic panic_code in
  ret r.
End handlers.

(** * What they do *)

(** The function a stub is meant for: its name without the prefix, but for three
    that are named otherwise. *)
Definition function_of (name : string) : string :=
  if decide (name = "_utee_return") then "syscall_sys_return"
  else if decide (name = "__utee_panic") then "syscall_panic"
  else if decide (name = "_utee_cryp_obj_generate_key") then "syscall_obj_generate_key"
  else if String.prefix "_utee_" name then "syscall_" +:+ String.substring 6 (String.length name) name
  else if String.prefix "utee_" name then "syscall_" +:+ String.substring 5 (String.length name) name
  else "".

Section properties.
Context {K : Type} `{Arch K}.

(** A call that is not refused: the function of the stub runs, once. *)
Lemma handle_run (k : K) scn n f :
  scall_get_max_args k = Ret ((scn, n), k) → n ≤ TEE_SVC_MAX_ARGS → 0 ≤ scn ≤ TEE_SCN_MAX →
  tee_syscall_table !! Z.to_nat scn = Some f →
  scall_handle_user_ta false k =
    (let! r := scall_do_call f in do! scall_set_retval r in
     ret (bool_decide (scn ≠ TEE_SCN_RETURN ∧ scn ≠ TEE_SCN_PANIC))) k.
Proof.
  intros E Hn Hs Hf. unfold scall_handle_user_ta. rewrite (bind_run _ _ _ _ _ E), decide_False by lia.
  unfold get_tee_syscall_func. rewrite decide_False, Hf by lia. reflexivity.
Qed.

Lemma stubs_in_table :
  forallb (λ s, bool_decide (0 ≤ stub_scn s ≤ TEE_SCN_MAX) && bool_decide (stub_args s ≤ TEE_SVC_MAX_ARGS) &&
    bool_decide (tee_syscall_table !! Z.to_nat (stub_scn s) = Some (function_of (stub_name s)))) utee_stubs = true.
Proof. vm_compute. reflexivity. Qed.

(** C26: a stub reaches the function it is named after.  When a trusted
    application enters through any stub of libutee, with the number and the
    argument count the stub passes, the handler calls the kernel's function of
    the same name, once, stores what it returns, and resumes the application,
    but for the two calls that end it.  (Three stubs have a name that is not quite
    their function's, see [function_of]; system calls are not being traced.) *)
Theorem stubs_reach_their_functions (s : stub) (k : K) :
  s ∈ utee_stubs → scall_get_max_args k = Ret ((stub_scn s, stub_args s), k) →
  scall_handle_user_ta false k =
    (let! r := scall_do_call (function_of (stub_name s)) in
     do! scall_set_retval r in
     ret (bool_decide (stub_scn s ≠ TEE_SCN_RETURN ∧ stub_scn s ≠ TEE_SCN_PANIC))) k.
Proof.
  intros Hs E. pose proof stubs_in_table as Hall. rewrite forallb_forall in Hall.
  specialize (Hall s). rewrite <- list_elem_of_In in Hall. specialize (Hall Hs).
  apply andb_true_iff in Hall as [Hall Hf]. apply andb_true_iff in Hall as [Hr Hn].
  apply bool_decide_eq_true in Hf, Hr, Hn. by apply handle_run with (n := stub_args s).
Qed.

(** Whatever number the application passes, the handler reads the table within
    its bounds. *)
Lemma numbers_are_checked (num : Z) (k : K) :
  0 ≤ num →
  ∃ f, get_tee_syscall_func num k = Ret (f, k) ∧
    (TEE_SCN_MAX < num → f = "syscall_not_supported") ∧
    (num ≤ TEE_SCN_MAX → tee_syscall_table !! Z.to_nat num = Some f).
Proof.
  intros Hn. unfold get_tee_syscall_func. case_decide as Hm.
  - eexists. split; [done|]. split; [done|lia].
  - destruct (lookup_lt_is_Some_2 tee_syscall_table (Z.to_nat num)) as [f Hf].
    { change (length tee_syscall_table) with 102%nat. unfold TEE_SCN_MAX in Hm. lia. }
    rewrite Hf. exists f. split; [done|]. split; [lia|done].
Qed.
End properties.

(** ** Witnesses *)
Module Trace.
(** The state: the call to make, and the calls made with what was stored. *)
Record state : Type := State { request : Z * Z; calls : list string; result : Z }.

#[export] Instance arch : Arch state := {
  scall_get_max_args := gets request;
  scall_set_retval r := modify (λ s, State (request s) (calls s) r);
  scall_do_call f := λ s, Ret (0, State (request s) (calls s ++ [f]) (result s));
  scall_save_panic_stack := ret tt;
  scall_set_sys_return_regs _ _ := ret tt;
  session_trace_buffer := ret None;
  set_syscall_trace_enabled _ := ret tt
}.

Definition at_write : state := State (76, 3) [] 1.

Lemma stubs_reach_their_functions_witness :
  scall_handle_user_ta false at_write = Ret (true, State (76, 3) ["syscall_vfs_write"] 0).
Proof.
  rewrite (stubs_reach_their_functions (Stub "utee_vfs_write" TEE_SCN_VFS_WRITE 3) at_write).
  - reflexivity.
  - apply (list_elem_of_lookup_2 _ 61%nat). reflexivity.
  - reflexivity.
Defined.
End Trace.
