(* ===== verification/CodecExt.v ===== *)
(** * The codec inside SQLite

Models optee_examples/tee_sqilte/ta/codecext.c.  SQLite is the class [Sqlite]: the
functions of its B-tree and pager that the extension calls, as computations on
the whole state, since they may call [sqlite3Codec] back.  A [Codec] is shared
between the pager, the connection and the extension, so the state maps its address
to its contents; [NULL] is [None].  The database connection is the list of its
databases.  The version of SQLite is that of ta/include/sqlite3.h, 3.8.4, which
decides the conditional parts. *)
From S2P Require Import Prelude CMem Heap TaLog UteeVfs Gp HashMap Codec.
#[local] Open Scope Z_scope.
#[local] Open Scope c_scope.

(** ** State *)

(** [struct Db]: the name and the B-tree. *)
Record Db : Type := MkDb { zName : bytes; pBt : ptr }.

Record ext (W : Type) : Type := Ext {
  e_mem : mem;
  e_world : W;
  e_codecs : gmap Z Codec;
  e_tag : option hashmap;
  e_db : list Db
}.
Arguments Ext {W}. Arguments e_mem {W}. Arguments e_world {W}. Arguments e_codecs {W}.
Arguments e_tag {W}. Arguments e_db {W}.

Definition SQLITE_OK : Z := 0.
Definition SQLITE_ERROR : Z := 1.

Class Sqlite (W : Type) : Type := {
  (** a block for one [Codec], with whatever was there *)
  sqlite3_malloc_codec : C (ext W) (option Z);
  sqlite3_free_codec : Z → C (ext W) unit;
  sqlite3_mutex_enter : C (ext W) unit;
  sqlite3_mutex_leave : C (ext W) unit;
  sqlite3BtreePager : ptr → C (ext W) ptr;
  sqlite3BtreeGetPageSize : ptr → C (ext W) Z;
  sqlite3BtreeBeginTrans : ptr → Z → C (ext W) Z;
  sqlite3BtreeCommit : ptr → C (ext W) Z;
  sqlite3BtreeRollback : ptr → Z → C (ext W) Z;
  mySqlite3PagerGetCodec : ptr → C (ext W) (option Z);
  (** the codec, with the callbacks of this file, or nothing at all *)
  mySqlite3PagerSetCodec : ptr → option Z → C (ext W) unit;
  sqlite3PagerPagecount : ptr → C (ext W) Z;
  sqlite3PagerGet : ptr → Z → C (ext W) (Z * ptr);
  sqlite3PagerWrite : ptr → C (ext W) Z;
  sqlite3PagerUnref : ptr → C (ext W) unit;
  PENDING_BYTE : Z
}.

Section extension.
Context {W : Type} `{UteeVfs W, TeeCrypto W, TeeMalloc, TaLog, Sqlite W}.
Context (SQLITE_MAX_PAGE_SIZE : Z).
Implicit Types (codec : option Z).

(** *** Access to the state *)

(** The contents of a codec: [NULL] and freed codecs cannot be read. *)
Definition codec_at codec : C (ext W) Codec :=
  let! p := lift codec in
  λ s, lift (e_codecs s !! p) s.
Definition set_codec codec (c : Codec) : C (ext W) unit :=
  let! p := lift codec in
  modify (λ s, Ext (e_mem s) (e_world s) (<[p := c]> (e_codecs s)) (e_tag s) (e_db s)).
Definition on_codec codec (f : Codec → Codec) : C (ext W) unit :=
  let! c := codec_at codec in set_codec codec (f c).

(** A function of codec.c. *)
Definition in_app {A} (m : C (mem * W) A) : C (ext W) A :=
  zoom (λ s, (e_mem s, e_world s))
    (λ mw s, Ext mw.1 mw.2 (e_codecs s) (e_tag s) (e_db s)) m.
Definition in_memory {A} (m : C mem A) : C (ext W) A := in_app (in_heap m).
Definition set_tag_map (t : option hashmap) : C (ext W) unit :=
  modify (λ s, Ext (e_mem s) (e_world s) (e_codecs s) t (e_db s)).

Definition aDb (i : Z) : C (ext W) Db :=
  λ s, (if decide (0 ≤ i) then lift (e_db s !! Z.to_nat i) else undef) s.

(** *** Callbacks of the pager *)

Definition sqlite3CodecFree (pCodecArg : option Z) : C (ext W) unit :=
  match pCodecArg with Some p => sqlite3_free_codec p | None => ret tt end.

Definition sqlite3CodecSizeChange (pArg : option Z) (pageSize reservedSize : Z) : C (ext W) unit :=
  ret tt.

Definition decrypt_page codec (data : ptr) (nPageNum pageSize : Z) : C (ext W) unit :=
  let! c := codec_at codec in
  let! tag := gets e_tag in
  let! c := in_app (CodecDecrypt SQLITE_MAX_PAGE_SIZE c (s32 nPageNum) data pageSize tag) in
  set_codec codec c.

(** Into the codec's own page buffer, which is returned. *)
Definition encrypt_page codec (data : ptr) (nPageNum pageSize useWriteKey : Z) : C (ext W) ptr :=
  let! c := codec_at codec in
  let pageBuffer := CodecGetPageBuffer c in
  do! in_memory (memcpy pageBuffer data (u64 pageSize)) in
  let! tag := gets e_tag in
  let! '(c, tag) := in_app (CodecEncrypt c (s32 nPageNum) pageBuffer pageSize useWriteKey tag) in
  do! set_codec codec c in
  do! set_tag_map tag in
  ret pageBuffer.

Definition sqlite3Codec (pCodecArg : option Z) (data : ptr) (nPageNum nMode : Z) : C (ext W) ptr :=
  if decide (pCodecArg = None) then ret data
  else
    let! c := codec_at pCodecArg in
    if decide (CodecIsEncrypted c = 0) then ret data
    else
      let! pageSize := sqlite3BtreeGetPageSize (CodecGetBtree c) in
      if decide (nMode = 0 ∨ nMode = 2 ∨ nMode = 3) then
        if decide (CodecHasReadKey c ≠ 0) then
          do! decrypt_page pCodecArg data nPageNum pageSize in ret data
        else ret data
      else if decide (nMode = 6) then
        if decide (CodecHasWriteKey c ≠ 0) then encrypt_page pCodecArg data nPageNum pageSize 1
        else ret data
      else if decide (nMode = 7) then
        if decide (CodecHasReadKey c ≠ 0) then encrypt_page pCodecArg data nPageNum pageSize 0
        else ret data
      else ret data.

(** *** Attaching a key *)

Definition sqlite3CodecAttach (nDb : Z) (zKey : ptr) (nKey : Z) : C (ext W) Z :=
  let! codec := sqlite3_malloc_codec in
  do! on_codec codec CodecInit in
  do! sqlite3_mutex_enter in
  do! (if decide (zKey = NULL ∨ nKey ≤ 0) then
         if decide (nDb ≠ 0 ∧ nKey > 0) then
           let! db0 := aDb 0 in
           let! pager := sqlite3BtreePager (pBt db0) in
           let! mainCodec := mySqlite3PagerGetCodec pager in
           let! encrypted := (match mainCodec with
                              | None => ret 0
                              | Some _ => let! c := codec_at mainCodec in ret (CodecIsEncrypted c)
                              end) in
           if decide (encrypted ≠ 0) then
             let! main := codec_at mainCodec in
             do! on_codec codec (λ c, CodecCopy c main) in
             let! db := aDb nDb in
             do! on_codec codec (λ c, CodecSetBtree c (pBt db)) in
             let! pager := sqlite3BtreePager (pBt db) in
             mySqlite3PagerSetCodec pager codec
           else
             do! on_codec codec (λ c, CodecSetIsEncrypted c 0) in
             sqlite3CodecFree codec
         else ret tt
       else
         do! on_codec codec (λ c, CodecSetIsEncrypted c 1) in
         do! on_codec codec (λ c, CodecSetHasReadKey c 1) in
         do! on_codec codec (λ c, CodecSetHasWriteKey c 1) in
         let! c := codec_at codec in
         let! c := in_memory (CodecGenerateReadKey c zKey nKey) in
         do! set_codec codec c in
         do! on_codec codec (λ c, CodecCopyKey c 1) in
         let! db := aDb nDb in
         do! on_codec codec (λ c, CodecSetBtree c (pBt db)) in
         let! pager := sqlite3BtreePager (pBt db) in
         mySqlite3PagerSetCodec pager codec) in
  do! sqlite3_mutex_leave in
  ret SQLITE_OK.

(** What is stored at [*zKey] and [*nKey]. *)
Definition sqlite3CodecGetKey (nDb : Z) : C (ext W) (ptr * Z) :=
  let! db0 := aDb 0 in
  let! pager := sqlite3BtreePager (pBt db0) in
  let! mainCodec := mySqlite3PagerGetCodec pager in
  let! keylen := (match mainCodec with
                  | None => ret 0
                  | Some _ => let! c := codec_at mainCodec in
                              ret (if decide (CodecIsEncrypted c ≠ 0) then 1 else 0)
                  end) in
  ret (NULL, keylen).

(** [for (index = 0; found == 0 && index < db->nDb; ++index)]. *)
Fixpoint find_db (zDb : bytes) (l : list Db) (index : Z) : option Z :=
  match l with
  | [] => None
  | pDb :: l => if decide (zName pDb = zDb) then Some index else find_db zDb l (index + 1)
  end.

Definition dbFindIndex (zDb : option bytes) : C (ext W) Z :=
  gets (λ s, match zDb with
             | None => 0
             | Some z => default 0 (find_db z (e_db s) 0)
             end).

(** ["main"] *)
Definition main_name : bytes := [109; 97; 105; 110].

Definition sqlite3_key_v2 (zDbName : option bytes) (zKey : ptr) (nKey : Z) : C (ext W) Z :=
  let! dbIndex := dbFindIndex zDbName in
  sqlite3CodecAttach dbIndex zKey nKey.

Definition sqlite3_key (zKey : ptr) (nKey : Z) : C (ext W) Z :=
  sqlite3_key_v2 (Some main_name) zKey nKey.

(** *** Changing the key *)

Definition WX_PAGER_MJ_PGNO (x : Z) : C (ext W) Z :=
  do! c_assert (bool_decide (x ≠ 0)) in ret (u32 (Z.quot PENDING_BYTE x + 1)).

(** [for (n = 1; rc == SQLITE_OK && n <= nPage; n++)], with [todo] pages left. *)
Fixpoint rewrite_pages (todo : nat) (n : Z) (pPager : ptr) (nSkip rc : Z) : C (ext W) Z :=
  match todo with
  | O => ret rc
  | S todo =>
      if decide (rc ≠ SQLITE_OK) then ret rc
      else if decide (n = nSkip) then rewrite_pages todo (n + 1) pPager nSkip rc
      else
        let! '(rc, pPage) := sqlite3PagerGet pPager n in
        if decide (rc = 0) then
          let! rc := sqlite3PagerWrite pPage in
          do! sqlite3PagerUnref pPage in
          rewrite_pages todo (n + 1) pPager nSkip rc
        else rewrite_pages todo (n + 1) pPager nSkip rc
  end.

(** The transaction that writes every page again.  A page count of [2^32 - 1]
    would make the loop endless. *)
Definition rewrite_database (pbt pPager : ptr) : C (ext W) Z :=
  do! sqlite3_mutex_enter in
  let! rc := sqlite3BtreeBeginTrans pbt 1 in
  let! rc :=
    (if decide (rc = 0) then
       let! pageSize := sqlite3BtreeGetPageSize pbt in
       let! nSkip := WX_PAGER_MJ_PGNO pageSize in
       let! nPageCount := sqlite3PagerPagecount pPager in
       let nPage := u32 nPageCount in
       do! c_assert (bool_decide (nPage < 2 ^ 32 - 1)) in
       rewrite_pages (Z.to_nat nPage) 1 pPager nSkip rc
     else ret rc) in
  let! rc := (if decide (rc = SQLITE_OK) then sqlite3BtreeCommit pbt else ret rc) in
  do! (if decide (rc ≠ SQLITE_OK) then
         let! _ := sqlite3BtreeRollback pbt SQLITE_OK in ret tt
       else ret tt) in
  do! sqlite3_mutex_leave in
  ret rc.

(** The keys before the pages are written again: a codec for a database that had
    none, no write key to decrypt, or a new write key. *)
Definition prepare_keys codec (pbt pPager : ptr) (encrypted : bool) (zKey : ptr) (nKey : Z)
    : C (ext W) (option Z) :=
  if negb encrypted then
    let! codec := (match codec with
                   | None => let! codec := sqlite3_malloc_codec in
                             do! on_codec codec CodecInit in ret codec
                   | Some _ => ret codec
                   end) in
    do! on_codec codec (λ c, CodecSetIsEncrypted c 1) in
    do! on_codec codec (λ c, CodecSetHasReadKey c 0) in
    do! on_codec codec (λ c, CodecSetHasWriteKey c 1) in
    let! c := codec_at codec in
    let! c := in_memory (CodecGenerateWriteKey c zKey nKey) in
    do! set_codec codec c in
    do! on_codec codec (λ c, CodecSetBtree c pbt) in
    do! mySqlite3PagerSetCodec pPager codec in
    ret codec
  else if decide (zKey = NULL ∨ nKey = 0) then
    do! on_codec codec (λ c, CodecSetHasWriteKey c 0) in ret codec
  else
    let! c := codec_at codec in
    let! c := in_memory (CodecGenerateWriteKey c zKey nKey) in
    do! set_codec codec c in
    do! on_codec codec (λ c, CodecSetHasWriteKey c 1) in
    ret codec.

(** The keys afterwards. *)
Definition settle_keys codec (rc : Z) : C (ext W) unit :=
  let! c := codec_at codec in
  if decide (rc = SQLITE_OK) then
    if decide (CodecHasWriteKey c ≠ 0) then
      do! on_codec codec (λ c, CodecCopyKey c 0) in
      on_codec codec (λ c, CodecSetHasReadKey c 1)
    else on_codec codec (λ c, CodecSetIsEncrypted c 0)
  else if decide (CodecHasReadKey c ≠ 0) then on_codec codec (λ c, CodecCopyKey c 1)
  else on_codec codec (λ c, CodecSetIsEncrypted c 0).

Definition is_encrypted codec : C (ext W) bool :=
  match codec with
  | None => ret false
  | Some _ => let! c := codec_at codec in ret (bool_decide (CodecIsEncrypted c ≠ 0))
  end.

Definition sqlite3_rekey_v2 (zDbName : option bytes) (zKey : ptr) (nKey : Z) : C (ext W) Z :=
  let! dbIndex := dbFindIndex zDbName in
  let! db := aDb dbIndex in
  let pbt := pBt db in
  let! pPager := sqlite3BtreePager pbt in
  let! codec := mySqlite3PagerGetCodec pPager in
  let! encrypted := is_encrypted codec in
  if decide ((zKey = NULL ∨ nKey = 0) ∧ encrypted = false) then ret SQLITE_OK
  else
    let! codec := prepare_keys codec pbt pPager encrypted zKey nKey in
    let! rc := rewrite_database pbt pPager in
    do! settle_keys codec rc in
    let! still := is_encrypted codec in
    do! (if still : bool then ret tt else mySqlite3PagerSetCodec pPager None) in
    ret rc.

Definition sqlite3_rekey (zKey : ptr) (nKey : Z) : C (ext W) Z :=
  sqlite3_rekey_v2 (Some main_name) zKey nKey.
End extension.

(** * What the extension promises

[keys_of c]: the flags, the keys and the B-tree of a codec: everything but the
handles that encryption leaves behind.  [same_keys s s']: every codec of [s] is
still there with the same keys, and the connection is the same. *)
Definition keys_of (c : Codec) : Z * Z * bytes * Z * bytes * ptr :=
  (m_isEncrypted c, m_hasReadKey c, m_readKey c, m_hasWriteKey c, m_writeKey c, m_bt c).

Definition same_keys {W} (s s' : ext W) : Prop :=
  e_db s' = e_db s ∧
  ∀ p c, e_codecs s !! p = Some c → ∃ c', e_codecs s' !! p = Some c' ∧ keys_of c' = keys_of c.

#[export] Instance same_keys_preorder {W} : PreOrder (same_keys (W:=W)).
Proof.
  split; [by split; eauto|]. intros s1 s2 s3 [D1 K1] [D2 K2]. split; [by rewrite D2|].
  intros p c Hc. destruct (K1 p c Hc) as (c1 & Hc1 & E1). destruct (K2 p c1 Hc1) as (c2 & Hc2 & E2).
  exists c2. by rewrite E2.
Qed.

(** What SQLite promises: it finds what was set, and reaches a codec only through
    the callbacks of this file, which keep its keys.  Memory may run out; and what
    reads or writes pages calls those callbacks, which need not return, so nothing is
    said but of runs that do. *)
Class SqliteLaws (W : Type) `{Sqlite W} : Prop := {
  malloc_law (s : ext W) : ∃ o s', sqlite3_malloc_codec s = Ret (o, s') ∧
    match o with
    | None => True
    | Some p => ∃ c, s' = Ext (e_mem s) (e_world s) (<[p := c]> (e_codecs s)) (e_tag s) (e_db s) ∧
        e_codecs s !! p = None ∧ length (m_readKey c) = 16%nat ∧ length (m_writeKey c) = 16%nat
    end;
  enter_law (s : ext W) : ∃ s', sqlite3_mutex_enter s = Ret (tt, s') ∧ same_keys s s' ∧ e_mem s' = e_mem s ∧
    ∀ pager p, mySqlite3PagerGetCodec pager s = Ret (p, s) → mySqlite3PagerGetCodec pager s' = Ret (p, s');
  leave_law (s : ext W) : ∃ s', sqlite3_mutex_leave s = Ret (tt, s') ∧ same_keys s s' ∧
    ∀ pager p, mySqlite3PagerGetCodec pager s = Ret (p, s) → mySqlite3PagerGetCodec pager s' = Ret (p, s');
  (** the pager of a B-tree never changes, and its codec is in the world *)
  pager_law bt : ∃ pager, ∀ s : ext W, sqlite3BtreePager bt s = Ret (pager, s);
  get_codec_law pager p (s s' : ext W) :
    e_world s' = e_world s → mySqlite3PagerGetCodec pager s = Ret (p, s) →
    mySqlite3PagerGetCodec pager s' = Ret (p, s');
  page_size_law bt (s : ext W) : ∃ n, sqlite3BtreeGetPageSize bt s = Ret (n, s) ∧ n ≠ 0;
  page_count_law pager (s : ext W) :
    ∃ n, sqlite3PagerPagecount pager s = Ret (n, s) ∧ 0 ≤ n < 2 ^ 31;
  begin_law bt n (s : ext W) rc s' : sqlite3BtreeBeginTrans bt n s = Ret (rc, s') → same_keys s s';
  commit_law bt (s : ext W) rc s' : sqlite3BtreeCommit bt s = Ret (rc, s') → same_keys s s';
  rollback_law bt n (s : ext W) rc s' : sqlite3BtreeRollback bt n s = Ret (rc, s') → same_keys s s';
  get_page_law pager n (s : ext W) r s' : sqlite3PagerGet pager n s = Ret (r, s') → same_keys s s';
  write_page_law page (s : ext W) rc s' : sqlite3PagerWrite page s = Ret (rc, s') → same_keys s s';
  unref_law page (s : ext W) r s' : sqlite3PagerUnref page s = Ret (r, s') → same_keys s s';
  (** a pager that has no codec yet *)
  set_codec_law pager p (s : ext W) :
    mySqlite3PagerGetCodec pager s = Ret (None, s) →
    ∃ s', mySqlite3PagerSetCodec pager p s = Ret (tt, s') ∧ same_keys s s' ∧
      mySqlite3PagerGetCodec pager s' = Ret (p, s')
}.

(** ** Running on one codec *)
Section codec_runs.
Context {W : Type}.
Implicit Types (s : ext W) (c : Codec) (p : Z).

Definition with_codec s p c : ext W :=
  Ext (e_mem s) (e_world s) (<[p := c]> (e_codecs s)) (e_tag s) (e_db s).

Lemma codec_at_run s p c : e_codecs s !! p = Some c → codec_at (Some p) s = Ret (c, s).
Proof. intros Hc. unfold codec_at, bind, lift. by rewrite Hc. Qed.

Lemma set_codec_run s p c : set_codec (Some p) c s = Ret (tt, with_codec s p c).
Proof. done. Qed.

Lemma on_codec_run s p c f : e_codecs s !! p = Some c → on_codec (Some p) f s = Ret (tt, with_codec s p (f c)).
Proof. intros Hc. unfold on_codec. by rewrite (bind_run _ _ _ _ _ (codec_at_run _ _ _ Hc)). Qed.

Lemma with_codec_at s p c : e_codecs (with_codec s p c) !! p = Some c.
Proof. apply lookup_insert_eq. Qed.

Lemma with_codec_twice s p c c' : with_codec (with_codec s p c) p c' = with_codec s p c'.
Proof. unfold with_codec. simpl. by rewrite insert_insert_eq. Qed.

(** Reading a key from the caller's memory. *)
Lemma in_memory_key s (f : Codec → bytes → Codec) c zKey k :
  peek (e_mem s) zKey 16 = Some k →
  in_memory (let! key := load zKey KEYLENGTH in ret (f c key)) s = Ret (f c k, s).
Proof.
  intros Hk. unfold in_memory, in_app, zoom, in_heap. unfold zoom. simpl.
  unfold bind, load, lift. unfold KEYLENGTH. rewrite Hk. by destruct s.
Qed.

Lemma in_memory_no_key s (f : Codec → bytes → Codec) c zKey :
  peek (e_mem s) zKey 16 = None → in_memory (let! key := load zKey KEYLENGTH in ret (f c key)) s = Undef.
Proof. intros Hk. unfold in_memory, in_app, zoom, in_heap, zoom. simpl. unfold bind, load, lift, KEYLENGTH. by rewrite Hk. Qed.

Lemma copy_array_whole dst src :
  length dst = 16%nat → length src = 16%nat → copy_array KEYLENGTH dst src = src.
Proof.
  intros Hd Hs. unfold copy_array, KEYLENGTH. rewrite take_ge, drop_ge by lia. apply app_nil_r.
Qed.
End codec_runs.

(** ** The transaction *)
Section transaction.
Context {W : Type} `{UteeVfs W, TeeCrypto W, TeeMalloc, TaLog, SqliteLaws W}.
Implicit Types (s : ext W).

(** [preserves m]: when [m] returns, every codec has kept its keys. *)
Definition preserves {A} (m : C (ext W) A) : Prop := ∀ s a s', m s = Ret (a, s') → same_keys s s'.

Lemma preserves_ret {A} (a : A) : preserves (ret a).
Proof. by intros s b s' [= _ <-]. Qed.

Lemma preserves_bind {A B} (m : C (ext W) A) (k : A → C (ext W) B) :
  preserves m → (∀ a, preserves (k a)) → preserves (bind m k).
Proof.
  intros Hm Hk s b s' (a & s1 & E1 & E2)%bind_inv. transitivity s1; [by eapply Hm|by eapply Hk].
Qed.

Lemma preserves_total {A} (m : C (ext W) A) :
  (∀ s, ∃ a s', m s = Ret (a, s') ∧ same_keys s s') → preserves m.
Proof. intros Hm s a s' E. destruct (Hm s) as (b & s2 & E2 & K). rewrite E in E2. by injection E2 as _ ->. Qed.

Lemma preserves_assert b : preserves (c_assert b).
Proof. destruct b; [apply preserves_ret|done]. Qed.

Lemma preserves_enter : preserves sqlite3_mutex_enter.
Proof. apply preserves_total. intros s. destruct (enter_law s) as (s' & ? & ? & _). by eexists _, s'. Qed.
Lemma preserves_leave : preserves sqlite3_mutex_leave.
Proof. apply preserves_total. intros s. destruct (leave_law s) as (s' & ? & ? & _). by eexists _, s'. Qed.
Lemma preserves_size bt : preserves (sqlite3BtreeGetPageSize bt).
Proof. apply preserves_total. intros s. destruct (page_size_law bt s) as (n & ? & _). by exists n, s. Qed.
Lemma preserves_count pager : preserves (sqlite3PagerPagecount pager).
Proof. apply preserves_total. intros s. destruct (page_count_law pager s) as (n & ? & _). by exists n, s. Qed.

Lemma rewrite_pages_keys todo n pager nSkip rc : preserves (rewrite_pages todo n pager nSkip rc).
Proof.
  revert n rc. induction todo as [|todo IH]; intros n rc; simpl; [apply preserves_ret|].
  case_decide; [apply preserves_ret|]. case_decide; [apply IH|].
  apply preserves_bind; [intros s r s'; apply get_page_law|]. intros [rc1 page]. case_decide; [|apply IH].
  apply preserves_bind; [intros s r s'; apply write_page_law|]. intros rc2.
  apply preserves_bind; [intros s r s'; apply unref_law|]. intros _. apply IH.
Qed.

(** When rewriting the database returns, it has kept the keys. *)
Lemma rewrite_database_keys bt pager : preserves (rewrite_database bt pager).
Proof.
  unfold rewrite_database. apply preserves_bind; [apply preserves_enter|]. intros _.
  apply preserves_bind; [intros s r s'; apply begin_law|]. intros rc. apply preserves_bind.
  { case_decide; [|apply preserves_ret]. apply preserves_bind; [apply preserves_size|]. intros n.
    unfold WX_PAGER_MJ_PGNO. apply preserves_bind.
    { apply preserves_bind; [apply preserves_assert|]. intros _. apply preserves_ret. }
    intros skip. apply preserves_bind; [apply preserves_count|]. intros np. cbv zeta.
    apply preserves_bind; [apply preserves_assert|]. intros _. apply rewrite_pages_keys. }
  intros rc1. apply preserves_bind; [case_decide; [intros s r s'; apply commit_law|apply preserves_ret]|].
  intros rc2. apply preserves_bind.
  { case_decide; [|apply preserves_ret]. apply preserves_bind; [intros s r s'; apply rollback_law|].
    intros _. apply preserves_ret. }
  intros _. apply preserves_bind; [apply preserves_leave|]. intros _. apply preserves_ret.
Qed.
End transaction.

(** ** What a codec keeps through a page

[yields P m]: whatever [m] returns satisfies [P]. *)
Definition yields {S A} (P : A → Prop) (m : C S A) : Prop := ∀ s a s', m s = Ret (a, s') → P a.

Section yields.
Context {S A B : Type}.

Lemma yields_ret (P : A → Prop) a : P a → yields (S:=S) P (ret a).
Proof. by intros Ha s b s' [= <- _]. Qed.

Lemma yields_bind (P : B → Prop) (Q : A → Prop) (m : C S A) (k : A → C S B) :
  yields Q m → (∀ a, Q a → yields P (k a)) → yields P (bind m k).
Proof. intros Hm Hk s b s' E. apply bind_inv in E as (a & s1 & E1 & E2). by eapply Hk, E2; eapply Hm. Qed.

Lemma yields_skip (P : B → Prop) (m : C S A) (k : A → C S B) :
  (∀ a, yields P (k a)) → yields P (bind m k).
Proof. intros Hk. by apply (yields_bind P (λ _, True)). Qed.

Lemma yields_zoom {T} (P : A → Prop) (f : T → S) (g : S → T → T) (m : C S A) :
  yields P m → yields P (zoom f g m).
Proof. intros Hm s a s' E. unfold zoom in E. destruct (m (f s)) as [[b t]|] eqn:Em; [|done]. injection E as <- _. by eapply Hm. Qed.
End yields.

Create HintDb yields.
#[export] Hint Resolve yields_ret yields_skip yields_zoom : yields.

Section codec_keys.
Context {W : Type} `{UteeVfs W, TeeCrypto W, TeeMalloc, TaLog}.
Context (max : Z).

Lemma reset_keys c isenc key n : yields (S:=W) (λ c', keys_of c' = keys_of c) (reset c isenc key n).
Proof.
  unfold reset. apply yields_skip. intros _. apply yields_skip. intros [r o]. apply yields_skip. intros _.
  apply yields_skip. intros [r' k]. do 3 (apply yields_skip; intros _). by apply yields_ret.
Qed.

Lemma CodecAES_keys c page ty enc key p1 n p2 p3 u :
  yields (S:=mem * W) (λ c', keys_of c' = keys_of c) (CodecAES c page ty enc key p1 n p2 p3 u).
Proof.
  unfold CodecAES. apply yields_skip; intros b1. apply yields_skip; intros _. apply yields_skip; intros b2.
  apply yields_skip; intros _. apply yields_skip; intros b3. apply yields_skip; intros _.
  apply (yields_bind _ (λ c', keys_of c' = keys_of c)).
  - case_decide; [by apply yields_ret|]. case_decide; unfold seal_data, open_data.
    + eapply yields_bind; [apply yields_zoom, reset_keys|]. intros c' Hc'. apply yields_skip; intros src.
      apply yields_skip; intros [[rc dst] tag]. do 3 (apply yields_skip; intros _). by apply yields_ret.
    + eapply yields_bind; [apply yields_zoom, reset_keys|]. intros c' Hc'. apply yields_skip; intros _.
      apply yields_skip; intros src. apply yields_skip; intros tag. apply yields_skip; intros [rc dst].
      apply yields_skip; intros _. by apply yields_ret.
  - intros c' Hc'. do 3 (apply yields_skip; intros _). by apply yields_ret.
Qed.

Lemma CodecDecrypt_keys c page p n t :
  yields (S:=mem * W) (λ c', keys_of c' = keys_of c) (CodecDecrypt max c page p n t).
Proof.
  unfold CodecDecrypt. apply yields_skip; intros a. apply yields_skip; intros b. apply yields_skip; intros [offset hd].
  apply yields_skip; intros tmp. do 2 (apply yields_skip; intros _). apply yields_skip; intros pg.
  eapply yields_bind; [apply CodecAES_keys|]. intros c' Hc'. do 3 (apply yields_skip; intros _). by apply yields_ret.
Qed.

Lemma CodecEncrypt_keys c page p n u t :
  yields (S:=mem * W) (λ r, keys_of r.1 = keys_of c) (CodecEncrypt c page p n u t).
Proof.
  unfold CodecEncrypt. apply yields_skip; intros a. apply yields_skip; intros b.
  apply (yields_bind _ (λ r, keys_of r.1.1.1 = keys_of c)).
  - case_decide; [|by apply yields_ret]. apply yields_skip; intros hd.
    eapply yields_bind; [apply CodecAES_keys|]. intros c' Hc'. apply yields_skip; intros ph.
    apply yields_skip; intros _. apply yields_skip; intros tg. apply yields_skip; intros _. by apply yields_ret.
  - intros [[[c1 t1] offset] hd] Hc1. simpl in Hc1.
    eapply yields_bind; [apply CodecAES_keys|]. intros c' Hc'. apply yields_skip; intros tg.
    apply yields_skip; intros _. apply yields_skip; intros pg. do 3 (apply yields_skip; intros _). apply yields_ret. simpl. congruence.
Qed.
End codec_keys.

Section callbacks.
Context {W : Type} `{UteeVfs W, TeeCrypto W, TeeMalloc, TaLog, SqliteLaws W}.
Context (max : Z).
Implicit Types (s : ext W).

Lemma in_app_inv {A} (P : A → Prop) (m : C (mem * W) A) s a s' :
  yields P m → in_app m s = Ret (a, s') → P a ∧ e_codecs s' = e_codecs s ∧ e_db s' = e_db s.
Proof.
  intros Hm E. unfold in_app, zoom in E. destruct (m _) as [[b t]|] eqn:Em; [|done]. injection E as <- <-.
  split; [by eapply Hm|done].
Qed.

Lemma codec_at_inv codec s c s' :
  codec_at codec s = Ret (c, s') → s' = s ∧ ∃ p, codec = Some p ∧ e_codecs s !! p = Some c.
Proof.
  unfold codec_at, bind, lift. destruct codec as [p|]; [|done]. destruct (e_codecs s !! p) eqn:Ec; [|done].
  intros [= -> ->]. eauto.
Qed.

(** Replacing a codec by one with the same keys. *)
Lemma same_keys_set p c c' s s' :
  e_codecs s !! p = Some c → keys_of c' = keys_of c →
  e_codecs s' = <[p := c']> (e_codecs s) → e_db s' = e_db s → same_keys s s'.
Proof.
  intros Hp Hk Hs Hd. split; [done|]. intros q d Hq. rewrite Hs. destruct (decide (q = p)) as [->|Hne].
  - exists c'. rewrite lookup_insert_eq. split; [done|]. congruence.
  - exists d. by rewrite lookup_insert_ne.
Qed.

Lemma decrypt_page_keys codec data n size s r s' :
  decrypt_page max codec data n size s = Ret (r, s') → same_keys s s'.
Proof.
  intros E. unfold decrypt_page in E. apply bind_inv in E as (c & s1 & E1 & E).
  apply codec_at_inv in E1 as (-> & p & -> & Hp). apply bind_inv in E as (t & s2 & [= <- <-] & E).
  apply bind_inv in E as (c' & s3 & E3 & E). eapply in_app_inv in E3 as (Hk & Hc & Hd); [|apply CodecDecrypt_keys].
  injection E as _ <-. eapply same_keys_set; [exact Hp|exact Hk|simpl; by rewrite Hc|done].
Qed.

Lemma encrypt_page_keys codec data n size u s r s' :
  encrypt_page codec data n size u s = Ret (r, s') → same_keys s s'.
Proof.
  intros E. unfold encrypt_page in E. apply bind_inv in E as (c & s1 & E1 & E).
  apply codec_at_inv in E1 as (-> & p & -> & Hp). apply bind_inv in E as ([] & s2 & E2 & E).
  eapply (in_app_inv (λ _, True)) in E2 as (_ & Hc2 & Hd2); [|done]. apply bind_inv in E as (t & s3 & [= <- <-] & E).
  apply bind_inv in E as ([c' t'] & s4 & E4 & E). eapply in_app_inv in E4 as (Hk & Hc & Hd); [|apply CodecEncrypt_keys].
  simpl in Hk. injection E as _ <-. eapply same_keys_set; [exact Hp|exact Hk|simpl; by rewrite Hc, Hc2|simpl; by rewrite Hd].
Qed.

(** The callback of the pager keeps every key.  Whatever page SQLite passes
    to [sqlite3Codec], in whatever mode, all codecs keep their flags and keys
    and the connection is unchanged; a page of a database without a codec, or
    with one that is not encrypted, is handed back as it is. *)
Theorem sqlite3Codec_keeps_keys codec data n mode s :
  (∀ r s', sqlite3Codec max codec data n mode s = Ret (r, s') → same_keys s s') ∧
  (codec = None → sqlite3Codec max codec data n mode s = Ret (data, s)) ∧
  (∀ p c, codec = Some p → e_codecs s !! p = Some c → CodecIsEncrypted c = 0 →
     sqlite3Codec max codec data n mode s = Ret (data, s)).
Proof.
  split; [|split].
  - intros r s' E. unfold sqlite3Codec in E. case_decide; [by injection E as _ <-|].
    apply bind_inv in E as (c & s1 & E1 & E). apply codec_at_inv in E1 as (-> & _).
    case_decide; [by injection E as _ <-|]. apply bind_inv in E as (size & s2 & E2 & E).
    destruct (page_size_law (CodecGetBtree c) s) as (n' & E2' & _). rewrite E2 in E2'. injection E2' as _ ->.
    repeat case_decide; try (by injection E as _ <-); try by eapply encrypt_page_keys.
    apply bind_inv in E as (? & s3 & E3 & E). injection E as _ <-. by eapply decrypt_page_keys.
  - by intros ->.
  - intros p c -> Hc Hz. unfold sqlite3Codec. rewrite decide_False by done.
    rewrite (bind_run _ _ _ _ _ (codec_at_run _ _ _ Hc)). by rewrite decide_True.
Qed.
End callbacks.

(** ** Keys *)
Section rekey.
Context {W : Type} `{UteeVfs W, TeeCrypto W, TeeMalloc, TaLog, SqliteLaws W}.
Context (max : Z).
Implicit Types (s : ext W).

Lemma keys_of_eq c c' :
  keys_of c' = keys_of c →
  m_isEncrypted c' = m_isEncrypted c ∧ m_hasReadKey c' = m_hasReadKey c ∧ m_readKey c' = m_readKey c ∧
  m_hasWriteKey c' = m_hasWriteKey c ∧ m_writeKey c' = m_writeKey c.
Proof. unfold keys_of. intros [= -> -> -> -> -> _]. done. Qed.

(** A database whose pager has an encrypted codec. *)
Definition encrypted_db s (zDb : option bytes) (i : Z) (db : Db) (pager : ptr) (p : Z) (c : Codec) : Prop :=
  dbFindIndex zDb s = Ret (i, s) ∧ aDb i s = Ret (db, s) ∧
  sqlite3BtreePager (pBt db) s = Ret (pager, s) ∧ mySqlite3PagerGetCodec pager s = Ret (Some p, s) ∧
  e_codecs s !! p = Some c ∧ m_isEncrypted c ≠ 0 ∧ m_hasReadKey c ≠ 0 ∧
  length (m_readKey c) = 16%nat ∧ length (m_writeKey c) = 16%nat.

(** Up to the preparation of the keys. *)
Lemma rekey_start zDb zKey nKey s i db pager p c :
  encrypted_db s zDb i db pager p c →
  sqlite3_rekey_v2 zDb zKey nKey s =
    (let! codec := prepare_keys (Some p) (pBt db) pager true zKey nKey in
     let! rc := rewrite_database (pBt db) pager in
     do! settle_keys codec rc in
     let! still := is_encrypted codec in
     do! (if still : bool then ret tt else mySqlite3PagerSetCodec pager None) in
     ret rc) s.
Proof.
  intros (Hi & Hdb & Hpg & Hcd & Hp & Henc & _). unfold sqlite3_rekey_v2.
  rewrite (bind_run _ _ _ _ _ Hi), (bind_run _ _ _ _ _ Hdb), (bind_run _ _ _ _ _ Hpg), (bind_run _ _ _ _ _ Hcd).
  assert (is_encrypted (Some p) s = Ret (true, s)) as He.
  { unfold is_encrypted. rewrite (bind_run _ _ _ _ _ (codec_at_run _ _ _ Hp)).
    unfold CodecIsEncrypted. by rewrite bool_decide_true. }
  rewrite (bind_run _ _ _ _ _ He). by rewrite decide_False by naive_solver.
Qed.

(** The end of [sqlite3_rekey_v2] when the codec stays encrypted. *)
Lemma rekey_stays p rc s s' pager c :
  settle_keys (Some p) rc s = Ret (tt, s') → e_codecs s' !! p = Some c → m_isEncrypted c ≠ 0 →
  (do! settle_keys (Some p) rc in
   let! still := is_encrypted (Some p) in
   do! (if still : bool then ret tt else mySqlite3PagerSetCodec pager None) in
   ret rc) s = Ret (rc, s').
Proof.
  intros E Hc Henc. rewrite (bind_run _ _ _ _ _ E). unfold is_encrypted.
  rewrite bind_bind, (bind_run _ _ _ _ _ (codec_at_run _ _ _ Hc)), bind_ret_l.
  unfold CodecIsEncrypted. by rewrite bool_decide_true.
Qed.

(** What [prepare_keys] makes of the codec when there is a new key. *)
Definition with_write_key (c : Codec) (k : bytes) : Codec :=
  CodecSetHasWriteKey (set_keys c (m_readKey c) k) 1.

(** The rest of [sqlite3_rekey_v2] on an encrypted database, from the transaction. *)
Lemma rekey_from_transaction zDb zKey nKey s i db pager p c c1 :
  encrypted_db s zDb i db pager p c →
  prepare_keys (Some p) (pBt db) pager true zKey nKey s = Ret (Some p, with_codec s p c1) →
  m_isEncrypted c1 ≠ 0 →
  match rewrite_database (pBt db) pager (with_codec s p c1) with
  | Undef => sqlite3_rekey_v2 zDb zKey nKey s = Undef
  | Ret (rc, s2) => ∃ c2, e_codecs s2 !! p = Some c2 ∧ keys_of c2 = keys_of c1 ∧
      ∀ c3, settle_keys (Some p) rc s2 = Ret (tt, with_codec s2 p c3) → m_isEncrypted c3 ≠ 0 →
        sqlite3_rekey_v2 zDb zKey nKey s = Ret (rc, with_codec s2 p c3)
  end.
Proof.
  intros Hdb E1 He. rewrite (rekey_start _ _ _ _ _ _ _ _ _ Hdb), (bind_run _ _ _ _ _ E1).
  destruct (rewrite_database _ _ _) as [[rc s2]|] eqn:E2; [|by apply bind_undef].
  destruct (rewrite_database_keys _ _ _ _ _ E2) as [_ K2].
  destruct (K2 p c1 (with_codec_at _ _ _)) as (c2 & Hc2 & Hkeys). exists c2. do 2 (split; [done|]).
  intros c3 E3 He3. rewrite (bind_run _ _ _ _ _ E2). by eapply rekey_stays; [exact E3|apply with_codec_at|].
Qed.

(** C17: changing the key of an encrypted database.  With a new key in place as the
    write key, [sqlite3_rekey_v2] has SQLite write every page again in a
    transaction, in which SQLite calls [sqlite3Codec] back.  It returns exactly when
    that transaction does, and with its code: when it succeeds, both keys are the
    first sixteen bytes of the new one, and when it fails, both are the old read key;
    either way the codec keeps encrypting and decrypting.  (The transaction itself
    does not return once a page is sealed twice or read again in it, see
    [encrypted_page_is_lost].) *)
Theorem sqlite3_rekey_changes_key zDb zKey nKey s i db pager p c k :
  encrypted_db s zDb i db pager p c → zKey ≠ NULL → nKey ≠ 0 → peek (e_mem s) zKey 16 = Some k →
  match rewrite_database (pBt db) pager (with_codec s p (with_write_key c k)) with
  | Undef => sqlite3_rekey_v2 zDb zKey nKey s = Undef
  | Ret (rc, s2) =>
      ∃ s' c', sqlite3_rekey_v2 zDb zKey nKey s = Ret (rc, s') ∧ e_codecs s' !! p = Some c' ∧
        m_isEncrypted c' = m_isEncrypted c ∧ m_hasReadKey c' ≠ 0 ∧ m_hasWriteKey c' = 1 ∧
        m_writeKey c' = (if decide (rc = SQLITE_OK) then k else m_readKey c) ∧ m_readKey c' = m_writeKey c'
  end.
Proof.
  intros Hdb Hz Hn Hk. pose proof Hdb as (_ & _ & _ & _ & Hp & Henc & Hread & Hlr & Hlw).
  pose proof (rekey_from_transaction zDb zKey nKey s i db pager p c (with_write_key c k) Hdb) as Hrun.
  destruct (rewrite_database _ _ _) as [[rc s2]|]; [destruct Hrun as (c2 & Hc2 & Hkeys & Hrun)|apply Hrun];
    try (unfold prepare_keys; cbn [negb]; rewrite decide_False by naive_solver;
      rewrite (bind_run _ _ _ _ _ (codec_at_run _ _ _ Hp));
      rewrite (bind_run _ _ _ _ _ (in_memory_key s (λ c key, set_keys c (m_readKey c) key) c zKey k Hk));
      rewrite (bind_run _ _ _ _ _ (set_codec_run s p _));
      rewrite (bind_run _ _ _ _ _ (on_codec_run _ _ _ _ (with_codec_at _ _ _))); by rewrite with_codec_twice); try done.
  apply keys_of_eq in Hkeys as (He & Hr & Hrk & Hw & Hwk). simpl in He, Hr, Hrk, Hw, Hwk.
  pose proof (peek_length _ _ _ _ Hk) as Hlk.
  set (c3 := if decide (rc = SQLITE_OK) then CodecSetHasReadKey (CodecCopyKey c2 0) 1 else CodecCopyKey c2 1).
  assert (settle_keys (Some p) rc s2 = Ret (tt, with_codec s2 p c3)) as E3.
  { unfold settle_keys, c3. rewrite (bind_run _ _ _ _ _ (codec_at_run _ _ _ Hc2)).
    unfold CodecHasWriteKey, CodecHasReadKey. rewrite Hw, Hr. destruct (decide (rc = SQLITE_OK)).
    - rewrite decide_True by done. rewrite (bind_run _ _ _ _ _ (on_codec_run _ _ _ _ Hc2)).
      rewrite (on_codec_run _ _ _ _ (with_codec_at _ _ _)). by rewrite with_codec_twice.
    - rewrite decide_True by done. by rewrite (on_codec_run _ _ _ _ Hc2). }
  exists (with_codec s2 p c3), c3. split; [|split; [apply with_codec_at|]].
  - apply Hrun; [done|]. unfold c3. case_decide; simpl; by rewrite He.
  - unfold c3. case_decide; simpl; rewrite ?He, ?Hr, ?Hrk, ?Hw, ?Hwk, ?copy_array_whole by lia; by split_and!.
Qed.

(** C18: a failed decryption turns encryption off.  When the key of an encrypted
    database is to be removed but the transaction that writes the pages again fails,
    because it does not start or at any later point, its error is returned and the
    database stays marked as encrypted, but its write key is gone: from then on
    [sqlite3Codec] hands the pages to be written to the database file back as they
    are, in the clear. *)
Theorem failed_decryption_writes_plaintext zDb zKey nKey s i db pager p c :
  encrypted_db s zDb i db pager p c → zKey = NULL ∨ nKey = 0 →
  match rewrite_database (pBt db) pager (with_codec s p (CodecSetHasWriteKey c 0)) with
  | Undef => sqlite3_rekey_v2 zDb zKey nKey s = Undef
  | Ret (rc, s2) => rc ≠ SQLITE_OK →
      ∃ s' c', sqlite3_rekey_v2 zDb zKey nKey s = Ret (rc, s') ∧
        e_codecs s' !! p = Some c' ∧ m_isEncrypted c' ≠ 0 ∧
        ∀ data n, sqlite3Codec max (Some p) data n 6 s' = Ret (data, s')
  end.
Proof.
  intros Hdb Hz. pose proof Hdb as (_ & _ & _ & _ & Hp & Henc & Hread & Hlr & Hlw).
  pose proof (rekey_from_transaction zDb zKey nKey s i db pager p c (CodecSetHasWriteKey c 0) Hdb) as Hrun.
  destruct (rewrite_database _ _ _) as [[rc s2]|]; [destruct Hrun as (c2 & Hc2 & Hkeys & Hrun)|apply Hrun];
    try (unfold prepare_keys; cbn [negb]; rewrite decide_True by done; by rewrite (bind_run _ _ _ _ _ (on_codec_run _ _ _ _ Hp)));
    try done.
  intros Hrc. apply keys_of_eq in Hkeys as (He & Hr & _ & Hw & _). simpl in He, Hr, Hw.
  set (c3 := CodecCopyKey c2 1).
  assert (settle_keys (Some p) rc s2 = Ret (tt, with_codec s2 p c3)) as E3.
  { unfold settle_keys. rewrite (bind_run _ _ _ _ _ (codec_at_run _ _ _ Hc2)), decide_False by done.
    unfold CodecHasReadKey. rewrite Hr, decide_True by done. by rewrite (on_codec_run _ _ _ _ Hc2). }
  assert (m_isEncrypted c3 ≠ 0) as He3 by (simpl; by rewrite He).
  exists (with_codec s2 p c3), c3. split; [by apply Hrun|split; [apply with_codec_at|split; [done|]]].
  intros data n. unfold sqlite3Codec. rewrite decide_False by done.
  rewrite (bind_run _ _ _ _ _ (codec_at_run _ _ _ (with_codec_at _ _ _))). unfold CodecIsEncrypted.
  rewrite decide_False by done.
  destruct (page_size_law (CodecGetBtree c3) (with_codec s2 p c3)) as (size & Es & _).
  rewrite (bind_run _ _ _ _ _ Es). rewrite decide_False by lia. rewrite decide_True by done.
  unfold CodecHasWriteKey. change (m_hasWriteKey c3) with (m_hasWriteKey c2). rewrite Hw. by rewrite decide_False by naive_solver.
Qed.

(** C25: attaching a key.  When [sqlite3_malloc] gives a block for the codec,
    [sqlite3CodecAttach] with a key gives a database that had no codec one that
    encrypts and decrypts with the first sixteen bytes of the key, whatever the
    length that is passed, and installs it in the pager.  (The answer of
    [sqlite3_malloc] is not tested: without memory the null pointer is
    dereferenced.) *)
Theorem sqlite3CodecAttach_installs_key nDb zKey nKey s db pager k p0 s0 :
  sqlite3_malloc_codec s = Ret (Some p0, s0) → zKey ≠ NULL → 0 < nKey → peek (e_mem s) zKey 16 = Some k → 0 ≤ nDb → e_db s !! Z.to_nat nDb = Some db →
  sqlite3BtreePager (pBt db) s = Ret (pager, s) → mySqlite3PagerGetCodec pager s = Ret (None, s) →
  ∃ s' p c, sqlite3CodecAttach nDb zKey nKey s = Ret (SQLITE_OK, s') ∧
    e_codecs s' !! p = Some c ∧ mySqlite3PagerGetCodec pager s' = Ret (Some p, s') ∧
    m_isEncrypted c = 1 ∧ m_hasReadKey c = 1 ∧ m_hasWriteKey c = 1 ∧
    m_readKey c = k ∧ m_writeKey c = k ∧ m_bt c = pBt db ∧ e_db s' = e_db s.
Proof.
  intros Hgives Hz Hn Hk Hi Hdb Hpg Hnone. unfold sqlite3CodecAttach.
  destruct (malloc_law s) as (o & s9 & E0 & Hc). rewrite Hgives in E0. injection E0 as <- <-.
  rename p0 into p. destruct Hc as (c & -> & Hfresh & Hlr & Hlw). rewrite (bind_run _ _ _ _ _ Hgives).
  fold (with_codec s p c). rewrite (bind_run _ _ _ _ _ (on_codec_run _ _ _ _ (with_codec_at _ _ _))), with_codec_twice.
  destruct (enter_law (with_codec s p (CodecInit c))) as (s1 & E1 & [D1 K1] & M1 & G1). rewrite (bind_run _ _ _ _ _ E1).
  destruct (pager_law (pBt db)) as [pager' Hpager]. rewrite Hpager in Hpg. injection Hpg as ->.
  apply (get_codec_law pager None s (with_codec s p (CodecInit c))) in Hnone; [|done].
  apply G1 in Hnone. destruct (K1 p _ (with_codec_at _ _ _)) as (c1 & Hc1 & Hkeys).
  assert (length (m_readKey c1) = 16%nat ∧ length (m_writeKey c1) = 16%nat) as [Hlr1 Hlw1].
  { apply keys_of_eq in Hkeys as (_ & _ & Hr & _ & Hw). by rewrite Hr, Hw. }
  pose proof (peek_length _ _ _ _ Hk) as Hlk.
  rewrite decide_False by (intros [|]; [done|lia]).
  set (c2 := CodecSetHasWriteKey (CodecSetHasReadKey (CodecSetIsEncrypted c1 1) 1) 1).
  set (c5 := CodecSetBtree (CodecCopyKey (set_keys c2 k (m_writeKey c2)) 1) (pBt db)).
  set (s2 := with_codec s1 p c5).
  destruct (set_codec_law pager (Some p) s2) as (s4 & E4 & [D4 K4] & G4).
  { by eapply get_codec_law, Hnone. }
  erewrite bind_run.
  2:{ rewrite (bind_run _ _ _ _ _ (on_codec_run _ _ _ _ Hc1)).
      rewrite (bind_run _ _ _ _ _ (on_codec_run _ _ _ _ (with_codec_at _ _ _))), with_codec_twice.
      rewrite (bind_run _ _ _ _ _ (on_codec_run _ _ _ _ (with_codec_at _ _ _))), with_codec_twice. fold c2.
      rewrite (bind_run _ _ _ _ _ (codec_at_run _ _ _ (with_codec_at _ _ _))).
      assert (peek (e_mem (with_codec s1 p c2)) zKey 16 = Some k) as Hk2 by (simpl; by rewrite M1).
      rewrite (bind_run _ _ _ _ _ (in_memory_key _ (λ c key, set_keys c key (m_writeKey c)) c2 zKey k Hk2)).
      rewrite (bind_run _ _ _ _ _ (set_codec_run _ p _)), with_codec_twice.
      rewrite (bind_run _ _ _ _ _ (on_codec_run _ _ _ _ (with_codec_at _ _ _))), with_codec_twice.
      erewrite (bind_run (aDb nDb)).
      2:{ unfold aDb. rewrite decide_True by done. unfold lift. simpl e_db. rewrite D1. simpl e_db. by rewrite Hdb. }
      rewrite (bind_run _ _ _ _ _ (on_codec_run _ _ _ _ (with_codec_at _ _ _))), with_codec_twice.
      rewrite (bind_run _ _ _ _ _ (Hpager _)). exact E4. }
  destruct (leave_law s4) as (s6 & E6 & [D6 K6] & G6). rewrite (bind_run _ _ _ _ _ E6).
  destruct (K4 p c5 (with_codec_at _ _ _)) as (d4 & Hd4 & Hk4). destruct (K6 p d4 Hd4) as (d6 & Hd6 & Hk6).
  rewrite Hk4 in Hk6. exists s6, p, d6. split; [done|]. split; [done|]. split; [by apply G6, G4|].
  unfold keys_of in Hk6. injection Hk6 as Q1 Q2 Q3 Q4 Q5 Q6. rewrite Q1, Q2, Q3, Q4, Q5, Q6. simpl.
  rewrite copy_array_whole by lia. split_and!; try done.
  rewrite D6, D4. simpl. by rewrite D1.
Qed.

(** A key in an object that ends before sixteen bytes. *)
Lemma attach_short_key nDb zKey nKey s :
  zKey ≠ NULL → 0 < nKey → peek (e_mem s) zKey 16 = None → sqlite3CodecAttach nDb zKey nKey s = Undef.
Proof.
  intros Hz Hn Hk. unfold sqlite3CodecAttach.
  destruct (malloc_law s) as (o & s9 & E0 & Hc). rewrite (bind_run _ _ _ _ _ E0).
  destruct o as [p|]; [|done]. destruct Hc as (c & -> & _). fold (with_codec s p c).
  rewrite (bind_run _ _ _ _ _ (on_codec_run _ _ _ _ (with_codec_at _ _ _))), with_codec_twice.
  destruct (enter_law (with_codec s p (CodecInit c))) as (s1 & E1 & [_ K1] & M1 & _). rewrite (bind_run _ _ _ _ _ E1).
  destruct (K1 p _ (with_codec_at _ _ _)) as (c1 & Hc1 & _). apply bind_undef.
  rewrite decide_False by (intros [|]; [done|lia]).
  rewrite (bind_run _ _ _ _ _ (on_codec_run _ _ _ _ Hc1)).
  rewrite (bind_run _ _ _ _ _ (on_codec_run _ _ _ _ (with_codec_at _ _ _))), with_codec_twice.
  rewrite (bind_run _ _ _ _ _ (on_codec_run _ _ _ _ (with_codec_at _ _ _))), with_codec_twice.
  rewrite (bind_run _ _ _ _ _ (codec_at_run _ _ _ (with_codec_at _ _ _))).
  apply bind_undef, (in_memory_no_key _ (λ c key, set_keys c key (m_writeKey c))). simpl. by rewrite M1.
Qed.

(** C36: a key shorter than sixteen bytes.  Sixteen bytes are copied from the key
    whatever the length that is passed: when the object at [zKey] ends before
    them, [sqlite3_key_v2] is undefined behaviour in every database, on its new
    codec, whatever SQLite answers (and so it is when [sqlite3_malloc] gives no
    codec at all). *)
Theorem short_key_is_undefined zDbName zKey nKey s :
  zKey ≠ NULL → 0 < nKey → peek (e_mem s) zKey 16 = None → sqlite3_key_v2 zDbName zKey nKey s = Undef.
Proof.
  intros Hz Hn Hk. unfold sqlite3_key_v2. erewrite (bind_run (dbFindIndex _)) by reflexivity.
  by apply attach_short_key.
Qed.
End rekey.
