(* ===== verification/ExtExamples.v ===== *)
(** * The codec's extension on concrete data

A SQLite with one pager, whose codec is kept next to the files of the world; all
pages are written without error, but a transaction can be made to fail. *)
From S2P Require Import Prelude CMem Heap TaLog UteeVfs MemFile Gp Pair HashMap Codec CodecExt.
#[local] Open Scope Z_scope.
#[local] Open Scope c_scope.

Definition sq_world : Type := (memfs * option Z) * Toy.crypto.
#[local] Existing Instances Small.always Toy.toy_crypto Toy.toy_laws log_level_4.

Definition blank : Codec :=
  MkCodec 7 7 (replicate 16 0) 7 (replicate 16 0) (replicate 16 0) 0 0 NULL NULL.
Definition set_pager_codec (p : option Z) (w : sq_world) : sq_world := ((w.1.1, p), w.2).

Definition SQLITE_BUSY : Z := 5.

(** Pages of [size] bytes; [busy]: whether transactions fail to start. *)
Definition small_sqlite (size : Z) (busy : bool) : Sqlite sq_world := {|
  sqlite3_malloc_codec := λ s,
    let p := fresh (dom (e_codecs s)) in
    Ret (Some p, Ext (e_mem s) (e_world s) (<[p := blank]> (e_codecs s)) (e_tag s) (e_db s));
  sqlite3_free_codec p :=
    modify (λ s, Ext (e_mem s) (e_world s) (delete p (e_codecs s)) (e_tag s) (e_db s));
  sqlite3_mutex_enter := ret tt;
  sqlite3_mutex_leave := ret tt;
  sqlite3BtreePager bt := ret bt;
  sqlite3BtreeGetPageSize _ := ret size;
  sqlite3BtreeBeginTrans _ _ := ret (if busy then SQLITE_BUSY else SQLITE_OK);
  sqlite3BtreeCommit _ := ret SQLITE_OK;
  sqlite3BtreeRollback _ _ := ret SQLITE_OK;
  mySqlite3PagerGetCodec _ := gets (λ s, (e_world s).1.2);
  mySqlite3PagerSetCodec _ p :=
    modify (λ s, Ext (e_mem s) (set_pager_codec p (e_world s)) (e_codecs s) (e_tag s) (e_db s));
  sqlite3PagerPagecount _ := ret 3;
  sqlite3PagerGet _ n := ret (SQLITE_OK, Ptr 60 n);
  sqlite3PagerWrite _ := ret SQLITE_OK;
  sqlite3PagerUnref _ := ret tt;
  PENDING_BYTE := 0x40000000
|}.

Lemma small_laws size busy : size ≠ 0 → SqliteLaws (H:=small_sqlite size busy) sq_world.
Proof.
  intros Hsize. split.
  - intros s. eexists (Some _), _. split; [reflexivity|]. exists blank. split; [done|]. split; [|done].
    apply not_elem_of_dom, is_fresh.
  - intros s. by exists s.
  - intros s. by exists s.
  - intros bt. by exists bt.
  - intros pager p s s' Hw E. simpl in *. unfold gets in *. injection E as <-. unfold sq_world in *. by rewrite Hw.
  - intros bt s. by exists size.
  - intros pager s. by exists 3.
  - by intros bt n s rc s' [= _ <-].
  - by intros bt s rc s' [= _ <-].
  - by intros bt n s rc s' [= _ <-].
  - by intros pager n s r s' [= _ <-].
  - by intros page s rc s' [= _ <-].
  - by intros page s r s' [= _ <-].
  - intros pager p s _. eexists. split; [reflexivity|]. split; [|done]. split; [done|]. by eauto.
Qed.

(** The main database, with its B-tree at 50, and the key at 1: thirty-two bytes. *)
Definition main_db : Db := MkDb main_name (Ptr 50 0).
Definition key_memory : mem := Mem 2 {[1 := Block Heap (replicate 16 8 ++ replicate 16 9)]}.
Definition old_codec : Codec :=
  MkCodec 1 1 (replicate 16 3) 1 (replicate 16 3) (replicate 16 0) 0 0 (Ptr 50 0) NULL.
Definition plain : ext sq_world :=
  Ext key_memory ((one_file [], None), Toy.Crypto ∅ ∅) ∅ None [main_db].
Definition encrypted : ext sq_world :=
  Ext key_memory ((one_file [], Some 1), Toy.Crypto ∅ ∅) {[1 := old_codec]} None [main_db].

Lemma encrypted_is busy :
  encrypted_db (H3:=small_sqlite 4096 busy) encrypted (Some main_name) 0 main_db (Ptr 50 0) 1 old_codec.
Proof. by split_and!. Qed.

Section witnesses.
#[local] Instance sqlite : Sqlite sq_world := small_sqlite 4096 false.
#[local] Instance laws : SqliteLaws sq_world := small_laws 4096 false ltac:(done).

Lemma sqlite3Codec_keeps_keys_witness :
  (∀ r s', sqlite3Codec 65536 None (Ptr 1 0) 3 6 encrypted = Ret (r, s') → same_keys encrypted s') ∧
  (@None Z = None → sqlite3Codec 65536 None (Ptr 1 0) 3 6 encrypted = Ret (Ptr 1 0, encrypted)) ∧
  (∀ p c, None = Some p → e_codecs encrypted !! p = Some c → CodecIsEncrypted c = 0 →
     sqlite3Codec 65536 None (Ptr 1 0) 3 6 encrypted = Ret (Ptr 1 0, encrypted)).
Proof. apply (sqlite3Codec_keeps_keys 65536 None (Ptr 1 0) 3 6 encrypted). Defined.

Lemma sqlite3CodecAttach_installs_key_witness :
  ∃ s' p c, sqlite3CodecAttach 0 (Ptr 1 0) 32 plain = Ret (SQLITE_OK, s') ∧
    e_codecs s' !! p = Some c ∧ mySqlite3PagerGetCodec (Ptr 50 0) s' = Ret (Some p, s') ∧
    m_isEncrypted c = 1 ∧ m_hasReadKey c = 1 ∧ m_hasWriteKey c = 1 ∧
    m_readKey c = replicate 16 8 ∧ m_writeKey c = replicate 16 8 ∧ m_bt c = Ptr 50 0 ∧
    e_db s' = [main_db].
Proof.
  eapply (sqlite3CodecAttach_installs_key 0 (Ptr 1 0) 32 plain main_db (Ptr 50 0) (replicate 16 8));
    [reflexivity|done..].
Defined.

(** The key of the application's commands, in the seven bytes of its string. *)
Definition ta_key : bytes := [49; 50; 51; 52; 53; 54; 0].
Definition ta_plain : ext sq_world :=
  Ext (Mem 2 {[1 := Block Stack ta_key]}) ((one_file [], None), Toy.Crypto ∅ ∅) ∅ None [main_db].

Lemma short_key_is_undefined_witness : sqlite3_key (Ptr 1 0) 6 ta_plain = Undef.
Proof. apply (short_key_is_undefined (Some main_name) (Ptr 1 0) 6 ta_plain); done. Defined.
End witnesses.

Section busy_witness.
#[local] Instance busy_sqlite : Sqlite sq_world := small_sqlite 4096 true.
#[local] Instance busy_laws : SqliteLaws sq_world := small_laws 4096 true ltac:(done).

Lemma failed_decryption_writes_plaintext_witness :
  ∃ s' c', sqlite3_rekey_v2 (Some main_name) NULL 0 encrypted = Ret (SQLITE_BUSY, s') ∧
    e_codecs s' !! 1 = Some c' ∧ m_isEncrypted c' ≠ 0 ∧
    ∀ data n, sqlite3Codec 65536 (Some 1) data n 6 s' = Ret (data, s').
Proof.
  assert (encrypted_db encrypted (Some main_name) 0 main_db (Ptr 50 0) 1 old_codec) as Hdb by apply encrypted_is.
  pose proof (failed_decryption_writes_plaintext 65536 (Some main_name) NULL 0 encrypted 0 main_db (Ptr 50 0) 1
    old_codec Hdb (or_introl eq_refl)) as Hend.
  assert (rewrite_database (pBt main_db) (Ptr 50 0) (with_codec encrypted 1 (CodecSetHasWriteKey old_codec 0)) =
    Ret (SQLITE_BUSY, with_codec encrypted 1 (CodecSetHasWriteKey old_codec 0))) as E by reflexivity.
  rewrite E in Hend. by apply Hend.
Defined.
End busy_witness.
