(* ===== verification/TaKey.v ===== *)
(** * The key of the command

ta/tee_sqlite.c calls [sqlite3_key] of ta/codecext.c with a literal.  Here the entry
points of [TaEntry] run on the state of [CodecExt], with the function of [CodecExt]
in place of their variable. *)
From S2P Require Import Prelude Calls TaEntry CMem Heap TaLog UteeVfs MemFile Gp Pair HashMap Codec CodecExt ExtExamples.
#[local] Open Scope Z_scope.
#[local] Open Scope c_scope.

Section key.
Context {W : Type} `{UteeVfs W, TeeCrypto W, TeeMalloc, TaLog, SqliteLaws W, Sys sqlcall (ext W)}.
(** The databases of a connection, in SQLite. *)
Variable databases : Z → list Db.
Implicit Types (s : ext W).

(** [sqlite3_key(db, key, nKey)], [key] an object with the bytes [key], which like a
    local variable is not on the heap.  [dbFindIndex] reads [db->nDb] first. *)
Definition sqlite3_key_literal (db : Z) (key : bytes) (nKey : Z) : C (ext W) Z :=
  if decide (db = TaEntry.NULL) then undef
  else
    do! modify (λ s, Ext (e_mem s) (e_world s) (e_codecs s) (e_tag s) (databases db)) in
    let! zKey := in_memory (alloc Stack key) in
    sqlite3_key zKey nKey.

Lemma literal_short db key nKey s :
  (length key < 16)%nat → 0 < nKey → sqlite3_key_literal db key nKey s = Undef.
Proof.
  intros Hl Hn. unfold sqlite3_key_literal. case_decide; [done|]. erewrite bind_run by reflexivity.
  erewrite bind_run by reflexivity. unfold sqlite3_key, sqlite3_key_v2.
  erewrite (bind_run (dbFindIndex _)) by reflexivity. apply attach_short_key; [done|done|].
  destruct (peek _ _ 16) as [bs|] eqn:E; [|done]. exfalso.
  apply peek_Some in E as (b & o & k & d & [= <- <-] & Hb & _ & _ & Hle & _).
  simpl in Hb. rewrite lookup_insert_eq in Hb. injection Hb as <- <-. lia.
Qed.

(** C9: the command is undefined behaviour.  [exec] passes [sqlite3_key] the seven
    bytes of a literal, and sixteen are read from them; or, when [sqlite3_open] had no
    memory and gave NULL, [sqlite3_key] dereferences it: the code of the opening is
    tested only afterwards.  So the one command of the application has undefined
    behaviour whatever its parameters and whatever SQLite answers. *)
Theorem exec_is_undefined param_types params s :
  exec sqlite3_key_literal param_types params s = Undef ∧
  TA_InvokeCommandEntryPoint sqlite3_key_literal TA_TEE_SQLITE_EXEC param_types params s = Undef.
Proof.
  assert (exec sqlite3_key_literal param_types params s = Undef) as E; [|by split].
  unfold exec. unfold bind at 1, sys, run. destruct (sys_run SqTime s) as [t s1].
  unfold bind at 1. destruct (sys_run (SqOpen _) s1) as [[rc db] s2].
  apply bind_undef, literal_short; simpl; lia.
Qed.
End key.

(** ** A run

SQLite opens the database as connection 7. *)
#[local] Existing Instances Small.always Toy.toy_crypto Toy.toy_laws log_level_4.
#[local] Instance key_sqlite : Sqlite sq_world := small_sqlite 4096 false.
#[local] Instance key_laws : SqliteLaws sq_world := small_laws 4096 false ltac:(done).

#[local] Instance answering : Sys sqlcall (ext sq_world) :=
  λ A c s, (match c in sqlcall A return A with
            | SqOpen _ => (TaEntry.SQLITE_OK, 7)
            | SqExec _ _ _ _ => (TaEntry.SQLITE_OK, TaEntry.NULL)
            | SqErrmsg _ => tt
            | SqFree _ => tt
            | SqClose _ => TaEntry.SQLITE_OK
            | SqTime => 100
            end, s).

Lemma exec_is_undefined_witness :
  exec (sqlite3_key_literal (λ _, [main_db])) TEE_EXEC_TYPES (Params (42, 0) (0, 0) (0, 0) (0, 0)) plain = Undef ∧
  TA_InvokeCommandEntryPoint (sqlite3_key_literal (λ _, [main_db])) TA_TEE_SQLITE_EXEC TEE_EXEC_TYPES
    (Params (42, 0) (0, 0) (0, 0) (0, 0)) plain = Undef.
Proof.
  apply (exec_is_undefined (λ _, [main_db]) TEE_EXEC_TYPES (Params (42, 0) (0, 0) (0, 0) (0, 0)) plain).
Defined.
