(* ===== verification/CodecPager.v ===== *)
(** * Pages between the pager and the file

[sqlite3Codec] is all the pager knows of the codec: it hands over a page before
it goes to the database or the journal and after it came back.  The functions of
[CodecExt] are composed here with what [CodecPage] shows of [CodecEncrypt] and
[CodecDecrypt]. *)
From S2P Require Import Prelude CMem Heap TaLog UteeVfs MemFile Gp Pair HashMap Codec Frame CodecPage CodecExamples CodecExt ExtExamples.
#[local] Open Scope Z_scope.
#[local] Open Scope c_scope.

Section pager.
Context {W : Type} `{UteeVfs W, GpLaws W, TeeMalloc, TaLog, Sqlite W}.
Context (SQLITE_MAX_PAGE_SIZE : Z).
Hypothesis memory : ∀ m n, tee_oom m n = false.
Implicit Types (s : ext W) (c : Codec) (d : bytes).

(** The pager hands the page [d], number [n] of the database, to the codec [c]. *)
Record handed s (p : Z) c (n : Z) d (h : hashmap) (M : gmap Z ptr) : Prop := {
  handed_codec : e_codecs s !! p = Some c;
  handed_encrypted : CodecIsEncrypted c ≠ 0;
  handed_ok : codec_ok c (e_world s);
  handed_wf : mem_wf (e_mem s);
  handed_size : sqlite3BtreeGetPageSize (CodecGetBtree c) s = Ret (Z.of_nat (length d), s);
  handed_page : page_ok SQLITE_MAX_PAGE_SIZE n d;
  handed_tag : e_tag s = Some h;
  handed_map : hm_repr h (e_mem s) M;
  handed_number : 0 < n < h_size h ∧ n < 2 ^ 31
}.

Arguments handed_codec {s p c n d h M}. Arguments handed_encrypted {s p c n d h M}.
Arguments handed_wf {s p c n d h M}. Arguments handed_size {s p c n d h M}. Arguments handed_page {s p c n d h M}.
Arguments handed_tag {s p c n d h M}. Arguments handed_number {s p c n d h M}.

Lemma in_app_run {A} (m : C (mem * W) A) s a m' w' :
  m (e_mem s, e_world s) = Ret (a, (m', w')) →
  in_app m s = Ret (a, Ext m' w' (e_codecs s) (e_tag s) (e_db s)).
Proof. intros E. unfold in_app, zoom. by rewrite E. Qed.

(** Up to the [switch]. *)
Lemma sqlite3Codec_start s p c n d h M data mode :
  handed s p c n d h M →
  sqlite3Codec SQLITE_MAX_PAGE_SIZE (Some p) data n mode s =
  (if decide (mode = 0 ∨ mode = 2 ∨ mode = 3) then
     if decide (CodecHasReadKey c ≠ 0) then
       do! decrypt_page SQLITE_MAX_PAGE_SIZE (Some p) data n (Z.of_nat (length d)) in ret data
     else ret data
   else if decide (mode = 6) then
     if decide (CodecHasWriteKey c ≠ 0) then encrypt_page (Some p) data n (Z.of_nat (length d)) 1 else ret data
   else if decide (mode = 7) then
     if decide (CodecHasReadKey c ≠ 0) then encrypt_page (Some p) data n (Z.of_nat (length d)) 0 else ret data
   else ret data) s.
Proof.
  intros Hh. unfold sqlite3Codec. rewrite decide_False by done.
  rewrite (bind_run _ _ _ _ _ (codec_at_run _ _ _ (handed_codec Hh))).
  rewrite decide_False by apply (handed_encrypted Hh).
  by rewrite (bind_run _ _ _ _ _ (handed_size Hh)).
Qed.

Lemma handed_s32 {s p c n d h M} : handed s p c n d h M → s32 n = n.
Proof. intros Hh. pose proof (handed_number Hh). apply signed_id; unfold in_signed; lia. Qed.

Lemma decrypt_page_run s p c n d h M b o bt ot :
  handed s p c n d h M →
  peek (e_mem s) (Ptr b o) (Z.of_nat (length d)) = Some (sealed_page n (m_readKey c) d) →
  M !! n = Some (Ptr bt ot) → peek (e_mem s) (Ptr bt ot) 16 = Some (sealed_tag n (m_readKey c) d) →
  prints (sealed_tag n (m_readKey c) d) → bt ≠ b → apart h b →
  ∃ s', decrypt_page SQLITE_MAX_PAGE_SIZE (Some p) (Ptr b o) n (Z.of_nat (length d)) s = Ret (tt, s') ∧
    peek (e_mem s') (Ptr b o) (Z.of_nat (length d)) = Some d.
Proof.
  intros Hh Hp HM Ht Hpr Hne Hap. destruct (handed_number Hh) as [Hn Hn31].
  destruct (CodecDecrypt_run SQLITE_MAX_PAGE_SIZE memory c n (e_mem s) (e_world s) b o d h M bt ot)
    as (h1 & h2 & m' & w' & E & _ & _ & Hp'); try done; try apply Hh.
  unfold decrypt_page. rewrite (bind_run _ _ _ _ _ (codec_at_run _ _ _ (handed_codec Hh))).
  erewrite bind_run by reflexivity. rewrite (handed_tag Hh), (handed_s32 Hh).
  exists (with_codec (Ext m' w' (e_codecs s) (e_tag s) (e_db s)) p (set_handles c h1 h2)).
  split; [|exact Hp']. by rewrite (bind_run _ _ _ _ _ (in_app_run _ s _ _ _ E)).
Qed.

(** The copy the pager is given: in the codec's own page, and its map of tags can
    take the tag. *)
Record can_seal s c n d (h : hashmap) (M : gmap Z ptr) (b : Z) (bp op : Z) : Prop := {
  seal_buffer : m_page c = Ptr bp op;
  seal_room : ∃ old, peek (e_mem s) (CodecGetPageBuffer c) (Z.of_nat (length d)) = Some old;
  seal_apart : apart h bp ∧ bp ≠ b;
  seal_map_room : room h;
  seal_old_tag : old_tag_ok (e_mem s) M n bp ∧ M !! n ≠ Some (Ptr b 0);
  seal_values : ∀ bv, M !! n = Some (Ptr bv 0) → apart h bv;
  (** with the keys that the modes use *)
  seal_prints : ∀ u, tags_print n (aes_key c u) d
}.

Lemma encrypt_page_run s p c n d h M b o bp op u :
  handed s p c n d h M → can_seal s c n d h M b bp op →
  peek (e_mem s) (Ptr b o) (Z.of_nat (length d)) = Some d →
  ∃ s', encrypt_page (Some p) (Ptr b o) n (Z.of_nat (length d)) u s = Ret (CodecGetPageBuffer c, s') ∧
    peek (e_mem s') (CodecGetPageBuffer c) (Z.of_nat (length d)) = Some (sealed_page n (aes_key c u) d) ∧
    peek (e_mem s') (Ptr b o) (Z.of_nat (length d)) = Some d.
Proof.
  intros Hh [Hb [old Hr] [Hap Hne] Hroom [Hold Hnb] Hva Hpr] Hd. unfold CodecGetPageBuffer in *. rewrite Hb in *. simpl padd in *.
  destruct (handed_number Hh) as [Hn Hn31]. destruct (handed_page Hh) as [Hl Hfirst].
  pose proof (handed_wf Hh) as Hwf. pose proof (peek_length _ _ _ _ Hr) as Hlo.
  destruct (page_poke (e_mem s) bp (op + 4) (Z.of_nat (length d)) old 0 d Hwf Hr) as (m1 & P1 & Hf1 & _ & Hp1); [lia..|].
  rewrite Z.add_0_r in P1. assert (splice old (Z.to_nat 0) d = d) as Hs.
  { unfold splice. rewrite take_0, drop_ge by lia. apply app_nil_r. }
  rewrite Hs in Hp1. clear Hs.
  destruct (CodecEncrypt_run memory c n u m1 (e_world s) bp (op + 4) d h M) as (h1 & h2 & h' & m2 & w2 & E & _ & Hp2 & Hf2 & _);
    try done; [apply Hf1|apply Hh|intros Hpage; by apply Hfirst| | |].
  { eapply repr_frame; [apply Hh|exact Hwf|exact Hf1|by intros x _ ->]. }
  { intros v Hv. destruct (Hold v Hv) as (bv & dv & -> & Hbv & Hdv). exists bv, dv. split_and!; try done.
    by eapply frame_block. }
  unfold encrypt_page. rewrite (bind_run _ _ _ _ _ (codec_at_run _ _ _ (handed_codec Hh))).
  unfold CodecGetPageBuffer. rewrite Hb. simpl padd.
  assert (u64 (Z.of_nat (length d)) = Z.of_nat (length d)) as Hu by (apply unsigned_id; unfold in_unsigned; lia).
  rewrite Hu. unfold in_memory.
  rewrite (bind_run _ _ _ _ _ (in_app_run _ s _ _ _ (memcpy_run (e_mem s) (e_world s) _ _ _ _ _ Hd P1))).
  erewrite bind_run by reflexivity. rewrite (handed_s32 Hh). simpl e_tag. rewrite (handed_tag Hh).
  exists (Ext m2 w2 (<[p := set_handles c h1 h2]> (e_codecs s)) (Some h') (e_db s)). split; [|split; [exact Hp2|]].
  - erewrite bind_run by (by apply in_app_run). reflexivity.
  - eapply frame_peek; [exact Hf2|apply Hf1|eapply frame_peek; [exact Hf1|exact Hwf|exact Hd|done]|].
    intros [?|?]; [by subst|done].
Qed.
End pager.

(** * Properties *)
Section properties.
Context {W : Type} `{UteeVfs W, GpLaws W, TeeMalloc, TaLog, Sqlite W}.
Context (SQLITE_MAX_PAGE_SIZE : Z).
Hypothesis memory : ∀ m n, tee_oom m n = false.
Implicit Types (s : ext W) (c : Codec) (d : bytes).

(** C1: what the pager writes is sealed, and what it loads is the page, as long as
    the map of tags is in order.  That is ([handed], [can_seal]): the page is a
    page of SQLite, of a number below the size of the map's array (769 as it is
    made); the keys of the map's entries and the old tag of the page, when there
    is one, are in memory, as they are until page 1, a page that is new to the map
    or this page has been sealed, and the map has room for two more entries; the
    tags can be logged, that is contain a NUL, or logging is off; and, all
    through, no allocation fails and no operation of the cryptographic library
    but a verification.  Then, for the database (mode 6), the callback of the
    pager answers with a copy of the page, in the codec's own buffer, sealed with
    the write key; for the journal (mode 7) with one sealed with the read key, so
    that a rollback finds what was there before a change of the key.  The pager's
    own page stays in the clear.  And whenever a codec that has the same key as its
    read key is handed those bytes, in another run as well, with the tag in a map
    that is in order, the callback turns them back into the page, in place, in
    every mode that loads. *)
Theorem pager_gets_its_page_back p c n d s h M b o bp op mode :
  handed SQLITE_MAX_PAGE_SIZE s p c n d h M → can_seal s c n d h M b bp op →
  peek (e_mem s) (Ptr b o) (Z.of_nat (length d)) = Some d →
  mode = 6 ∧ CodecHasWriteKey c ≠ 0 ∨ mode = 7 ∧ CodecHasReadKey c ≠ 0 →
  let key := if decide (mode = 6) then m_writeKey c else m_readKey c in
  ∃ s' sealed,
    sqlite3Codec SQLITE_MAX_PAGE_SIZE (Some p) (Ptr b o) n mode s = Ret (CodecGetPageBuffer c, s') ∧
    peek (e_mem s') (CodecGetPageBuffer c) (Z.of_nat (length d)) = Some sealed ∧ sealed = sealed_page n key d ∧
    peek (e_mem s') (Ptr b o) (Z.of_nat (length d)) = Some d ∧
    ∀ p2 c2 s2 h2 M2 b2 o2 bt ot mode2,
      handed SQLITE_MAX_PAGE_SIZE s2 p2 c2 n d h2 M2 → CodecHasReadKey c2 ≠ 0 → m_readKey c2 = key →
      mode2 = 0 ∨ mode2 = 2 ∨ mode2 = 3 → peek (e_mem s2) (Ptr b2 o2) (Z.of_nat (length d)) = Some sealed →
      M2 !! n = Some (Ptr bt ot) → peek (e_mem s2) (Ptr bt ot) 16 = Some (sealed_tag n key d) → bt ≠ b2 → apart h2 b2 →
      ∃ s3, sqlite3Codec SQLITE_MAX_PAGE_SIZE (Some p2) (Ptr b2 o2) n mode2 s2 = Ret (Ptr b2 o2, s3) ∧
        peek (e_mem s3) (Ptr b2 o2) (Z.of_nat (length d)) = Some d.
Proof.
  intros Hh Hs Hd Hmode key.
  destruct (encrypt_page_run SQLITE_MAX_PAGE_SIZE memory s p c n d h M b o bp op (if decide (mode = 6) then 1 else 0) Hh Hs Hd)
    as (s' & E & Hp & Hd'). exists s', (sealed_page n key d).
  assert (aes_key c (if decide (mode = 6) then 1 else 0) = key) as Hk by (unfold key; by case_decide).
  rewrite Hk in Hp. split_and!; try done.
  - rewrite (sqlite3Codec_start _ _ _ _ _ _ _ _ _ _ Hh). destruct Hmode as [[-> Hm]|[-> Hm]];
      rewrite decide_False by lia; [rewrite decide_True by done|rewrite decide_False, decide_True by done]; by rewrite decide_True.
  - intros p2 c2 s2 h2 M2 b2 o2 bt ot mode2 Hh2 Hr Hkey Hm Hp2 HM2 Ht Hne Hap. rewrite <- Hkey in Hp2, Ht.
    destruct (decrypt_page_run SQLITE_MAX_PAGE_SIZE memory s2 p2 c2 n d h2 M2 b2 o2 bt ot) as (s3 & E3 & Hp3); try done.
    { rewrite Hkey, <- Hk. eapply seal_prints, Hs. }
    exists s3. split; [|done]. rewrite (sqlite3Codec_start _ _ _ _ _ _ _ _ _ _ Hh2), !decide_True by done.
    by rewrite (bind_run _ _ _ _ _ E3).
Qed.
End properties.

(** * The properties at work

A database of pages of 16 bytes; the codec's buffer is block 9. *)
#[local] Existing Instances Small.always Toy.toy_crypto Toy.toy_laws log_level_4.
#[local] Instance sqlite16 : Sqlite sq_world := small_sqlite 16 false.

Definition ex_codec : Codec :=
  MkCodec 1 1 (replicate 16 3) 1 (replicate 16 4) (replicate 16 0) TEE_HANDLE_NULL TEE_HANDLE_NULL (Ptr 50 0) (Ptr 9 0).
Definition ex_heap : mem := Mem 10 (<[9 := Block Heap (replicate 24 0)]> (m_blocks heap)).
Definition ex_ext : ext sq_world :=
  Ext ex_heap ((one_file [], Some 1), no_crypto) {[1 := ex_codec]} (Some Small.map) [main_db].

Lemma ex_heap_frame : frame (λ _, False) heap ex_heap.
Proof.
  split; [split; [done|]; intros b Hb; simpl in Hb; simpl; rewrite lookup_insert_ne by lia; apply heap_wf; simpl; lia|].
  split; [done|]. intros b Hb _. simpl in *. by rewrite lookup_insert_ne by lia.
Qed.

Lemma ex_handed : handed 65536 ex_ext 1 ex_codec 3 (replicate 16 9) Small.map Small.entries.
Proof.
  split; try done; [by split_and!; try left|apply ex_heap_frame|].
  eapply repr_frame; [apply heap_repr|apply heap_wf|apply ex_heap_frame|by intros x _ []].
Qed.

Lemma ex_can_seal : can_seal ex_ext ex_codec 3 (replicate 16 9) Small.map Small.entries 7 9 0.
Proof.
  split; [done|by eexists|by split; [apply map_apart|]|apply map_room| | |].
  - split; [|done]. intros v Hv. apply entry_values in Hv as ->. by exists 3, (replicate 16 5).
  - intros bv Hv. apply entry_values in Hv as [= ->]. by apply map_apart.
  - intros u. split; [|done]. unfold aes_key. case_decide; printable.
Qed.

Lemma pager_gets_its_page_back_witness :
  ∃ s' sealed,
    sqlite3Codec 65536 (Some 1) (Ptr 7 0) 3 6 ex_ext = Ret (Ptr 9 4, s') ∧
    peek (e_mem s') (Ptr 9 4) 16 = Some sealed ∧ sealed = sealed_page (W:=sq_world) 3 (replicate 16 4) (replicate 16 9) ∧
    peek (e_mem s') (Ptr 7 0) 16 = Some (replicate 16 9) ∧
    ∀ p2 c2 (s2 : ext sq_world) h2 M2 b2 o2 bt ot mode2,
      handed 65536 s2 p2 c2 3 (replicate 16 9) h2 M2 → CodecHasReadKey c2 ≠ 0 → m_readKey c2 = replicate 16 4 →
      mode2 = 0 ∨ mode2 = 2 ∨ mode2 = 3 → peek (e_mem s2) (Ptr b2 o2) 16 = Some sealed →
      M2 !! 3 = Some (Ptr bt ot) →
      peek (e_mem s2) (Ptr bt ot) 16 = Some (sealed_tag (W:=sq_world) 3 (replicate 16 4) (replicate 16 9)) →
      bt ≠ b2 → apart h2 b2 →
      ∃ s3, sqlite3Codec 65536 (Some p2) (Ptr b2 o2) 3 mode2 s2 = Ret (Ptr b2 o2, s3) ∧
        peek (e_mem s3) (Ptr b2 o2) 16 = Some (replicate 16 9).
Proof.
  apply (pager_gets_its_page_back 65536 (λ _ _, eq_refl) 1 ex_codec 3 (replicate 16 9) ex_ext Small.map Small.entries 7 0 9 0 6);
    [apply ex_handed|apply ex_can_seal|done|by left].
Defined.

(** ** A change of the key that calls the codec back

The pages are written when the transaction is committed: the pager hands page 3
to the codec, for the database. *)
Definition calling_sqlite (codec : Z) : Sqlite sq_world := {|
  sqlite3_malloc_codec := sqlite3_malloc_codec;
  sqlite3_free_codec := sqlite3_free_codec;
  sqlite3_mutex_enter := sqlite3_mutex_enter;
  sqlite3_mutex_leave := sqlite3_mutex_leave;
  sqlite3BtreePager := sqlite3BtreePager;
  sqlite3BtreeGetPageSize := sqlite3BtreeGetPageSize;
  sqlite3BtreeBeginTrans := sqlite3BtreeBeginTrans;
  sqlite3BtreeCommit _ := let! _ := sqlite3Codec 65536 (Some codec) (Ptr 7 0) 3 6 in ret SQLITE_OK;
  sqlite3BtreeRollback := sqlite3BtreeRollback;
  mySqlite3PagerGetCodec := mySqlite3PagerGetCodec;
  mySqlite3PagerSetCodec := mySqlite3PagerSetCodec;
  sqlite3PagerPagecount := sqlite3PagerPagecount;
  sqlite3PagerGet := sqlite3PagerGet;
  sqlite3PagerWrite := sqlite3PagerWrite;
  sqlite3PagerUnref := sqlite3PagerUnref;
  PENDING_BYTE := PENDING_BYTE
|}.

Lemma small16_laws : SqliteLaws (H:=sqlite16) sq_world.
Proof. by apply small_laws. Qed.

Lemma calling_laws codec : SqliteLaws (H:=calling_sqlite codec) sq_world.
Proof.
  pose proof small16_laws as L. destruct L. split; try assumption.
  intros bt s rc s' E. apply bind_inv in E as (r & s1 & E & [= _ <-]).
  by apply (sqlite3Codec_keeps_keys (H4:=small16_laws) 65536 (Some codec) (Ptr 7 0) 3 6 s) in E.
Qed.

(** The new key, at 10: thirty-two bytes. *)
Definition rekey_ext : ext sq_world :=
  Ext (Mem 11 (<[10 := Block Heap (replicate 32 8)]> (m_blocks ex_heap))) ((one_file [], Some 1), no_crypto)
    {[1 := ex_codec]} (Some Small.map) [main_db].

Lemma rekey_ext_encrypted :
  encrypted_db (H3:=calling_sqlite 1) rekey_ext (Some main_name) 0 main_db (Ptr 50 0) 1 ex_codec.
Proof. by split_and!. Qed.

Definition rewritten : outcome (Z * ext sq_world) :=
  rewrite_database (H3:=calling_sqlite 1) (pBt main_db) (Ptr 50 0)
    (with_codec rekey_ext 1 (with_write_key ex_codec (replicate 16 8))).

Lemma rewritten_ok : ∃ s2, rewritten = Ret (SQLITE_OK, s2).
Proof.
  assert (match rewritten with Ret (rc, _) => rc = SQLITE_OK | Undef => False end) as Hok by (vm_compute; reflexivity).
  destruct rewritten as [[rc s2]|]; [|done]. exists s2. by rewrite Hok.
Qed.

Lemma sqlite3_rekey_changes_key_witness :
  ∃ s' c', sqlite3_rekey_v2 (H3:=calling_sqlite 1) (Some main_name) (Ptr 10 0) 32 rekey_ext = Ret (SQLITE_OK, s') ∧
    e_codecs s' !! 1 = Some c' ∧
    m_isEncrypted c' = 1 ∧ m_hasReadKey c' ≠ 0 ∧ m_hasWriteKey c' = 1 ∧
    m_writeKey c' = replicate 16 8 ∧ m_readKey c' = m_writeKey c'.
Proof.
  pose proof (sqlite3_rekey_changes_key (H4:=calling_laws 1) (Some main_name) (Ptr 10 0) 32 rekey_ext 0 main_db
    (Ptr 50 0) 1 ex_codec (replicate 16 8) rekey_ext_encrypted ltac:(done) ltac:(done) ltac:(reflexivity)) as Hend.
  fold rewritten in Hend. destruct rewritten_ok as [s2 E]. rewrite E in Hend.
  destruct Hend as (s' & c' & ? & ? & ? & ? & ? & Hw & ?). exists s', c'. split_and!; assumption.
Defined.
